(* ===== verification/_CoqProject ===== *)
-Q . S2P
Prelude.v
Word.v
Types.v
Machine.v
Ram.v
Convert.v
Mmio.v
RegFile.v
RxBuffer.v
IrqSafeMutex.v
Device.v
DtbLookup.v
Frame.v
Dtb.v
DtbInit.v
DtbTokens.v
DtbTree.v
Demo.v
Gicv3.v
ArchTimer.v
Pl011.v
Pgtable.v
Fmt.v
Console.v
Identity.v
Layout.v
Irq.v
Vectors.v
LockInterleaving.v
LockRefine.v
LockData.v
WeakLock.v
Kernel.v
Ends.v
Head.v
Invariant.v
Session.v
Preempt.v
Terminates.v
Reached.v
Startup.v
BringUp.v
Boot.v
