(* ===== verification/Prelude.v ===== *)
(** * A verification development for the aarch64_kernel crate

    ** The program

    A bare-metal AArch64 kernel for QEMU's virt board.  [_start]
    (src/asm/head.S) calls [kmain] (src/lib.rs), which parses the flattened
    device tree (src/kernel/dtb.rs), calls the setup function of the driver
    that matches each node (table in src/kernel/device.rs; drivers
    src/drivers/gic/gicv3.rs, uart/pl011.rs, timer/arch_timer.rs), sets up
    memory attributes and an identity map and turns the MMU on
    (src/kernel/mm/), arms the timer and echoes what is typed.  Exceptions
    enter through src/asm/vectors.S, which saves the registers and calls the
    handlers of src/kernel/irq.rs; the receive interrupt puts bytes into the
    circular buffer of pl011.rs, behind the spin lock of
    src/ipc/irq_safe_mutex.rs, from which the main loop takes them.

    ** The model

    [Machine] defines the monad in which all Rust functions are written: a
    computation takes a [world] (the hardware's state, RAM as a partial byte
    map, the trace of device and system-register accesses, and the statics of
    the crate) and is [Done], [Panicked] (panics, bounds checks, and the
    overflow checks of the dev profile, which is the one the Makefile builds),
    [Faulted] (an access to unmapped, null or misaligned memory) or [Spinning].
    The hardware is the class [Hardware]: arbitrary transition functions for
    bus and register accesses.  The theorems hold for every instance.  Most speak
    of the accesses made and the values on the bus; those that need an answer of
    the hardware name it ([busy_for] in [Mmio], [tx_drains] in [Pl011]: a status
    bit that clears; [HeldBits] and [PlainSys] in [RegFile]: one register that
    holds what is written).  [regfile], [quiet], [typing] and [stuck] are instances
    to compute with.  Integers are Z with the width of the source's
    type: checked operations ([uadd], [umul], [ushl], ..) panic where the
    source would, [wrap] is a cast, [shl] a shift that loses its high bits.

    Loops over a finite range are [for_each] and [for_find].  Loops that the
    source bounds by data only take fuel: the token loop of the parser (one
    unit per token), string scans (one per byte), the walk to the interrupt
    parent (one per ancestor; [MAX_DEVICES] is always enough because a parent
    has the smaller index, see [find_interrupt_parent_is_nearest]), busy waits
    (one per poll).  Theorems that need fuel say how much: for a blob, more
    than its tokens and longest name ([blob_at]); for a busy wait, more than
    the polls the hardware answers "busy".  On any memory at all, fuel for one
    token and one character per mapped byte, and for the depth of the device table,
    is enough for everything but the waits for a device ([kernel_cannot_hang]).
    A lock that is held, and the main loop, spin for every fuel.

    ** The files

    - [Prelude], [Word], [Types], [Machine], [Ram]: tactics, machine words,
      the structs, the monad, byte strings in memory.
    - [Convert], [Mmio], [RegFile]: src/utilities/convert.rs and mmio.rs, and
      the arrays of bit fields packed into registers.
    - [RxBuffer]: [UartBuffer] as a refinement of a bounded FIFO.
    - [IrqSafeMutex], [LockInterleaving], [LockRefine], [LockData], [WeakLock]:
      the mutex as one CPU runs it, for any static that satisfies [PlaceLaws];
      as a step relation over cores, tasks and interrupt handlers; the code's
      operations as steps of that relation; the accesses that [push] and [pop]
      make inside, interleaved one by one; and the same on a memory that keeps
      old values and in which only the orderings of the mutex pass views on.
    - [Device], [DtbLookup]: device.rs and the queries of dtb.rs with what
      they compute on well-formed tables.
    - [Dtb], [DtbTokens], [DtbTree]: [parse_dtb] as written; its refinement of a
      machine on abstract tokens; what it makes of the blob of a tree.
    - [Frame], [DtbInit]: computations that keep memory and tables ([Keeps]); the
      class [Drivers] through which [init_devices] sees its driver table, and
      the list of calls it makes.
    - [Demo]: the virt board's tree, its blob and tables, for the witnesses.
    - [Gicv3], [ArchTimer], [Pl011]: the drivers, each operation with the world it
      leaves, and the setup functions on their device-tree nodes.
    - [Pgtable], [Identity]: bits.rs, pgtable.rs, mair.rs, identity.rs, and the
      translation walk of the MMU.
    - [Layout], [Head]: linker.lds as a function from the sizes of the sections
      to the symbols; head.S as a program of a small machine that ends in the
      call of [kmain].
    - [Fmt], [Console]: the texts of numbers and characters that the messages
      contain; what printing does, as a judgement on computations.
    - [Irq], [Vectors]: the handlers with the text they print; the entry and
      exit sequences as programs of a load/store machine, and the frame they
      build compared with [Irq.Regs].
    - [Kernel], [Session]: the driver table (an instance of [Drivers]), [kmain]
      and the panic handler; sessions of interrupts and main-loop iterations.
    - [Preempt]: the main loop cut into its single actions, with interrupts
      before any of them.
    - [Ends], [Terminates]: computations that do not spin except to wait for a
      device ([Ends], a class resolved along their structure), with what bounds
      each loop; the whole kernel.
    - [Invariant], [Reached]: what holds of the statics and of the accesses at
      every moment, and a judgement on computations that keep it; the judgement
      for the whole kernel, in every outcome.
    - [Startup], [BringUp], [Boot]: the way from the first instruction to the
      main loop on any board that a tree describes; its part after the driver
      setups cut into single accesses with interrupts between them; a boot of
      the virt board.

    ** What the theorems show

    - Start: from the first instruction of a linked image, on any tree that
      describes a GIC, a UART and then a timer, among other nodes, the
      kernel reaches its main loop after exactly the accesses of the setups
      ([start_reaches_main_loop]); once the drivers are set up, so it does with
      interrupts between any two accesses, and the page tables are complete
      before the MMU is on ([preempted_bring_up]); the entry code unmasks
      interrupts only when vectors and stack are in place
      ([start_enters_kmain]).  In every state that is reached from a boot, on
      whatever blob and hardware and however the entries ended, tables and ring are
      well formed, no misaligned access was made and the system registers were
      written with the values meant for them only ([reached_invariant]); and only a
      device that keeps answering "busy" can make the kernel hang
      ([kernel_cannot_hang]).
    - Device tree: on the bytes of any token sequence the parser does what the
      token machine does, panics included; the blob of a tree becomes its nodes
      in preorder with parents, properties and phandles, if it fits the static
      tables, and is refused by a panic if not ([tree_parsed_iff_fits]); the
      table invariant holds whatever the blob contains; [init_devices] makes
      exactly the calls that tables and driver table determine, interrupt
      controllers first; lookups return what the tables say.  A node with
      children is left with the property count of its last child
      ([root_gets_last_child_count]).
    - Receiving: buffer and interrupt handler together lose, duplicate and
      reorder nothing but the bytes that find the buffer full, and every byte
      taken out is echoed; every interrupt is acknowledged once with its id
      ([session_serves_interrupts]).  With interrupts between any two accesses
      of the main loop the same holds of the queue, and each byte is echoed in
      full, but the line may be torn ([preempted_loop_serves]); and a byte
      printed may be lost, because [putchar] polls and writes in two steps
      ([putchar_race]).  The lock excludes mutually;
      [lock_irqsafe] cannot deadlock, plain [lock] can; calls of [push] and [pop]
      from several cores are linearizable, on a sequentially consistent memory
      ([rx_buffer_linearizable]) and on a weakly ordered one
      ([release_acquire_suffices]; with other orderings than the code's the model
      of it can go wrong, [orderings_needed]).
    - Drivers: the exact accesses of the setups on their nodes; an update of one
      interrupt's setting writes the register of that interrupt, with every other
      entry as read; divisor and tick arithmetic with overflow; termination of the
      wake-up wait.  [set_spi_routing] addresses the register of another interrupt,
      [configure] never enables the transmitter.
    - Memory: every address below the mapped gigabytes translates to itself
      with the attributes intended, and the tables are complete before the MMU
      is on.  The linked image and the devices are covered whatever the sizes
      of the sections ([linked_image_is_mapped]), but the level-1 table has no
      page of its own: it lies in the stack ([level1_table_in_stack]).
    - Exceptions: an interrupt restores the general registers, the stack pointer
      and the return state of what it interrupts ([irq_vector_restores]), on CPUs
      that perform the architecturally unpredictable [ldp xzr, xzr] as a pop, but not
      the SIMD and floating-point registers, which are enabled and not saved; which
      exception classes are dispatched where; what the handlers print.  The [Regs] struct is not laid out as the frame is pushed,
      and its [elr] is the saved program status.

    ** What is not modelled

    The Makefile, Cargo.toml and the macros of asmdefs.h (the symbols they
    produce come from [Layout]); what head.S does after [kmain], which does not
    return; [Debug] formatting and [core::fmt] beyond the texts it yields;
    caches, and memory orderings outside the mutex ([WeakLock] has the views of
    release and acquire for the data behind it, but no load that sees a later
    store; elsewhere one core runs and sees its own accesses in order); the
    effect of the MMU on later accesses, which is none for an identity map; what
    devices do between accesses, which is the instance of [Hardware]; the growth
    of the stack, so that nothing is said of the level-1 table once the stack
    reaches down to it.  In
    [session_serves_interrupts], [reached_invariant] and [kernel_cannot_hang]
    interrupts arrive between iterations of the main loop and between entries;
    [Preempt] has them before every action of the loop, [BringUp] before every
    action between the driver setups and the loop, and [LockData] and [WeakLock]
    at every access to the buffer, from any number of cores.  Before that
    the entry code has interrupts unmasked, but none is enabled at the devices;
    an interrupt inside the setups themselves, which enable them one by one, is
    not modelled. *)

From Stdlib Require Export ZArith Lia Bool ZifyNat ZifyBool.
From stdpp Require Export prelude.
From coqutil Require Export Z.bitblast.

Local Open Scope Z_scope.

(** ** Scope and notations *)

Declare Scope kernel_scope.
Delimit Scope kernel_scope with kernel.

(** ** Tactics *)

(** Turns boolean comparisons in hypotheses and goal into propositions. *)
Ltac bool_to_prop :=
  repeat match goal with
  | H : (_ && _)%bool = true |- _ => apply andb_prop in H; destruct H
  | H : (_ <? _) = true |- _ => apply Z.ltb_lt in H
  | H : (_ <? _) = false |- _ => apply Z.ltb_ge in H
  | H : (_ <=? _) = true |- _ => apply Z.leb_le in H
  | H : (_ <=? _) = false |- _ => apply Z.leb_gt in H
  | H : (_ =? _) = true |- _ => apply Z.eqb_eq in H
  | H : (_ =? _) = false |- _ => apply Z.eqb_neq in H
  end.

(** Decides the comparisons that guard an [if], one branch each. *)
Ltac case_cmp :=
  match goal with
  | |- context [ ?a <? ?b ] => destruct (Z.ltb_spec a b)
  | |- context [ ?a <=? ?b ] => destruct (Z.leb_spec a b)
  | |- context [ ?a =? ?b ] => destruct (Z.eqb_spec a b)
  end; try lia.

(** ** Bits of integers *)

Create HintDb bits.

Lemma testbit_high w z i : 0 <= z < 2 ^ w -> w <= i -> Z.testbit z i = false.
Proof.
  intros Hz Hi. destruct (Z.leb_spec 0 w).
  - rewrite <- (Z.mod_small z (2 ^ w)) by lia. apply Z.mod_pow2_bits_high. lia.
  - rewrite Z.pow_neg_r in Hz by lia. lia.
Qed.

Lemma fits_of_bits w z :
  0 <= w -> 0 <= z -> (forall i, w <= i -> Z.testbit z i = false) -> z < 2 ^ w.
Proof.
  intros Hw Hz Hb.
  assert (z = z mod 2 ^ w) as ->.
  { apply Z.bits_inj'. intros i Hi. rewrite Z.testbit_mod_pow2 by lia.
    case_cmp; simpl; try done. by apply Hb. }
  apply Z.mod_pos_bound. lia.
Qed.

Lemma lor_fits w a b : 0 <= w -> 0 <= a < 2 ^ w -> 0 <= b < 2 ^ w -> 0 <= Z.lor a b < 2 ^ w.
Proof.
  intros Hw Ha Hb.
  assert (0 <= Z.lor a b) by (apply Z.lor_nonneg; lia).
  split; [done | apply fits_of_bits; [done.. |]].
  intros i Hi. by rewrite Z.lor_spec, (testbit_high w a), (testbit_high w b) by lia.
Qed.

Lemma land_fits_l w a b : 0 <= w -> 0 <= a < 2 ^ w -> 0 <= Z.land a b < 2 ^ w.
Proof.
  intros Hw Ha.
  assert (0 <= Z.land a b) by (apply Z.land_nonneg; lia).
  split; [done | apply fits_of_bits; [done.. |]].
  intros i Hi. by rewrite Z.land_spec, (testbit_high w a) by lia.
Qed.

Lemma land_ones_fits w a : 0 <= w -> 0 <= Z.land a (Z.ones w) < 2 ^ w.
Proof. intros. rewrite Z.land_ones by done. apply Z.mod_pos_bound. lia. Qed.

(** A power of two is the word with that bit only. *)
Lemma testbit_pow2 n i : 0 <= n -> Z.testbit (2 ^ n) i = (i =? n).
Proof.
  intros Hn. destruct (Z.eqb_spec i n) as [-> | Hne].
  - by apply Z.pow2_bits_true.
  - apply Z.pow2_bits_false. lia.
Qed.

Lemma shiftl_1_pow2 n : Z.shiftl 1 n = 2 ^ n.
Proof. rewrite Z.shiftl_1_l. done. Qed.

(** ** Lists *)

Lemma list_app_snoc {A} (l : list A) x y : (l ++ [x]) ++ y = l ++ x :: y.
Proof. by rewrite <- app_assoc. Qed.

Lemma lookup_replicate_lt {A} n (x : A) i : (i < n)%nat -> replicate n x !! i = Some x.
Proof. intros. by apply lookup_replicate_2. Qed.

(** ** Indices of a ring of [n] slots, without the modulo *)

Lemma ring_succ n i : (i < n)%nat -> ((i + 1) mod n = if i + 1 =? n then 0 else i + 1)%nat.
Proof.
  intros Hi. destruct (Nat.eqb_spec (i + 1) n) as [<- |]; [apply Nat.Div0.mod_same |].
  apply Nat.mod_small. lia.
Qed.

Lemma ring_add n i j :
  (i < n)%nat -> (j < n)%nat -> ((i + j) mod n = if i + j <? n then i + j else i + j - n)%nat.
Proof.
  intros Hi Hj. destruct (Nat.ltb_spec (i + j) n); [by apply Nat.mod_small |].
  replace (i + j)%nat with (i + j - n + 1 * n)%nat at 1 by lia.
  rewrite Nat.Div0.mod_add. apply Nat.mod_small. lia.
Qed.

Lemma ring_dist n i j :
  (i < n)%nat -> (j < n)%nat -> ((i + n - j) mod n = if j <=? i then i - j else i + n - j)%nat.
Proof.
  intros Hi Hj. destruct (Nat.leb_spec j i).
  - replace (i + n - j)%nat with (i - j + 1 * n)%nat by lia.
    rewrite Nat.Div0.mod_add. apply Nat.mod_small. lia.
  - apply Nat.mod_small. lia.
Qed.

#[export] Hint Resolve land_fits_l lor_fits land_ones_fits : bits.
