(* ===== verification/Word.v ===== *)
(** * Fixed-width unsigned integers

    Rust's [u8], [u16], [u32], [u64] and [usize] (64 bits on AArch64) as [Z] in
    [0, 2^w).  Operators that cannot overflow ([&], [|], [!], [>>]) are the
    operations of [Z]; the shift that drops bits ([<<]) and the casts ([as])
    reduce modulo [2^w].  Overflow of [+], [-], [*] and of shift amounts is a
    panic of the profile the Makefile builds (the dev profile), so these
    operators are monadic and live in [Machine]. *)

From S2P Require Import Prelude.

Local Open Scope Z_scope.

Definition U8 : Z := 8.
Definition U16 : Z := 16.
Definition U32 : Z := 32.
Definition U64 : Z := 64.
Definition USIZE : Z := 64.

Definition wrap (w z : Z) : Z := z mod 2 ^ w.

Definition fits (w z : Z) : Prop := 0 <= z < 2 ^ w.

Definition fitsb (w z : Z) : bool := (0 <=? z) && (z <? 2 ^ w).

(** Rust's [!x] at width [w]. *)
Definition unot (w z : Z) : Z := Z.ldiff (Z.ones w) z.

(** Rust's [x << n] for an in-range amount. *)
Definition shl (w z n : Z) : Z := wrap w (Z.shiftl z n).

(** The bit field of [width] bits starting at bit [lo]. *)
Definition field (v lo width : Z) : Z := Z.land (Z.shiftr v lo) (Z.ones width).

(** The read-modify-write idiom [(v & !(mask << lo)) | (x << lo)]. *)
Definition set_field (v lo width x : Z) : Z :=
  Z.lor (Z.land v (unot 32 (shl 32 (Z.ones width) lo))) (shl 32 x lo).

Lemma fitsb_spec w z : fitsb w z = true <-> fits w z.
Proof. unfold fitsb, fits. rewrite andb_true_iff, Z.leb_le, Z.ltb_lt. done. Qed.

Lemma fitsb_true w z : fits w z -> fitsb w z = true.
Proof. apply fitsb_spec. Qed.

Lemma fitsb_false w z : ~ fits w z -> fitsb w z = false.
Proof. intros H. apply not_true_is_false. by rewrite fitsb_spec. Qed.

Lemma wrap_fits w z : 0 <= w -> fits w (wrap w z).
Proof. intros. apply Z.mod_pos_bound. lia. Qed.

Lemma wrap_small w z : fits w z -> wrap w z = z.
Proof. apply Z.mod_small. Qed.

Lemma wrap_bits w z i : 0 <= w -> Z.testbit (wrap w z) i = (i <? w) && Z.testbit z i.
Proof. apply Z.testbit_mod_pow2. Qed.

Lemma unot_bits w z i :
  0 <= w -> 0 <= i -> Z.testbit (unot w z) i = (i <? w) && negb (Z.testbit z i).
Proof.
  intros. unfold unot. by rewrite Z.ldiff_spec, Z.testbit_ones_nonneg by lia.
Qed.

Lemma shl_bits w z n i :
  0 <= w -> 0 <= i -> Z.testbit (shl w z n) i = (i <? w) && Z.testbit z (i - n).
Proof. intros. unfold shl. by rewrite wrap_bits, Z.shiftl_spec by lia. Qed.

Lemma field_bits v lo width i :
  0 <= width -> 0 <= i ->
  Z.testbit (field v lo width) i = (i <? width) && Z.testbit v (i + lo).
Proof.
  intros. unfold field.
  rewrite Z.land_spec, Z.shiftr_spec, Z.testbit_ones_nonneg by lia. apply andb_comm.
Qed.

Lemma shl_fits w z n : 0 <= w -> fits w (shl w z n).
Proof. apply wrap_fits. Qed.

Lemma unot_fits w z : 0 <= w -> fits w (unot w z).
Proof.
  intros. unfold unot, fits. rewrite Z.ldiff_land.
  apply land_fits_l; [done |]. rewrite Z.ones_equiv. lia.
Qed.

Lemma fits_lor w a b : 0 <= w -> fits w a -> fits w b -> fits w (Z.lor a b).
Proof. apply lor_fits. Qed.

Lemma fits_land w a b : 0 <= w -> fits w a -> fits w (Z.land a b).
Proof. apply land_fits_l. Qed.

Lemma fits_weaken w w' z : fits w z -> w <= w' -> fits w' z.
Proof.
  unfold fits. intros [? ?] ?. split; [done |].
  eapply Z.lt_le_trans; [done | by apply Z.pow_le_mono_r].
Qed.

Lemma set_field_bits v lo width x i :
  0 <= lo -> 0 <= width -> 0 <= i ->
  Z.testbit (set_field v lo width x) i =
    (i <? 32) && ((Z.testbit v i && negb ((lo <=? i) && (i <? lo + width)))
                  || Z.testbit x (i - lo)).
Proof.
  intros. unfold set_field.
  rewrite Z.lor_spec, Z.land_spec, unot_bits, !shl_bits by lia.
  destruct (Z.ltb_spec i 32); simpl; [| by rewrite andb_false_r].
  f_equal. f_equal.
  destruct (Z.leb_spec lo i).
  - rewrite Z.testbit_ones_nonneg by lia. simpl. f_equal. do 2 case_cmp; done.
  - rewrite Z.testbit_neg_r by lia. done.
Qed.

(** The field written is the one read back. *)
Lemma field_set_field_same v lo width x :
  0 <= lo -> 0 <= width -> lo + width <= 32 -> fits width x ->
  field (set_field v lo width x) lo width = x.
Proof.
  intros Hlo Hw Hb Hx. apply Z.bits_inj'. intros i Hi.
  rewrite field_bits, set_field_bits by lia.
  replace (i + lo - lo) with i by lia.
  destruct (Z.ltb_spec i width); simpl.
  - destruct (Z.ltb_spec (i + lo) 32); [| lia].
    replace (lo <=? i + lo) with true by (symmetry; apply Z.leb_le; lia).
    replace (i + lo <? lo + width) with true by (symmetry; apply Z.ltb_lt; lia).
    simpl. by rewrite andb_false_r.
  - symmetry. by apply (testbit_high width).
Qed.

(** Fields that do not overlap the one written keep their value. *)
Lemma field_set_field_other v lo width x lo' width' :
  0 <= lo -> 0 <= width -> 0 <= lo' -> 0 <= width' -> lo' + width' <= 32 ->
  lo' + width' <= lo \/ lo + width <= lo' -> fits width x ->
  field (set_field v lo width x) lo' width' = field v lo' width'.
Proof.
  intros Hlo Hw Hlo' Hw' Hb Hd Hx. apply Z.bits_inj'. intros i Hi.
  rewrite !field_bits, set_field_bits by lia.
  destruct (Z.ltb_spec i width'); simpl; [| done].
  destruct (Z.ltb_spec (i + lo') 32); simpl; [| lia].
  assert (Z.testbit x (i + lo' - lo) = false) as ->.
  { destruct (Z.leb_spec lo (i + lo')); [| apply Z.testbit_neg_r; lia].
    apply (testbit_high width); [done | lia]. }
  rewrite orb_false_r.
  replace ((lo <=? i + lo') && (i + lo' <? lo + width)) with false.
  { simpl. by rewrite andb_true_r. }
  symmetry. apply andb_false_iff. rewrite Z.leb_gt, Z.ltb_ge. lia.
Qed.

Lemma set_field_fits v lo width x : fits 32 (set_field v lo width x).
Proof.
  unfold set_field. apply fits_lor; [lia | | by apply shl_fits].
  rewrite Z.land_comm. apply fits_land; [lia |]. by apply unot_fits.
Qed.

#[export] Hint Resolve wrap_fits shl_fits unot_fits fits_lor fits_land set_field_fits : bits.
