(* ===== verification/Types.v ===== *)
(** * The structs behind the kernel's static variables

    One Module per source file that declares a struct; the operations on them
    are in the component files.  Pointers into [DEVICE_TABLE] are indices into
    the table ([None] is the null pointer), so that a parent pointer aliases
    the live entry, as in the source.  Other pointers are addresses in [Z].
    Counters that only index fixed-size arrays are [nat]: the bounds check of
    the array access comes before any overflow. *)

From stdpp Require Export strings gmap.
From coqutil Require Export Byte Word.LittleEndianList.
From S2P Require Export Prelude Word.

Local Open Scope Z_scope.

(** ** src/ipc/irq_safe_mutex.rs *)

Module Mutex.
(** [lock] is the [AtomicBool], [data] the [UnsafeCell]'s content. *)
Record t (T : Type) := mk { lock : bool; data : T }.
Arguments mk {T} _ _.
Arguments lock {T} _.
Arguments data {T} _.

Definition new {T} (data : T) : t T := {| lock := false; data := data |}.
End Mutex.

(** ** src/kernel/device.rs *)

Module Property.
Record t := mk { name : string; value : Z; len : Z }.

Definition new : t := {| name := EmptyString; value := 0; len := 0 |}.
End Property.

Module PlatformDevice.
Definition MAX_PROPS : nat := 16.

Record t := mk {
  parent : option nat;
  name : string;
  properties : list Property.t;
  prop_count : nat;
}.

Definition new : t := {|
  parent := None;
  name := EmptyString;
  properties := replicate MAX_PROPS Property.new;
  prop_count := 0;
|}.

Definition default : t := new.
End PlatformDevice.

(** ** src/kernel/dtb.rs *)

Module DtbTables.
Definition MAX_DEVICES : nat := 256.
Definition MAX_HANDLES : nat := 32.

(** The four [static mut] variables of the file. *)
Record t := mk {
  DEVICE_COUNT : nat;
  DEVICE_TABLE : list PlatformDevice.t;
  PHANDLE_COUNT : nat;
  PHANDLE_TABLE : list (Z * nat);
}.

Definition init : t := {|
  DEVICE_COUNT := 0;
  DEVICE_TABLE := replicate MAX_DEVICES PlatformDevice.new;
  PHANDLE_COUNT := 0;
  PHANDLE_TABLE := replicate MAX_HANDLES (0, 0%nat);
|}.

Definition set_DEVICE_COUNT v d :=
  mk v (DEVICE_TABLE d) (PHANDLE_COUNT d) (PHANDLE_TABLE d).
Definition set_DEVICE_TABLE v d :=
  mk (DEVICE_COUNT d) v (PHANDLE_COUNT d) (PHANDLE_TABLE d).
Definition set_PHANDLE_COUNT v d :=
  mk (DEVICE_COUNT d) (DEVICE_TABLE d) v (PHANDLE_TABLE d).
Definition set_PHANDLE_TABLE v d :=
  mk (DEVICE_COUNT d) (DEVICE_TABLE d) (PHANDLE_COUNT d) v.
End DtbTables.

(** ** src/drivers/gic/gicv3.rs *)

Module GicState.
Record t := mk { dist_addr : Z; redist_addr : Z }.

Definition new : t := {| dist_addr := 0; redist_addr := 0 |}.
End GicState.

(** ** src/drivers/uart/pl011.rs *)

Module UartBuffer.
Definition UART_BUFFER_SIZE : nat := 256.

Record t := mk { buffer : list Z; head : nat; tail : nat }.

(** The initial value of the static [RX_BUFFER]. *)
Definition init : t :=
  {| buffer := replicate UART_BUFFER_SIZE 0; head := 0; tail := 0 |}.
End UartBuffer.

Module UartState.
Record t := mk {
  base_addr : Z;
  base_clock : Z;
  baudrate : Z;
  data_bits : Z;
  stop_bits : Z;
}.

Definition new : t := {|
  base_addr := 0;
  base_clock := 0;
  baudrate := 115200;
  data_bits := 8;
  stop_bits := 1;
|}.
End UartState.
