(* ===== verification/Machine.v ===== *)
(** * The machine and the kernel monad

    The hardware (MMIO devices and system registers) is a parameter: the class
    [Hardware] is an arbitrary transition function for each bus access and
    each system-register access.  Everything the CPU does to it is logged in a
    trace.  RAM is a partial byte map; reading an address that is not mapped,
    the null pointer or a misaligned word faults.  A computation returns,
    panics (Rust's [panic!], bounds checks and arithmetic checks), faults
    (undefined behaviour or an abort), or is still in a busy-wait loop or
    scan when its fuel is gone. *)

From S2P Require Export Types.

Local Open Scope Z_scope.

Inductive sysreg :=
  | DAIF | CNTFRQ_EL0 | CNTPCT_EL0 | CNTP_TVAL_EL0 | CNTP_CVAL_EL0 | CNTP_CTL_EL0
  | ICC_PMR_EL1 | ICC_IGRPEN1_EL1 | ICC_IAR1_EL1 | ICC_EOIR1_EL1
  | MAIR_EL1 | TCR_EL1 | SCTLR_EL1 | TTBR0_EL1.

#[export] Instance sysreg_eq_dec : EqDecision sysreg.
Proof. solve_decision. Defined.

Inductive barrier := DsbSy | DsbNsh | Isb | TlbiVmalle1.

#[export] Instance barrier_eq_dec : EqDecision barrier.
Proof. solve_decision. Defined.

Inductive event :=
  | Read32 (addr value : Z)
  | Write32 (addr value : Z)
  | Write64 (addr value : Z)
  | Mrs (r : sysreg) (value : Z)
  | Msr (r : sysreg) (value : Z)
  | DaifSet (imm : Z)
  | Barrier (b : barrier).

#[export] Instance event_eq_dec : EqDecision event.
Proof. solve_decision. Defined.

Class Hardware := {
  hw_state : Type;
  hw_read32 : Z -> hw_state -> Z * hw_state;
  hw_write32 : Z -> Z -> hw_state -> hw_state;
  hw_write64 : Z -> Z -> hw_state -> hw_state;
  hw_mrs : sysreg -> hw_state -> Z * hw_state;
  hw_msr : sysreg -> Z -> hw_state -> hw_state;
  hw_daifset : Z -> hw_state -> hw_state;
}.

Section machine.
Context {HW : Hardware}.

Record world := mkWorld {
  w_hw : hw_state;
  w_ram : gmap Z byte;
  w_trace : list event;
  w_dtb : DtbTables.t;                     (* the statics of kernel/dtb.rs *)
  w_gic : GicState.t;                      (* GIC *)
  w_uart : UartState.t;                    (* UART *)
  w_rx : Mutex.t UartBuffer.t;             (* RX_BUFFER *)
}.

(** The statics as the image is loaded. *)
Definition boot_world (hw : hw_state) (ram : gmap Z byte) : world :=
  mkWorld hw ram [] DtbTables.init GicState.new UartState.new (Mutex.new UartBuffer.init).

Definition set_hw v w := mkWorld v (w_ram w) (w_trace w) (w_dtb w) (w_gic w) (w_uart w) (w_rx w).
Definition set_ram v w := mkWorld (w_hw w) v (w_trace w) (w_dtb w) (w_gic w) (w_uart w) (w_rx w).
Definition set_trace v w := mkWorld (w_hw w) (w_ram w) v (w_dtb w) (w_gic w) (w_uart w) (w_rx w).
Definition set_dtb v w := mkWorld (w_hw w) (w_ram w) (w_trace w) v (w_gic w) (w_uart w) (w_rx w).
Definition set_gic v w := mkWorld (w_hw w) (w_ram w) (w_trace w) (w_dtb w) v (w_uart w) (w_rx w).
Definition set_uart v w := mkWorld (w_hw w) (w_ram w) (w_trace w) (w_dtb w) (w_gic w) v (w_rx w).
Definition set_rx v w := mkWorld (w_hw w) (w_ram w) (w_trace w) (w_dtb w) (w_gic w) (w_uart w) v.

(** ** The monad *)

Inductive outcome (A : Type) :=
  | Done (a : A) (w : world)
  | Panicked (w : world)
  | Faulted (w : world)
  | Spinning (w : world).

Definition M (A : Type) : Type := world -> outcome A.

Definition ret {A} (a : A) : M A := fun w => Done A a w.

Definition bind {A B} (c : M A) (k : A -> M B) : M B :=
  fun w =>
    match c w with
    | Done _ a w' => k a w'
    | Panicked _ w' => Panicked B w'
    | Faulted _ w' => Faulted B w'
    | Spinning _ w' => Spinning B w'
    end.

Definition panic {A} : M A := fun w => Panicked A w.
Definition fault {A} : M A := fun w => Faulted A w.
Definition spin {A} : M A := fun w => Spinning A w.
Definition gets {A} (f : world -> A) : M A := fun w => Done A (f w) w.
Definition modify (f : world -> world) : M unit := fun w => Done unit tt (f w).

End machine.

Arguments Done {HW A} a w.
Arguments Panicked {HW A} w.
Arguments Faulted {HW A} w.
Arguments Spinning {HW A} w.

Notation "x <- c ;; k" := (bind c (fun x => k))
  (at level 100, c at next level, right associativity) : kernel_scope.
Notation "c ;; k" := (bind c (fun _ => k))
  (at level 100, right associativity) : kernel_scope.

Section operations.
Context {HW : Hardware}.
Local Open Scope kernel_scope.

(** ** Checked arithmetic (the dev profile's overflow checks) *)

Definition checked (w z : Z) : M Z := if fitsb w z then ret z else panic.

Definition uadd (w a b : Z) : M Z := checked w (a + b).
Definition usub (w a b : Z) : M Z := checked w (a - b).
Definition umul (w a b : Z) : M Z := checked w (a * b).
Definition udiv (a b : Z) : M Z := if b =? 0 then panic else ret (a / b).

(** [a << n], whose amount is checked and whose result is truncated. *)
Definition ushl (w a n : Z) : M Z :=
  if (0 <=? n) && (n <? w) then ret (shl w a n) else panic.

(** [a >> n]. *)
Definition ushr (w a n : Z) : M Z :=
  if (0 <=? n) && (n <? w) then ret (Z.shiftr a n) else panic.

(** ** Arrays with bounds checks *)

Definition arr_get {A} (l : list A) (i : nat) : M A :=
  match l !! i with Some x => ret x | None => panic end.

Definition arr_set {A} (l : list A) (i : nat) (x : A) : M (list A) :=
  match l !! i with Some _ => ret (<[i := x]> l) | None => panic end.

(** ** RAM *)

(** [p.add(n)] on a byte pointer: the address may not wrap. *)
Definition ptr_add (p n : Z) : M Z := if fitsb USIZE (p + n) then ret (p + n) else fault.

Definition load_byte (p : Z) : M byte :=
  ram <- gets w_ram ;;
  if p =? 0 then fault else match ram !! p with Some b => ret b | None => fault end.

Fixpoint load_bytes (p : Z) (n : nat) : M (list byte) :=
  match n with
  | O => ret []
  | S n => b <- load_byte p ;; bs <- load_bytes (p + 1) n ;; ret (b :: bs)
  end.

(** An unaligned little-endian load of [n] bytes, the target's native order. *)
Definition load_le (p : Z) (n : nat) : M Z := bs <- load_bytes p n ;; ret (le_combine bs).

Fixpoint ram_write (p : Z) (bs : list byte) (ram : gmap Z byte) : gmap Z byte :=
  match bs with [] => ram | b :: bs => <[p := b]> (ram_write (p + 1) bs ram) end.

(** A store of [n] bytes; every byte has to be mapped. *)
Definition store_le (p : Z) (n : nat) (v : Z) : M unit :=
  _ <- load_bytes p n ;;
  modify (fun w => set_ram (ram_write p (le_split n v) (w_ram w)) w).

(** [*p] for an aligned [u64] place. *)
Definition deref_u64 (p : Z) : M Z := if p mod 8 =? 0 then load_le p 8 else fault.
Definition assign_u64 (p v : Z) : M unit := if p mod 8 =? 0 then store_le p 8 v else fault.

(** ** The bus and the system registers *)

Definition emit (e : event) : M unit := modify (fun w => set_trace (w_trace w ++ [e]) w).

Definition bus_read32 (addr : Z) : M Z :=
  hw <- gets w_hw ;;
  let v := wrap U32 (fst (hw_read32 addr hw)) in
  modify (set_hw (snd (hw_read32 addr hw))) ;; emit (Read32 addr v) ;; ret v.

Definition bus_write32 (addr v : Z) : M unit :=
  modify (fun w => set_hw (hw_write32 addr v (w_hw w)) w) ;; emit (Write32 addr v).

Definition bus_write64 (addr v : Z) : M unit :=
  modify (fun w => set_hw (hw_write64 addr v (w_hw w)) w) ;; emit (Write64 addr v).

Definition mrs (r : sysreg) : M Z :=
  hw <- gets w_hw ;;
  let v := wrap U64 (fst (hw_mrs r hw)) in
  modify (set_hw (snd (hw_mrs r hw))) ;; emit (Mrs r v) ;; ret v.

Definition msr (r : sysreg) (v : Z) : M unit :=
  modify (fun w => set_hw (hw_msr r v (w_hw w)) w) ;; emit (Msr r v).

Definition msr_daifset (imm : Z) : M unit :=
  modify (fun w => set_hw (hw_daifset imm (w_hw w)) w) ;; emit (DaifSet imm).

Definition barrier_ins (b : barrier) : M unit := emit (Barrier b).

(** ** Loops *)

(** [while cond {}]: the busy wait, given up when the fuel is gone. *)
Fixpoint spin_while (fuel : nat) (cond : M bool) : M unit :=
  match fuel with
  | O => spin
  | S fuel => b <- cond ;; if b : bool then spin_while fuel cond else ret tt
  end.

(** [for x in l { acc = body(acc, x) }] *)
Fixpoint for_each {A B} (l : list A) (acc : B) (body : B -> A -> M B) : M B :=
  match l with
  | [] => ret acc
  | x :: l => acc <- body acc x ;; for_each l acc body
  end.

(** [for x in l { if let Some(r) = body(x) { return Some(r) } }; None] *)
Fixpoint for_find {A B} (l : list A) (body : A -> M (option B)) : M (option B) :=
  match l with
  | [] => ret None
  | x :: l =>
      r <- body x ;;
      match r with Some y => ret (Some y) | None => for_find l body end
  end.

(** [0..n] as the values of the loop variable. *)
Definition range (n : Z) : list Z := Z.of_nat <$> seq 0 (Z.to_nat n).

(** ** Total correctness *)

(** [wp c Q w]: from [w], [c] returns (it does not panic, fault or spin) and
    the result satisfies [Q]. *)
Definition wp {A} (c : M A) (Q : A -> world -> Prop) (w : world) : Prop :=
  match c w with Done a w' => Q a w' | _ => False end.

End operations.

(** ** Worlds after each primitive

    Naming the successor world of each primitive keeps the statements about
    drivers readable: a straight-line driver is a composition of these. *)

Section successors.
Context {HW : Hardware}.

Definition log (e : event) (w : world) : world := set_trace (w_trace w ++ [e]) w.

Definition peek32 (a : Z) (w : world) : Z := wrap U32 (fst (hw_read32 a (w_hw w))).

Definition after_read (a : Z) (w : world) : world :=
  log (Read32 a (peek32 a w)) (set_hw (snd (hw_read32 a (w_hw w))) w).

Definition after_write (a v : Z) (w : world) : world :=
  log (Write32 a v) (set_hw (hw_write32 a v (w_hw w)) w).

Definition after_write64 (a v : Z) (w : world) : world :=
  log (Write64 a v) (set_hw (hw_write64 a v (w_hw w)) w).

(** A read-modify-write of one register. *)
Definition after_rmw (a : Z) (f : Z -> Z) (w : world) : world :=
  after_write a (f (peek32 a w)) (after_read a w).

Definition peek_reg (r : sysreg) (w : world) : Z := wrap U64 (fst (hw_mrs r (w_hw w))).

Definition after_mrs (r : sysreg) (w : world) : world :=
  log (Mrs r (peek_reg r w)) (set_hw (snd (hw_mrs r (w_hw w))) w).

Definition after_msr (r : sysreg) (v : Z) (w : world) : world :=
  log (Msr r v) (set_hw (hw_msr r v (w_hw w)) w).

Definition after_daifset (imm : Z) (w : world) : world :=
  log (DaifSet imm) (set_hw (hw_daifset imm (w_hw w)) w).

(** [w'] differs from [w] at most in the hardware and the trace. *)
Definition same_kernel (w w' : world) : Prop :=
  w_ram w' = w_ram w /\ w_dtb w' = w_dtb w /\ w_gic w' = w_gic w /\
  w_uart w' = w_uart w /\ w_rx w' = w_rx w.

#[export] Instance same_kernel_preorder : PreOrder same_kernel.
Proof. unfold same_kernel. split; [done | intros ???; naive_solver congruence]. Qed.

End successors.

(** ** Execution lemmas *)

Create HintDb exec.

Section execution.
Context {HW : Hardware}.
Implicit Types (w : world).

Lemma bind_done {A B} (c : M A) (k : A -> M B) w a w' :
  c w = Done a w' -> bind c k w = k a w'.
Proof. unfold bind. by intros ->. Qed.

Lemma bind_panicked {A B} (c : M A) (k : A -> M B) w w' :
  c w = Panicked w' -> bind c k w = Panicked w'.
Proof. unfold bind. by intros ->. Qed.

Lemma bind_spinning {A B} (c : M A) (k : A -> M B) w w' :
  c w = Spinning w' -> bind c k w = Spinning w'.
Proof. unfold bind. by intros ->. Qed.

Lemma bind_bind {A B C} (c : M A) (k : A -> M B) (h : B -> M C) w :
  bind (bind c k) h w = bind c (fun a => bind (k a) h) w.
Proof. unfold bind. by destruct (c w). Qed.

Lemma bind_ext {A B} (c c' : M A) (k : A -> M B) w : c w = c' w -> bind c k w = bind c' k w.
Proof. unfold bind. by intros ->. Qed.

Lemma bind_ret_r {A} (c : M A) w : bind c ret w = c w.
Proof. unfold bind, ret. by destruct (c w). Qed.

Lemma bind_inv {A B} (c : M A) (k : A -> M B) w b w'' :
  bind c k w = Done b w'' -> exists a w', c w = Done a w' /\ k a w' = Done b w''.
Proof. unfold bind. destruct (c w); naive_solver. Qed.

Lemma exec_ret {A} (a : A) w : ret a w = Done a w.
Proof. done. Qed.

Lemma exec_gets {A} (f : world -> A) w : gets f w = Done (f w) w.
Proof. done. Qed.

Lemma exec_modify f w : modify f w = Done tt (f w).
Proof. done. Qed.

Lemma exec_checked n z w : fits n z -> checked n z w = Done z w.
Proof. intros H. unfold checked. by rewrite fitsb_true. Qed.

Lemma checked_panics n z w : ~ fits n z -> checked n z w = Panicked w.
Proof. intros H. unfold checked. by rewrite fitsb_false. Qed.

Lemma exec_uadd n a b w : fits n (a + b) -> uadd n a b w = Done (a + b) w.
Proof. apply exec_checked. Qed.

Lemma exec_usub n a b w : fits n (a - b) -> usub n a b w = Done (a - b) w.
Proof. apply exec_checked. Qed.

Lemma exec_umul n a b w : fits n (a * b) -> umul n a b w = Done (a * b) w.
Proof. apply exec_checked. Qed.

Lemma exec_udiv a b w : b <> 0 -> udiv a b w = Done (a / b) w.
Proof. intros H. unfold udiv. by rewrite (proj2 (Z.eqb_neq b 0)). Qed.

Lemma exec_ushl n a k w : 0 <= k < n -> ushl n a k w = Done (shl n a k) w.
Proof.
  intros H. unfold ushl.
  by rewrite (proj2 (Z.leb_le 0 k)), (proj2 (Z.ltb_lt k n)) by lia.
Qed.

Lemma ushl_panics n a k w : n <= k -> ushl n a k w = Panicked w.
Proof.
  intros H. unfold ushl. by rewrite (proj2 (Z.ltb_ge k n)), andb_false_r by lia.
Qed.

Lemma exec_ushr n a k w : 0 <= k < n -> ushr n a k w = Done (Z.shiftr a k) w.
Proof.
  intros H. unfold ushr.
  by rewrite (proj2 (Z.leb_le 0 k)), (proj2 (Z.ltb_lt k n)) by lia.
Qed.

Lemma exec_arr_get {A} (l : list A) i x w : l !! i = Some x -> arr_get l i w = Done x w.
Proof. intros H. unfold arr_get. by rewrite H. Qed.

Lemma arr_get_panics {A} (l : list A) i w :
  (length l <= i)%nat -> arr_get l i w = Panicked w.
Proof. intros H. unfold arr_get. by rewrite lookup_ge_None_2. Qed.

Lemma exec_arr_set {A} (l : list A) i x w :
  (i < length l)%nat -> arr_set l i x w = Done (<[i := x]> l) w.
Proof. intros H. unfold arr_set. apply lookup_lt_is_Some_2 in H as [y ->]. done. Qed.

Lemma arr_set_panics {A} (l : list A) i (x : A) w :
  (length l <= i)%nat -> arr_set l i x w = Panicked w.
Proof. intros H. unfold arr_set. by rewrite lookup_ge_None_2. Qed.

Lemma exec_ptr_add p n w : fits USIZE (p + n) -> ptr_add p n w = Done (p + n) w.
Proof. intros H. unfold ptr_add. by rewrite fitsb_true. Qed.

Lemma exec_bus_read32 a w : bus_read32 a w = Done (peek32 a w) (after_read a w).
Proof. done. Qed.

Lemma exec_bus_write32 a v w : bus_write32 a v w = Done tt (after_write a v w).
Proof. done. Qed.

Lemma exec_bus_write64 a v w : bus_write64 a v w = Done tt (after_write64 a v w).
Proof. done. Qed.

Lemma exec_mrs r w : mrs r w = Done (peek_reg r w) (after_mrs r w).
Proof. done. Qed.

Lemma exec_msr r v w : msr r v w = Done tt (after_msr r v w).
Proof. done. Qed.

Lemma exec_msr_daifset i w : msr_daifset i w = Done tt (after_daifset i w).
Proof. done. Qed.

Lemma exec_barrier b w : barrier_ins b w = Done tt (log (Barrier b) w).
Proof. done. Qed.

Lemma peek32_fits a w : fits U32 (peek32 a w).
Proof. by apply wrap_fits. Qed.

Lemma peek_reg_fits r w : fits U64 (peek_reg r w).
Proof. by apply wrap_fits. Qed.

End execution.

#[export] Hint Resolve exec_ret exec_gets exec_modify exec_checked exec_uadd exec_usub
  exec_umul exec_udiv exec_ushl exec_ushr exec_arr_get exec_arr_set exec_ptr_add
  exec_bus_read32 exec_bus_write32 exec_bus_write64 exec_mrs exec_msr exec_msr_daifset
  exec_barrier : exec.
#[export] Hint Resolve peek32_fits peek_reg_fits : bits.

(** Range side conditions, by linear arithmetic with the widths unfolded. *)
Ltac solve_fits := unfold fits, U8, U16, U32, U64, USIZE in *; lia.

#[export] Hint Extern 5 (fits _ _) => solve_fits : exec.
#[export] Hint Extern 5 (_ <= _ < _) => solve_fits : exec.
#[export] Hint Extern 5 (_ <> 0) => lia : exec.

(** Runs the next primitive or library call of a goal [c w = _]. *)
Ltac exec_step :=
  lazymatch goal with
  | |- bind (bind _ _) _ _ = _ => rewrite bind_bind
  | |- bind _ _ _ = _ => erewrite bind_done; [| solve [eauto with exec] ]
  end; cbv beta zeta.

Ltac exec_run :=
  repeat exec_step; try solve [eauto with exec].
