(* ===== verification/Ram.v ===== *)
(** * RAM: byte strings in memory, loads and stores

    The facts about [load_le] and [store_le] of [Machine] that the device-tree
    parser and the page-table code rely on: a load reads the bytes that are
    there, a store is seen by the loads of its own place and by no other. *)

From S2P Require Export Machine.

Local Open Scope Z_scope.
Local Open Scope kernel_scope.

(** The bytes [bs] are in [ram] from address [p] on. *)
Definition ram_bytes (ram : gmap Z byte) (p : Z) (bs : list byte) : Prop :=
  forall i b, bs !! i = Some b -> ram !! (p + Z.of_nat i) = Some b.

(** What is in memory stays there when more is mapped. *)
Lemma ram_bytes_mono ram ram' p bs : ram ⊆ ram' -> ram_bytes ram p bs -> ram_bytes ram' p bs.
Proof. intros Hs H i b Hi. eapply lookup_weaken; [by apply H | done]. Qed.

(** A memory that holds exactly [bs] from [p] on. *)
Definition ram_of (p : Z) (bs : list byte) : gmap Z byte := ram_write p bs ∅.

(** Big-endian values. *)
Definition be_combine (bs : list byte) : Z := le_combine (rev bs).
Definition be_split (n : nat) (v : Z) : list byte := rev (le_split n v).

Lemma ram_bytes_nil ram p : ram_bytes ram p [].
Proof. intros i b Hi. by rewrite lookup_nil in Hi. Qed.

Lemma ram_bytes_cons ram p b bs :
  ram_bytes ram p (b :: bs) <-> ram !! p = Some b /\ ram_bytes ram (p + 1) bs.
Proof.
  split.
  - intros H. split.
    + specialize (H 0%nat b eq_refl). by rewrite Z.add_0_r in H.
    + intros i b' Hi. specialize (H (S i) b' Hi).
      by replace (p + 1 + Z.of_nat i) with (p + Z.of_nat (S i)) by lia.
  - intros [Hp H] [| i] b' Hi; simpl in Hi; simplify_eq.
    + by rewrite Z.add_0_r.
    + specialize (H i b' Hi).
      by replace (p + Z.of_nat (S i)) with (p + 1 + Z.of_nat i) by lia.
Qed.

Lemma ram_bytes_app ram p bs1 bs2 :
  ram_bytes ram p (bs1 ++ bs2) <->
  ram_bytes ram p bs1 /\ ram_bytes ram (p + Z.of_nat (length bs1)) bs2.
Proof.
  revert p. induction bs1 as [| b bs1 IH]; intros p; simpl app.
  - rewrite Z.add_0_r. split; [split; [apply ram_bytes_nil | done] | tauto].
  - rewrite !ram_bytes_cons, IH. simpl length.
    replace (p + Z.of_nat (S (length bs1))) with (p + 1 + Z.of_nat (length bs1)) by lia.
    tauto.
Qed.

Lemma lookup_ram_write_below p bs ram q : q < p -> ram_write p bs ram !! q = ram !! q.
Proof.
  revert p. induction bs as [| b bs IH]; intros p Hq; [done |]. simpl.
  rewrite lookup_insert_ne by lia. apply IH. lia.
Qed.

Lemma lookup_ram_write_above p bs ram q :
  p + Z.of_nat (length bs) <= q -> ram_write p bs ram !! q = ram !! q.
Proof.
  revert p. induction bs as [| b bs IH]; intros p Hq; [done |]. simpl in *.
  rewrite lookup_insert_ne by lia. apply IH. lia.
Qed.

Lemma ram_write_bytes p bs ram : ram_bytes (ram_write p bs ram) p bs.
Proof.
  revert p. induction bs as [| b bs IH]; intros p; [apply ram_bytes_nil |].
  apply ram_bytes_cons. simpl. split; [apply lookup_insert_eq |].
  intros i c Hi. rewrite lookup_insert_ne by lia. by apply IH.
Qed.

(** A write leaves the byte strings that do not overlap it alone. *)
Lemma ram_write_bytes_other p bs ram q cs :
  q + Z.of_nat (length cs) <= p \/ p + Z.of_nat (length bs) <= q ->
  ram_bytes ram q cs -> ram_bytes (ram_write p bs ram) q cs.
Proof.
  intros Hd H i c Hi. pose proof (lookup_lt_Some _ _ _ Hi).
  destruct Hd.
  - rewrite lookup_ram_write_below by lia. by apply H.
  - rewrite lookup_ram_write_above by lia. by apply H.
Qed.

Section loads.
Context {HW : Hardware}.
Implicit Types (w : world).

Lemma exec_load_byte p b w :
  p <> 0 -> w_ram w !! p = Some b -> load_byte p w = Done b w.
Proof.
  intros Hp Hb. unfold load_byte, bind, gets.
  rewrite (proj2 (Z.eqb_neq p 0)) by done. by rewrite Hb.
Qed.

Lemma exec_load_bytes p bs w :
  0 < p -> ram_bytes (w_ram w) p bs -> load_bytes p (length bs) w = Done bs w.
Proof.
  revert p. induction bs as [| b bs IH]; intros p Hp Hb; [done |].
  apply ram_bytes_cons in Hb as [Hb Hbs]. simpl.
  rewrite (bind_done _ _ _ b w) by (apply exec_load_byte; [lia | done]).
  by rewrite (bind_done _ _ _ bs w) by (apply IH; [lia | done]).
Qed.

Lemma exec_load_le p n bs w :
  0 < p -> length bs = n -> ram_bytes (w_ram w) p bs ->
  load_le p n w = Done (le_combine bs) w.
Proof.
  intros Hp <- Hb. unfold load_le. by rewrite (bind_done _ _ _ bs w) by by apply exec_load_bytes.
Qed.

Lemma load_byte_world p w b w' : load_byte p w = Done b w' -> w' = w.
Proof.
  unfold load_byte, bind, gets.
  destruct (p =? 0); [done |]. by destruct (w_ram w !! p); intros [= _ <-].
Qed.

Lemma load_bytes_world p n w bs w' :
  load_bytes p n w = Done bs w' -> w' = w /\ length bs = n.
Proof.
  revert p bs w'. induction n as [| n IH]; simpl; intros p bs w' H.
  - unfold ret in H. by simplify_eq.
  - apply bind_inv in H as (b & w1 & Hb & H). apply load_byte_world in Hb as ->.
    apply bind_inv in H as (bs1 & w2 & Hbs & H). apply IH in Hbs as [-> Hlen].
    unfold ret in H. simplify_eq. simpl. auto.
Qed.

Lemma exec_store_le p n v bs w :
  0 < p -> length bs = n -> ram_bytes (w_ram w) p bs ->
  store_le p n v w = Done tt (set_ram (ram_write p (le_split n v) (w_ram w)) w).
Proof.
  intros Hp <- Hb. unfold store_le. by rewrite (bind_done _ _ _ bs w) by by apply exec_load_bytes.
Qed.

End loads.

(** ** Values *)

Lemma length_be_split n v : length (be_split n v) = n.
Proof. unfold be_split. by rewrite length_rev, length_le_split. Qed.

Lemma be_combine_split n v : be_combine (be_split n v) = v mod 2 ^ (Z.of_nat n * 8).
Proof. unfold be_combine, be_split. by rewrite rev_involutive, le_combine_split. Qed.

Lemma be_split_combine bs : be_split (length bs) (be_combine bs) = bs.
Proof.
  unfold be_combine, be_split. rewrite <- length_rev, split_le_combine. apply rev_involutive.
Qed.

Lemma be_combine_bound bs : 0 <= be_combine bs < 2 ^ (8 * Z.of_nat (length bs)).
Proof. unfold be_combine. rewrite <- length_rev. apply le_combine_bound. Qed.

Lemma be_combine_split_u32 v : fits U32 v -> be_combine (be_split 4 v) = v.
Proof. intros Hv. rewrite be_combine_split. by apply Z.mod_small. Qed.

Lemma be_combine_app bs1 bs2 :
  be_combine (bs1 ++ bs2) =
    Z.lor (Z.shiftl (be_combine bs1) (8 * Z.of_nat (length bs2))) (be_combine bs2).
Proof.
  unfold be_combine. rewrite rev_app_distr, le_combine_app, length_rev, Z.lor_comm.
  do 2 f_equal. lia.
Qed.

#[export] Hint Resolve exec_load_byte exec_load_le exec_store_le : exec.
