(* ===== verification/Convert.v ===== *)
(** * src/utilities/convert.rs: reading integers of explicit endianness

    [read_unaligned] is a native (little-endian) load; [from_be] swaps the
    bytes of its argument on this target and [from_le] is the identity. *)

From S2P Require Export Ram.

Local Open Scope Z_scope.
Local Open Scope kernel_scope.

Section convert.
Context {HW : Hardware}.
Implicit Types (w : world).

Definition read_unaligned (n : nat) (p : Z) : M Z := load_le p n.

(** [uN::from_be] and [uN::from_le] on a little-endian target, [n] bytes. *)
Definition from_be (n : nat) (v : Z) : Z := le_combine (rev (le_split n v)).
Definition from_le (v : Z) : Z := v.

Definition read_be_u16 (ptr offset : Z) : M Z :=
  value_ptr <- ptr_add ptr offset ;;
  v <- read_unaligned 2 value_ptr ;;
  ret (from_be 2 v).

Definition read_be_u32 (ptr offset : Z) : M Z :=
  value_ptr <- ptr_add ptr offset ;;
  v <- read_unaligned 4 value_ptr ;;
  ret (from_be 4 v).

Definition read_be_u64 (ptr offset : Z) : M Z :=
  value_ptr <- ptr_add ptr offset ;;
  v <- read_unaligned 8 value_ptr ;;
  ret (from_be 8 v).

Definition read_le_u16 (ptr offset : Z) : M Z :=
  value_ptr <- ptr_add ptr offset ;;
  v <- read_unaligned 2 value_ptr ;;
  ret (from_le v).

Definition read_le_u32 (ptr offset : Z) : M Z :=
  value_ptr <- ptr_add ptr offset ;;
  v <- read_unaligned 4 value_ptr ;;
  ret (from_le v).

Definition read_le_u64 (ptr offset : Z) : M Z :=
  value_ptr <- ptr_add ptr offset ;;
  v <- read_unaligned 8 value_ptr ;;
  ret (from_le v).

Lemma from_be_combine bs : from_be (length bs) (le_combine bs) = be_combine bs.
Proof. unfold from_be, be_combine. by rewrite split_le_combine. Qed.

(** The place [ptr + off] is inside the address space and not null. *)
Definition place_ok (p : Z) : Prop := 0 < p < 2 ^ USIZE.

(** What a read of [n] bytes with the conversion [conv] does when the bytes
    are mapped; the six readers are instances. *)
Lemma exec_read n (conv : Z -> Z) ptr off bs w :
  place_ok (ptr + off) -> length bs = n -> ram_bytes (w_ram w) (ptr + off) bs ->
  (p <- ptr_add ptr off ;; v <- read_unaligned n p ;; ret (conv v)) w =
    Done (conv (le_combine bs)) w.
Proof.
  intros [Hp Hp'] Hlen Hb.
  rewrite (bind_done _ _ _ (ptr + off) w) by (apply exec_ptr_add; solve_fits).
  by rewrite (bind_done _ _ _ (le_combine bs) w) by by apply exec_load_le.
Qed.

Lemma exec_read_be_u32 ptr off bs w :
  place_ok (ptr + off) -> length bs = 4%nat -> ram_bytes (w_ram w) (ptr + off) bs ->
  read_be_u32 ptr off w = Done (be_combine bs) w.
Proof.
  intros Hp Hlen Hb. unfold read_be_u32. erewrite exec_read by done.
  by rewrite <- from_be_combine, Hlen.
Qed.

(** A big-endian field written by a device-tree compiler is read back. *)
Lemma read_be_u32_split ptr off v w :
  fits U32 v -> place_ok (ptr + off) -> ram_bytes (w_ram w) (ptr + off) (be_split 4 v) ->
  read_be_u32 ptr off w = Done v w.
Proof.
  intros Hv Hp Hb.
  erewrite exec_read_be_u32 by (done || apply length_be_split).
  by rewrite be_combine_split_u32.
Qed.

Lemma read_unaligned_world n p w v w' : read_unaligned n p w = Done v w' -> w' = w.
Proof.
  unfold read_unaligned, load_le. intros H.
  apply bind_inv in H as (bs & w1 & Hb & H). apply load_bytes_world in Hb as [-> _].
  by inversion H.
Qed.

Lemma read_be_u32_inv ptr off w v w' :
  read_be_u32 ptr off w = Done v w' -> w' = w /\ fits U32 v.
Proof.
  unfold read_be_u32. intros H.
  apply bind_inv in H as (p & w1 & Hp & H).
  unfold ptr_add in Hp. case_match; [| done]. inversion Hp; subst.
  apply bind_inv in H as (x & w2 & Hx & H). pose proof (read_unaligned_world _ _ _ _ _ Hx) as ->.
  unfold ret in H. simplify_eq. split; [done |].
  pose proof (be_combine_bound (le_split 4 x)) as Hb. unfold be_combine in Hb.
  by rewrite length_le_split in Hb.
Qed.

(** ** Addresses of several cells *)

(** The accumulation [addr = (addr << 32) | cell] of the drivers. *)
Definition shift_in (addr cell : Z) : Z := Z.lor (shl U64 addr 32) cell.

Lemma shift_in_combine bs1 bs2 :
  length bs2 = 4%nat ->
  shift_in (wrap U64 (be_combine bs1)) (be_combine bs2) = wrap U64 (be_combine (bs1 ++ bs2)).
Proof.
  intros Hlen. rewrite be_combine_app, Hlen.
  pose proof (be_combine_bound bs2) as Hb. rewrite Hlen in Hb.
  change (8 * Z.of_nat 4) with 32 in *.
  apply Z.bits_inj'. intros i Hi. unfold shift_in.
  rewrite Z.lor_spec, shl_bits, !wrap_bits, Z.lor_spec, Z.shiftl_spec by (unfold U64; lia).
  unfold U64. destruct (Z.ltb_spec i 64); simpl.
  - f_equal. destruct (Z.ltb_spec (i - 32) 64); [done | lia].
  - apply (testbit_high 32); lia.
Qed.

(** A list of 4-byte cells. *)
Definition cells_ok (cells : list (list byte)) : Prop := Forall (fun c => length c = 4%nat) cells.

Lemma fold_shift_in cells bs :
  cells_ok cells ->
  fold_left shift_in (be_combine <$> cells) (wrap U64 (be_combine bs)) =
    wrap U64 (be_combine (bs ++ concat cells)).
Proof.
  intros Hc. revert bs. induction Hc as [| c cells Hlen Hc IH]; intros bs; simpl.
  - by rewrite app_nil_r.
  - rewrite shift_in_combine, IH by done. by rewrite <- app_assoc.
Qed.

(** A loop that shifts in the cells of an address. *)
Lemma for_each_shift_in (body : Z -> Z -> M Z) cells k acc w :
  (forall i c acc, cells !! i = Some c ->
     body acc (Z.of_nat (k + i)) w = Done (shift_in acc (be_combine c)) w) ->
  for_each (Z.of_nat <$> seq k (length cells)) acc body w =
    Done (fold_left shift_in (be_combine <$> cells) acc) w.
Proof.
  revert k acc. induction cells as [| c cells IH]; intros k acc Hbody; [done |]. simpl.
  pose proof (Hbody 0%nat c acc eq_refl) as H0. rewrite Nat.add_0_r in H0.
  rewrite (bind_done _ _ _ _ _ H0). apply IH.
  intros i c' acc' Hi.
  replace (S k + i)%nat with (k + S i)%nat by lia. by apply Hbody.
Qed.

Lemma for_each_address (body : Z -> Z -> M Z) n cells w :
  n = Z.of_nat (length cells) -> cells_ok cells ->
  (forall i c acc, cells !! i = Some c ->
     body acc (Z.of_nat i) w = Done (shift_in acc (be_combine c)) w) ->
  for_each (range n) 0 body w = Done (wrap U64 (be_combine (concat cells))) w.
Proof.
  intros -> Hc Hbody. unfold range. rewrite Nat2Z.id, (for_each_shift_in body cells 0) by done.
  f_equal. by apply (fold_shift_in cells []).
Qed.

Lemma ram_bytes_concat ram p cells i c :
  cells_ok cells -> ram_bytes ram p (concat cells) -> cells !! i = Some c ->
  ram_bytes ram (p + Z.of_nat i * 4) c.
Proof.
  intros Hc. revert p i. induction Hc as [| c' cells Hlen Hc IH]; intros p i Hram Hi; [done |].
  simpl in Hram. apply ram_bytes_app in Hram as [Hram Hrest].
  destruct i as [| i]; simpl in Hi; simplify_eq.
  - by rewrite Z.add_0_r.
  - rewrite Hlen in Hrest. replace (p + Z.of_nat (S i) * 4) with (p + Z.of_nat 4 + Z.of_nat i * 4) by lia.
    by apply IH.
Qed.

End convert.
