(* ===== verification/Mmio.v ===== *)
(** * src/utilities/mmio.rs: volatile accesses to device registers

    The dev profile checks that the pointer of a volatile access is aligned
    and not null; an access that fails the check faults. *)

From S2P Require Export Machine.

Local Open Scope Z_scope.
Local Open Scope kernel_scope.

Section mmio.
Context {HW : Hardware}.
Implicit Types (w : world).

(** [(base as *mut u8).add(offset) as *mut u32], about to be accessed. *)
Definition mmio_ptr (base offset : Z) : M Z :=
  p <- ptr_add base offset ;;
  if (p =? 0) || negb (p mod 4 =? 0) then fault else ret p.

Definition read_mmio32 (base offset : Z) : M Z :=
  ptr <- mmio_ptr base offset ;;
  bus_read32 ptr.

Definition write_mmio32 (base offset value : Z) : M unit :=
  ptr <- mmio_ptr base offset ;;
  bus_write32 ptr value.

Definition set_mmio_bits32 (base offset bits : Z) : M unit :=
  ptr <- mmio_ptr base offset ;;
  current_val <- bus_read32 ptr ;;
  bus_write32 ptr (Z.lor current_val bits).

Definition clear_mmio_bits32 (base offset bits : Z) : M unit :=
  ptr <- mmio_ptr base offset ;;
  current_val <- bus_read32 ptr ;;
  bus_write32 ptr (Z.land current_val (unot U32 bits)).

(** The address of a 32-bit register. *)
Definition reg_ok (a : Z) : Prop := 0 < a < 2 ^ USIZE /\ a mod 4 = 0.

Lemma exec_mmio_ptr base off w :
  reg_ok (base + off) -> mmio_ptr base off w = Done (base + off) w.
Proof.
  intros [Hr Ha]. unfold mmio_ptr.
  rewrite (bind_done _ _ _ (base + off) w) by (apply exec_ptr_add; solve_fits).
  rewrite (proj2 (Z.eqb_neq _ 0)) by lia. by rewrite Ha.
Qed.

Lemma exec_read_mmio32 base off w :
  reg_ok (base + off) ->
  read_mmio32 base off w = Done (peek32 (base + off) w) (after_read (base + off) w).
Proof. intros H. unfold read_mmio32. by erewrite bind_done by by apply exec_mmio_ptr. Qed.

Lemma exec_write_mmio32 base off v w :
  reg_ok (base + off) ->
  write_mmio32 base off v w = Done tt (after_write (base + off) v w).
Proof. intros H. unfold write_mmio32. by erewrite bind_done by by apply exec_mmio_ptr. Qed.

Lemma exec_set_mmio_bits32 base off bits w :
  reg_ok (base + off) ->
  set_mmio_bits32 base off bits w =
    Done tt (after_rmw (base + off) (fun v => Z.lor v bits) w).
Proof. intros H. unfold set_mmio_bits32. by erewrite bind_done by by apply exec_mmio_ptr. Qed.

Lemma exec_clear_mmio_bits32 base off bits w :
  reg_ok (base + off) ->
  clear_mmio_bits32 base off bits w =
    Done tt (after_rmw (base + off) (fun v => Z.land v (unot U32 bits)) w).
Proof. intros H. unfold clear_mmio_bits32. by erewrite bind_done by by apply exec_mmio_ptr. Qed.

Lemma exec_read_mmio32_0 a w :
  reg_ok a -> read_mmio32 a 0 w = Done (peek32 a w) (after_read a w).
Proof.
  intros H. pose proof (exec_read_mmio32 a 0 w) as E. rewrite Z.add_0_r in E. by apply E.
Qed.

Lemma exec_write_mmio32_0 a v w :
  reg_ok a -> write_mmio32 a 0 v w = Done tt (after_write a v w).
Proof.
  intros H. pose proof (exec_write_mmio32 a 0 v w) as E. rewrite Z.add_0_r in E. by apply E.
Qed.

Lemma exec_set_mmio_bits32_0 a bits w :
  reg_ok a -> set_mmio_bits32 a 0 bits w = Done tt (after_rmw a (fun v => Z.lor v bits) w).
Proof.
  intros H. pose proof (exec_set_mmio_bits32 a 0 bits w) as E. rewrite Z.add_0_r in E. by apply E.
Qed.

(** An access through a misaligned or null register address never reaches the bus. *)
Lemma mmio_ptr_faults base off w :
  (base + off = 0 \/ (base + off) mod 4 <> 0) -> mmio_ptr base off w = Faulted w.
Proof.
  intros H. unfold mmio_ptr, bind, ptr_add, fault, ret.
  destruct (fitsb USIZE (base + off)); [| done].
  destruct (Z.eqb_spec (base + off) 0); [done |].
  destruct (Z.eqb_spec ((base + off) mod 4) 0); [lia | done].
Qed.

End mmio.

(** ** Polling a status register *)

Section polling.
Context {HW : Hardware}.
Implicit Types (w : world).

(** [(read_mmio32(base, off) & mask) != 0], the guard of the busy waits. *)
Definition poll_bit (base off mask : Z) : M bool :=
  v <- read_mmio32 base off ;;
  ret (negb (Z.land v mask =? 0)).

(** The world after [n] reads of the register [a]. *)
Definition after_reads (a : Z) (n : nat) w : world := Nat.iter n (after_read a) w.

(** The hardware answers "busy" exactly [n] times before the first "ready". *)
Definition busy_for (a mask : Z) (n : nat) w : Prop :=
  (forall k, (k < n)%nat -> Z.land (peek32 a (after_reads a k w)) mask <> 0) /\
  Z.land (peek32 a (after_reads a n w)) mask = 0.

(** It is ready within [fuel] polls, whenever it is asked. *)
Definition settles (fuel : nat) (a mask : Z) : Prop :=
  forall w, exists n, (n < fuel)%nat /\ busy_for a mask n w.

Lemma after_reads_S a n w : after_reads a (S n) w = after_reads a n (after_read a w).
Proof. unfold after_reads. by rewrite Nat.iter_succ_r. Qed.

(** What [n] reads of a register leave in the trace, and nothing else. *)
Lemma after_reads_trace a n w :
  exists vs, length vs = n /\ w_trace (after_reads a n w) = w_trace w ++ (Read32 a <$> vs).
Proof.
  induction n as [| n (vs & Hl & IH)]; [exists []; by rewrite app_nil_r |].
  exists (vs ++ [peek32 a (after_reads a n w)]). split; [rewrite length_app; simpl; lia |].
  simpl. by rewrite fmap_app, app_assoc, <- IH.
Qed.

Lemma after_reads_same a n w : same_kernel w (after_reads a n w).
Proof. induction n as [| n IH]; [done |]. by transitivity (after_reads a n w). Qed.

Lemma exec_poll_bit base off mask w :
  reg_ok (base + off) ->
  poll_bit base off mask w =
    Done (negb (Z.land (peek32 (base + off) w) mask =? 0)) (after_read (base + off) w).
Proof.
  intros H. unfold poll_bit. by rewrite (bind_done _ _ _ _ _ (exec_read_mmio32 _ _ w H)).
Qed.

Lemma poll_step fuel base off mask w :
  reg_ok (base + off) ->
  spin_while (S fuel) (poll_bit base off mask) w =
    (if Z.land (peek32 (base + off) w) mask =? 0
     then Done tt (after_read (base + off) w)
     else spin_while fuel (poll_bit base off mask) (after_read (base + off) w)).
Proof.
  intros H. simpl. rewrite (bind_done _ _ _ _ _ (exec_poll_bit _ _ mask w H)).
  by destruct (_ =? 0).
Qed.

(** The busy wait ends with the first "ready" answer, having read the
    register once more than it was busy; fuel beyond that is not used. *)
Lemma poll_done fuel base off mask n w :
  reg_ok (base + off) -> busy_for (base + off) mask n w -> (n < fuel)%nat ->
  spin_while fuel (poll_bit base off mask) w = Done tt (after_reads (base + off) (S n) w).
Proof.
  intros Hr. revert fuel w.
  induction n as [| n IH]; intros [| fuel] w [Hbusy Hready] Hf; try lia; rewrite poll_step by done.
  - simpl in Hready. by rewrite Hready.
  - pose proof (Hbusy 0%nat ltac:(lia)) as H0. simpl in H0.
    rewrite (proj2 (Z.eqb_neq _ 0) H0), IH, <- after_reads_S; [done | | lia].
    split; [| by rewrite <- after_reads_S].
    intros k Hk. rewrite <- after_reads_S. apply Hbusy. lia.
Qed.

(** As long as the hardware stays busy the loop does not end. *)
Lemma poll_spins fuel base off mask w :
  reg_ok (base + off) ->
  (forall k, (k < fuel)%nat -> Z.land (peek32 (base + off) (after_reads (base + off) k w)) mask <> 0) ->
  spin_while fuel (poll_bit base off mask) w = Spinning (after_reads (base + off) fuel w).
Proof.
  intros Hr. revert w. induction fuel as [| fuel IH]; intros w Hbusy; [done |].
  rewrite poll_step by done. pose proof (Hbusy 0%nat ltac:(lia)) as H0. simpl in H0.
  rewrite (proj2 (Z.eqb_neq _ 0) H0), IH, <- after_reads_S; [done |].
  intros k Hk. rewrite <- after_reads_S. apply Hbusy. lia.
Qed.

(** There is no third way: the loop ends after some reads, or every answer was
    "busy". *)
Lemma poll_outcome fuel base off mask w :
  reg_ok (base + off) ->
  (exists n, spin_while fuel (poll_bit base off mask) w = Done tt (after_reads (base + off) n w)) \/
  (exists vs, spin_while fuel (poll_bit base off mask) w = Spinning (after_reads (base + off) fuel w) /\
     length vs = fuel /\ Forall (fun v => Z.land v mask <> 0) vs /\
     w_trace (after_reads (base + off) fuel w) = w_trace w ++ (Read32 (base + off) <$> vs)).
Proof.
  intros Hr. revert w. induction fuel as [| fuel IH]; intros w.
  { right. exists []. split; [done |]. split; [done |]. split; [constructor |]. by rewrite app_nil_r. }
  rewrite poll_step by done. destruct (Z.eqb_spec (Z.land (peek32 (base + off) w) mask) 0) as [Hz | Hz].
  { left. by exists 1%nat. }
  rewrite after_reads_S. destruct (IH (after_read (base + off) w)) as [(n & E) | (vs & E & Hl & Hb & Htr)].
  - left. exists (S n). by rewrite after_reads_S.
  - right. exists (peek32 (base + off) w :: vs). split; [done |]. split; [simpl; by rewrite Hl |].
    split; [by constructor |]. rewrite Htr. simpl. by rewrite <- app_assoc.
Qed.

End polling.

#[export] Hint Resolve exec_read_mmio32 exec_write_mmio32 exec_set_mmio_bits32
  exec_clear_mmio_bits32 | 4 : exec.
#[export] Hint Resolve exec_read_mmio32_0 exec_write_mmio32_0 exec_set_mmio_bits32_0 | 0 : exec.

(** A block of device registers: where it starts and how long it is. *)
Definition frame_ok (base size : Z) : Prop :=
  0 < base /\ base mod 8 = 0 /\ base + size <= 2 ^ USIZE.

Lemma frame_reg_ok base size off :
  frame_ok base size -> 0 <= off < size -> off mod 4 = 0 -> reg_ok (base + off).
Proof. unfold frame_ok, reg_ok. intros (? & ? & ?) ? ?. solve_fits. Qed.
