(* ===== verification/RegFile.v ===== *)
(** * Registers: arrays of bit fields, and hardware to compute with

    Interrupt controllers pack one setting per interrupt into consecutive
    registers.  [entry] reads entry [i] of such an array out of the word of one
    register, by its distance in bits from the base; [entry_updated] says of a
    list of accesses that it is a read, a write and a barrier of one register in
    which exactly one entry of the value read is replaced.  It speaks of the
    values on the bus and assumes nothing of what a register does with them.
    [regfile] is a concrete hardware with a receive queue and scripted system
    registers, on which the witnesses compute.  [HeldBits] and [PlainSys] are the laws
    of one register (of the bus, of the CPU) that holds what is written to it. *)

From S2P Require Export Mmio.

Local Open Scope Z_scope.

(** ** Arrays of bit fields *)

(** Entry [i] of the array of [width]-bit entries that starts at address [base],
    seen in the word [v] of the 32-bit register at [r]. *)
Definition entry (r v base width i : Z) : Z := field v (8 * (base - r) + width * i) width.

(** The entry lies in that register. *)
Definition entry_in (r base width i : Z) : Prop := 8 * r <= 8 * base + width * i < 8 * r + 32.

(** The accesses read the register of entry [i], write it back with that entry
    set to [x] and all others as read, and end with a barrier. *)
Definition entry_updated (base width i x : Z) (evs : list event) : Prop :=
  exists r v v',
    evs = [Read32 r v; Write32 r v'; Barrier DsbSy] /\ fits U32 v' /\
    entry_in r base width i /\
    forall i', entry_in r base width i' ->
      entry r v' base width i' = if i' =? i then x else entry r v base width i'.

Section array.
Context (base per width : Z).
Hypothesis Hper : 0 < per.
Hypothesis Hwidth : 0 < width.
Hypothesis Hpack : per * width = 32.

(** The register the code computes by division, and the shift by remainder. *)
Lemma entry_here i :
  let r := base + i / per * 4 in
  8 * (base - r) + width * i = i mod per * width /\ entry_in r base width i.
Proof.
  pose proof (Z.div_mod i per ltac:(lia)) as D. pose proof (Z.mod_pos_bound i per Hper).
  simpl. unfold entry_in. split; nia.
Qed.

(** Entries of one register do not overlap. *)
Lemma entry_apart r i i' :
  entry_in r base width i -> entry_in r base width i' -> i' <> i ->
  8 * (base - r) + width * i' + width <= 8 * (base - r) + width * i \/
  8 * (base - r) + width * i + width <= 8 * (base - r) + width * i'.
Proof. unfold entry_in. nia. Qed.

Lemma entry_set i i' x v :
  let r := base + i / per * 4 in
  fits width x -> entry_in r base width i' ->
  entry r (set_field v (i mod per * width) width x) base width i' =
    if i' =? i then x else entry r v base width i'.
Proof.
  intros r Hx Hi'. destruct (entry_here i) as [Elo Hi]. fold r in Elo, Hi. unfold entry.
  rewrite <- Elo.
  assert (forall j, entry_in r base width j ->
    0 <= 8 * (base - r) + width * j /\ 8 * (base - r) + width * j + width <= 32) as Hb.
  { intros j Hj. pose proof (Z.div_mod j per ltac:(lia)) as D.
    pose proof (Z.mod_pos_bound j per Hper). unfold entry_in in Hj.
    assert (8 * (base - r) = - (i / per) * 32) as E by (unfold r; lia).
    assert (j / per = i / per) as Ej by nia. nia. }
  pose proof (Hb i Hi). pose proof (Hb i' Hi').
  destruct (Z.eqb_spec i' i) as [-> | Hne].
  - apply field_set_field_same; lia || done.
  - apply field_set_field_other; try done; try lia. by apply entry_apart.
Qed.
End array.

(** A bit set by [v | 1 << n] is an entry of width 1. *)
Lemma set_bit_field v n :
  fits U32 v -> 0 <= n < 32 -> Z.lor v (shl U32 1 n) = set_field v n 1 1.
Proof.
  intros Hv Hn. apply Z.bits_inj'. intros i Hi.
  rewrite Z.lor_spec, set_field_bits, shl_bits by (unfold U32; lia). unfold U32.
  destruct (Z.ltb_spec i 32); simpl; [| by rewrite (testbit_high 32 v) by (done || lia)].
  destruct (Z.eq_dec i n) as [-> | Hne].
  - rewrite Z.sub_diag. change (Z.testbit 1 0) with true. by rewrite !orb_true_r.
  - replace ((n <=? i) && (i <? n + 1)) with false; [by rewrite andb_true_r |].
    symmetry. apply andb_false_iff. rewrite Z.leb_gt, Z.ltb_ge. lia.
Qed.

(** ** A register that holds what was written to it *)

(** The bits [mask] of the register at [a] are storage: they read as last written,
    and no other access to the registers [frame] of the device changes them. *)
Class HeldBits (HW : Hardware) (frame : Z -> Prop) (a mask : Z) := {
  held : hw_state -> Z;
  held_read : forall h, Z.land (wrap U32 (fst (hw_read32 a h))) mask = held h;
  held_after_read : forall a' h, frame a' -> held (snd (hw_read32 a' h)) = held h;
  held_write : forall v h, held (hw_write32 a v h) = Z.land v mask;
  held_after_write : forall a' v h, frame a' -> a' <> a -> held (hw_write32 a' v h) = held h;
}.

Section held.
Context {HW : Hardware} {frame : Z -> Prop} {a mask : Z} {HB : HeldBits HW frame a mask}.
Implicit Types (w : world).

Lemma held_peek w : Z.land (peek32 a w) mask = held (w_hw w).
Proof. apply held_read. Qed.

Lemma held_reads a' n w : frame a' -> held (w_hw (after_reads a' n w)) = held (w_hw w).
Proof.
  intros Hf. induction n as [| n IH]; [done |]. rewrite <- IH. by apply held_after_read.
Qed.

Lemma held_other a' v w : frame a' -> a' <> a -> held (w_hw (after_write a' v w)) = held (w_hw w).
Proof. intros Hf Hne. by apply held_after_write. Qed.

Lemma held_rmw a' f w : frame a' -> a' <> a -> held (w_hw (after_rmw a' f w)) = held (w_hw w).
Proof.
  intros Hf Hne. unfold after_rmw. rewrite held_other by done. by apply held_after_read.
Qed.
End held.

(** ** A concrete hardware *)

Record regfile_state := mkRegfile {
  rf_regs : gmap Z Z;             (* the registers written so far; others read 0 *)
  rf_script : list Z;             (* the answers of status reads still to come *)
  rf_sys : sysreg -> Z;
}.

(** Reads of the registers in [status] are answered from the script (0 when
    it is exhausted); all other registers read as last written. *)
Definition regfile_read (status : list Z) (a : Z) (h : regfile_state) : Z * regfile_state :=
  if decide (a ∈ status) then
    match rf_script h with
    | v :: rest => (v, mkRegfile (rf_regs h) rest (rf_sys h))
    | [] => (0, h)
    end
  else (default 0 (rf_regs h !! a), h).

Definition regfile_write (a v : Z) (h : regfile_state) : regfile_state :=
  mkRegfile (<[a := v]> (rf_regs h)) (rf_script h) (rf_sys h).

Definition regfile_set_sys (r : sysreg) (v : Z) (h : regfile_state) : regfile_state :=
  mkRegfile (rf_regs h) (rf_script h) (fun r' => if decide (r' = r) then v else rf_sys h r').

Definition regfile (status : list Z) : Hardware := {|
  hw_state := regfile_state;
  hw_read32 := regfile_read status;
  hw_write32 := regfile_write;
  hw_write64 := regfile_write;
  hw_mrs r h := (rf_sys h r, h);
  hw_msr := regfile_set_sys;
  hw_daifset imm h := regfile_set_sys DAIF (Z.lor (rf_sys h DAIF) (Z.shiftl imm 6)) h;
|}.

(** All registers and system registers 0, the given answers scripted. *)
Definition regfile_init (script : list Z) : regfile_state :=
  mkRegfile ∅ script (fun _ => 0).

Lemma regfile_held (status : list Z) frame a mask :
  a ∉ status -> fits U32 mask -> HeldBits (regfile status) frame a mask.
Proof.
  intros Ha Hm.
  unshelve refine {| held := fun (h : @hw_state (regfile status)) =>
    Z.land (wrap U32 (default 0 (rf_regs h !! a))) mask |}.
  - intros h. simpl. unfold regfile_read. by rewrite decide_False.
  - intros a' h _. simpl. unfold regfile_read. case_decide; [| done]. by destruct (rf_script h).
  - intros v h. simpl. rewrite lookup_insert, decide_True by done. simpl.
    apply Z.bits_inj'. intros i Hi. rewrite !Z.land_spec, wrap_bits by (unfold U32; lia).
    destruct (Z.ltb_spec i U32); [done |]. by rewrite (testbit_high U32 mask), !andb_false_r by done.
  - intros a' v h _ Hne. simpl. by rewrite lookup_insert_ne by done.
Qed.

(** A hardware whose registers all read 0: nothing is ever busy. *)
Definition quiet : Hardware := {|
  hw_state := unit;
  hw_read32 _ h := (0, h);
  hw_write32 _ _ h := h;
  hw_write64 _ _ h := h;
  hw_mrs _ h := (0, h);
  hw_msr _ _ h := h;
  hw_daifset _ h := h;
|}.

(** ** System registers that hold what was written to them *)

Class PlainSys (HW : Hardware) (r : sysreg) := {
  sys_at : hw_state -> Z;
  plain_mrs : forall h, hw_mrs r h = (sys_at h, h);
  plain_msr : forall v h, sys_at (hw_msr r v h) = v;
}.

Definition regfile_sys (status : list Z) (r : sysreg) : PlainSys (regfile status) r.
Proof.
  refine {| sys_at := fun (h : @hw_state (regfile status)) => rf_sys h r |}.
  - done.
  - intros v h. simpl. by rewrite decide_True.
Defined.
