(* ===== verification/RxBuffer.v ===== *)
(** * The circular receive buffer of src/drivers/uart/pl011.rs

    [push] and [pop] of [UartBuffer] as written, over an array of
    [UART_BUFFER_SIZE] slots of which one always stays free, and their
    refinement of a bounded FIFO queue of [UART_BUFFER_SIZE - 1] bytes. *)

From S2P Require Export RegFile.

Local Open Scope nat_scope.
Local Open Scope kernel_scope.

(** ** The abstract queue *)

Module Fifo.
Definition capacity : nat := 255.

Definition push (b : Z) (q : list Z) : bool * list Z :=
  if length q =? capacity then (false, q) else (true, q ++ [b]).

Definition pop (q : list Z) : option Z * list Z :=
  match q with [] => (None, []) | b :: q => (Some b, q) end.
End Fifo.

Section rx_buffer.
Context {HW : Hardware}.
Import UartBuffer.
Implicit Types (w : world) (rx : UartBuffer.t).

(** ** The code *)

Definition push (byte : Z) (rx : UartBuffer.t) : M (bool * UartBuffer.t) :=
  let head := head rx in
  let next_head := (head + 1) mod UART_BUFFER_SIZE in
  if next_head =? tail rx then ret (false, rx)
  else
    buffer <- arr_set (buffer rx) head byte ;;
    ret (true, {| buffer := buffer; head := next_head; tail := tail rx |}).

Definition pop (rx : UartBuffer.t) : M (option Z * UartBuffer.t) :=
  let tail := tail rx in
  if head rx =? tail then ret (None, rx)
  else
    byte <- arr_get (buffer rx) tail ;;
    let next_tail := (tail + 1) mod UART_BUFFER_SIZE in
    ret (Some byte, {| buffer := buffer rx; head := head rx; tail := next_tail |}).

(** ** Invariant and abstraction *)

Definition wf rx : Prop :=
  length (buffer rx) = UART_BUFFER_SIZE /\
  head rx < UART_BUFFER_SIZE /\ tail rx < UART_BUFFER_SIZE /\
  Forall (fits U8) (buffer rx).

(** The number of bytes waiting, and the bytes, oldest first. *)
Definition used rx : nat := (head rx + UART_BUFFER_SIZE - tail rx) mod UART_BUFFER_SIZE.

Definition slot rx (i : nat) : nat := (tail rx + i) mod UART_BUFFER_SIZE.

Definition contents rx : list Z :=
  (fun i => nth (slot rx i) (buffer rx) 0%Z) <$> seq 0 (used rx).

Lemma length_contents rx : length (contents rx) = used rx.
Proof. unfold contents. by rewrite length_fmap, length_seq. Qed.

Lemma used_bound rx : used rx <= Fifo.capacity.
Proof.
  unfold used, Fifo.capacity, UART_BUFFER_SIZE.
  pose proof (Nat.mod_upper_bound (head rx + 256 - tail rx) 256). lia.
Qed.

Lemma lookup_contents rx i :
  contents rx !! i = if decide (i < used rx) then Some (nth (slot rx i) (buffer rx) 0%Z) else None.
Proof.
  unfold contents. rewrite list_lookup_fmap. case_decide.
  - by rewrite lookup_seq_lt.
  - rewrite lookup_seq_ge by lia. done.
Qed.

Lemma wf_init : wf init.
Proof.
  repeat split; try (simpl; unfold UART_BUFFER_SIZE; lia).
  apply Forall_replicate. solve_fits.
Qed.

Lemma contents_init : contents init = [].
Proof. done. Qed.

(** The positions of a well-formed buffer, without modulo arithmetic. *)
Lemma used_eq rx :
  wf rx ->
  used rx = if tail rx <=? head rx then head rx - tail rx
            else head rx + UART_BUFFER_SIZE - tail rx.
Proof. intros (_ & Hh & Ht & _). by apply ring_dist. Qed.

Lemma slot_eq rx i :
  wf rx -> i < UART_BUFFER_SIZE ->
  slot rx i = if tail rx + i <? UART_BUFFER_SIZE then tail rx + i
              else tail rx + i - UART_BUFFER_SIZE.
Proof. intros (_ & Hh & Ht & _) Hi. by apply ring_add. Qed.

Lemma size_capacity : UART_BUFFER_SIZE = Fifo.capacity + 1.
Proof. done. Qed.

(** Linear arithmetic over the positions of the well-formed buffer [rx]. *)
Ltac ring_lia :=
  match goal with
  | H : wf ?rx |- _ =>
      pose proof size_capacity; pose proof (used_bound rx); pose proof (used_eq rx H);
      destruct H as (_ & ? & ? & _); unfold wf in *;
      generalize dependent Fifo.capacity; intros;
      generalize dependent UART_BUFFER_SIZE; intros;
      repeat case_match; lia
  end.

Lemma full_spec rx :
  wf rx -> ((head rx + 1) mod UART_BUFFER_SIZE = tail rx <-> used rx = Fifo.capacity).
Proof. intros Hwf. rewrite ring_succ by apply Hwf. ring_lia. Qed.

Lemma empty_spec rx : wf rx -> (head rx = tail rx <-> used rx = 0).
Proof. intros Hwf. ring_lia. Qed.

(** ** Refinement *)

(** Writing the slot under [head] does not disturb the bytes waiting. *)
Lemma slot_not_head rx i : wf rx -> i < used rx -> slot rx i <> head rx.
Proof. intros Hwf Hi. rewrite slot_eq by (done || ring_lia). ring_lia. Qed.

Lemma slot_bound rx i : slot rx i < UART_BUFFER_SIZE.
Proof. unfold slot, UART_BUFFER_SIZE. apply Nat.mod_upper_bound. lia. Qed.

Lemma nth_insert_ne {A} (l : list A) i j x d : i <> j -> nth j (<[i := x]> l) d = nth j l d.
Proof. intros. by rewrite !nth_lookup, list_lookup_insert_ne. Qed.

Lemma nth_insert_eq {A} (l : list A) i x d : i < length l -> nth i (<[i := x]> l) d = x.
Proof. intros. by rewrite nth_lookup, list_lookup_insert_eq. Qed.

Definition pushed (b : Z) rx : UartBuffer.t :=
  {| buffer := <[head rx := b]> (buffer rx);
     head := (head rx + 1) mod UART_BUFFER_SIZE;
     tail := tail rx |}.

Lemma wf_pushed b rx : wf rx -> fits U8 b -> wf (pushed b rx).
Proof.
  intros (Hl & Hh & Ht & Hf) Hb. repeat split; cbn [pushed head tail buffer].
  - by rewrite length_insert.
  - apply Nat.mod_upper_bound. unfold UART_BUFFER_SIZE. lia.
  - done.
  - by apply Forall_insert.
Qed.

Lemma used_pushed b rx : wf rx -> used rx <> Fifo.capacity -> used (pushed b rx) = used rx + 1.
Proof.
  intros Hwf Hu. unfold used at 1. cbn [pushed head tail].
  rewrite ring_succ by apply Hwf.
  destruct (Nat.eqb_spec (head rx + 1) UART_BUFFER_SIZE).
  - rewrite ring_dist by (apply Hwf || ring_lia). ring_lia.
  - rewrite ring_dist by (apply Hwf || ring_lia). ring_lia.
Qed.

Lemma slot_last rx : wf rx -> slot rx (used rx) = head rx.
Proof. intros Hwf. rewrite slot_eq by (done || ring_lia). ring_lia. Qed.

Lemma contents_pushed b rx :
  wf rx -> used rx <> Fifo.capacity -> contents (pushed b rx) = contents rx ++ [b].
Proof.
  intros Hwf Hn. apply list_eq. intros i.
  rewrite lookup_contents, used_pushed by done.
  destruct (decide (i < used rx)) as [Hi | Hi].
  - rewrite lookup_app_l by (by rewrite length_contents).
    rewrite lookup_contents, !decide_True by lia. simpl. f_equal.
    apply nth_insert_ne. symmetry. by apply slot_not_head.
  - rewrite lookup_app_r, length_contents by (rewrite length_contents; lia).
    destruct (decide (i = used rx)) as [-> |].
    + rewrite decide_True, Nat.sub_diag by lia. simpl. f_equal.
      change (slot (pushed b rx) (used rx)) with (slot rx (used rx)).
      rewrite slot_last by done. destruct Hwf as (Hl & Hh & _).
      apply nth_insert_eq. by rewrite Hl.
    + rewrite decide_False by lia. by rewrite lookup_ge_None_2 by (simpl; lia).
Qed.

Definition popped rx : UartBuffer.t :=
  {| buffer := buffer rx; head := head rx; tail := (tail rx + 1) mod UART_BUFFER_SIZE |}.

Lemma wf_popped rx : wf rx -> wf (popped rx).
Proof.
  intros (Hl & Hh & Ht & Hf). repeat split; cbn [popped head tail buffer]; try done.
  apply Nat.mod_upper_bound. unfold UART_BUFFER_SIZE. lia.
Qed.

Lemma used_popped rx : wf rx -> used rx <> 0 -> used (popped rx) = used rx - 1.
Proof.
  intros Hwf Hu. unfold used at 1. cbn [popped head tail].
  rewrite ring_succ by apply Hwf.
  destruct (Nat.eqb_spec (tail rx + 1) UART_BUFFER_SIZE).
  - rewrite ring_dist by (apply Hwf || ring_lia). ring_lia.
  - rewrite ring_dist by (apply Hwf || ring_lia). ring_lia.
Qed.

Lemma slot_popped rx i : wf rx -> slot (popped rx) i = slot rx (S i).
Proof.
  intros Hwf. unfold slot. cbn [popped tail].
  rewrite Nat.Div0.add_mod_idemp_l. f_equal. lia.
Qed.

Lemma contents_popped rx :
  wf rx -> used rx <> 0 ->
  contents rx = nth (tail rx) (buffer rx) 0%Z :: contents (popped rx).
Proof.
  intros Hwf Hn. apply list_eq. intros [| i]; cbn [lookup list_lookup].
  - rewrite lookup_contents, decide_True by lia. do 2 f_equal.
    unfold slot. rewrite Nat.add_0_r. apply Nat.mod_small, Hwf.
  - rewrite !lookup_contents, used_popped by done.
    destruct (decide (S i < used rx));
      [rewrite decide_True by lia | by rewrite decide_False by lia].
    by rewrite slot_popped.
Qed.

Lemma exec_push b rx w :
  wf rx ->
  push b rx w =
    Done (if used rx =? Fifo.capacity then (false, rx) else (true, pushed b rx)) w.
Proof.
  intros Hwf. unfold push.
  destruct (Nat.eqb_spec (used rx) Fifo.capacity) as [Hu | Hu];
    rewrite <- full_spec in Hu by done.
  - by rewrite (proj2 (Nat.eqb_eq _ _)).
  - rewrite (proj2 (Nat.eqb_neq _ _)) by done.
    destruct Hwf as (Hl & Hh & _).
    by rewrite (bind_done _ _ _ _ w (exec_arr_set _ _ _ _ (eq_ind_r (lt _) Hh Hl))).
Qed.

Lemma exec_pop rx w :
  wf rx ->
  pop rx w =
    Done (if used rx =? 0 then (None, rx)
          else (Some (nth (tail rx) (buffer rx) 0%Z), popped rx)) w.
Proof.
  intros Hwf. unfold pop.
  destruct (Nat.eqb_spec (used rx) 0) as [Hu | Hu]; rewrite <- empty_spec in Hu by done.
  - by rewrite (proj2 (Nat.eqb_eq _ _)).
  - rewrite (proj2 (Nat.eqb_neq _ _)) by done.
    destruct Hwf as (Hl & Hh & Ht & _). rewrite <- Hl in Ht.
    destruct (lookup_lt_is_Some_2 _ _ Ht) as [x Hx].
    rewrite (bind_done _ _ _ _ w (exec_arr_get _ _ _ _ Hx)).
    unfold ret. repeat f_equal. by rewrite nth_lookup, Hx.
Qed.

(** ** Sequences of operations *)

Inductive op := Push (b : Z) | Pop.

(** Runs the producer and consumer operations in the order given; collects
    the bytes accepted and the bytes delivered. *)
Fixpoint run_ops (ops : list op) (rx : UartBuffer.t) : M (list Z * list Z * UartBuffer.t) :=
  match ops with
  | [] => ret ([], [], rx)
  | Push b :: ops =>
      r <- push b rx ;;
      s <- run_ops ops (snd r) ;;
      let '(acc, out, rx') := s in
      ret (if fst r : bool then b :: acc else acc, out, rx')
  | Pop :: ops =>
      r <- pop rx ;;
      s <- run_ops ops (snd r) ;;
      let '(acc, out, rx') := s in
      ret (acc, match fst r with Some b => b :: out | None => out end, rx')
  end.

(** The same on the abstract queue. *)
Fixpoint fifo_run (ops : list op) (q : list Z) : list Z * list Z * list Z :=
  match ops with
  | [] => ([], [], q)
  | Push b :: ops =>
      let '(ok, q1) := Fifo.push b q in
      let '(acc, out, q') := fifo_run ops q1 in
      (if ok : bool then b :: acc else acc, out, q')
  | Pop :: ops =>
      let '(r, q1) := Fifo.pop q in
      let '(acc, out, q') := fifo_run ops q1 in
      (acc, match r with Some b => b :: out | None => out end, q')
  end.

(** What was waiting and what was accepted is what was delivered and what waits. *)
Lemma fifo_run_order ops q acc out q' : fifo_run ops q = (acc, out, q') -> q ++ acc = out ++ q'.
Proof.
  revert q acc out q'. induction ops as [| [b |] ops IH]; intros q acc out q'; simpl.
  - intros [= <- <- <-]. by rewrite app_nil_r.
  - unfold Fifo.push. destruct (length q =? Fifo.capacity)%nat;
      destruct (fifo_run ops _) as [[acc1 out1] q1] eqn:E; intros [= <- <- <-]; apply IH in E; [done |].
    by rewrite <- E, <- app_assoc.
  - destruct q as [| b q]; simpl;
      destruct (fifo_run ops q) as [[acc1 out1] q1] eqn:E || destruct (fifo_run ops []) as [[acc1 out1] q1] eqn:E;
      intros [= <- <- <-]; apply IH in E; [done | by rewrite <- app_comm_cons, E].
Qed.

Definition op_ok (o : op) : Prop := match o with Push b => fits U8 b | Pop => True end.

End rx_buffer.

Lemma exec_push_fifo {HW : Hardware} b rx (w : world) :
  wf rx -> fits U8 b ->
  exists rx',
    push b rx w = Done (fst (Fifo.push b (contents rx)), rx') w /\
    contents rx' = snd (Fifo.push b (contents rx)) /\ wf rx'.
Proof.
  intros Hwf Hb. rewrite exec_push by done. unfold Fifo.push. rewrite length_contents.
  destruct (Nat.eqb_spec (used rx) Fifo.capacity) as [Hu | Hu]; eexists; (split; [done |]).
  - done.
  - split; [by apply contents_pushed | by apply wf_pushed].
Qed.

Lemma exec_pop_fifo {HW : Hardware} rx (w : world) :
  wf rx ->
  exists rx',
    pop rx w = Done (fst (Fifo.pop (contents rx)), rx') w /\
    contents rx' = snd (Fifo.pop (contents rx)) /\ wf rx'.
Proof.
  intros Hwf. rewrite exec_pop by done.
  destruct (Nat.eqb_spec (used rx) 0) as [Hu | Hu].
  - assert (contents rx = []) as -> by (apply nil_length_inv; by rewrite length_contents).
    eexists; split; [done |]. simpl. split; [| done].
    apply nil_length_inv. by rewrite length_contents.
  - rewrite (contents_popped rx) by done. eexists; split; [done |].
    simpl. split; [done | by apply wf_popped].
Qed.

(** ** The theorem *)

(** C12: [UartBuffer] refines the bounded FIFO: over any sequence of pushes and
    pops, refused and empty ones included, the code accepts, delivers and keeps
    exactly the bytes that the queue of 255 places does.  So the bytes waiting
    and accepted are, in this order, those delivered and still waiting: none is
    lost, duplicated or overtaken. *)
Theorem rx_buffer_refines_fifo {HW : Hardware} ops rx (w : world) :
  wf rx -> Forall op_ok ops ->
  let '(acc, out, q) := fifo_run ops (contents rx) in
  contents rx ++ acc = out ++ q /\
  exists rx', run_ops ops rx w = Done (acc, out, rx') w /\ contents rx' = q /\ wf rx'.
Proof.
  intros Hwf Hok. destruct (fifo_run ops (contents rx)) as [[acc out] q] eqn:E.
  split; [by eapply fifo_run_order |]. revert rx acc out q Hwf E.
  induction Hok as [| [b |] ops Ho Hops IH]; intros rx acc out q Hwf; cbn [fifo_run run_ops].
  - intros [= <- <- <-]. by exists rx.
  - destruct (exec_push_fifo b rx w Hwf Ho) as (rx1 & E1 & Hc & Hwf1).
    rewrite (bind_done _ _ _ _ _ E1). destruct (Fifo.push b (contents rx)) as [ok q1].
    cbn [fst snd] in *. destruct (fifo_run ops q1) as [[acc1 out1] q2] eqn:E2. intros [= <- <- <-].
    rewrite <- Hc in E2. destruct (IH rx1 _ _ _ Hwf1 E2) as (rx' & E3 & H).
    rewrite (bind_done _ _ _ _ _ E3). by exists rx'.
  - destruct (exec_pop_fifo rx w Hwf) as (rx1 & E1 & Hc & Hwf1).
    rewrite (bind_done _ _ _ _ _ E1). destruct (Fifo.pop (contents rx)) as [r q1].
    cbn [fst snd] in *. destruct (fifo_run ops q1) as [[acc1 out1] q2] eqn:E2. intros [= <- <- <-].
    rewrite <- Hc in E2. destruct (IH rx1 _ _ _ Hwf1 E2) as (rx' & E3 & H).
    rewrite (bind_done _ _ _ _ _ E3). by exists rx'.
Qed.

(** *** Witnesses *)

(** A buffer whose indices have wrapped around: three bytes, from slot 255 on. *)
Definition wrapped : UartBuffer.t :=
  UartBuffer.mk (<[255 := 65%Z]> (<[0 := 66%Z]> (<[1 := 67%Z]> (replicate 256 0%Z)))) 2 255.

Lemma wrapped_wf : wf wrapped.
Proof.
  split; [done |]. split; [simpl; unfold UartBuffer.UART_BUFFER_SIZE; lia |].
  split; [simpl; unfold UartBuffer.UART_BUFFER_SIZE; lia |].
  unfold wrapped. cbn [UartBuffer.buffer].
  repeat apply Forall_insert; try solve_fits. apply Forall_replicate. solve_fits.
Qed.

Lemma rx_buffer_refines_fifo_witness :
  exists rx', @run_ops quiet [Push 68; Pop; Pop; Push 69] wrapped (@boot_world quiet tt ∅) =
      Done ([68; 69], [65; 66], rx')%Z (@boot_world quiet tt ∅) /\
    contents rx' = [67; 68; 69]%Z.
Proof.
  destruct (rx_buffer_refines_fifo [Push 68; Pop; Pop; Push 69] wrapped (@boot_world quiet tt ∅) wrapped_wf)
    as (_ & rx' & E & Hc & _).
  - repeat constructor; simpl; solve_fits.
  - exists rx'. split; [exact E | exact Hc].
Defined.
