(* ===== verification/IrqSafeMutex.v ===== *)
(** * src/ipc/irq_safe_mutex.rs: the spin-lock mutex, sequentially

    The operations as one CPU runs them.  A mutex lives somewhere in the
    world; a [place] says where (its getter and setter), so that the operations
    are written once for any static.  The closure of [lock] gets the protected
    data and returns its result with the data it leaves behind.  The
    interleavings with interrupt handlers and other cores are in
    [LockInterleaving]. *)

From S2P Require Export Machine.

Local Open Scope Z_scope.
Local Open Scope kernel_scope.

Section places.
Context {HW : Hardware}.

Record place (T : Type) := mkPlace {
  pl_get : world -> T;
  pl_put : T -> world -> world;
}.
Arguments pl_get {T} _ _.
Arguments pl_put {T} _ _ _.

(** What the operations need to know about a place. *)
Class PlaceLaws {T} (p : place T) : Prop := {
  place_get_put : forall v w, pl_get p (pl_put p v w) = v;
  place_put_put : forall v v' w, pl_put p v (pl_put p v' w) = pl_put p v w;
  place_put_get : forall w, pl_put p (pl_get p w) w = w;
  place_get_log : forall e w, pl_get p (log e w) = pl_get p w;
  place_get_hw : forall h w, pl_get p (set_hw h w) = pl_get p w;
  place_hw_put : forall v w, w_hw (pl_put p v w) = w_hw w;
}.
End places.

Arguments mkPlace {HW T} _ _.
Arguments pl_get {HW T} _ _.
Arguments pl_put {HW T} _ _ _.

Section mutex.
Context {HW : Hardware} {T : Type}.
Implicit Types (w : world) (m : place (Mutex.t T)).

Definition disable_irq : M Z :=
  daif <- mrs DAIF ;;
  msr_daifset 2 ;;
  ret daif.

Definition restore_interrupts (daif : Z) : M unit := msr DAIF daif.

(** [lock.compare_exchange(false, true, ..).is_err()] *)
Definition compare_exchange_is_err m : M bool :=
  mx <- gets (pl_get m) ;;
  if Mutex.lock mx then ret true
  else
    modify (pl_put m (Mutex.mk true (Mutex.data mx))) ;;
    ret false.

(** [f(&mut *self.data.get())] *)
Definition with_data {R} m (f : T -> M (R * T)) : M R :=
  mx <- gets (pl_get m) ;;
  r <- f (Mutex.data mx) ;;
  modify (fun w => pl_put m (Mutex.mk (Mutex.lock (pl_get m w)) (snd r)) w) ;;
  ret (fst r).

(** [self.lock.store(false, ..)] *)
Definition store_unlocked m : M unit :=
  modify (fun w => pl_put m (Mutex.mk false (Mutex.data (pl_get m w))) w).

Definition lock {R} (fuel : nat) m (f : T -> M (R * T)) : M R :=
  spin_while fuel (compare_exchange_is_err m) ;;
  result <- with_data m f ;;
  store_unlocked m ;;
  ret result.

Definition lock_irqsafe {R} (fuel : nat) m (f : T -> M (R * T)) : M R :=
  daif_state <- disable_irq ;;
  result <- lock fuel m f ;;
  restore_interrupts daif_state ;;
  ret result.

(** The world inside the critical section. *)
Definition acquired m w : world := pl_put m (Mutex.mk true (Mutex.data (pl_get m w))) w.

(** The world after the critical section left [d] behind. *)
Definition released m (d : T) w : world := pl_put m (Mutex.mk false d) w.

Lemma spin_lock_free fuel m w :
  Mutex.lock (pl_get m w) = false ->
  spin_while (S fuel) (compare_exchange_is_err m) w = Done tt (acquired m w).
Proof.
  intros Hl. simpl. unfold compare_exchange_is_err.
  rewrite bind_bind, (bind_done _ _ _ _ w (exec_gets _ _)), Hl. done.
Qed.

Lemma spin_lock_held fuel m w :
  Mutex.lock (pl_get m w) = true ->
  spin_while fuel (compare_exchange_is_err m) w = Spinning w.
Proof.
  intros Hl. induction fuel as [| fuel IH]; [done |]. simpl.
  rewrite (bind_done _ _ _ true w); [exact IH |].
  unfold compare_exchange_is_err.
  by rewrite (bind_done _ _ _ _ w (exec_gets _ _)), Hl.
Qed.

(** A free lock: the closure runs on the data with the lock taken, its result
    is returned, its data stored, the lock released. *)
Lemma exec_lock {R} `{!PlaceLaws m} fuel (f : T -> M (R * T)) w r d w1 :
  Mutex.lock (pl_get m w) = false ->
  f (Mutex.data (pl_get m w)) (acquired m w) = Done (r, d) w1 ->
  lock (S fuel) m f w = Done r (released m d w1).
Proof.
  intros Hl Hf. unfold lock.
  rewrite (bind_done _ _ _ _ _ (spin_lock_free fuel m w Hl)).
  erewrite bind_done.
  2:{ unfold with_data. rewrite (bind_done _ _ _ _ _ (exec_gets _ _)).
      unfold acquired at 1. rewrite place_get_put. simpl.
      rewrite (bind_done _ _ _ _ _ Hf). done. }
  unfold store_unlocked, bind, modify, ret, released. simpl.
  by rewrite place_get_put, place_put_put.
Qed.

Lemma exec_disable_irq w :
  disable_irq w = Done (peek_reg DAIF w) (after_daifset 2 (after_mrs DAIF w)).
Proof. done. Qed.

(** The world in which [lock_irqsafe] starts to acquire the lock. *)
Definition irqs_off w : world := after_daifset 2 (after_mrs DAIF w).

Lemma irqs_off_get `{!PlaceLaws m} w : pl_get m (irqs_off w) = pl_get m w.
Proof.
  unfold irqs_off, after_daifset, after_mrs. by rewrite !place_get_log, !place_get_hw, place_get_log, place_get_hw.
Qed.

Lemma exec_lock_irqsafe {R} `{!PlaceLaws m} fuel (f : T -> M (R * T)) w r d w1 :
  Mutex.lock (pl_get m w) = false ->
  f (Mutex.data (pl_get m w)) (acquired m (irqs_off w)) = Done (r, d) w1 ->
  lock_irqsafe (S fuel) m f w =
    Done r (after_msr DAIF (peek_reg DAIF w) (released m d w1)).
Proof.
  intros Hl Hf. unfold lock_irqsafe.
  rewrite (bind_done _ _ _ _ _ (exec_disable_irq w)).
  erewrite bind_done; [done |].
  apply exec_lock; fold (irqs_off w); by rewrite irqs_off_get.
Qed.

End mutex.
