(* ===== verification/Device.v ===== *)
(** * src/kernel/device.rs: properties of a device node

    Lookup of a property by name and of the parent's cell counts, with what
    they return in terms of the node's list of valid properties. *)

From S2P Require Export Convert.

Local Open Scope Z_scope.
Local Open Scope kernel_scope.

Section device.
Context {HW : Hardware}.
Implicit Types (w : world) (d : PlatformDevice.t).

(** [&*ptr] for a pointer into [DEVICE_TABLE]. *)
Definition deref_device (idx : nat) : M PlatformDevice.t :=
  dtb <- gets w_dtb ;;
  match DtbTables.DEVICE_TABLE dtb !! idx with Some d => ret d | None => fault end.

Definition find_property (self : PlatformDevice.t) (name : string) : M (option Property.t) :=
  for_find (seq 0 (PlatformDevice.prop_count self)) (fun i =>
    prop <- arr_get (PlatformDevice.properties self) i ;;
    if String.eqb (Property.name prop) name then ret (Some prop) else ret None).

(** One iteration of the loop of [get_parent_cells]. *)
Definition parent_cells_step (parent : PlatformDevice.t) (cells : Z * Z) (i : nat) : M (Z * Z) :=
  let '(addr_cells, size_cells) := cells in
  prop <- arr_get (PlatformDevice.properties parent) i ;;
  if String.eqb (Property.name prop) "#address-cells" then
    addr_cells <- read_be_u32 (Property.value prop) 0 ;;
    ret (addr_cells, size_cells)
  else if String.eqb (Property.name prop) "#size-cells" then
    size_cells <- read_be_u32 (Property.value prop) 0 ;;
    ret (addr_cells, size_cells)
  else ret (addr_cells, size_cells).

Definition get_parent_cells (self : PlatformDevice.t) : M (Z * Z) :=
  match PlatformDevice.parent self with
  | None => ret (2, 1)
  | Some p =>
      parent <- deref_device p ;;
      for_each (seq 0 (PlatformDevice.prop_count parent)) (2, 1) (parent_cells_step parent)
  end.

(** ** What they compute *)

(** The properties a node has, by its own count. *)
Definition valid_props d : list Property.t :=
  take (PlatformDevice.prop_count d) (PlatformDevice.properties d).

Definition wf_device d : Prop :=
  length (PlatformDevice.properties d) = PlatformDevice.MAX_PROPS /\
  (PlatformDevice.prop_count d <= PlatformDevice.MAX_PROPS)%nat.

(** The first property with the given name. *)
Definition first_named (name : string) (ps : list Property.t) : option Property.t :=
  find (fun p => String.eqb (Property.name p) name) ps.

Lemma wf_device_new : wf_device PlatformDevice.new.
Proof. split; simpl; unfold PlatformDevice.MAX_PROPS; lia. Qed.

(** Early-return loops over the first [n] slots of an array. *)
Lemma for_find_array {A} (l : list A) (p : A -> bool) k n w :
  (k + n <= length l)%nat ->
  for_find (seq k n) (fun i =>
    x <- arr_get l i ;; if p x then ret (Some x) else ret None) w =
  Done (find p (take n (drop k l))) w.
Proof.
  revert k. induction n as [| n IH]; intros k Hlen; [done |]. simpl seq. simpl for_find.
  destruct (lookup_lt_is_Some_2 l k) as [x Hx]; [lia |].
  rewrite (drop_S l x k) by done. simpl.
  erewrite bind_done by (rewrite (bind_done _ _ _ x w) by (by apply exec_arr_get);
    instantiate (1 := w); instantiate (1 := if p x then Some x else None); by destruct (p x)).
  destruct (p x); [done |]. apply IH. lia.
Qed.

Lemma exec_find_property d name w :
  wf_device d -> find_property d name w = Done (first_named name (valid_props d)) w.
Proof.
  intros [Hl Hc]. unfold find_property, first_named, valid_props.
  rewrite (for_find_array _ (fun p => String.eqb (Property.name p) name)) by lia.
  by rewrite drop_0.
Qed.

(** More properties claimed than the array has: the scan runs off the array
    and panics if the name is not found before. *)
Lemma first_named_Some name ps p :
  first_named name ps = Some p -> p ∈ ps /\ Property.name p = name.
Proof.
  intros H. apply find_some in H as [Hin Hn].
  split; [by apply list_elem_of_In | by apply String.eqb_eq].
Qed.

Lemma first_named_None name ps :
  first_named name ps = None <-> Forall (fun p => Property.name p <> name) ps.
Proof.
  unfold first_named. rewrite Forall_forall. split.
  - intros H p Hp He. apply list_elem_of_In in Hp.
    pose proof (find_none _ _ H p Hp) as Hf. simpl in Hf. by apply String.eqb_neq in Hf.
  - intros H. destruct (find _ ps) as [p |] eqn:Hf; [| done].
    apply find_some in Hf as [Hin Hn]. apply String.eqb_eq in Hn.
    destruct (H p); [by apply list_elem_of_In | done].
Qed.

(** Cell counts: a property that is readable as a [u32]. *)
Definition u32_at (ram : gmap Z byte) (p v : Z) : Prop :=
  place_ok p /\ fits U32 v /\ ram_bytes ram p (be_split 4 v).

Lemma u32_at_mono ram ram' p v : ram ⊆ ram' -> u32_at ram p v -> u32_at ram' p v.
Proof. intros Hs (Hp & Hv & Hb). do 2 (split; [done |]). by eapply ram_bytes_mono. Qed.

Lemma exec_read_u32_at p off v w :
  u32_at (w_ram w) (p + off) v -> read_be_u32 p off w = Done v w.
Proof. intros (Hp & Hv & Hb). by apply read_be_u32_split. Qed.

(** The cell counts the properties [ps] give, later properties overriding
    earlier ones, where [val] is the [u32] each property holds. *)
Fixpoint cells_of (val : Property.t -> Z) (ps : list Property.t) (c : Z * Z) : Z * Z :=
  match ps with
  | [] => c
  | p :: ps =>
      cells_of val ps
        (if String.eqb (Property.name p) "#address-cells" then (val p, snd c)
         else if String.eqb (Property.name p) "#size-cells" then (fst c, val p)
         else c)
  end.

Definition is_cells (p : Property.t) : Prop :=
  Property.name p = "#address-cells" \/ Property.name p = "#size-cells".

Lemma exec_parent_cells_loop (parent : PlatformDevice.t) val w k n c :
  (k + n <= length (PlatformDevice.properties parent))%nat ->
  (forall p, p ∈ take n (drop k (PlatformDevice.properties parent)) -> is_cells p ->
     u32_at (w_ram w) (Property.value p) (val p)) ->
  for_each (seq k n) c (parent_cells_step parent) w =
    Done (cells_of val (take n (drop k (PlatformDevice.properties parent))) c) w.
Proof.
  revert k c. induction n as [| n IH]; intros k c Hlen Hval; [done |].
  destruct (lookup_lt_is_Some_2 (PlatformDevice.properties parent) k) as [x Hx]; [lia |].
  rewrite (drop_S _ x k) in Hval |- * by done. simpl take in Hval |- *. simpl seq. simpl for_each.
  assert (is_cells x -> read_be_u32 (Property.value x) 0 w = Done (val x) w) as Hread.
  { intros Hc. apply exec_read_u32_at. rewrite Z.add_0_r. apply Hval; [by left | done]. }
  rewrite (bind_done _ _ _ (if String.eqb (Property.name x) "#address-cells" then (val x, snd c)
         else if String.eqb (Property.name x) "#size-cells" then (fst c, val x) else c) w).
  - apply IH; [lia |]. intros p Hp. apply Hval. by right.
  - unfold parent_cells_step. destruct c as [a s].
    rewrite (bind_done _ _ _ x w) by by apply exec_arr_get.
    destruct (String.eqb_spec (Property.name x) "#address-cells") as [Hn | _].
    { by rewrite (bind_done _ _ _ _ _ (Hread (or_introl Hn))). }
    destruct (String.eqb_spec (Property.name x) "#size-cells") as [Hn | _]; [| done].
    by rewrite (bind_done _ _ _ _ _ (Hread (or_intror Hn))).
Qed.

Lemma exec_get_parent_cells d p parent val w :
  PlatformDevice.parent d = Some p ->
  DtbTables.DEVICE_TABLE (w_dtb w) !! p = Some parent -> wf_device parent ->
  (forall q, q ∈ valid_props parent -> is_cells q ->
     u32_at (w_ram w) (Property.value q) (val q)) ->
  get_parent_cells d w = Done (cells_of val (valid_props parent) (2, 1)) w.
Proof.
  intros Hp Ht [Hl Hc] Hval. unfold get_parent_cells. rewrite Hp.
  rewrite (bind_done _ _ _ parent w).
  - rewrite (exec_parent_cells_loop _ val) by (rewrite ?drop_0; done || lia).
    by rewrite drop_0.
  - unfold deref_device. rewrite (bind_done _ _ _ _ _ (exec_gets _ _)). by rewrite Ht.
Qed.

End device.
