(* ===== verification/DtbLookup.v ===== *)
(** * src/kernel/dtb.rs, the queries: phandles, interrupt parents, compatible strings

    The functions the drivers call on the tables the parser has filled.  The
    table invariant [wf_tables] is what the parser establishes: in particular
    a parent has a smaller index than its children, so the walk up the tree
    terminates. *)

From S2P Require Export Device.

Local Open Scope Z_scope.
Local Open Scope kernel_scope.

Section lookup.
Context {HW : Hardware}.
Import DtbTables.
Implicit Types (w : world) (d : PlatformDevice.t) (t : DtbTables.t).

(** ** The code *)

Definition find_device_by_phandle (phandle : Z) : M (option PlatformDevice.t) :=
  dtb <- gets w_dtb ;;
  for_find (seq 0 (PHANDLE_COUNT dtb)) (fun i =>
    entry <- arr_get (PHANDLE_TABLE dtb) i ;;
    let '(phandle_val, dev_idx) := entry in
    if phandle_val =? phandle then
      dev <- arr_get (DEVICE_TABLE dtb) dev_idx ;;
      ret (Some dev)
    else ret None).

(** The [for] loop of [find_interrupt_parent]: [Some r] is [return r]. *)
Definition scan_interrupt_parent (current : PlatformDevice.t)
    : M (option (option PlatformDevice.t)) :=
  for_find (seq 0 (PlatformDevice.prop_count current)) (fun i =>
    prop <- arr_get (PlatformDevice.properties current) i ;;
    if String.eqb (Property.name prop) "interrupt-parent" then
      phandle <- read_be_u32 (Property.value prop) 0 ;;
      r <- find_device_by_phandle phandle ;;
      ret (Some r)
    else ret None).

(** The [while current != null] loop. *)
Fixpoint walk_up (fuel : nat) (current : option nat) : M (option PlatformDevice.t) :=
  match current with
  | None => ret None
  | Some c =>
      match fuel with
      | O => spin
      | S fuel =>
          cur <- deref_device c ;;
          r <- scan_interrupt_parent cur ;;
          match r with
          | Some r => ret r
          | None => walk_up fuel (PlatformDevice.parent cur)
          end
      end
  end.

Definition find_interrupt_parent (fuel : nat) (dev : PlatformDevice.t)
    : M (option PlatformDevice.t) :=
  walk_up fuel (PlatformDevice.parent dev).

(** [while offset + str_len < prop.len && *str_start.add(str_len) != 0]: the
    fuel is the number of bytes left, so it is never used up. *)
Fixpoint compat_len (fuel : nat) (str_start offset len str_len : Z) : M Z :=
  if offset + str_len <? len then
    match fuel with
    | O => spin
    | S fuel =>
        p <- ptr_add str_start str_len ;;
        b <- load_byte p ;;
        if byte.unsigned b =? 0 then ret str_len
        else compat_len fuel str_start offset len (str_len + 1)
    end
  else ret str_len.

(** [while offset < prop.len] *)
Fixpoint compat_loop (fuel : nat) (prop : Property.t) (target : string) (offset : Z) : M bool :=
  if offset <? Property.len prop then
    match fuel with
    | O => spin
    | S fuel =>
        str_start <- ptr_add (Property.value prop) offset ;;
        str_len <- compat_len (Z.to_nat (Property.len prop - offset)) str_start offset
                     (Property.len prop) 0 ;;
        slice <- load_bytes str_start (Z.to_nat str_len) ;;
        if String.eqb (String.string_of_list_byte slice) target then ret true
        else
          next <- uadd USIZE str_len 1 ;;
          offset <- uadd USIZE offset next ;;
          compat_loop fuel prop target offset
    end
  else ret false.

Definition compatible_matches (prop : Property.t) (target : string) : M bool :=
  compat_loop (Z.to_nat (Property.len prop)) prop target 0.

(** ** The table invariant *)

Definition wf_tables t : Prop :=
  length (DEVICE_TABLE t) = MAX_DEVICES /\ length (PHANDLE_TABLE t) = MAX_HANDLES /\
  (DEVICE_COUNT t <= MAX_DEVICES)%nat /\ (PHANDLE_COUNT t <= MAX_HANDLES)%nat /\
  (forall i d, DEVICE_TABLE t !! i = Some d ->
     wf_device d /\ forall p, PlatformDevice.parent d = Some p -> (p < i)%nat) /\
  (forall i e, (i < PHANDLE_COUNT t)%nat -> PHANDLE_TABLE t !! i = Some e ->
     (snd e < DEVICE_COUNT t)%nat).

Lemma wf_tables_init : wf_tables init.
Proof.
  split; [done |]. split; [done |]. split; [simpl; lia |]. split; [simpl; lia |].
  split; [| simpl; lia].
  intros i d Hd. apply lookup_replicate in Hd as [-> _].
  split; [apply wf_device_new | done].
Qed.

(** ** Phandles *)

(** The index registered first for a phandle. *)
Definition phandle_index t (phandle : Z) : option nat :=
  snd <$> find (fun e : Z * nat => fst e =? phandle) (take (PHANDLE_COUNT t) (PHANDLE_TABLE t)).

Definition device_of_phandle t (phandle : Z) : option PlatformDevice.t :=
  i ← phandle_index t phandle; DEVICE_TABLE t !! i.

Lemma phandle_index_bound t ph i :
  wf_tables t -> phandle_index t ph = Some i -> (i < DEVICE_COUNT t)%nat.
Proof.
  intros (_ & Hpl & _ & Hpc & _ & Hph) Hi. unfold phandle_index in Hi.
  apply fmap_Some in Hi as (e & He & ->). apply find_some in He as [He _].
  apply list_elem_of_In, list_elem_of_lookup in He as [k Hk].
  apply lookup_take_Some in Hk as [Hk Hlt]. by eapply Hph.
Qed.

Lemma for_find_phandle t ph w k n :
  wf_tables t -> (k + n <= PHANDLE_COUNT t)%nat ->
  for_find (seq k n) (fun i =>
    entry <- arr_get (PHANDLE_TABLE t) i ;;
    let '(phandle_val, dev_idx) := entry in
    if phandle_val =? ph then
      dev <- arr_get (DEVICE_TABLE t) dev_idx ;; ret (Some dev)
    else ret None) w =
  Done (e ← find (fun e : Z * nat => fst e =? ph) (take n (drop k (PHANDLE_TABLE t)));
        DEVICE_TABLE t !! e.2) w.
Proof.
  intros (Hdl & Hpl & Hdc & Hpc & _ & Hph). revert k.
  induction n as [| n IH]; intros k Hk; [done |]. simpl seq. simpl for_find.
  destruct (lookup_lt_is_Some_2 (PHANDLE_TABLE t) k) as [[v idx] He]; [lia |].
  rewrite (drop_S _ (v, idx) k) by done. simpl.
  assert (idx < DEVICE_COUNT t)%nat as Hidx by (apply (Hph k (v, idx)); [lia | done]).
  destruct (lookup_lt_is_Some_2 (DEVICE_TABLE t) idx) as [d Hd]; [lia |].
  destruct (Z.eqb_spec v ph) as [-> | Hv].
  - erewrite bind_done.
    2:{ rewrite (bind_done _ _ _ _ w (exec_arr_get _ _ _ _ He)). simpl.
        rewrite Z.eqb_refl. by rewrite (bind_done _ _ _ _ w (exec_arr_get _ _ _ _ Hd)). }
    simpl. by rewrite Hd.
  - erewrite bind_done.
    2:{ rewrite (bind_done _ _ _ _ w (exec_arr_get _ _ _ _ He)). simpl.
        by rewrite (proj2 (Z.eqb_neq v ph)). }
    simpl. apply IH. lia.
Qed.

Lemma exec_find_device_by_phandle ph w :
  wf_tables (w_dtb w) ->
  find_device_by_phandle ph w = Done (device_of_phandle (w_dtb w) ph) w.
Proof.
  intros Hwf. unfold find_device_by_phandle.
  rewrite (bind_done _ _ _ _ w (exec_gets _ _)), for_find_phandle by (done || lia).
  rewrite drop_0. unfold device_of_phandle, phandle_index.
  by destruct (find _ _).
Qed.

(** ** Interrupt parents *)

(** The ancestors of a node, nearest first ([fuel] bounds the depth). *)
Fixpoint ancestors t (fuel : nat) (cur : option nat) : list PlatformDevice.t :=
  match fuel, cur with
  | S fuel, Some c =>
      match DEVICE_TABLE t !! c with
      | Some d => d :: ancestors t fuel (PlatformDevice.parent d)
      | None => []
      end
  | _, _ => []
  end.

(** What the first [interrupt-parent] property of [d] designates. *)
Definition interrupt_parent_of t (val : Property.t -> Z) d : option (option PlatformDevice.t) :=
  p ← first_named "interrupt-parent" (valid_props d);
  Some (device_of_phandle t (val p)).

(** The nearest ancestor with an [interrupt-parent] property decides. *)
Definition nearest_interrupt_parent t val (ds : list PlatformDevice.t) : option PlatformDevice.t :=
  default None (list_find (fun d => is_Some (interrupt_parent_of t val d)) ds
                  ≫= fun '(_, d) => interrupt_parent_of t val d).

Definition readable_props w (name : string) (val : Property.t -> Z) d : Prop :=
  forall p, p ∈ valid_props d -> Property.name p = name ->
    u32_at (w_ram w) (Property.value p) (val p).

Lemma for_find_scan d val w k n :
  wf_tables (w_dtb w) ->
  (k + n <= length (PlatformDevice.properties d))%nat ->
  (forall p, p ∈ take n (drop k (PlatformDevice.properties d)) ->
     Property.name p = "interrupt-parent" -> u32_at (w_ram w) (Property.value p) (val p)) ->
  for_find (seq k n) (fun i =>
    prop <- arr_get (PlatformDevice.properties d) i ;;
    if String.eqb (Property.name prop) "interrupt-parent" then
      phandle <- read_be_u32 (Property.value prop) 0 ;;
      r <- find_device_by_phandle phandle ;;
      ret (Some r)
    else ret None) w =
  Done (p ← first_named "interrupt-parent" (take n (drop k (PlatformDevice.properties d)));
        Some (device_of_phandle (w_dtb w) (val p))) w.
Proof.
  intros Hwf. revert k. induction n as [| n IH]; intros k Hk Hval; [done |].
  simpl seq. simpl for_find.
  destruct (lookup_lt_is_Some_2 (PlatformDevice.properties d) k) as [p Hp]; [lia |].
  rewrite (drop_S _ p k) in Hval |- * by done. simpl take in Hval |- *.
  unfold first_named. simpl.
  destruct (String.eqb_spec (Property.name p) "interrupt-parent") as [Hn | Hn].
  - erewrite bind_done.
    2:{ rewrite (bind_done _ _ _ _ w (exec_arr_get _ _ _ _ Hp)).
        rewrite (proj2 (String.eqb_eq _ _) Hn).
        erewrite bind_done by (apply exec_read_u32_at; rewrite Z.add_0_r; apply Hval; [by left | done]).
        by erewrite bind_done by by apply exec_find_device_by_phandle. }
    done.
  - erewrite bind_done.
    2:{ rewrite (bind_done _ _ _ _ w (exec_arr_get _ _ _ _ Hp)).
        by rewrite (proj2 (String.eqb_neq _ _) Hn). }
    apply IH; [lia |]. intros q Hq. apply Hval. by right.
Qed.

Lemma exec_scan_interrupt_parent d val w :
  wf_tables (w_dtb w) -> wf_device d -> readable_props w "interrupt-parent" val d ->
  scan_interrupt_parent d w = Done (interrupt_parent_of (w_dtb w) val d) w.
Proof.
  intros Hwf [Hl Hc] Hval. unfold scan_interrupt_parent.
  rewrite (for_find_scan d val) by (rewrite ?drop_0; done || lia). by rewrite drop_0.
Qed.

Lemma exec_walk_up val w fuel cur :
  wf_tables (w_dtb w) ->
  (forall d, d ∈ DEVICE_TABLE (w_dtb w) -> readable_props w "interrupt-parent" val d) ->
  (forall c, cur = Some c -> c < fuel /\ c < MAX_DEVICES)%nat ->
  walk_up fuel cur w =
    Done (nearest_interrupt_parent (w_dtb w) val (ancestors (w_dtb w) fuel cur)) w.
Proof.
  intros Hwf Hval. revert cur.
  induction fuel as [| fuel IH]; intros [c |] Hc; try done.
  { destruct (Hc c eq_refl). lia. }
  destruct (Hc c eq_refl) as [Hcf Hcm]. pose proof Hwf as (Hl & _ & _ & _ & Hdev & _).
  destruct (lookup_lt_is_Some_2 (DEVICE_TABLE (w_dtb w)) c) as [d Hd]; [lia |].
  destruct (Hdev c d Hd) as [Hwd Hpar].
  simpl. rewrite Hd.
  rewrite (bind_done _ _ _ d w).
  2:{ unfold deref_device. by rewrite (bind_done _ _ _ _ _ (exec_gets _ _)), Hd. }
  rewrite (bind_done _ _ _ _ w (exec_scan_interrupt_parent d val w Hwf Hwd
    (Hval d (list_elem_of_lookup_2 _ _ _ Hd)))).
  unfold nearest_interrupt_parent. simpl.
  destruct (interrupt_parent_of (w_dtb w) val d) as [r |] eqn:Hr.
  - rewrite decide_True by done. simpl. by rewrite Hr.
  - rewrite decide_False by (intros [? ?]; done). rewrite IH.
    + unfold nearest_interrupt_parent. by destruct (list_find _ _) as [[? ?] |].
    + intros p Hp. specialize (Hpar p Hp). lia.
Qed.

(** Beyond the node's own index, more fuel finds no more ancestors. *)
Lemma ancestors_fuel t f1 f2 cur :
  wf_tables t -> (forall c, cur = Some c -> c < f1 /\ c < f2)%nat ->
  ancestors t f1 cur = ancestors t f2 cur.
Proof.
  intros (_ & _ & _ & _ & Hdev & _). revert f2 cur.
  induction f1 as [| f1 IH]; intros [| f2] [c |] Hc; try done;
    try (destruct (Hc c eq_refl); lia).
  simpl. destruct (DEVICE_TABLE t !! c) as [d |] eqn:Hd; [| done].
  f_equal. apply IH. intros p Hp. destruct (Hdev c d Hd) as [_ Hpar].
  specialize (Hpar p Hp). destruct (Hc c eq_refl). lia.
Qed.

(** [intc] is the interrupt controller of [dev]: the device designated by the
    [interrupt-parent] property of the nearest ancestor that has one. *)
Definition interrupt_controller w val (dev : PlatformDevice.t) (r : option PlatformDevice.t) : Prop :=
  wf_tables (w_dtb w) /\
  (forall d, d ∈ DEVICE_TABLE (w_dtb w) -> readable_props w "interrupt-parent" val d) /\
  (forall c, PlatformDevice.parent dev = Some c -> c < MAX_DEVICES)%nat /\
  nearest_interrupt_parent (w_dtb w) val
    (ancestors (w_dtb w) MAX_DEVICES (PlatformDevice.parent dev)) = r.

Lemma exec_find_interrupt_parent fuel val dev r w :
  (MAX_DEVICES <= fuel)%nat -> interrupt_controller w val dev r ->
  find_interrupt_parent fuel dev w = Done r w.
Proof.
  intros Hf (Hwf & Hval & Hpar & <-). unfold find_interrupt_parent.
  rewrite (exec_walk_up val) by (done || (intros c Hc; specialize (Hpar c Hc); lia)).
  by rewrite (ancestors_fuel _ MAX_DEVICES fuel) by
    (done || (intros c Hc; specialize (Hpar c Hc); lia)).
Qed.

(** ** Compatible strings *)

(** The bytes before the first NUL. *)
Fixpoint until_nul (bs : list byte) : list byte :=
  match bs with
  | [] => []
  | b :: bs => if byte.unsigned b =? 0 then [] else b :: until_nul bs
  end.

(** The NUL-separated strings of a value; a final NUL adds no empty string. *)
Fixpoint split_nul (acc bs : list byte) : list (list byte) :=
  match bs with
  | [] => match acc with [] => [] | _ => [acc] end
  | b :: bs => if byte.unsigned b =? 0 then acc :: split_nul [] bs else split_nul (acc ++ [b]) bs
  end.

Definition strings_of (bs : list byte) : list string :=
  String.string_of_list_byte <$> split_nul [] bs.

Lemma split_nul_cons acc bs :
  bs <> [] ->
  split_nul acc bs = (acc ++ until_nul bs) :: split_nul [] (drop (S (length (until_nul bs))) bs).
Proof.
  revert acc. induction bs as [| b bs IH]; intros acc Hne; [done |]. simpl.
  destruct (byte.unsigned b =? 0); [by rewrite app_nil_r |].
  destruct bs as [| b' bs]; [by destruct acc |].
  rewrite IH by done. by rewrite <- app_assoc.
Qed.

Lemma length_until_nul bs : (length (until_nul bs) <= length bs)%nat.
Proof. induction bs as [| b bs IH]; simpl; [lia |]. case_match; simpl; lia. Qed.

Lemma until_nul_prefix bs : until_nul bs = take (length (until_nul bs)) bs.
Proof. induction bs as [| b bs IH]; simpl; [done |]. case_match; simpl; congruence. Qed.

Lemma exec_compat_len fuel ss off len k bs w :
  0 < ss -> 0 <= k -> ss + k + Z.of_nat (length bs) < 2 ^ USIZE ->
  Z.of_nat (length bs) = len - off - k -> (length bs <= fuel)%nat ->
  ram_bytes (w_ram w) (ss + k) bs ->
  compat_len fuel ss off len k w = Done (k + Z.of_nat (length (until_nul bs))) w.
Proof.
  revert k bs. induction fuel as [| fuel IH]; intros k bs Hss Hk Hfit Hlen Hfuel Hram; simpl.
  - rewrite (proj2 (Z.ltb_ge _ _)) by lia. destruct bs; [| simpl in *; lia].
    by rewrite Z.add_0_r.
  - destruct bs as [| b bs].
    { rewrite (proj2 (Z.ltb_ge _ _)) by (simpl in *; lia). by rewrite Z.add_0_r. }
    simpl in Hlen, Hfit, Hfuel. apply ram_bytes_cons in Hram as [Hb Hbs].
    rewrite (proj2 (Z.ltb_lt _ _)) by lia.
    rewrite (bind_done _ _ _ (ss + k) w) by (apply exec_ptr_add; solve_fits).
    rewrite (bind_done _ _ _ b w) by (apply exec_load_byte; [lia | done]).
    simpl. destruct (byte.unsigned b =? 0); [by rewrite Z.add_0_r |].
    rewrite (IH (k + 1) bs).
    + f_equal. simpl. lia.
    + done.
    + lia.
    + lia.
    + lia.
    + lia.
    + by rewrite Z.add_assoc.
Qed.

Lemma exec_compat_loop fuel p target off bs w :
  0 < Property.value p -> 0 <= off ->
  Property.value p + Property.len p < 2 ^ USIZE ->
  Z.of_nat (length bs) = Z.max 0 (Property.len p - off) -> (length bs <= fuel)%nat ->
  ram_bytes (w_ram w) (Property.value p + off) bs ->
  compat_loop fuel p target off w =
    Done (existsb (fun s => String.eqb s target) (strings_of bs)) w.
Proof.
  revert off bs. induction fuel as [| fuel IH]; intros off bs Hp Hoff Hfit Hlen Hfuel Hram; simpl.
  { rewrite (proj2 (Z.ltb_ge _ _)) by lia. destruct bs; [done | simpl in *; lia]. }
  destruct (Z.ltb_spec off (Property.len p)) as [Hlt | Hge].
  2:{ destruct bs; [done | simpl in *; lia]. }
  assert (bs <> []) as Hne by (intros ->; simpl in *; lia).
  rewrite (bind_done _ _ _ (Property.value p + off) w) by (apply exec_ptr_add; solve_fits).
  pose proof (length_until_nul bs) as Hu.
  rewrite (bind_done _ _ _ (0 + Z.of_nat (length (until_nul bs))) w).
  2:{ apply exec_compat_len; rewrite ?Z.add_0_r; try done; lia. }
  rewrite Z.add_0_l, Nat2Z.id.
  rewrite (bind_done _ _ _ (until_nul bs) w).
  2:{ apply exec_load_bytes; [lia |]. rewrite until_nul_prefix.
      rewrite <- (take_drop (length (until_nul bs)) bs) in Hram.
      by apply ram_bytes_app in Hram as [? _]. }
  unfold strings_of. rewrite split_nul_cons by done. simpl.
  destruct (String.eqb _ target); [done |]. simpl.
  rewrite (bind_done _ _ _ (Z.of_nat (length (until_nul bs)) + 1) w)
    by (apply exec_uadd; solve_fits).
  rewrite (bind_done _ _ _ (off + (Z.of_nat (length (until_nul bs)) + 1)) w)
    by (apply exec_uadd; solve_fits).
  set (n := S (length (until_nul bs))).
  assert (Z.of_nat (length (drop n bs)) = Z.max 0 (Z.of_nat (length bs) - Z.of_nat n)) as Hdl
    by (rewrite length_drop; lia).
  destruct (decide (n <= length bs)%nat) as [Hn | Hn].
  - apply IH; try lia.
    rewrite <- (take_drop n bs) in Hram. apply ram_bytes_app in Hram as [_ Hram].
    rewrite length_take_le in Hram by lia.
    by replace (Property.value p + (off + (Z.of_nat (length (until_nul bs)) + 1)))
      with (Property.value p + off + Z.of_nat n) by lia.
  - assert (drop n bs = []) as Hnil by (apply drop_ge; lia).
    rewrite Hnil in *. apply IH; [lia.. | apply ram_bytes_nil].
Qed.

(** A property whose value is the bytes [bs] of memory. *)
Definition value_at (ram : gmap Z byte) (p : Property.t) (bs : list byte) : Prop :=
  0 < Property.value p /\ Property.value p + Property.len p < 2 ^ USIZE /\
  Property.len p = Z.of_nat (length bs) /\ ram_bytes ram (Property.value p) bs.

Lemma value_at_mono ram ram' p bs : ram ⊆ ram' -> value_at ram p bs -> value_at ram' p bs.
Proof. intros Hs (H1 & H2 & H3 & Hb). do 3 (split; [done |]). by eapply ram_bytes_mono. Qed.

Lemma exec_compatible_matches p target bs w :
  value_at (w_ram w) p bs ->
  compatible_matches p target w =
    Done (existsb (fun s => String.eqb s target) (strings_of bs)) w.
Proof.
  intros (Hp & Hfit & Hlen & Hram). unfold compatible_matches.
  apply exec_compat_loop; rewrite ?Z.add_0_r; try done; lia.
Qed.

End lookup.

(** ** Theorems *)

(** C39: [find_interrupt_parent] returns, with at least [MAX_DEVICES] steps of
    fuel, for every device of well-formed tables: the device designated by the
    first [interrupt-parent] property of the nearest proper ancestor that has
    one; a property of the device itself is not looked at. *)
Theorem find_interrupt_parent_is_nearest {HW : Hardware} fuel val dev (w : world) :
  (DtbTables.MAX_DEVICES <= fuel)%nat -> wf_tables (w_dtb w) ->
  (forall d, d ∈ DtbTables.DEVICE_TABLE (w_dtb w) -> readable_props w "interrupt-parent" val d) ->
  (forall c, PlatformDevice.parent dev = Some c -> c < DtbTables.MAX_DEVICES)%nat ->
  find_interrupt_parent fuel dev w =
    Done (nearest_interrupt_parent (w_dtb w) val
      (ancestors (w_dtb w) DtbTables.MAX_DEVICES (PlatformDevice.parent dev))) w.
Proof. intros Hf Hwf Hval Hpar. by apply (exec_find_interrupt_parent fuel val). Qed.

(** C40: [compatible_matches] returns whether the target is one of the
    NUL-separated strings of the value, for every value in memory, with or
    without a NUL at its end. *)
Theorem compatible_matches_is_membership {HW : Hardware} p target bs (w : world) :
  value_at (w_ram w) p bs ->
  exists b : bool, compatible_matches p target w = Done b w /\ (b = true <-> target ∈ strings_of bs).
Proof.
  intros Hv. eexists. split; [by apply exec_compatible_matches |].
  rewrite existsb_exists. split.
  - intros (s & Hs & E). apply String.eqb_eq in E as <-. by apply list_elem_of_In.
  - intros Ht. exists target. split; [by apply list_elem_of_In | apply String.eqb_refl].
Qed.
