(* ===== verification/Frame.v ===== *)
(** * What device drivers leave alone

    [Keeps c]: when [c] returns, memory and the device tables are as before.
    The class is resolved along the structure of a computation, so that a
    driver's frame is proved by [apply _].  It is what device initialisation
    asks of the drivers it calls. *)

From S2P Require Export Mmio Convert DtbLookup.

Local Open Scope Z_scope.
Local Open Scope kernel_scope.

Definition same_tables {HW : Hardware} (w w' : world) : Prop :=
  w_ram w' = w_ram w /\ w_dtb w' = w_dtb w.

#[export] Instance same_tables_preorder {HW : Hardware} : PreOrder same_tables.
Proof. unfold same_tables. split; [done | intros ???; naive_solver congruence]. Qed.

Class Keeps {HW : Hardware} {A} (c : M A) : Prop :=
  keeps : forall w a w', c w = Done a w' -> same_tables w w'.

Section keeps.
Context {HW : Hardware}.

#[export] Instance keeps_ret {A} (a : A) : Keeps (ret a).
Proof. intros w b w' [= _ <-]. reflexivity. Qed.

#[export] Instance keeps_bind {A B} (c : M A) (k : A -> M B) :
  Keeps c -> (forall a, Keeps (k a)) -> Keeps (bind c k).
Proof.
  intros Hc Hk w b w' H. apply bind_inv in H as (a & w1 & Ha & Hb).
  transitivity w1; [by eapply Hc | by eapply (Hk a)].
Qed.

#[export] Instance keeps_panic {A} : Keeps (A := A) panic.
Proof. intros w b w' H. discriminate. Qed.

#[export] Instance keeps_fault {A} : Keeps (A := A) fault.
Proof. intros w b w' H. discriminate. Qed.

#[export] Instance keeps_spin {A} : Keeps (A := A) spin.
Proof. intros w b w' H. discriminate. Qed.

#[export] Instance keeps_gets {A} (f : world -> A) : Keeps (gets f).
Proof. intros w b w' [= _ <-]. reflexivity. Qed.

Lemma keeps_modify f : (forall w, same_tables w (f w)) -> Keeps (modify f).
Proof. intros Hf w b w' [= _ <-]. apply Hf. Qed.

Lemma keeps_match_option {A B} (o : option A) (k : A -> M B) (n : M B) :
  (forall a, Keeps (k a)) -> Keeps n -> Keeps (match o with Some a => k a | None => n end).
Proof. intros. by destruct o. Qed.

Lemma keeps_match_pair {A B C} (p : A * B) (k : A -> B -> M C) :
  (forall a b, Keeps (k a b)) -> Keeps (let '(a, b) := p in k a b).
Proof. intros. by destruct p. Qed.

Lemma keeps_if {A} (b : bool) (c d : M A) : Keeps c -> Keeps d -> Keeps (if b then c else d).
Proof. intros. by destruct b. Qed.

End keeps.

#[export] Hint Extern 2 (Keeps (modify _)) =>
  apply keeps_modify; intros ?; split; reflexivity : typeclass_instances.
#[export] Hint Extern 2 (Keeps (if _ then _ else _)) => apply keeps_if : typeclass_instances.
#[export] Hint Extern 2 (Keeps (match _ with Some _ => _ | None => _ end)) =>
  apply keeps_match_option : typeclass_instances.
#[export] Hint Extern 2 (Keeps (let '(_, _) := _ in _)) => apply keeps_match_pair : typeclass_instances.

(** Unfolds a named operation and resolves its body. *)
Tactic Notation "keeps_unfold" reference(c) := unfold c; cbv zeta; apply _.

Section primitives.
Context {HW : Hardware}.

#[export] Instance keeps_checked n z : Keeps (checked n z).
Proof. keeps_unfold checked. Qed.

#[export] Instance keeps_uadd n a b : Keeps (uadd n a b).
Proof. keeps_unfold uadd. Qed.

#[export] Instance keeps_usub n a b : Keeps (usub n a b).
Proof. keeps_unfold usub. Qed.

#[export] Instance keeps_umul n a b : Keeps (umul n a b).
Proof. keeps_unfold umul. Qed.

#[export] Instance keeps_udiv a b : Keeps (udiv a b).
Proof. keeps_unfold udiv. Qed.

#[export] Instance keeps_ushl n a b : Keeps (ushl n a b).
Proof. keeps_unfold ushl. Qed.

#[export] Instance keeps_ushr n a b : Keeps (ushr n a b).
Proof. keeps_unfold ushr. Qed.

#[export] Instance keeps_arr_get {A} (l : list A) i : Keeps (arr_get l i).
Proof. keeps_unfold arr_get. Qed.

#[export] Instance keeps_arr_set {A} (l : list A) i x : Keeps (arr_set l i x).
Proof. keeps_unfold arr_set. Qed.

#[export] Instance keeps_ptr_add p n : Keeps (ptr_add p n).
Proof. keeps_unfold ptr_add. Qed.

#[export] Instance keeps_load_byte p : Keeps (load_byte p).
Proof. keeps_unfold load_byte. Qed.

#[export] Instance keeps_load_bytes p n : Keeps (load_bytes p n).
Proof. revert p. induction n; intros p; simpl; apply _. Qed.

#[export] Instance keeps_load_le p n : Keeps (load_le p n).
Proof. keeps_unfold load_le. Qed.

#[export] Instance keeps_emit e : Keeps (emit e).
Proof. keeps_unfold emit. Qed.

#[export] Instance keeps_bus_read32 a : Keeps (bus_read32 a).
Proof. keeps_unfold bus_read32. Qed.

#[export] Instance keeps_bus_write32 a v : Keeps (bus_write32 a v).
Proof. keeps_unfold bus_write32. Qed.

#[export] Instance keeps_bus_write64 a v : Keeps (bus_write64 a v).
Proof. keeps_unfold bus_write64. Qed.

#[export] Instance keeps_mrs r : Keeps (mrs r).
Proof. keeps_unfold mrs. Qed.

#[export] Instance keeps_msr r v : Keeps (msr r v).
Proof. keeps_unfold msr. Qed.

#[export] Instance keeps_msr_daifset v : Keeps (msr_daifset v).
Proof. keeps_unfold msr_daifset. Qed.

#[export] Instance keeps_barrier b : Keeps (barrier_ins b).
Proof. keeps_unfold barrier_ins. Qed.

#[export] Instance keeps_spin_while fuel (c : M bool) : Keeps c -> Keeps (spin_while fuel c).
Proof. intros Hc. induction fuel; simpl; apply _. Qed.

#[export] Instance keeps_for_each {A B} (l : list A) (acc : B) body :
  (forall b x, Keeps (body b x)) -> Keeps (for_each l acc body).
Proof. intros Hb. revert acc. induction l; intros acc; simpl; apply _. Qed.

#[export] Instance keeps_for_find {A B} (l : list A) (body : A -> M (option B)) :
  (forall x, Keeps (body x)) -> Keeps (for_find l body).
Proof. intros Hb. induction l; simpl; apply _. Qed.

End primitives.

(** ** The libraries the drivers call *)

Section libraries.
Context {HW : Hardware}.

#[export] Instance keeps_read_be_u32 p o : Keeps (read_be_u32 p o).
Proof. unfold read_be_u32. keeps_unfold read_unaligned. Qed.

#[export] Instance keeps_mmio_ptr b o : Keeps (mmio_ptr b o).
Proof. keeps_unfold mmio_ptr. Qed.

#[export] Instance keeps_read_mmio32 b o : Keeps (read_mmio32 b o).
Proof. keeps_unfold read_mmio32. Qed.

#[export] Instance keeps_write_mmio32 b o v : Keeps (write_mmio32 b o v).
Proof. keeps_unfold write_mmio32. Qed.

#[export] Instance keeps_set_mmio_bits32 b o v : Keeps (set_mmio_bits32 b o v).
Proof. keeps_unfold set_mmio_bits32. Qed.

#[export] Instance keeps_clear_mmio_bits32 b o v : Keeps (clear_mmio_bits32 b o v).
Proof. keeps_unfold clear_mmio_bits32. Qed.

#[export] Instance keeps_poll_bit b o m : Keeps (poll_bit b o m).
Proof. keeps_unfold poll_bit. Qed.

#[export] Instance keeps_deref_device i : Keeps (deref_device i).
Proof. keeps_unfold deref_device. Qed.

#[export] Instance keeps_find_property d n : Keeps (find_property d n).
Proof. keeps_unfold find_property. Qed.

#[export] Instance keeps_get_parent_cells d : Keeps (get_parent_cells d).
Proof. unfold get_parent_cells. keeps_unfold parent_cells_step. Qed.

#[export] Instance keeps_find_device_by_phandle ph : Keeps (find_device_by_phandle ph).
Proof. keeps_unfold find_device_by_phandle. Qed.

#[export] Instance keeps_walk_up fuel cur : Keeps (walk_up fuel cur).
Proof.
  revert cur. induction fuel; intros cur; simpl; unfold scan_interrupt_parent; apply _.
Qed.

#[export] Instance keeps_find_interrupt_parent fuel d : Keeps (find_interrupt_parent fuel d).
Proof. keeps_unfold find_interrupt_parent. Qed.

End libraries.
