(* ===== verification/Dtb.v ===== *)
(** * src/kernel/dtb.rs: the flattened device tree parser and device initialisation

    [parse_dtb] token by token as written: the locals of the function are a
    record, one iteration of the [loop] is [parse_step].  The driver table
    ([CONFIGURED_DEVICES] of kernel/device.rs) is a parameter, instantiated in
    [Kernel].  [fuel] bounds the token loop, each string scan and, in the
    drivers, each busy wait. *)

From S2P Require Export DtbLookup.

Local Open Scope Z_scope.
Local Open Scope kernel_scope.

Definition MAGIC : Z := 0xd00dfeed.
Definition FDT_BEGIN_NODE : Z := 1.
Definition FDT_END_NODE : Z := 2.
Definition FDT_PROP : Z := 3.
Definition FDT_NOP : Z := 4.
Definition FDT_END : Z := 9.
Definition STACK_SIZE : nat := 10.

Module FdtHeader.
Record t := mk {
  magic : Z;
  totalsize : Z;
  off_dt_struct : Z;
  off_dt_strings : Z;
  off_mem_rsvmap : Z;
  version : Z;
  last_comp_version : Z;
  boot_cpuid_phys : Z;
  size_dt_strings : Z;
  size_dt_struct : Z;
}.
End FdtHeader.

Module FdtPropHeader.
Record t := mk { len : Z; nameoff : Z }.
End FdtPropHeader.

(** One entry of the driver table. *)
Module DeviceMatch.
Record t {HW : Hardware} := mk {
  compatible : string;
  setup_fn : PlatformDevice.t -> M unit;
}.
End DeviceMatch.

Section dtb.
Context {HW : Hardware}.
Import DtbTables.

Definition FdtHeader_from_be_bytes (dtb_addr : Z) : M FdtHeader.t :=
  magic <- read_be_u32 dtb_addr 0x00 ;;
  totalsize <- read_be_u32 dtb_addr 0x04 ;;
  off_dt_struct <- read_be_u32 dtb_addr 0x08 ;;
  off_dt_strings <- read_be_u32 dtb_addr 0x0C ;;
  off_mem_rsvmap <- read_be_u32 dtb_addr 0x10 ;;
  version <- read_be_u32 dtb_addr 0x14 ;;
  last_comp_version <- read_be_u32 dtb_addr 0x18 ;;
  boot_cpuid_phys <- read_be_u32 dtb_addr 0x1C ;;
  size_dt_strings <- read_be_u32 dtb_addr 0x20 ;;
  size_dt_struct <- read_be_u32 dtb_addr 0x24 ;;
  ret (FdtHeader.mk magic totalsize off_dt_struct off_dt_strings off_mem_rsvmap version
         last_comp_version boot_cpuid_phys size_dt_strings size_dt_struct).

Definition FdtPropHeader_from_be_bytes (prop_addr : Z) : M FdtPropHeader.t :=
  len <- read_be_u32 prop_addr 0x00 ;;
  nameoff <- read_be_u32 prop_addr 0x04 ;;
  ret (FdtPropHeader.mk len nameoff).

(** [while *start.add(len) != 0 { len += 1; }] *)
Fixpoint strlen (fuel : nat) (start len : Z) : M Z :=
  match fuel with
  | O => spin
  | S fuel =>
      p <- ptr_add start len ;;
      b <- load_byte p ;;
      if byte.unsigned b =? 0 then ret len
      else
        len <- uadd USIZE len 1 ;;
        strlen fuel start len
  end.

(** [from_utf8_unchecked(from_raw_parts(start, len))] *)
Definition str_at (start len : Z) : M string :=
  slice <- load_bytes start (Z.to_nat len) ;;
  ret (String.string_of_list_byte slice).

Definition get_property_name (fuel : nat) (dtb_addr off_dt_strings offset : Z) : M string :=
  strings_block <- uadd USIZE dtb_addr off_dt_strings ;;
  str_start <- uadd USIZE strings_block offset ;;
  len <- strlen fuel str_start 0 ;;
  str_at str_start len.

(** The locals of [parse_dtb] that live across iterations. *)
Record locals := mkLocals {
  off : Z;
  prop_id : nat;
  stack : list nat;
  stack_depth : nat;
}.

Definition locals_init : locals := mkLocals 0 0 (replicate STACK_SIZE 0%nat) 0.

(** [off = (off + 3) & !3] *)
Definition align4 (off : Z) : M Z :=
  t <- uadd USIZE off 3 ;;
  ret (Z.land t (unot USIZE 3)).

Definition modify_dtb (f : DtbTables.t -> DtbTables.t) : M unit :=
  modify (fun w => set_dtb (f (w_dtb w)) w).

(** [DEVICE_TABLE[i] = d], bounds checked. *)
Definition set_device (i : nat) (d : PlatformDevice.t) : M unit :=
  dtb <- gets w_dtb ;;
  table <- arr_set (DEVICE_TABLE dtb) i d ;;
  modify_dtb (set_DEVICE_TABLE table).

(** [stack[stack_depth - 1]]: the subtraction and the access are checked. *)
Definition stack_top (l : locals) : M nat :=
  match stack_depth l with O => panic | S d => arr_get (stack l) d end.

Definition begin_node (fuel : nat) (structure_block : Z) (l : locals) : M locals :=
  parent <- match stack_depth l with
            | O => ret None
            | S d =>
                idx <- arr_get (stack l) d ;;
                dtb <- gets w_dtb ;;
                _ <- arr_get (DEVICE_TABLE dtb) idx ;;
                ret (Some idx)
            end ;;
  name_start <- uadd USIZE structure_block (off l) ;;
  name_len <- strlen fuel name_start 0 ;;
  name <- str_at name_start name_len ;;
  let device := PlatformDevice.mk parent name (PlatformDevice.properties PlatformDevice.new)
                  (PlatformDevice.prop_count PlatformDevice.new) in
  n <- uadd USIZE name_len 1 ;;
  off <- uadd USIZE (off l) n ;;
  off <- align4 off ;;
  dtb <- gets w_dtb ;;
  set_device (DEVICE_COUNT dtb) device ;;
  stack <- arr_set (stack l) (stack_depth l) (DEVICE_COUNT dtb) ;;
  modify_dtb (set_DEVICE_COUNT (S (DEVICE_COUNT dtb))) ;;
  ret (mkLocals off 0 stack (S (stack_depth l))).

Definition end_node (l : locals) : M locals :=
  idx <- stack_top l ;;
  dtb <- gets w_dtb ;;
  d <- arr_get (DEVICE_TABLE dtb) idx ;;
  set_device idx (PlatformDevice.mk (PlatformDevice.parent d) (PlatformDevice.name d)
    (PlatformDevice.properties d) (prop_id l)) ;;
  ret (mkLocals (off l) (prop_id l) (stack l) (stack_depth l - 1)).

(** [PHANDLE_TABLE[PHANDLE_COUNT] = (v, idx); PHANDLE_COUNT += 1] *)
Definition register_phandle (v : Z) (idx : nat) : M unit :=
  dtb <- gets w_dtb ;;
  table <- arr_set (PHANDLE_TABLE dtb) (PHANDLE_COUNT dtb) (v, idx) ;;
  modify_dtb (set_PHANDLE_TABLE table) ;;
  modify_dtb (set_PHANDLE_COUNT (S (PHANDLE_COUNT dtb))).

Definition property (fuel : nat) (dtb_addr off_dt_strings structure_block : Z) (l : locals)
    : M locals :=
  prop_addr <- uadd USIZE structure_block (off l) ;;
  prop_header <- FdtPropHeader_from_be_bytes prop_addr ;;
  off <- uadd USIZE (off l) 8 ;;
  name <- get_property_name fuel dtb_addr off_dt_strings (FdtPropHeader.nameoff prop_header) ;;
  value <- uadd USIZE structure_block off ;;
  let prop := Property.mk name value (FdtPropHeader.len prop_header) in
  dev_idx <- stack_top l ;;
  (if String.eqb name "phandle" then
     phandle_value <- read_be_u32 value 0 ;;
     register_phandle phandle_value dev_idx
   else ret tt) ;;
  dtb <- gets w_dtb ;;
  d <- arr_get (DEVICE_TABLE dtb) dev_idx ;;
  props <- arr_set (PlatformDevice.properties d) (prop_id l) prop ;;
  set_device dev_idx (PlatformDevice.mk (PlatformDevice.parent d) (PlatformDevice.name d)
    props (PlatformDevice.prop_count d)) ;;
  off <- uadd USIZE off (Property.len prop) ;;
  off <- align4 off ;;
  ret (mkLocals off (S (prop_id l)) (stack l) (stack_depth l)).

(** One iteration of the loop; [None] is the [break]. *)
Definition parse_step (fuel : nat) (dtb_addr off_dt_strings structure_block : Z) (l : locals)
    : M (option locals) :=
  token <- read_be_u32 structure_block (off l) ;;
  off <- uadd USIZE (off l) 4 ;;
  let l := mkLocals off (prop_id l) (stack l) (stack_depth l) in
  if token =? FDT_BEGIN_NODE then l <- begin_node fuel structure_block l ;; ret (Some l)
  else if token =? FDT_END_NODE then l <- end_node l ;; ret (Some l)
  else if token =? FDT_PROP then
    l <- property fuel dtb_addr off_dt_strings structure_block l ;; ret (Some l)
  else if token =? FDT_NOP then ret (Some l)
  else if token =? FDT_END then ret None
  else panic.

Fixpoint parse_loop (n fuel : nat) (dtb_addr off_dt_strings structure_block : Z) (l : locals)
    : M unit :=
  match n with
  | O => spin
  | S n =>
      r <- parse_step fuel dtb_addr off_dt_strings structure_block l ;;
      match r with
      | Some l => parse_loop n fuel dtb_addr off_dt_strings structure_block l
      | None => ret tt
      end
  end.

(** [parse_dtb] up to the call of [init_devices]. *)
Definition parse_tables (fuel : nat) (dtb : Z) : M unit :=
  header <- FdtHeader_from_be_bytes dtb ;;
  if negb (FdtHeader.magic header =? MAGIC) then panic
  else
    structure_block <- uadd USIZE dtb (FdtHeader.off_dt_struct header) ;;
    parse_loop fuel fuel dtb (FdtHeader.off_dt_strings header) structure_block locals_init.

(** ** Device initialisation *)

Section init_devices.
Context (CONFIGURED_DEVICES : list DeviceMatch.t).

(** [for match_entry in &CONFIGURED_DEVICES { .. break; }] *)
Definition match_drivers (compat_prop : Property.t) (dev : PlatformDevice.t) : M (option unit) :=
  for_find CONFIGURED_DEVICES (fun match_entry =>
    m <- compatible_matches compat_prop (DeviceMatch.compatible match_entry) ;;
    if m : bool then DeviceMatch.setup_fn match_entry dev ;; ret (Some tt) else ret None).

(** The body of a pass: [gic] says which devices the pass handles. *)
Definition init_device (gic : bool) (i : nat) : M unit :=
  dtb <- gets w_dtb ;;
  dev <- arr_get (DEVICE_TABLE dtb) i ;;
  compat <- find_property dev "compatible" ;;
  match compat with
  | Some compat_prop =>
      is_gic <- compatible_matches compat_prop "arm,gic-v3" ;;
      if Bool.eqb is_gic gic then match_drivers compat_prop dev ;; ret tt else ret tt
  | None => ret tt
  end.

Definition init_devices : M unit :=
  dtb <- gets w_dtb ;;
  for_each (seq 0 (DEVICE_COUNT dtb)) tt (fun _ i => init_device true i) ;;
  dtb <- gets w_dtb ;;
  for_each (seq 0 (DEVICE_COUNT dtb)) tt (fun _ i => init_device false i).

Definition parse_dtb (fuel : nat) (dtb : Z) : M unit :=
  parse_tables fuel dtb ;;
  init_devices.

End init_devices.
End dtb.

(** ** The table invariant holds whatever the blob contains *)

Section inversion.
Context {HW : Hardware}.
Implicit Types (w : world).

Lemma checked_inv n z w r w' : checked n z w = Done r w' -> w' = w /\ r = z /\ fits n z.
Proof.
  unfold checked. destruct (fitsb n z) eqn:Hf; intros H; inversion H; subst.
  by apply fitsb_spec in Hf.
Qed.

Lemma uadd_inv n a b w r w' : uadd n a b w = Done r w' -> w' = w /\ r = a + b /\ fits n (a + b).
Proof. apply checked_inv. Qed.

Lemma ptr_add_inv p n w r w' : ptr_add p n w = Done r w' -> w' = w /\ r = p + n.
Proof. unfold ptr_add. intros H0. case_match; by inversion H0. Qed.

Lemma arr_get_inv {A} (l : list A) i w r w' :
  arr_get l i w = Done r w' -> w' = w /\ l !! i = Some r.
Proof. unfold arr_get. destruct (l !! i) eqn:E; intros H; by inversion H; subst. Qed.

Lemma arr_set_inv {A} (l : list A) i x w r w' :
  arr_set l i x w = Done r w' -> w' = w /\ r = <[i := x]> l /\ (i < length l)%nat.
Proof.
  unfold arr_set. destruct (l !! i) eqn:E; intros H; inversion H; subst.
  apply lookup_lt_Some in E. auto.
Qed.

Lemma strlen_inv fuel p n w r w' : strlen fuel p n w = Done r w' -> w' = w.
Proof.
  revert n. induction fuel as [| fuel IH]; intros n; [done |]. simpl. intros H.
  apply bind_inv in H as (q & w1 & Hq & H). apply ptr_add_inv in Hq as [-> ->].
  apply bind_inv in H as (b & w1 & Hb & H). apply load_byte_world in Hb as ->.
  destruct (_ =? 0); [by inversion H |].
  apply bind_inv in H as (m & w1 & Hm & H). apply uadd_inv in Hm as (-> & -> & _).
  by eapply IH.
Qed.

Lemma str_at_inv p n w r w' : str_at p n w = Done r w' -> w' = w.
Proof.
  unfold str_at. intros H. apply bind_inv in H as (bs & w1 & Hb & H).
  apply load_bytes_world in Hb as [-> _]. by inversion H.
Qed.

Lemma align4_inv a w r w' : align4 a w = Done r w' -> w' = w.
Proof.
  unfold align4. intros H. apply bind_inv in H as (t & w1 & Ht & H).
  apply uadd_inv in Ht as (-> & _). by inversion H.
Qed.

End inversion.

(** Takes a successful run apart, primitive by primitive. *)
Ltac run_inv :=
  repeat match goal with
  | H : bind _ _ _ = Done _ _ |- _ => apply bind_inv in H as (? & ? & ? & H)
  | H : ret _ _ = Done _ _ |- _ => unfold ret in H; simplify_eq H; clear H; intros; subst
  | H : gets _ _ = Done _ _ |- _ => unfold gets in H; simplify_eq H; clear H; intros; subst
  | H : modify _ _ = Done _ _ |- _ => unfold modify in H; simplify_eq H; clear H; intros; subst
  | H : modify_dtb _ _ = Done _ _ |- _ => unfold modify_dtb in H
  | H : panic _ = Done _ _ |- _ => discriminate H
  | H : uadd _ _ _ _ = Done _ _ |- _ => apply uadd_inv in H as (? & ? & ?); subst
  | H : ptr_add _ _ _ = Done _ _ |- _ => apply ptr_add_inv in H as (? & ?); subst
  | H : arr_get _ _ _ = Done _ _ |- _ => apply arr_get_inv in H as (? & ?); subst
  | H : arr_set _ _ _ _ = Done _ _ |- _ => apply arr_set_inv in H as (? & ? & ?); subst
  | H : strlen _ _ _ _ = Done _ _ |- _ => apply strlen_inv in H; subst
  | H : str_at _ _ _ = Done _ _ |- _ => apply str_at_inv in H; subst
  | H : align4 _ _ = Done _ _ |- _ => apply align4_inv in H; subst
  | H : read_be_u32 _ _ _ = Done _ _ |- _ => apply read_be_u32_inv in H as (? & ?); subst
  end.

Section invariant.
Context {HW : Hardware}.
Import DtbTables.
Implicit Types (w : world) (l : locals).

(** The locals point into the tables and the property index is in range. *)
Definition wf_locals l (t : DtbTables.t) : Prop :=
  (prop_id l <= PlatformDevice.MAX_PROPS)%nat /\
  (forall i, i ∈ take (stack_depth l) (stack l) -> i < DEVICE_COUNT t)%nat.

Definition wf_parse l w : Prop := wf_tables (w_dtb w) /\ wf_locals l (w_dtb w).

Lemma wf_locals_init t : wf_locals locals_init t.
Proof. split; simpl; [lia |]. intros i Hi. by apply not_elem_of_nil in Hi. Qed.

Lemma stack_top_inv l t w r w' :
  wf_locals l t -> stack_top l w = Done r w' -> w' = w /\ (r < DEVICE_COUNT t)%nat.
Proof.
  intros [_ Hs] H. unfold stack_top in H. destruct (stack_depth l) as [| d]; [done |].
  run_inv. split; [done |]. apply Hs. apply list_elem_of_lookup. exists d.
  rewrite lookup_take_lt by lia. done.
Qed.

(** Replacing an entry by a well-formed one with an admissible parent. *)
Lemma wf_tables_set t i d :
  wf_tables t -> wf_device d ->
  (forall p, PlatformDevice.parent d = Some p -> p < i)%nat ->
  wf_tables (set_DEVICE_TABLE (<[i := d]> (DEVICE_TABLE t)) t).
Proof.
  intros (H1 & H2 & H3 & H4 & H5 & H6) Hd Hp.
  repeat split; simpl; try done.
  - by rewrite length_insert.
  - apply list_lookup_insert_Some in H as [(-> & <- & _) | [_ H]]; [apply Hd | by eapply H5].
  - apply list_lookup_insert_Some in H as [(-> & <- & _) | [_ H]]; [apply Hd | by eapply H5].
  - apply list_lookup_insert_Some in H as [(-> & <- & _) | [_ H]]; [apply Hp | by eapply H5].
Qed.

Lemma set_device_inv i d w r w' :
  set_device i d w = Done r w' ->
  w' = set_dtb (set_DEVICE_TABLE (<[i := d]> (DEVICE_TABLE (w_dtb w))) (w_dtb w)) w /\
  (i < length (DEVICE_TABLE (w_dtb w)))%nat.
Proof. unfold set_device. intros H. by run_inv. Qed.

Lemma get_property_name_inv fuel a b c w r w' :
  get_property_name fuel a b c w = Done r w' -> w' = w.
Proof. unfold get_property_name. intros H. by run_inv. Qed.

Lemma FdtPropHeader_inv p w r w' : FdtPropHeader_from_be_bytes p w = Done r w' -> w' = w.
Proof. unfold FdtPropHeader_from_be_bytes. intros H. by run_inv. Qed.

Lemma FdtHeader_inv p w r w' : FdtHeader_from_be_bytes p w = Done r w' -> w' = w.
Proof. unfold FdtHeader_from_be_bytes. intros H. by run_inv. Qed.


(** A new entry at the end of the used part. *)
Lemma wf_tables_extend t d :
  wf_tables t -> wf_device d -> (DEVICE_COUNT t < MAX_DEVICES)%nat ->
  (forall p, PlatformDevice.parent d = Some p -> p < DEVICE_COUNT t)%nat ->
  wf_tables (set_DEVICE_COUNT (S (DEVICE_COUNT t))
    (set_DEVICE_TABLE (<[DEVICE_COUNT t := d]> (DEVICE_TABLE t)) t)).
Proof.
  intros Ht Hd Hc Hp.
  destruct (wf_tables_set t _ d Ht Hd Hp) as (H1 & H2 & H3 & H4 & H5 & H6).
  split; [done |]. split; [done |]. split; [simpl; lia |]. split; [done |].
  split; [done |]. intros i e Hi He. simpl. specialize (H6 i e Hi He). simpl in H6. lia.
Qed.

Lemma wf_tables_register t v i :
  wf_tables t -> (PHANDLE_COUNT t < MAX_HANDLES)%nat -> (i < DEVICE_COUNT t)%nat ->
  wf_tables (set_PHANDLE_COUNT (S (PHANDLE_COUNT t))
    (set_PHANDLE_TABLE (<[PHANDLE_COUNT t := (v, i)]> (PHANDLE_TABLE t)) t)).
Proof.
  intros (H1 & H2 & H3 & H4 & H5 & H6) Hc Hi.
  split; [done |]. split; [simpl; by rewrite length_insert |]. split; [done |].
  split; [simpl; lia |]. split; [done |]. intros k e Hk He. simpl in *.
  apply list_lookup_insert_Some in He as [(_ & <- & _) | [Hne He]]; [done |].
  apply (H6 k e); [lia | done].
Qed.

Lemma begin_node_wf fuel sb l w l' w' :
  wf_parse (mkLocals (off l) 0 (stack l) (stack_depth l)) w ->
  begin_node fuel sb l w = Done l' w' -> wf_parse l' w'.
Proof.
  intros [Ht [_ Hs]] H. unfold begin_node in H. apply bind_inv in H as (par & w1 & Hpar & H).
  assert (w1 = w /\ forall p, par = Some p -> p < DEVICE_COUNT (w_dtb w))%nat as [-> Hp].
  { destruct (stack_depth l) as [| d] eqn:Ed; [by run_inv |]. run_inv. split; [done |].
    intros p [= <-]. apply Hs. cbn [stack stack_depth]. apply list_elem_of_lookup. exists d.
    rewrite lookup_take_lt by lia. done. }
  run_inv. match goal with H : set_device _ _ _ = _ |- _ => apply set_device_inv in H as [-> Hlt] end.
  cbn [w_dtb set_dtb set_DEVICE_TABLE DEVICE_COUNT DEVICE_TABLE PHANDLE_COUNT PHANDLE_TABLE] in *.
  pose proof (proj1 Ht) as Hlen.
  split.
  - simpl. apply (wf_tables_extend (w_dtb w)); [done | | lia | done].
    split; simpl; unfold PlatformDevice.MAX_PROPS; lia.
  - split; [simpl; lia |]. cbn [stack stack_depth].
    intros i Hi. simpl.
    apply list_elem_of_lookup in Hi as [k Hk]. apply lookup_take_Some in Hk as [Hk Hks].
    apply list_lookup_insert_Some in Hk as [(_ & <- & _) | [Hne Hk]]; [lia |].
    assert (i < DEVICE_COUNT (w_dtb w))%nat; [| lia].
    apply Hs. cbn [stack stack_depth]. apply list_elem_of_lookup. exists k.
    rewrite lookup_take_lt by lia. done.
Qed.

Lemma end_node_wf l w l' w' :
  wf_parse l w -> end_node l w = Done l' w' -> wf_parse l' w'.
Proof.
  intros [Ht Hl] H. unfold end_node in H. apply bind_inv in H as (idx & w1 & Htop & H).
  apply (stack_top_inv l _ _ _ _ Hl) in Htop as [-> Hidx]. run_inv.
  match goal with H : set_device _ _ _ = _ |- _ => apply set_device_inv in H as [-> Hlt] end.
  match goal with H : _ !! _ = Some _ |- _ => rename H into Hd end.
  pose proof (proj1 (proj2 (proj2 (proj2 (proj2 Ht)))) _ _ Hd) as [[Hw1 Hw2] Hpar].
  split; simpl.
  - apply wf_tables_set; [done | | done]. split; [done | apply Hl].
  - split; [apply Hl |]. cbn [stack stack_depth]. intros i Hi.
    apply (proj2 Hl). apply list_elem_of_lookup in Hi as [k Hk].
    apply lookup_take_Some in Hk as [Hk Hkd]. apply list_elem_of_lookup. exists k.
    rewrite lookup_take_lt by lia. done.
Qed.

Lemma property_wf fuel a b sb l w l' w' :
  wf_parse l w -> property fuel a b sb l w = Done l' w' -> wf_parse l' w'.
Proof.
  intros [Ht Hl] H. unfold property in H. cbv zeta in H.
  apply bind_inv in H as (pa & w1 & Hpa & H). apply uadd_inv in Hpa as (-> & -> & _).
  apply bind_inv in H as (ph & w1 & Hph & H). apply FdtPropHeader_inv in Hph as ->.
  apply bind_inv in H as (off1 & w1 & Hoff & H). apply uadd_inv in Hoff as (-> & -> & _).
  apply bind_inv in H as (nm & w1 & Hnm & H). apply get_property_name_inv in Hnm as ->.
  apply bind_inv in H as (v & w1 & Hv & H). apply uadd_inv in Hv as (-> & -> & _).
  apply bind_inv in H as (idx & w1 & Hidx & H).
  apply (stack_top_inv l _ _ _ _ Hl) in Hidx as [-> Hidx].
  apply bind_inv in H as (u & w1 & Hreg & H).
  assert (wf_tables (w_dtb w1) /\ DEVICE_COUNT (w_dtb w1) = DEVICE_COUNT (w_dtb w)) as [Ht1 Hdc].
  { destruct (String.eqb nm "phandle"); [| by run_inv]. unfold register_phandle in Hreg. run_inv.
    split; [| done]. simpl. apply wf_tables_register; try done.
    pose proof (proj1 (proj2 Ht)). lia. }
  run_inv. match goal with H : set_device _ _ _ = _ |- _ => apply set_device_inv in H as [-> Hlt] end.
  match goal with H : _ !! _ = Some _ |- _ => rename H into Hd end.
  pose proof (proj1 (proj2 (proj2 (proj2 (proj2 Ht1)))) _ _ Hd) as [[Hw1 Hw2] Hpar].
  split; simpl.
  - apply wf_tables_set; [done | | done]. split; [by rewrite <- Hw1; simpl; rewrite length_insert | done].
  - split; simpl; [unfold PlatformDevice.MAX_PROPS in *; lia |]. rewrite Hdc. apply Hl.
Qed.


Lemma parse_step_wf fuel a b sb l w r w' :
  wf_parse l w -> parse_step fuel a b sb l w = Done r w' ->
  match r with Some l' => wf_parse l' w' | None => w' = w end.
Proof.
  intros [Ht [Hp Hs]] H. unfold parse_step in H. cbv zeta in H.
  apply bind_inv in H as (tok & w1 & Htok & H). apply read_be_u32_inv in Htok as [-> _].
  apply bind_inv in H as (off1 & w1 & Hoff & H). apply uadd_inv in Hoff as (-> & -> & _).
  repeat case_match; run_inv; try done.
  - eapply begin_node_wf; [| done]. split; [done |]. split; [simpl; lia | done].
  - eapply end_node_wf; [| done]. done.
  - eapply property_wf; [| done]. done.
Qed.

Lemma parse_loop_wf n fuel a b sb l w w' :
  wf_parse l w -> parse_loop n fuel a b sb l w = Done tt w' -> wf_tables (w_dtb w').
Proof.
  revert l w. induction n as [| n IH]; intros l w Hl H; [done |]. simpl in H.
  apply bind_inv in H as (r & w1 & Hstep & H).
  pose proof (parse_step_wf _ _ _ _ _ _ _ _ Hl Hstep) as Hr.
  destruct r as [l' |]; [by eapply IH |]. run_inv. apply Hl.
Qed.

(** [w'] differs from [w] at most in the tables. *)
Definition dtb_only w w' : Prop := w' = set_dtb (w_dtb w') w.

#[export] Instance dtb_only_preorder : PreOrder dtb_only.
Proof.
  split; unfold dtb_only.
  - by intros [].
  - intros w1 w2 w3 -> ->. done.
Qed.

Lemma register_phandle_dtb_only v i w r w' :
  register_phandle v i w = Done r w' -> dtb_only w w'.
Proof. unfold register_phandle. intros H. by run_inv. Qed.

Lemma parse_step_dtb_only fuel a b sb l w r w' :
  parse_step fuel a b sb l w = Done r w' -> dtb_only w w'.
Proof.
  unfold parse_step. intros H. cbv zeta in H.
  apply bind_inv in H as (tok & w1 & Htok & H). apply read_be_u32_inv in Htok as [-> _].
  apply bind_inv in H as (off1 & w1 & Hoff & H). apply uadd_inv in Hoff as (-> & -> & _).
  repeat case_match; try (run_inv; done).
  - unfold begin_node in H. cbn [stack_depth stack] in H. destruct (stack_depth l); run_inv;
      match goal with H : set_device _ _ _ = _ |- _ => apply set_device_inv in H as [-> Hlt] end; done.
  - unfold end_node, stack_top in H. cbn [stack_depth stack] in H. destruct (stack_depth l); run_inv;
      match goal with H : set_device _ _ _ = _ |- _ => apply set_device_inv in H as [-> Hlt] end; done.
  - unfold property, stack_top in H. cbn [stack_depth stack] in H. cbv zeta in H.
    destruct (stack_depth l); run_inv.
    match goal with H : FdtPropHeader_from_be_bytes _ _ = _ |- _ => apply FdtPropHeader_inv in H as -> end.
    match goal with H : get_property_name _ _ _ _ _ = _ |- _ => apply get_property_name_inv in H as -> end.
    match goal with H : set_device _ _ _ = _ |- _ => apply set_device_inv in H as [-> Hlt] end.
    match goal with H : (if _ then _ else _) _ = Done _ ?w1 |- _ =>
      transitivity w1; [| done]; case_match; run_inv; [by eapply register_phandle_dtb_only | done] end.
Qed.

Lemma parse_loop_dtb_only n fuel a b sb l w w' :
  parse_loop n fuel a b sb l w = Done tt w' -> dtb_only w w'.
Proof.
  revert l w. induction n as [| n IH]; intros l w H; [done |]. simpl in H.
  apply bind_inv in H as (r & w1 & Hstep & H).
  apply parse_step_dtb_only in Hstep. transitivity w1; [done |].
  destruct r as [l' |]; [by eapply IH |]. by run_inv.
Qed.

End invariant.

Lemma parse_tables_inv {HW : Hardware} fuel dtb (w w' : world) :
  wf_tables (w_dtb w) -> parse_tables fuel dtb w = Done tt w' ->
  wf_tables (w_dtb w') /\ dtb_only w w'.
Proof.
  intros Hwf H. unfold parse_tables in H.
  apply bind_inv in H as (h & w1 & Hh & H). apply FdtHeader_inv in Hh as ->.
  destruct (negb _); [done |].
  apply bind_inv in H as (sb & w1 & Hsb & H). apply uadd_inv in Hsb as (-> & -> & _).
  split; [| by eapply parse_loop_dtb_only].
  eapply parse_loop_wf; [| done]. split; [done | apply wf_locals_init].
Qed.

(** C10: whatever bytes the blob consists of, when the parser returns it has
    changed nothing but the device tables, and the tables are well formed:
    counts within the arrays, every property count at most 16, every parent
    index smaller than its child's, every phandle naming an existing device. *)
Theorem parse_tables_wf {HW : Hardware} fuel dtb (w w' : world) :
  wf_tables (w_dtb w) -> parse_tables fuel dtb w = Done tt w' ->
  wf_tables (w_dtb w') /\ w' = set_dtb (w_dtb w') w.
Proof. apply parse_tables_inv. Qed.
