(* ===== verification/DtbInit.v ===== *)
(** * Device initialisation: which driver is called for which device, and when

    [init_devices] against its specification: the list of setup calls that the
    tables and the driver table determine, interrupt controllers first.  What
    the setup functions promise is the class [Drivers]: they leave memory and
    the device tables alone. *)

From S2P Require Export Dtb Frame.

Local Open Scope Z_scope.
Local Open Scope kernel_scope.

(** The promise of a driver table to device initialisation. *)
Class Drivers {HW : Hardware} (drivers : list DeviceMatch.t) : Prop :=
  drivers_keep : forall e dev, e ∈ drivers -> Keeps (DeviceMatch.setup_fn e dev).

Section init.
Context {HW : Hardware} (drivers : list DeviceMatch.t).
Import DtbTables.
Implicit Types (w : world) (d : PlatformDevice.t) (val : Property.t -> list byte).

Definition has_string (s : string) (bs : list byte) : bool :=
  existsb (fun x => String.eqb x s) (strings_of bs).

(** The first entry of the driver table that the value names. *)
Definition driver_for (bs : list byte) : option DeviceMatch.t :=
  find (fun e => has_string (DeviceMatch.compatible e) bs) drivers.

(** The call the pass [gic] makes for a device, if any. *)
Definition planned val (gic : bool) d : option (DeviceMatch.t * PlatformDevice.t) :=
  p ← first_named "compatible" (valid_props d);
  if Bool.eqb (has_string "arm,gic-v3" (val p)) gic
  then (fun e => (e, d)) <$> driver_for (val p) else None.

Definition devices (t : DtbTables.t) : list PlatformDevice.t := take (DEVICE_COUNT t) (DEVICE_TABLE t).

Definition plan val (t : DtbTables.t) : list (DeviceMatch.t * PlatformDevice.t) :=
  omap (planned val true) (devices t) ++ omap (planned val false) (devices t).

(** Making the calls, one after the other. *)
Definition run_setups (l : list (DeviceMatch.t * PlatformDevice.t)) : M unit :=
  for_each l tt (fun _ c => DeviceMatch.setup_fn (fst c) (snd c)).

(** Every [compatible] value is in memory. *)
Definition compatibles_at val w : Prop :=
  forall d p, d ∈ DEVICE_TABLE (w_dtb w) -> p ∈ valid_props d ->
    Property.name p = "compatible" -> value_at (w_ram w) p (val p).

Lemma exec_match_drivers p bs d l w :
  value_at (w_ram w) p bs ->
  for_find l (fun match_entry =>
    m <- compatible_matches p (DeviceMatch.compatible match_entry) ;;
    if m : bool then DeviceMatch.setup_fn match_entry d ;; ret (Some tt) else ret None) w =
  match find (fun e => has_string (DeviceMatch.compatible e) bs) l with
  | Some e => (DeviceMatch.setup_fn e d ;; ret (Some tt)) w
  | None => Done None w
  end.
Proof.
  intros Hv. induction l as [| e l IH]; [done |]. simpl.
  rewrite bind_bind, (bind_done _ _ _ _ _ (exec_compatible_matches p _ bs w Hv)).
  fold (has_string (DeviceMatch.compatible e) bs).
  destruct (has_string _ bs); [| exact IH].
  rewrite bind_bind. unfold bind. by destruct (DeviceMatch.setup_fn e d w).
Qed.

(** One iteration makes the planned call. *)
Lemma exec_init_device val gic i d w :
  wf_tables (w_dtb w) -> compatibles_at val w -> DEVICE_TABLE (w_dtb w) !! i = Some d ->
  init_device drivers gic i w =
    match planned val gic d with
    | Some (e, d) => DeviceMatch.setup_fn e d w
    | None => Done tt w
    end.
Proof.
  intros Hwf Hv Hd. pose proof Hwf as (_ & _ & _ & _ & Hdev & _).
  unfold init_device. rewrite (bind_done _ _ _ _ _ (exec_gets _ _)).
  rewrite (bind_done _ _ _ _ w (exec_arr_get _ _ _ _ Hd)).
  rewrite (bind_done _ _ _ _ _ (exec_find_property d _ w (proj1 (Hdev _ _ Hd)))).
  unfold planned. destruct (first_named "compatible" (valid_props d)) as [p |] eqn:Hp; [| done].
  apply first_named_Some in Hp as [Hin Hn].
  specialize (Hv d p (list_elem_of_lookup_2 _ _ _ Hd) Hin Hn).
  rewrite (bind_done _ _ _ _ _ (exec_compatible_matches p _ _ w Hv)). simpl.
  fold (has_string "arm,gic-v3" (val p)).
  destruct (Bool.eqb _ gic); [| done].
  unfold match_drivers, bind at 1. rewrite (exec_match_drivers p (val p) d drivers w Hv).
  unfold driver_for. destruct (find _ drivers) as [e |]; [| done]. simpl.
  unfold bind, ret. by destruct (DeviceMatch.setup_fn e d w) as [[] ? | | |].
Qed.

Lemma planned_driver val gic d e d' : planned val gic d = Some (e, d') -> e ∈ drivers.
Proof.
  unfold planned. intros H. apply bind_Some in H as (p & _ & H). case_match; [| done].
  apply fmap_Some in H as (e' & He & [= -> _]). unfold driver_for in He.
  apply find_some in He as [He _]. by apply list_elem_of_In.
Qed.

(** What the hypotheses of a pass say of the world is kept by the calls. *)
Definition pass_ok val (t : DtbTables.t) w : Prop :=
  wf_tables t /\ w_dtb w = t /\ compatibles_at val w.

Lemma pass_ok_keeps val t w w' : same_tables w w' -> pass_ok val t w -> pass_ok val t w'.
Proof.
  intros [Er Ed] (Hwf & Ht & Hv). unfold pass_ok, compatibles_at in *. rewrite Er, Ed. auto.
Qed.

(** One pass is the planned calls, and at its end memory and tables are as before. *)
Lemma exec_pass `{!Drivers drivers} val gic t k n w :
  pass_ok val t w -> (k + n <= length (DEVICE_TABLE t))%nat ->
  for_each (seq k n) tt (fun _ i => init_device drivers gic i) w =
    run_setups (omap (planned val gic) (take n (drop k (DEVICE_TABLE t)))) w /\
  (forall w', run_setups (omap (planned val gic) (take n (drop k (DEVICE_TABLE t)))) w = Done tt w' ->
     pass_ok val t w').
Proof.
  revert k w. induction n as [| n IH]; intros k w Hok Hlen.
  { split; [done |]. intros w' [= <-]. done. }
  pose proof Hok as (Hwf & Ht & Hv).
  destruct (lookup_lt_is_Some_2 (DEVICE_TABLE t) k) as [d Hd]; [lia |].
  rewrite (drop_S _ d k) by done. simpl.
  pose proof (exec_init_device val gic k d w) as E. rewrite Ht in E.
  specialize (E Hwf Hv Hd).
  destruct (planned val gic d) as [[e d'] |] eqn:Hp; simpl.
  - unfold run_setups. simpl. unfold bind. rewrite E.
    destruct (DeviceMatch.setup_fn e d' w) as [[] w1 | | |] eqn:Hs; try done.
    apply IH; [| lia]. eapply pass_ok_keeps; [| done].
    exact (drivers_keep e d' (planned_driver _ _ _ _ _ Hp) _ _ _ Hs).
  - rewrite (bind_done _ _ _ _ _ E). apply IH; [done | lia].
Qed.

Lemma run_setups_app l1 l2 w :
  run_setups (l1 ++ l2) w = (run_setups l1 ;; run_setups l2) w.
Proof.
  unfold run_setups. revert w. induction l1 as [| c l1 IH]; intros w; [done |]. simpl.
  rewrite bind_bind. unfold bind in *.
  destruct (DeviceMatch.setup_fn _ _ w) as [[] w' | | |]; first [done | apply IH].
Qed.

Lemma init_devices_runs_setups `{!Drivers drivers} val w :
  wf_tables (w_dtb w) -> compatibles_at val w ->
  init_devices drivers w = run_setups (plan val (w_dtb w)) w.
Proof.
  intros Hwf Hv. pose proof Hwf as (Hl & _ & Hc & _).
  assert (pass_ok val (w_dtb w) w) as Hok by done.
  unfold init_devices, plan, devices. rewrite (bind_done _ _ _ _ _ (exec_gets _ _)).
  destruct (exec_pass val true (w_dtb w) 0 (DEVICE_COUNT (w_dtb w)) w Hok ltac:(lia)) as [E Hok'].
  rewrite drop_0 in E, Hok'. rewrite run_setups_app. unfold bind at 1. rewrite E.
  unfold bind at 2. destruct (run_setups _ w) as [[] w' | | |]; try done.
  specialize (Hok' w' eq_refl). pose proof Hok' as (_ & Et & _).
  rewrite (bind_done _ _ _ _ _ (exec_gets _ _)), Et.
  destruct (exec_pass val false (w_dtb w) 0 (DEVICE_COUNT (w_dtb w)) w' Hok' ltac:(lia)) as [E' _].
  rewrite drop_0 in E'. exact E'.
Qed.

(** C4: [init_devices] makes exactly the planned setup calls in the planned
    order: in the first pass the devices whose [compatible] names "arm,gic-v3",
    in the second all others, each pass in table order and with the first
    matching entry of the driver table; a device without a match gets no call.
    A call that panics or spins ends the initialisation there. *)
Theorem init_devices_runs_plan `{!Drivers drivers} val w :
  wf_tables (w_dtb w) -> compatibles_at val w ->
  init_devices drivers w = run_setups (plan val (w_dtb w)) w.
Proof. apply init_devices_runs_setups. Qed.

End init.
