(* ===== verification/DtbTokens.v ===== *)
(** * The token machine: what the parser computes, token by token

    The structure block of a device tree is a sequence of tokens.  [encode] is
    their binary form (Devicetree Specification, chapter 5), [tok_step] what
    one token does to the tables.  [parse_loop] on the bytes of a token
    sequence computes exactly what folding [tok_step] over the sequence does;
    where [tok_step] is undefined (a table, the property array or the depth
    stack is full, or a property or end token stands outside every node) the
    parser panics. *)

From S2P Require Export Dtb.

Local Open Scope Z_scope.
Local Open Scope kernel_scope.

(** ** Tokens and their binary form *)

(** A property carries the offset of its name in the strings block, the name
    found there, and its value. *)
Inductive token :=
  | TBegin (name : list byte)
  | TEnd
  | TProp (nameoff : Z) (name value : list byte)
  | TNop.

Definition pad4 (n : nat) : nat := Z.to_nat ((Z.of_nat n + 3) / 4 * 4 - Z.of_nat n).

Definition padded (bs : list byte) : list byte := bs ++ replicate (pad4 (length bs)) Byte.x00.

Definition encode (tok : token) : list byte :=
  match tok with
  | TBegin name => be_split 4 FDT_BEGIN_NODE ++ padded (name ++ [Byte.x00])
  | TEnd => be_split 4 FDT_END_NODE
  | TProp nameoff _ value =>
      be_split 4 FDT_PROP ++ be_split 4 (Z.of_nat (length value)) ++ be_split 4 nameoff ++
      padded value
  | TNop => be_split 4 FDT_NOP
  end.

Definition encode_all (toks : list token) : list byte := concat (encode <$> toks).

Lemma length_padded bs :
  Z.of_nat (length (padded bs)) = (Z.of_nat (length bs) + 3) / 4 * 4.
Proof.
  unfold padded, pad4. rewrite length_app, length_replicate.
  pose proof (Z.div_mod (Z.of_nat (length bs) + 3) 4).
  pose proof (Z.mod_pos_bound (Z.of_nat (length bs) + 3) 4). lia.
Qed.

Lemma length_encode tok : Z.of_nat (length (encode tok)) mod 4 = 0.
Proof.
  assert (forall bs, Z.of_nat (length (padded bs)) mod 4 = 0) as Hp.
  { intros bs. rewrite length_padded. apply Z.mod_mul. lia. }
  assert (forall a b, a mod 4 = 0 -> b mod 4 = 0 -> (a + b) mod 4 = 0) as Hadd.
  { intros a b Ha Hb. by rewrite Z.add_mod, Ha, Hb by lia. }
  destruct tok; unfold encode; rewrite ?length_app, ?Nat2Z.inj_add;
    repeat apply Hadd; rewrite ?length_be_split; done.
Qed.

Lemma length_encode_begin name :
  Z.of_nat (length (encode (TBegin name))) = 4 + (Z.of_nat (length name) + 4) / 4 * 4.
Proof.
  unfold encode. rewrite length_app, length_be_split, Nat2Z.inj_add, length_padded, length_app.
  simpl length. do 3 f_equal. lia.
Qed.

Lemma length_encode_prop nameoff name value :
  Z.of_nat (length (encode (TProp nameoff name value))) =
    12 + (Z.of_nat (length value) + 3) / 4 * 4.
Proof.
  unfold encode. rewrite !length_app, !length_be_split, !Nat2Z.inj_add, length_padded. lia.
Qed.

(** ** The machine *)

Module TokState.
(** The tables, the indices of the open nodes (innermost first), and the
    property counter, which the parser shares between all nodes. *)
Record t := mk { tables : DtbTables.t; open : list nat; prop_id : nat }.
End TokState.

Import DtbTables.

Definition name_string (bs : list byte) : string := String.string_of_list_byte bs.

Definition push_device (t : DtbTables.t) (d : PlatformDevice.t) : DtbTables.t :=
  set_DEVICE_COUNT (S (DEVICE_COUNT t))
    (set_DEVICE_TABLE (<[DEVICE_COUNT t := d]> (DEVICE_TABLE t)) t).

Definition push_phandle (t : DtbTables.t) (v : Z) (i : nat) : DtbTables.t :=
  set_PHANDLE_COUNT (S (PHANDLE_COUNT t))
    (set_PHANDLE_TABLE (<[PHANDLE_COUNT t := (v, i)]> (PHANDLE_TABLE t)) t).

Definition update_device (t : DtbTables.t) (i : nat) (f : PlatformDevice.t -> PlatformDevice.t)
    : DtbTables.t :=
  set_DEVICE_TABLE (alter f i (DEVICE_TABLE t)) t.

Definition set_count (n : nat) (d : PlatformDevice.t) : PlatformDevice.t :=
  PlatformDevice.mk (PlatformDevice.parent d) (PlatformDevice.name d)
    (PlatformDevice.properties d) n.

Definition set_prop (n : nat) (p : Property.t) (d : PlatformDevice.t) : PlatformDevice.t :=
  PlatformDevice.mk (PlatformDevice.parent d) (PlatformDevice.name d)
    (<[n := p]> (PlatformDevice.properties d)) (PlatformDevice.prop_count d).

Definition new_device (parent : option nat) (name : list byte) : PlatformDevice.t :=
  PlatformDevice.mk parent (name_string name) (replicate PlatformDevice.MAX_PROPS Property.new) 0.

Definition is_phandle (name : list byte) : bool := String.eqb (name_string name) "phandle".

(** One token at address [addr]; [None] where the parser panics. *)
Definition tok_step (addr : Z) (tok : token) (s : TokState.t) : option TokState.t :=
  let t := TokState.tables s in
  match tok, TokState.open s with
  | TBegin name, st =>
      if (length st <? STACK_SIZE)%nat && (DEVICE_COUNT t <? MAX_DEVICES)%nat then
        Some (TokState.mk (push_device t (new_device (head st) name)) (DEVICE_COUNT t :: st) 0)
      else None
  | TEnd, i :: st =>
      Some (TokState.mk (update_device t i (set_count (TokState.prop_id s))) st (TokState.prop_id s))
  | TProp _ name value, i :: st =>
      let prop := Property.mk (name_string name) (addr + 12) (Z.of_nat (length value)) in
      if (PlatformDevice.MAX_PROPS <=? TokState.prop_id s)%nat then None
      else if is_phandle name then
        if (PHANDLE_COUNT t <? MAX_HANDLES)%nat then
          Some (TokState.mk
            (update_device (push_phandle t (be_combine (take 4 value)) i) i
              (set_prop (TokState.prop_id s) prop)) (i :: st) (S (TokState.prop_id s)))
        else None
      else
        Some (TokState.mk (update_device t i (set_prop (TokState.prop_id s) prop)) (i :: st)
          (S (TokState.prop_id s)))
  | TNop, _ => Some s
  | _, [] => None
  end.

Lemma tok_step_prop addr nameoff name value s i st :
  TokState.open s = i :: st ->
  let t := TokState.tables s in
  let prop := Property.mk (name_string name) (addr + 12) (Z.of_nat (length value)) in
  tok_step addr (TProp nameoff name value) s =
    if (PlatformDevice.MAX_PROPS <=? TokState.prop_id s)%nat then None
    else if is_phandle name then
      if (PHANDLE_COUNT t <? MAX_HANDLES)%nat then
        Some (TokState.mk
          (update_device (push_phandle t (be_combine (take 4 value)) i) i
            (set_prop (TokState.prop_id s) prop)) (i :: st) (S (TokState.prop_id s)))
      else None
    else
      Some (TokState.mk (update_device t i (set_prop (TokState.prop_id s) prop)) (i :: st)
        (S (TokState.prop_id s))).
Proof. intros Hst. unfold tok_step. by rewrite Hst. Qed.

Fixpoint run_tokens (addr : Z) (toks : list token) (s : TokState.t) : option TokState.t :=
  match toks with
  | [] => Some s
  | tok :: toks =>
      s' ← tok_step addr tok s;
      run_tokens (addr + Z.of_nat (length (encode tok))) toks s'
  end.

Lemma run_tokens_app addr toks1 toks2 s :
  run_tokens addr (toks1 ++ toks2) s =
    (s' ← run_tokens addr toks1 s;
     run_tokens (addr + Z.of_nat (length (encode_all toks1))) toks2 s').
Proof.
  revert addr s. induction toks1 as [| tok toks1 IH]; intros addr s; simpl.
  - by rewrite Z.add_0_r.
  - destruct (tok_step addr tok s) as [s' |]; [| done]. simpl. rewrite IH.
    unfold encode_all. simpl. rewrite length_app, Nat2Z.inj_add, Z.add_assoc. done.
Qed.

(** ** Strings and alignment *)

Definition nul_free (bs : list byte) : Prop := Forall (fun b => byte.unsigned b <> 0) bs.

(** A NUL-terminated string in memory. *)
Definition c_string (ram : gmap Z byte) (p : Z) (bs : list byte) : Prop :=
  0 < p /\ p + Z.of_nat (length bs) + 1 < 2 ^ USIZE /\ nul_free bs /\
  ram_bytes ram p (bs ++ [Byte.x00]).

Section exec.
Context {HW : Hardware}.
Implicit Types (w : world) (l : locals).

Lemma exec_strlen_from fuel p k bs w :
  0 < p -> 0 <= k -> p + k + Z.of_nat (length bs) + 1 < 2 ^ USIZE -> nul_free bs ->
  ram_bytes (w_ram w) (p + k) (bs ++ [Byte.x00]) -> (length bs < fuel)%nat ->
  strlen fuel p k w = Done (k + Z.of_nat (length bs)) w.
Proof.
  intros Hp Hk Hfit Hn Hram Hf. revert k fuel Hk Hfit Hram Hf.
  induction Hn as [| b bs Hb Hn IH]; intros k [| fuel] Hk Hfit Hram Hf; simpl in Hf, Hfit; try lia;
    simpl app in Hram; apply ram_bytes_cons in Hram as [Hm Hram]; simpl;
    rewrite (bind_done _ _ _ (p + k) w) by (apply exec_ptr_add; solve_fits).
  - rewrite (bind_done _ _ _ Byte.x00 w) by (apply exec_load_byte; [lia | done]).
    simpl. by rewrite Z.add_0_r.
  - rewrite (bind_done _ _ _ b w) by (apply exec_load_byte; [lia | done]).
    rewrite (proj2 (Z.eqb_neq _ _) Hb).
    rewrite (bind_done _ _ _ (k + 1) w) by (apply exec_uadd; solve_fits).
    rewrite IH; [f_equal; lia | lia | lia | | lia].
    by rewrite Z.add_assoc.
Qed.

Lemma exec_strlen fuel p bs w :
  c_string (w_ram w) p bs -> (length bs < fuel)%nat ->
  strlen fuel p 0 w = Done (Z.of_nat (length bs)) w.
Proof.
  intros (Hp & Hfit & Hn & Hram) Hf.
  by rewrite (exec_strlen_from fuel p 0 bs) by (rewrite ?Z.add_0_r; done || lia).
Qed.

Lemma exec_str_at p bs w :
  c_string (w_ram w) p bs -> str_at p (Z.of_nat (length bs)) w = Done (name_string bs) w.
Proof.
  intros (Hp & Hfit & Hn & Hram). unfold str_at. rewrite Nat2Z.id.
  apply ram_bytes_app in Hram as [Hram _].
  by rewrite (bind_done _ _ _ _ _ (exec_load_bytes _ _ _ Hp Hram)).
Qed.

Lemma exec_align4 x w :
  0 <= x -> x + 3 < 2 ^ USIZE -> align4 x w = Done ((x + 3) / 4 * 4) w.
Proof.
  intros Hx Hfit. unfold align4.
  rewrite (bind_done _ _ _ (x + 3) w) by (apply exec_uadd; solve_fits).
  unfold ret. f_equal. apply Z.bits_inj'. intros i Hi.
  rewrite Z.land_spec, unot_bits by (unfold USIZE; lia).
  change 4 with (2 ^ 2). rewrite <- Z.shiftr_div_pow2, <- Z.shiftl_mul_pow2 by lia.
  rewrite Z.shiftl_spec by lia. change 3 with (Z.ones 2) at 2.
  rewrite Z.testbit_ones_nonneg by lia.
  destruct (Z.ltb_spec i 2); simpl.
  - by rewrite !andb_false_r, Z.testbit_neg_r by lia.
  - rewrite Z.shiftr_spec by lia. replace (i - 2 + 2) with i by lia.
    rewrite andb_true_r. destruct (Z.ltb_spec i USIZE); simpl; [apply andb_true_r |].
    rewrite (testbit_high USIZE (x + 3)) by lia. done.
Qed.

End exec.

(** ** The parser's steps are the machine's *)

Section steps.
Context {HW : Hardware}.
Context (fuel : nat) (dtb_addr off_dt_strings structure_block : Z).
Implicit Types (w : world) (l : locals) (s : TokState.t).

(** The parser's locals and tables represent the machine's state. *)
Record rel (l : locals) s w : Prop := {
  rel_tables : w_dtb w = TokState.tables s;
  rel_prop_id : prop_id l = TokState.prop_id s;
  rel_stack : take (stack_depth l) (stack l) = rev (TokState.open s);
  rel_depth : stack_depth l = length (TokState.open s);
  rel_size : length (stack l) = STACK_SIZE;
  rel_wf : wf_parse l w;
}.

(** The names and values of a token are readable where it says. *)
Definition token_ok (ram : gmap Z byte) (tok : token) : Prop :=
  match tok with
  | TBegin name => nul_free name /\ (length name < fuel)%nat
  | TProp nameoff name value =>
      fits U32 nameoff /\ fits U32 (Z.of_nat (length value)) /\ (length name < fuel)%nat /\
      c_string ram (dtb_addr + off_dt_strings + nameoff) name /\
      (is_phandle name = true -> (4 <= length value)%nat)
  | TEnd | TNop => True
  end.

(** The blob lies in the address space. *)
Definition addresses_ok : Prop :=
  0 <= dtb_addr /\ 0 <= off_dt_strings /\ dtb_addr + off_dt_strings < 2 ^ USIZE /\
  0 < structure_block.

Definition step l := parse_step fuel dtb_addr off_dt_strings structure_block l.

Definition at_token l (tok : token) w : Prop :=
  0 <= off l /\ off l mod 4 = 0 /\
  structure_block + off l + Z.of_nat (length (encode tok)) + 4 < 2 ^ USIZE /\
  ram_bytes (w_ram w) (structure_block + off l) (encode tok).

Lemma read_token w p k v bs :
  0 < p + k -> p + k + 4 < 2 ^ USIZE -> fits U32 v -> ram_bytes (w_ram w) (p + k) (be_split 4 v ++ bs) ->
  read_be_u32 p k w = Done v w.
Proof.
  intros Hp Hfit Hv Hram. apply ram_bytes_app in Hram as [Hram _].
  apply read_be_u32_split; [done | | done]. unfold place_ok. lia.
Qed.

Definition moved l (o : Z) : locals := mkLocals o (prop_id l) (stack l) (stack_depth l).

(** The token word is read and dispatched on. *)
Lemma step_dispatch l tok w v rest :
  addresses_ok -> at_token l tok w -> encode tok = be_split 4 v ++ rest -> fits U32 v ->
  step l w =
    (if v =? FDT_BEGIN_NODE then l <- begin_node fuel structure_block (moved l (off l + 4)) ;; ret (Some l)
     else if v =? FDT_END_NODE then l <- end_node (moved l (off l + 4)) ;; ret (Some l)
     else if v =? FDT_PROP then
       l <- property fuel dtb_addr off_dt_strings structure_block (moved l (off l + 4)) ;; ret (Some l)
     else if v =? FDT_NOP then ret (Some (moved l (off l + 4)))
     else if v =? FDT_END then ret None
     else panic) w.
Proof.
  intros (_ & _ & _ & Hsb) (Ho & Ha & Hfit & Hram) He Hv. rewrite He in *.
  rewrite length_app, length_be_split in Hfit. unfold step, parse_step.
  rewrite (bind_done _ _ _ v w) by (by eapply read_token; [lia | lia | | exact Hram]).
  rewrite (bind_done _ _ _ (off l + 4) w) by (apply exec_uadd; solve_fits). done.
Qed.

Lemma rel_top l s w i st :
  rel l s w -> TokState.open s = i :: st ->
  stack_top l w = Done i w /\ (i < DEVICE_COUNT (w_dtb w))%nat.
Proof.
  intros R Hst. pose proof (rel_stack _ _ _ R) as Hs. pose proof (rel_depth _ _ _ R) as Hd.
  rewrite Hst in Hs, Hd. simpl in Hs, Hd.
  assert (stack l !! length st = Some i) as Hl.
  { rewrite <- (lookup_take_lt _ (stack_depth l)) by lia. rewrite Hs.
    rewrite lookup_app_r; rewrite length_rev; [by rewrite Nat.sub_diag | done]. }
  split.
  - unfold stack_top. rewrite Hd. by apply exec_arr_get.
  - apply (rel_wf _ _ _ R). rewrite Hs. set_solver.
Qed.

Lemma wf_lookup w i :
  wf_tables (w_dtb w) -> (i < DEVICE_COUNT (w_dtb w))%nat ->
  exists d, DEVICE_TABLE (w_dtb w) !! i = Some d /\ wf_device d.
Proof.
  intros (H1 & _ & H3 & _ & H5 & _) Hi.
  destruct (lookup_lt_is_Some_2 (DEVICE_TABLE (w_dtb w)) i) as [d Hd]; [lia |].
  exists d. split; [done | by apply (H5 i)].
Qed.

Lemma exec_set_device i d w :
  (i < length (DEVICE_TABLE (w_dtb w)))%nat ->
  set_device i d w =
    Done tt (set_dtb (set_DEVICE_TABLE (<[i := d]> (DEVICE_TABLE (w_dtb w))) (w_dtb w)) w).
Proof.
  intros Hi. unfold set_device. rewrite (bind_done _ _ _ _ _ (exec_gets _ _)).
  by rewrite (bind_done _ _ _ _ w (exec_arr_set _ _ _ _ Hi)).
Qed.

Lemma alter_insert {A} (f : A -> A) (l : list A) i d :
  l !! i = Some d -> alter f i l = <[i := f d]> l.
Proof.
  intros Hd. apply list_eq. intros j. destruct (decide (i = j)) as [<- |].
  - rewrite list_lookup_alter_eq, Hd, list_lookup_insert_eq by by eapply lookup_lt_Some. done.
  - by rewrite list_lookup_alter_ne, list_lookup_insert_ne.
Qed.

(** What a token's step has to establish. *)
Definition simulates l tok s w : Prop :=
  match tok_step (structure_block + off l) tok s with
  | Some s' =>
      exists l', step l w = Done (Some l') (set_dtb (TokState.tables s') w) /\
        rel l' s' (set_dtb (TokState.tables s') w) /\
        off l' = off l + Z.of_nat (length (encode tok))
  | None => exists w', step l w = Panicked w'
  end.

(** A step that ends in a represented state keeps the invariant. *)
Lemma simulates_done l tok s w l' s' :
  rel l s w ->
  tok_step (structure_block + off l) tok s = Some s' ->
  step l w = Done (Some l') (set_dtb (TokState.tables s') w) ->
  prop_id l' = TokState.prop_id s' ->
  take (stack_depth l') (stack l') = rev (TokState.open s') ->
  stack_depth l' = length (TokState.open s') -> length (stack l') = STACK_SIZE ->
  off l' = off l + Z.of_nat (length (encode tok)) ->
  simulates l tok s w.
Proof.
  intros R Hstep Hrun Hp Hs Hd Hsz Hoff. unfold simulates. rewrite Hstep.
  exists l'. split; [done |]. split; [| done]. split; try done.
  exact (parse_step_wf _ _ _ _ _ _ _ _ (rel_wf _ _ _ R) Hrun).
Qed.

Lemma sim_nop l s w :
  addresses_ok -> rel l s w -> at_token l TNop w -> simulates l TNop s w.
Proof.
  intros Ha R Ht. eapply (simulates_done _ _ _ _ (moved l (off l + 4)) s); try done; try apply R.
  rewrite (step_dispatch l TNop w FDT_NOP []) by done. simpl.
  rewrite <- (rel_tables _ _ _ R). by destruct w.
Qed.

Lemma sim_end l s w :
  addresses_ok -> rel l s w -> at_token l TEnd w -> simulates l TEnd s w.
Proof.
  intros Ha R Ht.
  assert (step l w = (l <- end_node (moved l (off l + 4)) ;; ret (Some l)) w) as Hstep
    by (by rewrite (step_dispatch l TEnd w FDT_END_NODE [])).
  destruct (TokState.open s) as [| i st] eqn:Hst.
  - unfold simulates. simpl. rewrite Hst. exists w. rewrite Hstep.
    pose proof (rel_depth _ _ _ R) as Hd. rewrite Hst in Hd.
    unfold end_node, stack_top. simpl. by rewrite Hd.
  - destruct (rel_top _ _ _ _ _ R Hst) as [Htop Hi].
    destruct (rel_wf _ _ _ R) as [Hwf _].
    destruct (wf_lookup w i Hwf Hi) as (d & Hd & _).
    pose proof (rel_depth _ _ _ R) as Hdep. pose proof (rel_stack _ _ _ R) as Hs.
    rewrite Hst in Hdep, Hs. simpl in Hdep, Hs.
    eapply (simulates_done _ _ _ _ (mkLocals (off l + 4) (prop_id l) (stack l) (stack_depth l - 1)));
      [done | by simpl; rewrite Hst | | | | | |]; simpl.
    + rewrite Hstep. unfold end_node. simpl. rewrite bind_bind.
      change (stack_top (moved l (off l + 4))) with (stack_top l). rewrite (bind_done _ _ _ _ _ Htop).
      rewrite bind_bind, (bind_done _ _ _ _ _ (exec_gets _ _)).
      rewrite bind_bind, (bind_done _ _ _ _ w (exec_arr_get _ _ _ _ Hd)).
      rewrite bind_bind, (bind_done _ _ _ _ _ (exec_set_device _ _ _ (lookup_lt_Some _ _ _ Hd))).
      rewrite <- (rel_tables _ _ _ R), <- (rel_prop_id _ _ _ R). unfold update_device.
      by rewrite (alter_insert _ _ _ d).
    + apply R.
    + rewrite Hdep. simpl. rewrite Nat.sub_0_r. rewrite Hdep in Hs.
      apply (f_equal (take (length st))) in Hs. rewrite take_take, Nat.min_l in Hs by lia.
      rewrite Hs, take_app_length' by (by rewrite length_rev). done.
    + lia.
    + apply R.
    + done.
Qed.


(** The parent pointer of a new node. *)
Lemma exec_parent l s w :
  rel l s w ->
  match stack_depth l with
  | O => ret None
  | S d =>
      idx <- arr_get (stack l) d ;;
      dtb <- gets w_dtb ;;
      _ <- arr_get (DEVICE_TABLE dtb) idx ;;
      ret (Some idx)
  end w = Done (head (TokState.open s)) w.
Proof.
  intros R. destruct (TokState.open s) as [| i st] eqn:Hst.
  - pose proof (rel_depth _ _ _ R) as Hd. rewrite Hst in Hd. by rewrite Hd.
  - destruct (rel_top _ _ _ _ _ R Hst) as [Htop Hi].
    destruct (rel_wf _ _ _ R) as [Hwf _]. destruct (wf_lookup w i Hwf Hi) as (d & Hd & _).
    unfold stack_top in Htop. destruct (stack_depth l) as [| k]; [done |].
    rewrite (bind_done _ _ _ _ _ Htop), (bind_done _ _ _ _ _ (exec_gets _ _)).
    by rewrite (bind_done _ _ _ _ w (exec_arr_get _ _ _ _ Hd)).
Qed.

(** The name of a node and the offset after it. *)
Lemma exec_node_name {A} l name w (k : string -> Z -> M A) :
  addresses_ok -> at_token l (TBegin name) w -> token_ok (w_ram w) (TBegin name) ->
  (name_start <- uadd USIZE structure_block (off l + 4) ;;
   name_len <- strlen fuel name_start 0 ;;
   nm <- str_at name_start name_len ;;
   n <- uadd USIZE name_len 1 ;;
   o <- uadd USIZE (off l + 4) n ;;
   o <- align4 o ;;
   k nm o) w = k (name_string name) (off l + Z.of_nat (length (encode (TBegin name)))) w.
Proof.
  intros (_ & _ & _ & Hsb) (Ho & Hal & Hfit & Hram) [Hn Hf].
  rewrite length_encode_begin in *. set (n := length name) in *.
  pose proof (Z.div_mod (Z.of_nat n + 4) 4). pose proof (Z.mod_pos_bound (Z.of_nat n + 4) 4).
  unfold encode in Hram.
  assert (c_string (w_ram w) (structure_block + (off l + 4)) name) as Hc.
  { split; [lia |]. split; [fold n; lia |]. split; [done |].
    apply ram_bytes_app in Hram as [_ Hram]. rewrite length_be_split in Hram.
    unfold padded in Hram. apply ram_bytes_app in Hram as [Hram _].
    by rewrite Z.add_assoc. }
  rewrite (bind_done _ _ _ (structure_block + (off l + 4)) w) by (apply exec_uadd; solve_fits).
  rewrite (bind_done _ _ _ _ _ (exec_strlen _ _ _ _ Hc Hf)).
  rewrite (bind_done _ _ _ _ _ (exec_str_at _ _ _ Hc)).
  rewrite (bind_done _ _ _ (Z.of_nat n + 1) w) by (apply exec_uadd; solve_fits).
  rewrite (bind_done _ _ _ (off l + 4 + (Z.of_nat n + 1)) w) by (apply exec_uadd; solve_fits).
  erewrite bind_done by (apply exec_align4; lia).
  do 2 f_equal.
  pose proof (Z.div_mod (off l) 4). replace (off l + 4 + (Z.of_nat n + 1) + 3)
    with (Z.of_nat n + 4 + (off l / 4 + 1) * 4) by lia.
  rewrite Z.div_add by lia. lia.
Qed.

(** [begin_node] after the name has been read. *)
Definition begin_tail l s (name : list byte) (o : Z) : M locals :=
  dtb <- gets w_dtb ;;
  set_device (DEVICE_COUNT dtb) (new_device (head (TokState.open s)) name) ;;
  stack <- arr_set (stack l) (stack_depth l) (DEVICE_COUNT dtb) ;;
  modify_dtb (set_DEVICE_COUNT (S (DEVICE_COUNT dtb))) ;;
  ret (mkLocals o 0 stack (S (stack_depth l))).

Lemma exec_begin_node l name s w :
  addresses_ok -> rel l s w -> at_token l (TBegin name) w -> token_ok (w_ram w) (TBegin name) ->
  begin_node fuel structure_block (moved l (off l + 4)) w =
    begin_tail l s name (off l + Z.of_nat (length (encode (TBegin name)))) w.
Proof.
  intros Ha R Ht Hok. unfold begin_node. rewrite (bind_done _ _ _ _ _ (exec_parent l s w R)).
  exact (exec_node_name l name w (fun nm o =>
    dtb <- gets w_dtb ;;
    set_device (DEVICE_COUNT dtb) (PlatformDevice.mk (head (TokState.open s)) nm
      (replicate PlatformDevice.MAX_PROPS Property.new) 0) ;;
    stack <- arr_set (stack l) (stack_depth l) (DEVICE_COUNT dtb) ;;
    modify_dtb (set_DEVICE_COUNT (S (DEVICE_COUNT dtb))) ;;
    ret (mkLocals o 0 stack (S (stack_depth l)))) Ha Ht Hok).
Qed.

Lemma sim_begin l name s w :
  addresses_ok -> rel l s w -> at_token l (TBegin name) w -> token_ok (w_ram w) (TBegin name) ->
  simulates l (TBegin name) s w.
Proof.
  intros Ha R Ht Hok.
  assert (step l w = (l <- begin_node fuel structure_block (moved l (off l + 4)) ;; ret (Some l)) w)
    as Hstep by (by rewrite (step_dispatch l (TBegin name) w FDT_BEGIN_NODE (padded (name ++ [Byte.x00])))).
  destruct (rel_wf _ _ _ R) as [(Hl & _ & Hc & _) _].
  pose proof (rel_depth _ _ _ R) as Hdep. pose proof (rel_size _ _ _ R) as Hsz.
  pose proof (rel_stack _ _ _ R) as Hs.
  assert (step l w = (l <- begin_tail l s name (off l + Z.of_nat (length (encode (TBegin name)))) ;;
            ret (Some l)) w) as Hrun
    by (rewrite Hstep; apply bind_ext; by apply exec_begin_node).
  unfold begin_tail in Hrun. rewrite !bind_bind in Hrun.
  rewrite (bind_done _ _ _ _ _ (exec_gets _ _)), bind_bind in Hrun.
  destruct (Nat.ltb_spec (DEVICE_COUNT (w_dtb w)) MAX_DEVICES) as [Hcount | Hcount].
  2:{ unfold simulates, tok_step. rewrite <- (rel_tables _ _ _ R).
      rewrite (proj2 (Nat.ltb_ge _ _) Hcount), andb_false_r. eexists. rewrite Hrun.
      apply bind_panicked. unfold set_device. rewrite (bind_done _ _ _ _ _ (exec_gets _ _)).
      apply bind_panicked. apply arr_set_panics. lia. }
  rewrite (bind_done _ _ _ _ _ (exec_set_device _ _ _ (eq_ind_r (lt _) Hcount Hl))), bind_bind in Hrun.
  destruct (Nat.ltb_spec (length (TokState.open s)) STACK_SIZE) as [Hdepth | Hdepth].
  2:{ unfold simulates, tok_step. rewrite (proj2 (Nat.ltb_ge _ _) Hdepth). simpl.
      eexists. rewrite Hrun. apply bind_panicked. apply arr_set_panics. lia. }
  assert (stack_depth l < length (stack l))%nat as Hlt by lia.
  eapply (simulates_done _ _ _ _ (mkLocals (off l + Z.of_nat (length (encode (TBegin name)))) 0
    (<[stack_depth l := DEVICE_COUNT (w_dtb w)]> (stack l)) (S (stack_depth l))));
    [done | | | | | | |].
  - unfold tok_step. rewrite <- (rel_tables _ _ _ R).
    by rewrite (proj2 (Nat.ltb_lt _ _) Hdepth), (proj2 (Nat.ltb_lt _ _) Hcount).
  - rewrite Hrun. by rewrite (bind_done _ _ _ _ _ (exec_arr_set _ _ _ _ Hlt)).
  - done.
  - simpl. rewrite (take_S_r _ _ (DEVICE_COUNT (w_dtb w))) by by apply list_lookup_insert_eq.
    by rewrite take_insert_ge, Hs.
  - simpl. by rewrite Hdep.
  - simpl. by rewrite length_insert.
  - done.
Qed.


(** [property] once the header, the name and the value's address are known. *)
Definition property_tail l (o : Z) (name : list byte) (value n : Z) : M locals :=
  dev_idx <- stack_top l ;;
  (if String.eqb (name_string name) "phandle" then
     phandle_value <- read_be_u32 value 0 ;;
     register_phandle phandle_value dev_idx
   else ret tt) ;;
  dtb <- gets w_dtb ;;
  d <- arr_get (DEVICE_TABLE dtb) dev_idx ;;
  props <- arr_set (PlatformDevice.properties d) (prop_id l)
             (Property.mk (name_string name) value n) ;;
  set_device dev_idx (PlatformDevice.mk (PlatformDevice.parent d) (PlatformDevice.name d)
    props (PlatformDevice.prop_count d)) ;;
  off <- uadd USIZE o n ;;
  off <- align4 off ;;
  ret (mkLocals off (S (prop_id l)) (stack l) (stack_depth l)).

Lemma prop_bytes l nameoff name value w :
  at_token l (TProp nameoff name value) w ->
  ram_bytes (w_ram w) (structure_block + (off l + 4))
    (be_split 4 (Z.of_nat (length value)) ++ be_split 4 nameoff ++ padded value).
Proof.
  intros (_ & _ & _ & Hram). unfold encode in Hram. apply ram_bytes_app in Hram as [_ Hram].
  rewrite length_be_split in Hram. by rewrite Z.add_assoc.
Qed.

Lemma exec_property_head l nameoff name value w :
  addresses_ok -> at_token l (TProp nameoff name value) w ->
  token_ok (w_ram w) (TProp nameoff name value) ->
  property fuel dtb_addr off_dt_strings structure_block (moved l (off l + 4)) w =
    property_tail l (off l + 12) name (structure_block + (off l + 12)) (Z.of_nat (length value)) w.
Proof.
  intros (Hd & Hos & Hds & Hsb) Ht (Hno & Hlen & Hf & Hc & _).
  pose proof (prop_bytes _ _ _ _ _ Ht) as Hram. destruct Ht as (Ho & _ & Hfit & _).
  rewrite length_encode_prop in Hfit.
  pose proof (Z.div_mod (Z.of_nat (length value) + 3) 4).
  pose proof (Z.mod_pos_bound (Z.of_nat (length value) + 3) 4).
  apply ram_bytes_app in Hram as [Hl Hram]. apply ram_bytes_app in Hram as [Hn _].
  rewrite length_be_split in Hn.
  unfold property. change (off (moved l (off l + 4))) with (off l + 4).
  rewrite (bind_done _ _ _ (structure_block + (off l + 4)) w) by (apply exec_uadd; solve_fits).
  rewrite (bind_done _ _ _ (FdtPropHeader.mk (Z.of_nat (length value)) nameoff) w).
  2:{ unfold FdtPropHeader_from_be_bytes.
      rewrite (bind_done _ _ _ (Z.of_nat (length value)) w)
        by (apply read_be_u32_split; [done | unfold place_ok; lia | by rewrite Z.add_0_r]).
      by rewrite (bind_done _ _ _ nameoff w)
        by (apply read_be_u32_split; [done | unfold place_ok; lia | exact Hn]). }
  rewrite (bind_done _ _ _ (off l + 12) w)
    by (replace (off l + 12) with (off l + 4 + 8) by lia; apply exec_uadd; solve_fits).
  rewrite (bind_done _ _ _ (name_string name) w).
  2:{ unfold get_property_name. simpl FdtPropHeader.nameoff.
      pose proof Hc as (Hp & Hpf & _). unfold fits in Hno.
      rewrite (bind_done _ _ _ (dtb_addr + off_dt_strings) w) by (apply exec_uadd; solve_fits).
      rewrite (bind_done _ _ _ (dtb_addr + off_dt_strings + nameoff) w) by (apply exec_uadd; solve_fits).
      rewrite (bind_done _ _ _ _ _ (exec_strlen _ _ _ _ Hc Hf)). by apply exec_str_at. }
  rewrite (bind_done _ _ _ (structure_block + (off l + 12)) w) by (apply exec_uadd; solve_fits).
  done.
Qed.

Lemma prop_value_bytes l nameoff name value w :
  at_token l (TProp nameoff name value) w ->
  ram_bytes (w_ram w) (structure_block + (off l + 12)) value.
Proof.
  intros Ht. pose proof (prop_bytes _ _ _ _ _ Ht) as Hram.
  apply ram_bytes_app in Hram as [_ Hram]. apply ram_bytes_app in Hram as [_ Hram].
  unfold padded in Hram. apply ram_bytes_app in Hram as [Hram _].
  rewrite !length_be_split in Hram.
  by replace (structure_block + (off l + 12))
    with (structure_block + (off l + 4) + Z.of_nat 4 + Z.of_nat 4) by lia.
Qed.

(** The phandle of a property, and what registering it does. *)
Lemma exec_phandle l nameoff name value w i :
  addresses_ok -> at_token l (TProp nameoff name value) w ->
  token_ok (w_ram w) (TProp nameoff name value) -> wf_tables (w_dtb w) ->
  is_phandle name = true ->
  let c := (phandle_value <- read_be_u32 (structure_block + (off l + 12)) 0 ;;
            register_phandle phandle_value i) in
  c w = if (PHANDLE_COUNT (w_dtb w) <? MAX_HANDLES)%nat
        then Done tt (set_dtb (push_phandle (w_dtb w) (be_combine (take 4 value)) i) w)
        else Panicked w.
Proof.
  intros Ha Ht (_ & _ & _ & _ & Hph) (_ & Hpl & _) Hp c. specialize (Hph Hp).
  pose proof (prop_value_bytes _ _ _ _ _ Ht) as Hram.
  destruct Ht as (Ho & _ & Hfit & _). rewrite length_encode_prop in Hfit.
  destruct Ha as (_ & _ & _ & Hsb).
  pose proof (Z.div_mod (Z.of_nat (length value) + 3) 4).
  pose proof (Z.mod_pos_bound (Z.of_nat (length value) + 3) 4).
  unfold c. rewrite (bind_done _ _ _ (be_combine (take 4 value)) w).
  2:{ apply exec_read_be_u32; [unfold place_ok; lia | rewrite length_take; lia |].
      rewrite Z.add_0_r. rewrite <- (take_drop 4 value) in Hram.
      by apply ram_bytes_app in Hram as [Hram _]. }
  unfold register_phandle. rewrite (bind_done _ _ _ _ _ (exec_gets _ _)).
  destruct (Nat.ltb_spec (PHANDLE_COUNT (w_dtb w)) MAX_HANDLES) as [Hc | Hc].
  - by rewrite (bind_done _ _ _ _ w (exec_arr_set _ _ _ _ (eq_ind_r (lt _) Hc Hpl))).
  - apply bind_panicked, arr_set_panics. lia.
Qed.

(** Storing the property in the innermost open node. *)
Definition store_tail l (o : Z) (dev_idx : nat) (prop : Property.t) : M locals :=
  dtb <- gets w_dtb ;;
  d <- arr_get (DEVICE_TABLE dtb) dev_idx ;;
  props <- arr_set (PlatformDevice.properties d) (prop_id l) prop ;;
  set_device dev_idx (PlatformDevice.mk (PlatformDevice.parent d) (PlatformDevice.name d)
    props (PlatformDevice.prop_count d)) ;;
  off <- uadd USIZE o (Property.len prop) ;;
  off <- align4 off ;;
  ret (mkLocals off (S (prop_id l)) (stack l) (stack_depth l)).

Lemma exec_store_tail l i prop w :
  wf_tables (w_dtb w) -> (i < DEVICE_COUNT (w_dtb w))%nat ->
  0 <= off l -> off l mod 4 = 0 -> 0 <= Property.len prop ->
  off l + 12 + Property.len prop + 3 < 2 ^ USIZE ->
  store_tail l (off l + 12) i prop w =
    if (PlatformDevice.MAX_PROPS <=? prop_id l)%nat then Panicked w
    else Done (mkLocals (off l + (12 + (Property.len prop + 3) / 4 * 4)) (S (prop_id l)) (stack l)
           (stack_depth l)) (set_dtb (update_device (w_dtb w) i (set_prop (prop_id l) prop)) w).
Proof.
  intros Hwf Hi Ho Hal Hlen Hfit. destruct (wf_lookup w i Hwf Hi) as (d & Hd & Hpl & _).
  unfold store_tail. rewrite (bind_done _ _ _ _ _ (exec_gets _ _)).
  rewrite (bind_done _ _ _ _ w (exec_arr_get _ _ _ _ Hd)).
  destruct (Nat.leb_spec PlatformDevice.MAX_PROPS (prop_id l)) as [Hp | Hp].
  { apply bind_panicked, arr_set_panics. lia. }
  rewrite (bind_done _ _ _ _ w (exec_arr_set _ _ _ _ (eq_ind_r (lt _) Hp Hpl))).
  rewrite (bind_done _ _ _ _ _ (exec_set_device _ _ _ (lookup_lt_Some _ _ _ Hd))).
  erewrite bind_done by (apply exec_uadd; solve_fits).
  erewrite bind_done by (apply exec_align4; lia).
  unfold ret, update_device. rewrite (alter_insert _ _ _ d) by done. do 2 f_equal.
  pose proof (Z.div_mod (off l) 4).
  replace (off l + 12 + Property.len prop + 3)
    with (Property.len prop + 3 + (off l / 4 + 3) * 4) by lia.
  rewrite Z.div_add by lia. lia.
Qed.


(** The locals after a property, and what it takes for the step to simulate. *)
Lemma sim_prop_done l nameoff name value s w i st t :
  rel l s w -> TokState.open s = i :: st ->
  tok_step (structure_block + off l) (TProp nameoff name value) s =
    Some (TokState.mk t (i :: st) (S (TokState.prop_id s))) ->
  step l w = Done (Some (mkLocals (off l + (12 + (Z.of_nat (length value) + 3) / 4 * 4))
    (S (prop_id l)) (stack l) (stack_depth l))) (set_dtb t w) ->
  simulates l (TProp nameoff name value) s w.
Proof.
  intros R Hst Hstep Hrun.
  eapply simulates_done; [done | exact Hstep | exact Hrun | | | | |];
    cbn [prop_id stack stack_depth off TokState.prop_id TokState.open].
  - by rewrite (rel_prop_id _ _ _ R).
  - rewrite <- Hst. apply R.
  - rewrite <- Hst. apply R.
  - apply R.
  - by rewrite length_encode_prop.
Qed.

(** The property that a property token stands for at the current offset. *)
Definition prop_at l (name value : list byte) : Property.t :=
  Property.mk (name_string name) (structure_block + (off l + 12)) (Z.of_nat (length value)).

(** What a property token comes down to once the phandle is dealt with. *)
Lemma sim_store l nameoff name value s w t i st :
  addresses_ok -> rel l s w -> at_token l (TProp nameoff name value) w ->
  TokState.open s = i :: st -> wf_tables t -> (i < DEVICE_COUNT t)%nat ->
  step l w = (l <- store_tail l (off l + 12) i (prop_at l name value) ;; ret (Some l)) (set_dtb t w) ->
  tok_step (structure_block + off l) (TProp nameoff name value) s =
    (if (PlatformDevice.MAX_PROPS <=? TokState.prop_id s)%nat then None
     else Some (TokState.mk (update_device t i (set_prop (TokState.prop_id s) (prop_at l name value)))
            (i :: st) (S (TokState.prop_id s)))) ->
  simulates l (TProp nameoff name value) s w.
Proof.
  intros Ha R Ht Hst Hwf Hi Hrun Htok.
  assert (store_tail l (off l + 12) i (prop_at l name value) (set_dtb t w) =
    if (PlatformDevice.MAX_PROPS <=? prop_id l)%nat then Panicked (set_dtb t w)
    else Done (mkLocals (off l + (12 + (Z.of_nat (length value) + 3) / 4 * 4)) (S (prop_id l)) (stack l)
      (stack_depth l)) (set_dtb (update_device t i (set_prop (prop_id l) (prop_at l name value)))
        (set_dtb t w))) as Hstore.
  { pose proof Ht as (Ho & Hal & Hfit & _). rewrite length_encode_prop in Hfit.
    pose proof (Z.div_mod (Z.of_nat (length value) + 3) 4).
    pose proof (Z.mod_pos_bound (Z.of_nat (length value) + 3) 4).
    destruct Ha as (_ & _ & _ & Hsb). apply exec_store_tail; try done; simpl; lia. }
  rewrite (rel_prop_id _ _ _ R) in Hstore.
  destruct (PlatformDevice.MAX_PROPS <=? TokState.prop_id s)%nat.
  - unfold simulates. rewrite Htok, Hrun, (bind_panicked _ _ _ _ Hstore). by eexists.
  - rewrite (bind_done _ _ _ _ _ Hstore) in Hrun.
    eapply (sim_prop_done l nameoff name value s w);
      [done.. | | rewrite <- (rel_prop_id _ _ _ R) in Hrun; exact Hrun].
    by rewrite Htok, (rel_prop_id _ _ _ R).
Qed.

(** The iteration of a property token, up to its two effects. *)
Lemma exec_prop_step l nameoff name value s w i st :
  addresses_ok -> rel l s w -> at_token l (TProp nameoff name value) w ->
  token_ok (w_ram w) (TProp nameoff name value) -> TokState.open s = i :: st ->
  step l w = ((if is_phandle name then
      phandle_value <- read_be_u32 (structure_block + (off l + 12)) 0 ;; register_phandle phandle_value i
    else ret tt) ;;
    l <- store_tail l (off l + 12) i (prop_at l name value) ;; ret (Some l)) w.
Proof.
  intros Ha R Ht Hok Hst. destruct (rel_top _ _ _ _ _ R Hst) as [Htop _].
  rewrite (step_dispatch l (TProp nameoff name value) w FDT_PROP
    (be_split 4 (Z.of_nat (length value)) ++ be_split 4 nameoff ++ padded value)) by done.
  etransitivity; [apply bind_ext; by apply (exec_property_head l nameoff name value w) |].
  unfold property_tail. rewrite bind_bind, (bind_done _ _ _ _ _ Htop). by rewrite <- bind_bind.
Qed.

Lemma sim_prop l nameoff name value s w :
  addresses_ok -> rel l s w -> at_token l (TProp nameoff name value) w ->
  token_ok (w_ram w) (TProp nameoff name value) ->
  simulates l (TProp nameoff name value) s w.
Proof.
  intros Ha R Ht Hok. destruct (TokState.open s) as [| i st] eqn:Hst.
  { unfold simulates. simpl. rewrite Hst. exists w.
    rewrite (step_dispatch l (TProp nameoff name value) w FDT_PROP
      (be_split 4 (Z.of_nat (length value)) ++ be_split 4 nameoff ++ padded value)) by done.
    etransitivity; [apply bind_ext; by apply (exec_property_head l nameoff name value w) |].
    unfold property_tail, stack_top. by rewrite (rel_depth _ _ _ R), Hst. }
  pose proof (exec_prop_step l nameoff name value s w i st Ha R Ht Hok Hst) as Hrun.
  destruct (rel_top _ _ _ _ _ R Hst) as [_ Hi]. pose proof (proj1 (rel_wf _ _ _ R)) as Hwf.
  assert (structure_block + off l + 12 = structure_block + (off l + 12)) as Eaddr by lia.
  pose proof (tok_step_prop (structure_block + off l) nameoff name value s i st Hst) as Htok.
  cbv zeta in Htok. rewrite Eaddr in Htok. fold (prop_at l name value) in Htok.
  rewrite <- (rel_tables _ _ _ R) in Htok.
  destruct (is_phandle name) eqn:Hph.
  - pose proof (exec_phandle l nameoff name value w i Ha Ht Hok Hwf Hph) as Hreg. cbv zeta in Hreg.
    destruct (Nat.ltb_spec (PHANDLE_COUNT (w_dtb w)) MAX_HANDLES) as [Hc | Hc].
    + rewrite (bind_done _ _ _ _ _ Hreg) in Hrun.
      eapply (sim_store l nameoff name value s w); [done.. | | | exact Hrun | exact Htok];
        [by apply wf_tables_register | done].
    + unfold simulates. rewrite Htok, Hrun, (bind_panicked _ _ _ _ Hreg).
      destruct (_ <=? _)%nat; by eexists.
  - rewrite (bind_done _ _ _ tt w) in Hrun by done.
    apply (sim_store l nameoff name value s w (w_dtb w) i st); try done. by destruct w.
Qed.

Lemma sim_token l tok s w :
  addresses_ok -> rel l s w -> at_token l tok w -> token_ok (w_ram w) tok ->
  simulates l tok s w.
Proof.
  intros Ha R Ht Hok.
  destruct tok; [by apply sim_begin | by apply sim_end | by apply sim_prop | by apply sim_nop].
Qed.

(** ** The loop *)

(** The rest of the structure block from the current offset on. *)
Definition at_tokens l (toks : list token) w : Prop :=
  0 <= off l /\ off l mod 4 = 0 /\
  structure_block + off l + Z.of_nat (length (encode_all toks)) + 4 < 2 ^ USIZE /\
  ram_bytes (w_ram w) (structure_block + off l) (encode_all toks ++ be_split 4 FDT_END).

Lemma at_tokens_cons l tok toks w :
  at_tokens l (tok :: toks) w ->
  at_token l tok w /\
  forall l', off l' = off l + Z.of_nat (length (encode tok)) -> at_tokens l' toks w.
Proof.
  intros (Ho & Hal & Hfit & Hram). change (encode_all (tok :: toks)) with (encode tok ++ encode_all toks) in *.
  rewrite <- app_assoc in Hram. apply ram_bytes_app in Hram as [Ht Hrest].
  rewrite length_app, Nat2Z.inj_add in Hfit. split.
  - repeat split; [done.. | lia | done].
  - intros l' Hl'. unfold at_tokens. rewrite Hl'. repeat split; [lia | | lia | by rewrite Z.add_assoc].
    by rewrite Z.add_mod, Hal, length_encode by lia.
Qed.

Lemma exec_parse_loop n toks l s w :
  addresses_ok -> rel l s w -> at_tokens l toks w -> Forall (token_ok (w_ram w)) toks ->
  (length toks < n)%nat ->
  match run_tokens (structure_block + off l) toks s with
  | Some s' => parse_loop n fuel dtb_addr off_dt_strings structure_block l w =
                 Done tt (set_dtb (TokState.tables s') w)
  | None => exists w', parse_loop n fuel dtb_addr off_dt_strings structure_block l w = Panicked w'
  end.
Proof.
  intros Ha. revert n l s w. induction toks as [| tok toks IH]; intros n l s w R Hat Hok Hn;
    (destruct n as [| n]; [simpl in Hn; lia |]); cbn [parse_loop run_tokens]; fold (step l).
  - destruct Hat as (Ho & Hal & Hfit & Hram). change (Z.of_nat (length (encode_all []))) with 0 in Hfit. unfold encode_all in Hram.
    destruct Ha as (_ & _ & _ & Hsb). rewrite <- (rel_tables _ _ _ R).
    rewrite (bind_done _ _ _ None w); [by destruct w |]. unfold step, parse_step.
    rewrite (bind_done _ _ _ FDT_END w)
      by (apply (read_token _ _ _ _ []); [lia | lia | done | by rewrite app_nil_r]).
    by rewrite (bind_done _ _ _ (off l + 4) w) by (apply exec_uadd; solve_fits).
  - apply at_tokens_cons in Hat as [Ht Hrest]. apply Forall_cons in Hok as [Hok Hoks].
    pose proof (sim_token l tok s w Ha R Ht Hok) as Hsim. unfold simulates in Hsim.
    destruct (tok_step _ tok s) as [s' |]; simpl.
    + destruct Hsim as (l' & Hrun & R' & Hoff). rewrite (bind_done _ _ _ _ _ Hrun).
      specialize (IH n l' s' _ R'). rewrite Hoff in IH.
      replace (structure_block + (off l + Z.of_nat (length (encode tok))))
        with (structure_block + off l + Z.of_nat (length (encode tok))) in IH by lia.
      apply IH; [by apply Hrest | done | simpl in Hn; lia].
    + destruct Hsim as [w' Hrun]. exists w'. by rewrite (bind_panicked _ _ _ _ Hrun).
Qed.

End steps.

(** ** The blob *)

Definition header_words (h : FdtHeader.t) : list Z :=
  [FdtHeader.magic h; FdtHeader.totalsize h; FdtHeader.off_dt_struct h; FdtHeader.off_dt_strings h;
   FdtHeader.off_mem_rsvmap h; FdtHeader.version h; FdtHeader.last_comp_version h;
   FdtHeader.boot_cpuid_phys h; FdtHeader.size_dt_strings h; FdtHeader.size_dt_struct h].

(** A header in memory: ten big-endian words. *)
Definition header_at (ram : gmap Z byte) (dtb : Z) (h : FdtHeader.t) : Prop :=
  0 < dtb /\ dtb + 40 < 2 ^ USIZE /\ Forall (fits U32) (header_words h) /\
  ram_bytes ram dtb (concat (be_split 4 <$> header_words h)).

(** A device tree blob at [dtb] whose structure block holds the tokens [toks]. *)
Record blob_at (ram : gmap Z byte) (fuel : nat) (dtb : Z) (h : FdtHeader.t) (toks : list token) : Prop := {
  blob_header : header_at ram dtb h;
  blob_strings : dtb + FdtHeader.off_dt_strings h < 2 ^ USIZE;
  blob_struct : dtb + FdtHeader.off_dt_struct h + Z.of_nat (length (encode_all toks)) + 4 < 2 ^ USIZE;
  blob_tokens : ram_bytes ram (dtb + FdtHeader.off_dt_struct h) (encode_all toks ++ be_split 4 FDT_END);
  blob_ok : Forall (token_ok fuel dtb (FdtHeader.off_dt_strings h) ram) toks;
  blob_fuel : (length toks < fuel)%nat;
}.

Section blob.
Context {HW : Hardware}.
Implicit Types (w : world).

Lemma exec_header_word w dtb h i off v :
  header_at (w_ram w) dtb h -> header_words h !! i = Some v -> off = Z.of_nat i * 4 ->
  read_be_u32 dtb off w = Done v w.
Proof.
  intros (Hp & Hfit & Hw & Hram) Hi ->. pose proof (lookup_lt_Some _ _ _ Hi) as Hlt.
  simpl in Hlt. apply read_be_u32_split.
  - by eapply Forall_lookup in Hw.
  - unfold place_ok. lia.
  - apply (ram_bytes_concat _ _ (be_split 4 <$> header_words h)); [| done |].
    + apply Forall_fmap, Forall_true. intros x. apply length_be_split.
    + by rewrite list_lookup_fmap, Hi.
Qed.

Lemma exec_header w dtb h :
  header_at (w_ram w) dtb h -> FdtHeader_from_be_bytes dtb w = Done h w.
Proof.
  intros Hh. unfold FdtHeader_from_be_bytes.
  pose proof (fun i v H => exec_header_word w dtb h i _ v Hh H eq_refl) as R.
  rewrite (bind_done _ _ _ _ _ (R 0%nat _ eq_refl)), (bind_done _ _ _ _ _ (R 1%nat _ eq_refl)),
    (bind_done _ _ _ _ _ (R 2%nat _ eq_refl)), (bind_done _ _ _ _ _ (R 3%nat _ eq_refl)),
    (bind_done _ _ _ _ _ (R 4%nat _ eq_refl)), (bind_done _ _ _ _ _ (R 5%nat _ eq_refl)),
    (bind_done _ _ _ _ _ (R 6%nat _ eq_refl)), (bind_done _ _ _ _ _ (R 7%nat _ eq_refl)),
    (bind_done _ _ _ _ _ (R 8%nat _ eq_refl)), (bind_done _ _ _ _ _ (R 9%nat _ eq_refl)).
  by destruct h.
Qed.

(** A blob is parsed as its tokens say. *)
Lemma exec_parse_tables fuel dtb h toks w :
  FdtHeader.magic h = MAGIC -> blob_at (w_ram w) fuel dtb h toks -> wf_tables (w_dtb w) ->
  match run_tokens (dtb + FdtHeader.off_dt_struct h) toks (TokState.mk (w_dtb w) [] 0) with
  | Some s' => parse_tables fuel dtb w = Done tt (set_dtb (TokState.tables s') w)
  | None => exists w', parse_tables fuel dtb w = Panicked w'
  end.
Proof.
  intros Hm [Hh Hs Hb Ht Hok Hf] Hwf.
  pose proof Hh as (Hp & Hpf & Hw & _). unfold header_words in Hw. rewrite !Forall_cons in Hw.
  destruct Hw as (_ & _ & Hos & Host & _).
  assert (forall r, parse_loop fuel fuel dtb (FdtHeader.off_dt_strings h)
    (dtb + FdtHeader.off_dt_struct h) locals_init w = r -> parse_tables fuel dtb w = r) as Hrun.
  { intros r <-. unfold parse_tables. rewrite (bind_done _ _ _ _ _ (exec_header _ _ _ Hh)), Hm.
    unfold fits in Hos. change (negb (MAGIC =? MAGIC)) with false. cbv iota.
    by rewrite (bind_done _ _ _ (dtb + FdtHeader.off_dt_struct h) w) by (apply exec_uadd; solve_fits). }
  pose proof (exec_parse_loop fuel dtb (FdtHeader.off_dt_strings h) (dtb + FdtHeader.off_dt_struct h)
    fuel toks locals_init (TokState.mk (w_dtb w) [] 0) w) as H.
  simpl off in H. rewrite Z.add_0_r in H.
  unfold fits in Hos, Host.
  destruct (run_tokens _ _ _) as [s' |].
  - apply Hrun, H; try done.
    + repeat split; lia.
    + split; try done. split; [done | apply wf_locals_init].
    + unfold at_tokens. simpl off. rewrite Z.add_0_r. repeat split; lia || done.
  - destruct H as [w' H]; try done.
    + repeat split; lia.
    + split; try done. split; [done | apply wf_locals_init].
    + unfold at_tokens. simpl off. rewrite Z.add_0_r. repeat split; lia || done.
    + exists w'. by apply Hrun.
Qed.

End blob.

(** ** Theorems *)

(** C1: parsing a blob refines the token machine: the tables end up as the
    fold of [tok_step] over the tokens of the structure block says, and where
    [tok_step] is undefined (a full table, property array or depth stack, a
    token outside every node) the kernel panics.  A wrong magic number panics
    before anything is written. *)
Theorem parse_tables_refines_tokens {HW : Hardware} fuel dtb h toks (w : world) :
  header_at (w_ram w) dtb h -> wf_tables (w_dtb w) ->
  (FdtHeader.magic h <> MAGIC -> parse_tables fuel dtb w = Panicked w) /\
  (FdtHeader.magic h = MAGIC -> blob_at (w_ram w) fuel dtb h toks ->
   match run_tokens (dtb + FdtHeader.off_dt_struct h) toks (TokState.mk (w_dtb w) [] 0) with
   | Some s' => parse_tables fuel dtb w = Done tt (set_dtb (TokState.tables s') w)
   | None => exists w', parse_tables fuel dtb w = Panicked w'
   end).
Proof.
  intros Hh Hwf. split; [| intros; by apply exec_parse_tables].
  intros Hm. unfold parse_tables. rewrite (bind_done _ _ _ _ _ (exec_header _ _ _ Hh)).
  by rewrite (proj2 (Z.eqb_neq _ _) Hm).
Qed.
