(* ===== verification/DtbTree.v ===== *)
(** * Device trees and the flat tables

    A tree of named nodes, each with its properties followed by its children,
    is the abstract content of a device tree blob.  Parsing the blob of a tree
    yields the nodes in preorder, every node with the index of its parent, its
    own properties, and the phandles in the order of their occurrence.  The
    property count stored for a node is [final_count], which is the number of
    its own properties for a leaf only: a node with children gets the count
    of its last child, because the parser keeps a single counter. *)

From S2P Require Export DtbTokens.

Local Open Scope Z_scope.
Local Open Scope kernel_scope.

Import DtbTables.

(** ** Trees *)

Record dt_prop := mkProp { p_nameoff : Z; p_name : list byte; p_value : list byte }.

Inductive tree := Node (name : list byte) (props : list dt_prop) (children : list tree).

Section tree_ind.
Context (P : tree -> Prop)
  (HN : forall name props children, Forall P children -> P (Node name props children)).

Fixpoint tree_ind' (t : tree) : P t :=
  match t with
  | Node name props children =>
      HN name props children
        ((fix go (l : list tree) : Forall P l :=
            match l with
            | [] => Forall_nil_2 P
            | c :: l => Forall_cons_2 P c l (tree_ind' c) (go l)
            end) children)
  end.
End tree_ind.

Definition prop_token (p : dt_prop) : token := TProp (p_nameoff p) (p_name p) (p_value p).

Fixpoint tokens_of (t : tree) : list token :=
  match t with
  | Node name props children =>
      TBegin name :: (prop_token <$> props) ++ flat_map tokens_of children ++ [TEnd]
  end.

Fixpoint count_nodes (t : tree) : nat :=
  match t with Node _ _ children => S (list_sum (map count_nodes children)) end.

Fixpoint depth (t : tree) : nat :=
  match t with Node _ _ children => S (list_max (map depth children)) end.

Definition phandle_props (props : list dt_prop) : list dt_prop :=
  filter (fun p => is_phandle (p_name p) = true) props.

Fixpoint count_phandles (t : tree) : nat :=
  match t with
  | Node _ props children =>
      (length (phandle_props props) + list_sum (map count_phandles children))%nat
  end.

Fixpoint props_fit (t : tree) : bool :=
  match t with
  | Node _ props children =>
      (length props <=? PlatformDevice.MAX_PROPS)%nat && forallb props_fit children
  end.

(** The size of a node in the structure block. *)
Definition size_of (toks : list token) : Z := Z.of_nat (length (encode_all toks)).

(** ** The tables of a tree *)

(** The counter after the node's end token. *)
Fixpoint final_count (t : tree) : nat :=
  match t with
  | Node _ props children => fold_left (fun _ c => final_count c) children (length props)
  end.

(** The properties as the kernel stores them, the first one at [addr]. *)
Fixpoint prop_entries (addr : Z) (props : list dt_prop) : list Property.t :=
  match props with
  | [] => []
  | p :: props =>
      Property.mk (name_string (p_name p)) (addr + 12) (Z.of_nat (length (p_value p))) ::
      prop_entries (addr + Z.of_nat (length (encode (prop_token p)))) props
  end.

Definition prop_array (ps : list Property.t) : list Property.t :=
  ps ++ replicate (PlatformDevice.MAX_PROPS - length ps) Property.new.

Definition children_at (addr : Z) (name : list byte) (props : list dt_prop) : Z :=
  addr + size_of (TBegin name :: (prop_token <$> props)).

(** Concatenates what [f] gives for the trees of a forest, which lie one after
    the other at [addr] and get consecutive indices from [idx] on. *)
Definition over_forest {A} (f : Z -> nat -> tree -> list A) : Z -> nat -> list tree -> list A :=
  fix go addr idx l :=
    match l with
    | [] => []
    | c :: l => f addr idx c ++ go (addr + size_of (tokens_of c)) (idx + count_nodes c)%nat l
    end.

(** The device entries of a tree at [addr], from index [idx] on. *)
Fixpoint entries (parent : option nat) (addr : Z) (idx : nat) (t : tree) : list PlatformDevice.t :=
  match t with
  | Node name props children =>
      PlatformDevice.mk parent (name_string name)
        (prop_array (prop_entries (addr + Z.of_nat (length (encode (TBegin name)))) props))
        (final_count t) ::
      over_forest (entries (Some idx)) (children_at addr name props) (S idx) children
  end.

(** The phandles of a tree, in the order of their occurrence. *)
Fixpoint phandles (addr : Z) (idx : nat) (t : tree) : list (Z * nat) :=
  match t with
  | Node name props children =>
      ((fun p => (be_combine (take 4 (p_value p)), idx)) <$> phandle_props props) ++
      over_forest phandles (children_at addr name props) (S idx) children
  end.

(** Appending to the used parts of the tables. *)
Definition extend (t : DtbTables.t) (ds : list PlatformDevice.t) (phs : list (Z * nat)) : DtbTables.t :=
  mk (DEVICE_COUNT t + length ds) (list_inserts (DEVICE_COUNT t) ds (DEVICE_TABLE t))
    (PHANDLE_COUNT t + length phs) (list_inserts (PHANDLE_COUNT t) phs (PHANDLE_TABLE t)).

(** ** Facts about [extend] *)

Lemma list_inserts_app {A} i (l1 l2 l : list A) :
  list_inserts (i + length l1) l2 (list_inserts i l1 l) = list_inserts i (l1 ++ l2) l.
Proof.
  by rewrite list_inserts_app_l, Nat.add_comm.
Qed.

Lemma extend_nil t : extend t [] [] = t.
Proof. destruct t. unfold extend. simpl. by rewrite !Nat.add_0_r. Qed.

Lemma extend_app t ds phs ds' phs' :
  extend (extend t ds phs) ds' phs' = extend t (ds ++ ds') (phs ++ phs').
Proof.
  unfold extend. simpl. by rewrite !list_inserts_app, !length_app, !Nat.add_assoc.
Qed.

Lemma push_device_extend t d : push_device t d = extend t [d] [].
Proof.
  unfold push_device, extend, set_DEVICE_COUNT, set_DEVICE_TABLE. simpl.
  by rewrite Nat.add_0_r, Nat.add_1_r.
Qed.

Lemma push_phandle_extend t v i : push_phandle t v i = extend t [] [(v, i)].
Proof.
  unfold push_phandle, extend, set_PHANDLE_COUNT, set_PHANDLE_TABLE. simpl.
  by rewrite Nat.add_0_r, Nat.add_1_r.
Qed.

(** Updating the first of the appended entries. *)
Lemma update_extend t d ds phs f :
  (DEVICE_COUNT t < length (DEVICE_TABLE t))%nat ->
  update_device (extend t (d :: ds) phs) (DEVICE_COUNT t) f = extend t (f d :: ds) phs.
Proof.
  intros Hlt. unfold update_device, extend, set_DEVICE_TABLE. simpl. f_equal.
  assert (DEVICE_COUNT t < length (list_inserts (S (DEVICE_COUNT t)) ds (DEVICE_TABLE t)))%nat
    by (by rewrite length_inserts).
  rewrite (alter_insert _ _ _ d) by by apply list_lookup_insert_eq.
  apply list_insert_insert_eq.
Qed.

(** ** Running the machine on a tree *)

Lemma prop_array_snoc ps p :
  (length ps < PlatformDevice.MAX_PROPS)%nat ->
  <[length ps := p]> (prop_array ps) = prop_array (ps ++ [p]).
Proof.
  intros Hlt. unfold prop_array. rewrite length_app, insert_app_r_alt, Nat.sub_diag by lia.
  destruct (PlatformDevice.MAX_PROPS - length ps)%nat eqn:E; [lia |]. simpl.
  replace (PlatformDevice.MAX_PROPS - (length ps + 1))%nat with n by lia.
  by rewrite <- app_assoc.
Qed.

(** The phandles that the properties of node [i] register. *)
Definition own_phandles (i : nat) (props : list dt_prop) : list (Z * nat) :=
  (fun p => (be_combine (take 4 (p_value p)), i)) <$> phandle_props props.

Lemma tok_step_prop_token addr p s i st :
  TokState.open s = i :: st ->
  tok_step addr (prop_token p) s =
    let prop := Property.mk (name_string (p_name p)) (addr + 12) (Z.of_nat (length (p_value p))) in
    let t := TokState.tables s in
    if (PlatformDevice.MAX_PROPS <=? TokState.prop_id s)%nat then None
    else if is_phandle (p_name p) then
      if (PHANDLE_COUNT t <? MAX_HANDLES)%nat then
        Some (TokState.mk
          (update_device (push_phandle t (be_combine (take 4 (p_value p))) i) i
            (set_prop (TokState.prop_id s) prop)) (i :: st) (S (TokState.prop_id s)))
      else None
    else
      Some (TokState.mk (update_device t i (set_prop (TokState.prop_id s) prop)) (i :: st)
        (S (TokState.prop_id s))).
Proof. apply tok_step_prop. Qed.

Lemma run_props t parent name st props addr ps phs :
  (DEVICE_COUNT t < length (DEVICE_TABLE t))%nat ->
  (length ps + length props <= PlatformDevice.MAX_PROPS)%nat ->
  (PHANDLE_COUNT t + length phs + length (phandle_props props) <= MAX_HANDLES)%nat ->
  run_tokens addr (prop_token <$> props)
    (TokState.mk (extend t [PlatformDevice.mk parent name (prop_array ps) 0] phs)
       (DEVICE_COUNT t :: st) (length ps)) =
  Some (TokState.mk
    (extend t [PlatformDevice.mk parent name (prop_array (ps ++ prop_entries addr props)) 0]
       (phs ++ own_phandles (DEVICE_COUNT t) props))
    (DEVICE_COUNT t :: st) (length ps + length props)%nat).
Proof.
  intros Hlen. revert addr ps phs.
  induction props as [| p props IH]; intros addr ps phs Hps Hph.
  { simpl. by rewrite !app_nil_r, Nat.add_0_r. }
  simpl length in Hps. rewrite fmap_cons. cbn [run_tokens].
  erewrite tok_step_prop_token by done.
  cbn [TokState.prop_id TokState.tables TokState.open].
  rewrite (proj2 (Nat.leb_gt _ _)) by lia.
  set (prop := Property.mk _ _ _). set (d0 := PlatformDevice.mk parent name (prop_array ps) 0).
  assert (set_prop (length ps) prop d0 = PlatformDevice.mk parent name (prop_array (ps ++ [prop])) 0) as Hd.
  { unfold set_prop, d0. simpl. by rewrite prop_array_snoc by lia. }
  unfold phandle_props in *. rewrite filter_cons in Hph.
  unfold own_phandles, phandle_props. rewrite filter_cons.
  destruct (is_phandle (p_name p)) eqn:Hp.
  - rewrite decide_True in Hph |- * by done. simpl length in Hph.
    rewrite (proj2 (Nat.ltb_lt _ _)) by (simpl; lia).
    rewrite push_phandle_extend, extend_app. simpl app. rewrite update_extend, Hd by done.
    pose proof (IH (addr + Z.of_nat (length (encode (prop_token p)))) (ps ++ [prop])
      (phs ++ [(be_combine (take 4 (p_value p)), DEVICE_COUNT t)])) as E.
    rewrite !length_app in E. simpl in E.
    rewrite !Nat.add_1_r in E. simpl. rewrite E by lia.
    rewrite <- !app_assoc. do 2 f_equal. simpl. lia.
  - rewrite decide_False in Hph |- * by done.
    rewrite update_extend, Hd by done.
    pose proof (IH (addr + Z.of_nat (length (encode (prop_token p)))) (ps ++ [prop]) phs) as E.
    rewrite !length_app in E. simpl in E.
    rewrite !Nat.add_1_r in E. simpl. rewrite E by lia.
    rewrite <- !app_assoc. do 2 f_equal. simpl. lia.
Qed.

Lemma length_over_forest {A} (f : Z -> nat -> tree -> list A) (n : tree -> nat) addr idx l :
  Forall (fun c => forall addr idx, length (f addr idx c) = n c) l ->
  length (over_forest f addr idx l) = list_sum (map n l).
Proof.
  intros H. revert addr idx. induction H as [| c l Hc Hl IH]; intros addr idx; [done |].
  simpl. by rewrite length_app, Hc, IH.
Qed.

Lemma length_entries t parent addr idx : length (entries parent addr idx t) = count_nodes t.
Proof.
  revert parent addr idx. induction t as [name props children IH] using tree_ind'.
  intros parent addr idx. simpl. f_equal. apply length_over_forest.
  eapply Forall_impl; [exact IH |]. intros c H addr' idx'. apply H.
Qed.

Lemma length_phandles t addr idx : length (phandles addr idx t) = count_phandles t.
Proof.
  revert addr idx. induction t as [name props children IH] using tree_ind'.
  intros addr idx. simpl. rewrite length_app, length_fmap. f_equal. by apply length_over_forest.
Qed.

Lemma size_of_cons tok toks : size_of (tok :: toks) = Z.of_nat (length (encode tok)) + size_of toks.
Proof.
  unfold size_of. change (encode_all (tok :: toks)) with (encode tok ++ encode_all toks).
  rewrite length_app. lia.
Qed.

(** A tree's tokens fit: the tables have room and the stack is deep enough. *)
Record room (T : DtbTables.t) (st : list nat) (levels nodes phs : nat) : Prop := {
  room_table : length (DEVICE_TABLE T) = MAX_DEVICES;
  room_depth : (length st + levels <= STACK_SIZE)%nat;
  room_nodes : (DEVICE_COUNT T + nodes <= MAX_DEVICES)%nat;
  room_phandles : (PHANDLE_COUNT T + phs <= MAX_HANDLES)%nat;
}.

Definition runs_tree (t : tree) : Prop :=
  forall addr T st k,
    room T st (depth t) (count_nodes t) (count_phandles t) -> props_fit t = true ->
    run_tokens addr (tokens_of t) (TokState.mk T st k) =
      Some (TokState.mk
        (extend T (entries (head st) addr (DEVICE_COUNT T) t) (phandles addr (DEVICE_COUNT T) t))
        st (final_count t)).

Lemma run_forest children addr T i st k :
  Forall runs_tree children ->
  room T (i :: st) (list_max (map depth children)) (list_sum (map count_nodes children))
    (list_sum (map count_phandles children)) ->
  forallb props_fit children = true ->
  run_tokens addr (flat_map tokens_of children) (TokState.mk T (i :: st) k) =
    Some (TokState.mk
      (extend T (over_forest (entries (Some i)) addr (DEVICE_COUNT T) children)
         (over_forest phandles addr (DEVICE_COUNT T) children))
      (i :: st) (fold_left (fun _ c => final_count c) children k)).
Proof.
  intros H. revert addr T k. induction H as [| c l Hc Hl IH]; intros addr T k R Hfit.
  { simpl. by rewrite extend_nil. }
  simpl in R. apply andb_true_iff in Hfit as [Hfc Hfl]. destruct R as [R1 R2 R3 R4].
  simpl flat_map. rewrite run_tokens_app, Hc; [| split; simpl in *; lia | done].
  simpl. rewrite IH; [| split; simpl; rewrite ?length_inserts, ?length_entries, ?length_phandles;
    simpl in *; lia | done].
  rewrite extend_app. simpl. by rewrite length_entries.
Qed.

Lemma run_tree t : runs_tree t.
Proof.
  induction t as [name props children IH] using tree_ind'. intros addr T st k [R1 R2 R3 R4] Hfit.
  cbn [depth count_nodes count_phandles props_fit] in *. apply andb_true_iff in Hfit as [Hp Hc].
  apply Nat.leb_le in Hp. cbn [tokens_of run_tokens].
  unfold tok_step at 1. cbn [TokState.tables TokState.open].
  rewrite (proj2 (Nat.ltb_lt _ _)) by lia. rewrite (proj2 (Nat.ltb_lt _ _)) by lia.
  cbn [andb option_bind mbind]. rewrite push_device_extend.
  set (addr1 := addr + Z.of_nat (length (encode (TBegin name)))).
  pose proof (run_props T (head st) (name_string name) st props addr1 [] []
    ltac:(lia) Hp ltac:(simpl; lia)) as Eprops.
  change (PlatformDevice.mk (head st) (name_string name) (prop_array []) 0)
    with (new_device (head st) name) in Eprops.
  rewrite run_tokens_app. cbn [length Nat.add app] in Eprops. rewrite Eprops. cbn [option_bind mbind].
  rewrite run_tokens_app.
  set (T1 := extend T [_] _).
  assert (addr1 + Z.of_nat (length (encode_all (prop_token <$> props))) = children_at addr name props)
    as -> by (unfold children_at, addr1; rewrite size_of_cons; unfold size_of; lia).
  rewrite run_forest; [| done | | done].
  2:{ split; simpl; rewrite ?length_insert, ?length_inserts; unfold own_phandles; rewrite ?length_fmap; simpl in *; lia. }
  cbn [option_bind mbind run_tokens tok_step TokState.open TokState.tables TokState.prop_id].
  unfold T1. rewrite extend_app. simpl app. rewrite update_extend by lia.
  simpl DEVICE_COUNT. rewrite Nat.add_1_r. done.
Qed.

(** *** A run that succeeds had room *)

Lemma props_had_room addr props i st s s' :
  TokState.open s = i :: st -> (TokState.prop_id s <= PlatformDevice.MAX_PROPS)%nat ->
  (PHANDLE_COUNT (TokState.tables s) <= MAX_HANDLES)%nat ->
  run_tokens addr (prop_token <$> props) s = Some s' ->
  (TokState.prop_id s + length props <= PlatformDevice.MAX_PROPS)%nat /\
  (PHANDLE_COUNT (TokState.tables s) + length (phandle_props props) <= MAX_HANDLES)%nat.
Proof.
  revert addr s. induction props as [| p props IH]; intros addr s Hst Hk Hph H.
  { simpl. lia. }
  rewrite fmap_cons in H. cbn [run_tokens] in H. apply bind_Some in H as (s1 & E & H).
  erewrite tok_step_prop_token in E by done. cbv zeta in E.
  destruct (Nat.leb_spec PlatformDevice.MAX_PROPS (TokState.prop_id s)) as [| Hk1]; [done |].
  unfold phandle_props. rewrite filter_cons. destruct (is_phandle (p_name p)) eqn:Hp.
  - destruct (Nat.ltb_spec (PHANDLE_COUNT (TokState.tables s)) MAX_HANDLES) as [Hph1 |]; [| done].
    injection E as <-. apply IH in H as [H1 H2]; [| done..].
    rewrite decide_True by done. simpl in *. unfold phandle_props in H2. lia.
  - injection E as <-. apply IH in H as [H1 H2]; [| done..].
    rewrite decide_False by done. simpl in *. unfold phandle_props in H2. lia.
Qed.

Definition had_room (t : tree) : Prop :=
  forall addr T st k s',
    room T st 0 0 0 -> run_tokens addr (tokens_of t) (TokState.mk T st k) = Some s' ->
    room T st (depth t) (count_nodes t) (count_phandles t) /\ props_fit t = true.

Lemma forest_had_room children addr T i st k s' :
  Forall had_room children -> room T (i :: st) 0 0 0 ->
  run_tokens addr (flat_map tokens_of children) (TokState.mk T (i :: st) k) = Some s' ->
  room T (i :: st) (list_max (map depth children)) (list_sum (map count_nodes children))
    (list_sum (map count_phandles children)) /\
  forallb props_fit children = true.
Proof.
  intros H. revert addr T k. induction H as [| c l Hc Hl IH]; intros addr T k R Hrun; [done |].
  simpl flat_map in Hrun. rewrite run_tokens_app in Hrun. apply bind_Some in Hrun as (s1 & E & Hrun).
  destruct (Hc _ _ _ _ _ R E) as [[R1 R2 R3 R4] Hfc].
  rewrite run_tree in E by done. injection E as <-.
  apply IH in Hrun as [[S1 S2 S3 S4] Hfl]; [| split; simpl;
    rewrite ?length_inserts, ?length_entries, ?length_phandles; simpl in *; lia].
  simpl in S3, S4. rewrite length_entries in S3. rewrite length_phandles in S4.
  split; [| simpl; by rewrite Hfc]. simpl in *. split; simpl; lia.
Qed.

Lemma tree_had_room t : had_room t.
Proof.
  induction t as [name props children IH] using tree_ind'. intros addr T st k s' [R1 R2 R3 R4] Hrun.
  cbn [tokens_of run_tokens] in Hrun. unfold tok_step at 1 in Hrun.
  cbn [TokState.tables TokState.open] in Hrun.
  destruct (Nat.ltb_spec (length st) STACK_SIZE) as [Hd |]; [| done].
  destruct (Nat.ltb_spec (DEVICE_COUNT T) MAX_DEVICES) as [Hn |]; [| done].
  cbn [andb option_bind mbind] in Hrun. rewrite push_device_extend in Hrun.
  set (addr1 := addr + Z.of_nat (length (encode (TBegin name)))) in *.
  rewrite run_tokens_app in Hrun. apply bind_Some in Hrun as (s1 & E & Hrun).
  pose proof E as Eroom. apply (props_had_room _ _ (DEVICE_COUNT T) st) in Eroom as [Hp Hph];
    [| done | simpl; lia | simpl; lia].
  simpl in Hp, Hph. rewrite Nat.add_0_r in Hph.
  pose proof (run_props T (head st) (name_string name) st props addr1 [] []
    ltac:(lia) Hp ltac:(simpl; lia)) as Eprops.
  change (PlatformDevice.mk (head st) (name_string name) (prop_array []) 0)
    with (new_device (head st) name) in Eprops.
  cbn [length Nat.add app] in Eprops. rewrite Eprops in E. injection E as <-.
  rewrite run_tokens_app in Hrun. apply bind_Some in Hrun as (s2 & E & _).
  apply forest_had_room in E as [[S1 S2 S3 S4] Hfit]; [| done |].
  2:{ split; simpl; rewrite ?length_insert, ?length_inserts; unfold own_phandles; rewrite ?length_fmap; simpl in *; lia. }
  cbn [extend DEVICE_COUNT PHANDLE_COUNT length] in S2, S3, S4. unfold own_phandles in S4.
  rewrite length_fmap in S4. split; [| simpl; rewrite Hfit; by rewrite (proj2 (Nat.leb_le _ _))].
  split; simpl in *; lia.
Qed.

(** A tree that fits in the empty tables. *)
Definition tree_fits (t : tree) : Prop :=
  (depth t <= STACK_SIZE)%nat /\ (count_nodes t <= MAX_DEVICES)%nat /\
  (count_phandles t <= MAX_HANDLES)%nat /\ props_fit t = true.

Definition tree_tables (addr : Z) (t : tree) : DtbTables.t :=
  extend init (entries None addr 0 t) (phandles addr 0 t).

Lemma run_tree_init addr t :
  tree_fits t ->
  run_tokens addr (tokens_of t) (TokState.mk init [] 0) =
    Some (TokState.mk (tree_tables addr t) [] (final_count t)).
Proof. intros (? & ? & ? & ?). by apply run_tree. Qed.

Lemma run_tree_init_inv addr t s' :
  run_tokens addr (tokens_of t) (TokState.mk init [] 0) = Some s' -> tree_fits t.
Proof.
  intros H. apply tree_had_room in H as [[_ H1 H2 H3] H4]; [| split; simpl; lia || done].
  repeat split; done || simpl in *; lia.
Qed.

(** ** Theorems *)

Section theorems.
Context {HW : Hardware}.
Implicit Types (w : world).

Lemma exec_parse_tree fuel dtb h t w :
  FdtHeader.magic h = MAGIC -> blob_at (w_ram w) fuel dtb h (tokens_of t) -> tree_fits t ->
  w_dtb w = init ->
  parse_tables fuel dtb w = Done tt (set_dtb (tree_tables (dtb + FdtHeader.off_dt_struct h) t) w).
Proof.
  intros Hm Hb Hfit Hi.
  pose proof (exec_parse_tables fuel dtb h (tokens_of t) w Hm Hb) as H.
  rewrite Hi, run_tree_init in H by done. apply H, wf_tables_init.
Qed.

Lemma wf_tree_tables fuel dtb h t w :
  FdtHeader.magic h = MAGIC -> blob_at (w_ram w) fuel dtb h (tokens_of t) -> tree_fits t ->
  w_dtb w = init -> wf_tables (tree_tables (dtb + FdtHeader.off_dt_struct h) t).
Proof.
  intros Hm Hb Hfit Hi. pose proof (exec_parse_tree _ _ _ _ _ Hm Hb Hfit Hi) as H.
  apply parse_tables_inv in H as [H _]; [exact H |]. rewrite Hi. apply wf_tables_init.
Qed.

(** The first entry of a tree's tables. *)
Lemma tree_tables_root addr name props children :
  DEVICE_TABLE (tree_tables addr (Node name props children)) !! 0%nat =
    Some (PlatformDevice.mk None (name_string name)
      (prop_array (prop_entries (addr + Z.of_nat (length (encode (TBegin name)))) props))
      (final_count (Node name props children))).
Proof.
  unfold tree_tables, extend. cbn [DEVICE_TABLE entries list_inserts DEVICE_COUNT init].
  apply list_lookup_insert_eq. rewrite length_inserts, length_replicate.
  unfold MAX_DEVICES. lia.
Qed.

Lemma final_count_snoc name props children c :
  final_count (Node name props (children ++ [c])) = final_count c.
Proof. simpl. by rewrite fold_left_app. Qed.

(** C2: parsing the blob of a tree fills the empty tables with the tree's nodes
    in preorder: each with its name, the index of its parent, its properties in
    order with the address and length of their values, and the phandles in the
    order of their occurrence. *)
Theorem parse_tables_tree fuel dtb h t w :
  FdtHeader.magic h = MAGIC -> blob_at (w_ram w) fuel dtb h (tokens_of t) -> tree_fits t ->
  w_dtb w = init ->
  parse_tables fuel dtb w = Done tt (set_dtb (tree_tables (dtb + FdtHeader.off_dt_struct h) t) w) /\
  DEVICE_COUNT (tree_tables (dtb + FdtHeader.off_dt_struct h) t) = count_nodes t /\
  PHANDLE_COUNT (tree_tables (dtb + FdtHeader.off_dt_struct h) t) = count_phandles t.
Proof.
  intros. split; [by apply exec_parse_tree |].
  unfold tree_tables, extend. cbn [DEVICE_COUNT PHANDLE_COUNT init].
  by rewrite length_entries, length_phandles.
Qed.

(** C3: the capacity of the static tables, exactly: the blob of a tree is parsed
    if and only if the tree has at most [STACK_SIZE] levels, [MAX_DEVICES] nodes,
    [MAX_HANDLES] phandles and at no node more than [MAX_PROPS] properties.  A
    tree that exceeds one of them makes the kernel panic; it neither loops nor
    returns with nodes left out. *)
Theorem tree_parsed_iff_fits fuel dtb h t w :
  FdtHeader.magic h = MAGIC -> blob_at (w_ram w) fuel dtb h (tokens_of t) -> w_dtb w = init ->
  ((exists w', parse_tables fuel dtb w = Done tt w') <-> tree_fits t) /\
  (~ tree_fits t -> exists w', parse_tables fuel dtb w = Panicked w').
Proof.
  intros Hm Hb Hi. pose proof (exec_parse_tables fuel dtb h (tokens_of t) w Hm Hb) as H.
  rewrite Hi in H. specialize (H wf_tables_init).
  destruct (run_tokens _ _ _) as [s' |] eqn:E.
  - apply run_tree_init_inv in E. split; [| done]. split; [done |]. intros _. eexists. exact H.
  - split; [| done]. split.
    + intros [w1 E1]. destruct H as [w' H]. by rewrite H in E1.
    + intros Hfit. by rewrite run_tree_init in E.
Qed.

(** C25: the property counter is shared by all nodes, so that the count stored
    for the root is the count of its last child (and of that one's last child,
    and so on down to a leaf); only a root without children gets the number of
    its own properties.  Looking up a property of the root sees that many
    slots. *)
Theorem root_gets_last_child_count fuel dtb h name props children w :
  let t := Node name props children in
  let own := prop_entries (dtb + FdtHeader.off_dt_struct h + Z.of_nat (length (encode (TBegin name)))) props in
  FdtHeader.magic h = MAGIC -> blob_at (w_ram w) fuel dtb h (tokens_of t) -> tree_fits t ->
  w_dtb w = init ->
  exists w' root,
    parse_tables fuel dtb w = Done tt w' /\ DEVICE_TABLE (w_dtb w') !! 0%nat = Some root /\
    PlatformDevice.properties root = prop_array own /\
    (children = [] -> PlatformDevice.prop_count root = length props) /\
    (forall cs c, children = cs ++ [c] -> PlatformDevice.prop_count root = final_count c) /\
    forall nm, find_property root nm w' =
      Done (first_named nm (take (PlatformDevice.prop_count root) (prop_array own))) w'.
Proof.
  intros t own Hm Hb Hfit Hi.
  pose proof (wf_tree_tables _ _ _ _ _ Hm Hb Hfit Hi) as (_ & _ & _ & _ & Hdev & _).
  eexists _, _. split; [by apply exec_parse_tree |]. split; [apply tree_tables_root |].
  split; [done |]. split; [by intros -> |].
  split; [intros cs c ->; apply final_count_snoc |].
  intros nm. apply (exec_find_property (PlatformDevice.mk _ _ _ _)).
  exact (proj1 (Hdev _ _ (tree_tables_root _ _ _ _))).
Qed.

End theorems.
