(* ===== verification/Demo.v ===== *)
(** * A concrete machine: the devices of QEMU's virt board

    The tree that the board's firmware describes, cut down to the nodes the
    kernel looks at, its blob in memory, and the tables the parser makes of it.
    The witnesses of the device-tree and driver theorems are about this blob. *)

From Stdlib Require Strings.Byte.
From S2P Require Export DtbTree RegFile.

Local Open Scope Z_scope.

(** ** Deciding facts about memory *)

#[export] Instance byte_eq_decision : EqDecision byte := Stdlib.Strings.Byte.byte_eq_dec.

Fixpoint ram_bytesb (ram : gmap Z byte) (p : Z) (bs : list byte) : bool :=
  match bs with
  | [] => true
  | b :: bs => bool_decide (ram !! p = Some b) && ram_bytesb ram (p + 1) bs
  end.

Lemma ram_bytesb_spec ram p bs : ram_bytesb ram p bs = true <-> ram_bytes ram p bs.
Proof.
  revert p. induction bs as [| b bs IH]; intros p; simpl.
  - split; [intros _; apply ram_bytes_nil | done].
  - rewrite andb_true_iff, bool_decide_eq_true, IH. symmetry. apply ram_bytes_cons.
Qed.

#[export] Instance ram_bytes_dec ram p bs : Decision (ram_bytes ram p bs).
Proof.
  refine (cast_if (decide (ram_bytesb ram p bs = true))); by rewrite <- ram_bytesb_spec.
Defined.

#[export] Instance fits_dec w z : Decision (fits w z).
Proof. unfold fits. apply _. Defined.

#[export] Instance u32_at_dec ram p v : Decision (u32_at ram p v).
Proof. unfold u32_at, place_ok. apply _. Defined.

#[export] Instance c_string_dec ram p bs : Decision (c_string ram p bs).
Proof. unfold c_string, nul_free. apply _. Defined.

#[export] Instance token_ok_dec fuel dtb offs ram tok : Decision (token_ok fuel dtb offs ram tok).
Proof. destruct tok; unfold token_ok, nul_free; apply _. Defined.

#[export] Instance header_at_dec ram dtb h : Decision (header_at ram dtb h).
Proof. unfold header_at. apply _. Defined.

#[export] Instance value_at_dec ram p bs : Decision (value_at ram p bs).
Proof. unfold value_at. apply _. Defined.

#[export] Instance cells_ok_dec cs : Decision (cells_ok cs).
Proof. unfold cells_ok. apply _. Defined.

(** The big-endian word at [p]. *)
Definition ram_u32 (ram : gmap Z byte) (p : Z) : Z :=
  be_combine ((fun i => default Byte.x00 (ram !! (p + Z.of_nat i))) <$> seq 0 4).

(** Every property called [name] of every device is a readable word. *)
Lemma readable_props_dec {HW : Hardware} (w : world) ram name (ds : list PlatformDevice.t) :
  ram ⊆ w_ram w ->
  Forall (fun d => Forall (fun p => Property.name p = name ->
    u32_at ram (Property.value p) (ram_u32 ram (Property.value p))) (valid_props d)) ds ->
  forall d, d ∈ ds -> readable_props w name (fun p => ram_u32 ram (Property.value p)) d.
Proof.
  intros Hram H d Hd p Hp Hn. rewrite Forall_forall in H. specialize (H d Hd).
  rewrite Forall_forall in H. eapply u32_at_mono; [exact Hram | by apply H].
Qed.

(** Proves a decidable fact by evaluation. *)
Ltac by_decision := refine (bool_decide_unpack _ _); vm_compute; exact I.

(** ** The tree *)

Definition virt_names : list string :=
  ["interrupt-parent"; "#size-cells"; "#address-cells"; "compatible"; "phandle";
   "clock-frequency"; "clocks"; "interrupts"; "reg"; "#interrupt-cells"; "always-on"]%string.

Definition name_bytes (s : string) : list byte := String.list_byte_of_string s.

Definition virt_strings : list byte := concat ((fun s => name_bytes s ++ [Byte.x00]) <$> virt_names).

Fixpoint name_offset (names : list string) (s : string) : Z :=
  match names with
  | [] => 0
  | n :: names => if String.eqb n s then 0 else Z.of_nat (S (String.length n)) + name_offset names s
  end.

Definition virt_prop (name : string) (value : list byte) : dt_prop :=
  mkProp (name_offset virt_names name) (name_bytes name) value.

Definition be_cells (l : list Z) : list byte := concat (be_split 4 <$> l).
Definition nul_texts (l : list string) : list byte := concat ((fun s => name_bytes s ++ [Byte.x00]) <$> l).

Definition virt_clock : tree :=
  Node (name_bytes "apb-pclk")
    [virt_prop "phandle" (be_cells [0x8000]); virt_prop "clock-frequency" (be_cells [24000000]);
     virt_prop "compatible" (nul_texts ["fixed-clock"%string])] [].

Definition virt_uart : tree :=
  Node (name_bytes "pl011@9000000")
    [virt_prop "clocks" (be_cells [0x8000; 0x8000]); virt_prop "interrupts" (be_cells [0; 1; 4]);
     virt_prop "reg" (be_cells [0; 0x09000000; 0; 0x1000]);
     virt_prop "compatible" (nul_texts ["arm,pl011"; "arm,primecell"]%string)] [].

Definition virt_intc : tree :=
  Node (name_bytes "intc@8000000")
    [virt_prop "phandle" (be_cells [0x8002]);
     virt_prop "reg" (be_cells [0; 0x08000000; 0; 0x10000; 0; 0x080A0000; 0; 0xF60000]);
     virt_prop "compatible" (nul_texts ["arm,gic-v3"%string]); virt_prop "#interrupt-cells" (be_cells [3])] [].

Definition virt_timer : tree :=
  Node (name_bytes "timer")
    [virt_prop "interrupts" (be_cells [1; 13; 0x104; 1; 14; 0x104; 1; 11; 0x104; 1; 10; 0x104]);
     virt_prop "always-on" [];
     virt_prop "compatible" (nul_texts ["arm,armv8-timer"; "arm,armv7-timer"]%string)] [].

Definition virt_root_props : list dt_prop :=
  [virt_prop "interrupt-parent" (be_cells [0x8002]); virt_prop "#size-cells" (be_cells [2]);
   virt_prop "#address-cells" (be_cells [2]); virt_prop "compatible" (nul_texts ["linux,dummy-virt"%string])].

Definition virt_tree : tree :=
  Node [] virt_root_props [virt_clock; virt_uart; virt_intc; virt_timer].

(** ** The blob *)

Definition virt_dtb : Z := 0x40000000.

Definition virt_structure : list byte := encode_all (tokens_of virt_tree) ++ be_split 4 FDT_END.

Definition virt_header : FdtHeader.t :=
  FdtHeader.mk MAGIC (40 + Z.of_nat (length virt_structure) + Z.of_nat (length virt_strings))
    40 (40 + Z.of_nat (length virt_structure)) 40 17 16 0
    (Z.of_nat (length virt_strings)) (Z.of_nat (length virt_structure)).

Definition virt_ram : gmap Z byte :=
  ram_of virt_dtb (concat (be_split 4 <$> header_words virt_header) ++ virt_structure ++ virt_strings).

Definition virt_tables : DtbTables.t := tree_tables (virt_dtb + 40) virt_tree.

Definition virt_fuel : nat := 300.

Lemma virt_blob : blob_at virt_ram virt_fuel virt_dtb virt_header (tokens_of virt_tree).
Proof. split; by_decision. Qed.

Lemma virt_tree_fits : tree_fits virt_tree.
Proof. repeat split; by_decision. Qed.

Lemma virt_tables_wf : wf_tables virt_tables.
Proof.
  pose (w := @boot_world quiet tt virt_ram).
  apply (@wf_tree_tables quiet virt_fuel virt_dtb virt_header virt_tree w);
    [done | exact virt_blob | exact virt_tree_fits | done].
Qed.

(** The device with the given index. *)
Definition virt_device (i : nat) : PlatformDevice.t :=
  default PlatformDevice.new (DtbTables.DEVICE_TABLE virt_tables !! i).

Lemma virt_device_wf i : wf_device (virt_device i).
Proof.
  unfold virt_device. destruct (DtbTables.DEVICE_TABLE virt_tables !! i) as [d |] eqn:Hd;
    [| apply wf_device_new].
  pose proof virt_tables_wf as (_ & _ & _ & _ & Hdev & _). by apply (Hdev i).
Qed.

Lemma virt_get_parent_cells {HW : Hardware} (w : world) i :
  virt_ram ⊆ w_ram w -> w_dtb w = virt_tables -> (1 <= i < 5)%nat ->
  get_parent_cells (virt_device i) w = Done (2, 2) w.
Proof.
  intros Er Ed Hi.
  rewrite (exec_get_parent_cells _ 0 (virt_device 0)
    (fun p => ram_u32 virt_ram (Property.value p))).
  - do 2 f_equal.
  - assert (i = 1 \/ i = 2 \/ i = 3 \/ i = 4)%nat as [-> | [-> | [-> | ->]]] by lia; done.
  - by rewrite Ed.
  - apply virt_device_wf.
  - assert (Forall (fun q => (Property.name q = "#address-cells" \/ Property.name q = "#size-cells") ->
      u32_at virt_ram (Property.value q) (ram_u32 virt_ram (Property.value q))) (valid_props (virt_device 0)))
      as H by by_decision.
    rewrite Forall_forall in H. intros q Hq Hc. eapply u32_at_mono; [exact Er | by apply H].
Qed.

(** Its first property with the given name. *)
Definition virt_property (i : nat) (name : string) : Property.t :=
  default Property.new (first_named name (valid_props (virt_device i))).

Definition virt_val (p : Property.t) : Z := ram_u32 virt_ram (Property.value p).

(** The interrupt controller of every device is the GIC. *)
Lemma virt_interrupt_controller {HW : Hardware} (w : world) i :
  virt_ram ⊆ w_ram w -> w_dtb w = virt_tables -> (1 <= i < 5)%nat ->
  interrupt_controller w virt_val (virt_device i) (Some (virt_device 3)).
Proof.
  intros Er Ed Hi. split; [rewrite Ed; apply virt_tables_wf |]. split; [| split].
  - rewrite Ed. apply (readable_props_dec w virt_ram "interrupt-parent"); [exact Er | by_decision].
  - intros c Hc. assert (i = 1 \/ i = 2 \/ i = 3 \/ i = 4)%nat as [-> | [-> | [-> | ->]]] by lia;
      vm_compute in Hc; injection Hc as <-; unfold DtbTables.MAX_DEVICES; lia.
  - rewrite Ed. assert (i = 1 \/ i = 2 \/ i = 3 \/ i = 4)%nat as [-> | [-> | [-> | ->]]] by lia;
      vm_compute; reflexivity.
Qed.

(** ** Witnesses *)

(** The board as the kernel finds it, on a hardware that is never busy. *)
Definition virt_quiet : @world quiet := @boot_world quiet tt virt_ram.

Lemma parse_tables_wf_witness :
  exists w', @parse_tables quiet virt_fuel virt_dtb virt_quiet = Done tt w' /\
    wf_tables (w_dtb w') /\ DtbTables.DEVICE_COUNT (w_dtb w') = 5%nat.
Proof.
  pose (w' := set_dtb virt_tables virt_quiet).
  assert (@parse_tables quiet virt_fuel virt_dtb virt_quiet = Done tt w') as H
    by exact (exec_parse_tree virt_fuel virt_dtb virt_header virt_tree virt_quiet eq_refl
      virt_blob virt_tree_fits eq_refl).
  exists w'. split; [exact H |].
  split; [| reflexivity]. exact (proj1 (parse_tables_wf _ _ virt_quiet w' wf_tables_init H)).
Defined.

(** A blob that opens eleven nodes: the stack has ten entries. *)
Definition deep_tokens : list token := replicate 11 (TBegin []).

Definition deep_ram : gmap Z byte :=
  ram_of virt_dtb (concat (be_split 4 <$> header_words virt_header) ++
    encode_all deep_tokens ++ be_split 4 FDT_END).

Lemma parse_tables_refines_tokens_witness :
  (exists w', @parse_tables quiet virt_fuel virt_dtb (@boot_world quiet tt deep_ram) = Panicked w') /\
  @parse_tables quiet virt_fuel virt_dtb virt_quiet = Done tt (set_dtb virt_tables virt_quiet).
Proof.
  split.
  - apply (parse_tables_refines_tokens virt_fuel virt_dtb virt_header deep_tokens
      (@boot_world quiet tt deep_ram)).
    + by_decision.
    + apply wf_tables_init.
    + reflexivity.
    + split; by_decision.
  - refine (proj2 (parse_tables_refines_tokens virt_fuel virt_dtb virt_header (tokens_of virt_tree)
      virt_quiet (blob_header _ _ _ _ _ virt_blob) wf_tables_init) eq_refl virt_blob).
Defined.

Lemma parse_tables_tree_witness :
  @parse_tables quiet virt_fuel virt_dtb virt_quiet = Done tt (set_dtb virt_tables virt_quiet) /\
  DtbTables.DEVICE_COUNT virt_tables = 5%nat.
Proof.
  destruct (parse_tables_tree virt_fuel virt_dtb virt_header virt_tree virt_quiet eq_refl virt_blob
    virt_tree_fits eq_refl) as (H & Hc & _).
  split; [exact H | exact Hc].
Defined.

(** A chain of [n] nested nodes. *)
Fixpoint chain (n : nat) : tree := Node [] [] match n with O => [] | S n => [chain n] end.

Definition chain_ram : gmap Z byte :=
  ram_of virt_dtb (concat (be_split 4 <$> header_words virt_header) ++
    encode_all (tokens_of (chain 10)) ++ be_split 4 FDT_END).

(** The board's tree is parsed; a chain of eleven nodes is too deep. *)
Lemma tree_parsed_iff_fits_witness :
  tree_fits virt_tree /\
  exists w', @parse_tables quiet virt_fuel virt_dtb (@boot_world quiet tt chain_ram) = Panicked w'.
Proof.
  split.
  - apply (tree_parsed_iff_fits virt_fuel virt_dtb virt_header virt_tree virt_quiet eq_refl virt_blob eq_refl).
    eexists. exact (exec_parse_tree virt_fuel virt_dtb virt_header virt_tree virt_quiet eq_refl
      virt_blob virt_tree_fits eq_refl).
  - assert (blob_at chain_ram virt_fuel virt_dtb virt_header (tokens_of (chain 10))) as Hb
      by (split; by_decision).
    apply (tree_parsed_iff_fits virt_fuel virt_dtb virt_header (chain 10)
      (@boot_world quiet tt chain_ram) eq_refl Hb eq_refl).
    intros [Hd _]. vm_compute in Hd. lia.
Defined.

(** The root of the board has a [compatible] property in its fourth slot; the
    timer, its last child, has three properties: the lookup misses it. *)
Lemma root_gets_last_child_count_witness :
  exists w' root,
    @parse_tables quiet virt_fuel virt_dtb virt_quiet = Done tt w' /\
    DtbTables.DEVICE_TABLE (w_dtb w') !! 0%nat = Some root /\
    PlatformDevice.prop_count root = 3%nat /\ length virt_root_props = 4%nat /\
    find_property root "compatible" w' = Done None w'.
Proof.
  destruct (root_gets_last_child_count virt_fuel virt_dtb virt_header [] virt_root_props
    [virt_clock; virt_uart; virt_intc; virt_timer] virt_quiet eq_refl virt_blob virt_tree_fits eq_refl)
    as (w' & root & H & Hr & Hp & _ & Hc & Hf).
  specialize (Hc [virt_clock; virt_uart; virt_intc] virt_timer eq_refl).
  exists w', root. split; [exact H |]. split; [exact Hr |]. split; [exact Hc |].
  split; [reflexivity |]. rewrite Hf, Hc. reflexivity.
Defined.

(** The interrupt parent of the timer, a property of the root. *)
Lemma find_interrupt_parent_is_nearest_witness :
  find_interrupt_parent virt_fuel (virt_device 4) (set_dtb virt_tables virt_quiet) =
    Done (Some (virt_device 3)) (set_dtb virt_tables virt_quiet).
Proof.
  pose proof (virt_interrupt_controller (set_dtb virt_tables virt_quiet) 4 ltac:(done) eq_refl ltac:(lia))
    as (Hwf & Hval & Hpar & Hr).
  etransitivity;
    [exact (find_interrupt_parent_is_nearest virt_fuel virt_val (virt_device 4) (set_dtb virt_tables virt_quiet)
       ltac:(unfold virt_fuel, DtbTables.MAX_DEVICES; lia) Hwf Hval Hpar) |].
  by rewrite Hr.
Defined.

(** The UART names two bindings; the second one is found as well. *)
Lemma compatible_matches_is_membership_witness :
  exists b : bool, compatible_matches (virt_property 2 "compatible") "arm,primecell" virt_quiet =
      Done b virt_quiet /\ b = true.
Proof.
  destruct (compatible_matches_is_membership (virt_property 2 "compatible") "arm,primecell"
    (nul_texts ["arm,pl011"; "arm,primecell"]%string) virt_quiet ltac:(by_decision)) as (b & E & Hb).
  exists b. split; [exact E |]. apply Hb. by_decision.
Defined.
