(* ===== verification/Gicv3.v ===== *)
(** * src/drivers/gic/gicv3.rs: the GICv3 driver

    The methods of [Gicv3] take the struct ([GicState.t]) as [self]; the public
    wrappers fetch the static [GIC].  The theorems give the world each
    operation leaves (which register, which read-modify-write, which barrier),
    what that means for the bit field of the interrupt concerned and for all
    the others, and for which interrupt numbers the arithmetic overflows. *)

From S2P Require Export Device RegFile.

Local Open Scope Z_scope.
Local Open Scope kernel_scope.

Definition MAX_INTERRUPT_CELLS : Z := 4.
Definition GICD_CTLR : Z := 0x000.
Definition GICD_CTLR_GRP1NS : Z := 2.
Definition GICD_CTLR_GRP1S : Z := 4.
Definition GICD_ISENABLER : Z := 0x100.
Definition GICD_IPRIORITYR : Z := 0x400.
Definition GICD_ICFGR : Z := 0xC00.
Definition GICD_IROUTER : Z := 0x6100.
Definition GICD_IGROUPR : Z := 0x080.
Definition GICR_SGI_BASE : Z := 0x10000.
Definition GICR_WAKER : Z := 0x0014.
Definition GICR_WAKER_PSLEEP : Z := 2.
Definition GICR_WAKER_CASLEEP : Z := 4.
Definition GICR_IPRIORITYR : Z := 0x400.
Definition GICR_IGROUPR0 : Z := 0x080.
Definition GICR_ISENABLER0 : Z := 0x100.
Definition GICR_ICFGR : Z := 0xC00.

Section gicv3.
Context {HW : Hardware}.
Import GicState.
Implicit Types (w : world) (self : GicState.t).

(** ** The methods *)

Definition init_gic_distributor self : M unit :=
  set_mmio_bits32 (dist_addr self) GICD_CTLR (Z.lor GICD_CTLR_GRP1S GICD_CTLR_GRP1NS) ;;
  barrier_ins DsbSy.

(** [while (read_mmio32(..) & GICR_WAKER_CASLEEP) != 0 {}] *)
Definition children_asleep self : M bool :=
  poll_bit (redist_addr self) GICR_WAKER GICR_WAKER_CASLEEP.

Definition init_gic_redistributor (fuel : nat) self : M unit :=
  clear_mmio_bits32 (redist_addr self) GICR_WAKER GICR_WAKER_PSLEEP ;;
  barrier_ins DsbSy ;;
  spin_while fuel (children_asleep self).

Definition Gicv3_set_ppi_priority self (id prio : Z) : M unit :=
  sgi_base <- uadd USIZE (redist_addr self) GICR_SGI_BASE ;;
  let reg_index := id / 4 in
  reg_offset <- umul U32 reg_index 4 ;;
  let byte_index_in_reg := id mod 4 in
  bit_shift <- umul U32 byte_index_in_reg 8 ;;
  a <- uadd USIZE sgi_base GICR_IPRIORITYR ;;
  prio_reg_addr <- uadd USIZE a reg_offset ;;
  reg_val <- read_mmio32 prio_reg_addr 0 ;;
  m <- ushl U32 0xFF bit_shift ;;
  let mask := unot U32 m in
  let reg_val := Z.land reg_val mask in
  p <- ushl U32 prio bit_shift ;;
  let reg_val := Z.lor reg_val p in
  write_mmio32 prio_reg_addr 0 reg_val ;;
  barrier_ins DsbSy.

Definition Gicv3_set_ppi_group self (id : Z) : M unit :=
  a <- uadd USIZE (redist_addr self) GICR_SGI_BASE ;;
  b <- ushl U32 1 id ;;
  set_mmio_bits32 a GICR_IGROUPR0 b ;;
  barrier_ins DsbSy.

Definition Gicv3_enable_ppi self (id : Z) : M unit :=
  a <- uadd USIZE (redist_addr self) GICR_SGI_BASE ;;
  b <- ushl U32 1 id ;;
  set_mmio_bits32 a GICR_ISENABLER0 b ;;
  barrier_ins DsbSy.

Definition Gicv3_set_spi_priority self (id prio : Z) : M unit :=
  let reg_index := id / 4 in
  reg_offset <- umul U32 reg_index 4 ;;
  let byte_index_in_reg := id mod 4 in
  bit_shift <- umul U32 byte_index_in_reg 8 ;;
  a <- uadd USIZE (dist_addr self) GICD_IPRIORITYR ;;
  prio_reg_addr <- uadd USIZE a reg_offset ;;
  reg_val <- read_mmio32 prio_reg_addr 0 ;;
  m <- ushl U32 0xFF bit_shift ;;
  let mask := unot U32 m in
  let reg_val := Z.land reg_val mask in
  p <- ushl U32 prio bit_shift ;;
  let reg_val := Z.lor reg_val p in
  write_mmio32 prio_reg_addr 0 reg_val ;;
  barrier_ins DsbSy.

Definition Gicv3_set_spi_trigger_level self (id : Z) : M unit :=
  let reg_index := id / 16 in
  reg_offset <- umul U32 reg_index 4 ;;
  bit_shift <- umul U32 (id mod 16) 2 ;;
  a <- uadd USIZE (dist_addr self) GICD_ICFGR ;;
  cfg_reg_addr <- uadd USIZE a reg_offset ;;
  reg_val <- read_mmio32 cfg_reg_addr 0 ;;
  m <- ushl U32 3 bit_shift ;;
  let mask := unot U32 m in
  let reg_val := Z.land reg_val mask in
  write_mmio32 cfg_reg_addr 0 reg_val ;;
  barrier_ins DsbSy.

Definition Gicv3_set_spi_trigger_edge self (id : Z) : M unit :=
  let reg_index := id / 16 in
  reg_offset <- umul U32 reg_index 4 ;;
  bit_shift <- umul U32 (id mod 16) 2 ;;
  a <- uadd USIZE (dist_addr self) GICD_ICFGR ;;
  cfg_reg_addr <- uadd USIZE a reg_offset ;;
  reg_val <- read_mmio32 cfg_reg_addr 0 ;;
  m <- ushl U32 3 bit_shift ;;
  let mask := unot U32 m in
  let reg_val := Z.land reg_val mask in
  e <- ushl U32 2 bit_shift ;;
  let reg_val := Z.lor reg_val e in
  write_mmio32 cfg_reg_addr 0 reg_val ;;
  barrier_ins DsbSy.

Definition Gicv3_enable_spi self (id : Z) : M unit :=
  let reg_index := id / 32 in
  reg_offset <- umul U32 reg_index 4 ;;
  a <- uadd USIZE (dist_addr self) GICD_ISENABLER ;;
  enabler_reg_addr <- uadd USIZE a reg_offset ;;
  bit_to_set <- ushl U32 1 (id mod 32) ;;
  write_mmio32 enabler_reg_addr 0 bit_to_set ;;
  barrier_ins DsbSy.

(** [core::ptr::write_volatile] through a [*mut u64]. *)
Definition write_volatile64 (ptr value : Z) : M unit :=
  if (ptr =? 0) || negb (ptr mod 8 =? 0) then fault else bus_write64 ptr value.

Definition Gicv3_set_spi_routing self (id core_affinity : Z) : M unit :=
  a <- uadd USIZE (dist_addr self) GICD_IROUTER ;;
  o <- umul USIZE 8 id ;;
  router_reg_addr <- uadd USIZE a o ;;
  write_volatile64 router_reg_addr core_affinity ;;
  barrier_ins DsbSy.

Definition Gicv3_set_spi_group self (id : Z) : M unit :=
  let reg_index := id / 32 in
  reg_offset <- umul U32 reg_index 4 ;;
  a <- uadd USIZE (dist_addr self) GICD_IGROUPR ;;
  group_reg_addr <- uadd USIZE a reg_offset ;;
  bit_to_set <- ushl U32 1 (id mod 32) ;;
  set_mmio_bits32 group_reg_addr 0 bit_to_set ;;
  barrier_ins DsbSy.

Definition Gicv3_set_ppi_trigger_level self (id : Z) : M unit :=
  let reg_index := id / 16 in
  reg_offset <- umul U32 reg_index 4 ;;
  bit_shift <- umul U32 (id mod 16) 2 ;;
  sgi_base <- uadd USIZE (redist_addr self) GICR_SGI_BASE ;;
  a <- uadd USIZE sgi_base GICR_ICFGR ;;
  cfg_reg_addr <- uadd USIZE a reg_offset ;;
  reg_val <- read_mmio32 cfg_reg_addr 0 ;;
  m <- ushl U32 3 bit_shift ;;
  let mask := unot U32 m in
  let reg_val := Z.land reg_val mask in
  write_mmio32 cfg_reg_addr 0 reg_val ;;
  barrier_ins DsbSy.

Definition Gicv3_set_ppi_trigger_edge self (id : Z) : M unit :=
  let reg_index := id / 16 in
  reg_offset <- umul U32 reg_index 4 ;;
  bit_shift <- umul U32 (id mod 16) 2 ;;
  sgi_base <- uadd USIZE (redist_addr self) GICR_SGI_BASE ;;
  a <- uadd USIZE sgi_base GICR_ICFGR ;;
  cfg_reg_addr <- uadd USIZE a reg_offset ;;
  reg_val <- read_mmio32 cfg_reg_addr 0 ;;
  m <- ushl U32 3 bit_shift ;;
  let mask := unot U32 m in
  let reg_val := Z.land reg_val mask in
  e <- ushl U32 2 bit_shift ;;
  let reg_val := Z.lor reg_val e in
  write_mmio32 cfg_reg_addr 0 reg_val ;;
  barrier_ins DsbSy.

(** ** The static [GIC] and its wrappers *)

Definition GIC : M GicState.t := gets w_gic.

Definition init_gic (fuel : nat) (dist redist : Z) : M unit :=
  modify (fun w => set_gic (mk dist (redist_addr (w_gic w))) w) ;;
  modify (fun w => set_gic (mk (dist_addr (w_gic w)) redist) w) ;;
  g <- GIC ;; init_gic_distributor g ;;
  g <- GIC ;; init_gic_redistributor fuel g.

Definition enable_spi (id : Z) : M unit := g <- GIC ;; Gicv3_enable_spi g id.
Definition set_spi_priority (id prio : Z) : M unit := g <- GIC ;; Gicv3_set_spi_priority g id prio.
Definition set_spi_trigger_level (id : Z) : M unit := g <- GIC ;; Gicv3_set_spi_trigger_level g id.
Definition set_spi_trigger_edge (id : Z) : M unit := g <- GIC ;; Gicv3_set_spi_trigger_edge g id.
Definition set_spi_group (id : Z) : M unit := g <- GIC ;; Gicv3_set_spi_group g id.
Definition set_spi_routing (id core_affinity : Z) : M unit :=
  g <- GIC ;; Gicv3_set_spi_routing g id core_affinity.
Definition set_ppi_priority (id prio : Z) : M unit := g <- GIC ;; Gicv3_set_ppi_priority g id prio.
Definition set_ppi_group (id : Z) : M unit := g <- GIC ;; Gicv3_set_ppi_group g id.
Definition enable_ppi (id : Z) : M unit := g <- GIC ;; Gicv3_enable_ppi g id.
Definition set_ppi_trigger_level (id : Z) : M unit := g <- GIC ;; Gicv3_set_ppi_trigger_level g id.
Definition set_ppi_trigger_edge (id : Z) : M unit := g <- GIC ;; Gicv3_set_ppi_trigger_edge g id.

Definition set_priority_mask (priority : Z) : M unit := msr ICC_PMR_EL1 priority.

Definition enable_grp1_ints : M unit :=
  tmp <- mrs ICC_IGRPEN1_EL1 ;;
  msr ICC_IGRPEN1_EL1 (Z.lor tmp 1) ;;
  barrier_ins Isb.

(** ** Setup from the device tree *)

(** [addr = (addr << 32) | cell] over the cells of a [reg] entry. *)
Definition read_address (value : Z) (cells : Z) : M Z :=
  for_each (range cells) 0 (fun addr i =>
    off <- umul USIZE i 4 ;;
    cell <- read_be_u32 value off ;;
    addr <- ushl U64 addr 32 ;;
    ret (Z.lor addr cell)).

Definition setup (fuel : nat) (dev : PlatformDevice.t) : M unit :=
  cells <- get_parent_cells dev ;;
  let '(addr_cells, size_cells) := cells in
  reg <- find_property dev "reg" ;;
  match reg with
  | Some reg_prop =>
      gicd_addr <- read_address (Property.value reg_prop) addr_cells ;;
      n <- uadd U32 addr_cells size_cells ;;
      gicr_off <- umul USIZE n 4 ;;
      gicr_addr <-
        for_each (range addr_cells) 0 (fun addr i =>
          p <- ptr_add (Property.value reg_prop) gicr_off ;;
          off <- umul USIZE i 4 ;;
          cell <- read_be_u32 p off ;;
          addr <- ushl U64 addr 32 ;;
          ret (Z.lor addr cell)) ;;
      init_gic fuel gicd_addr gicr_addr
  | None => ret tt
  end ;;
  set_priority_mask 0xff ;;
  enable_grp1_ints.

(** ** The world each operation leaves *)

(** A read-modify-write of one bit field, then the barrier. *)
Definition field_write (a lo width x : Z) w : world :=
  log (Barrier DsbSy) (after_rmw a (fun v => set_field v lo width x) w).

(** Setting bits, then the barrier. *)
Definition bits_set (a bits : Z) w : world :=
  log (Barrier DsbSy) (after_rmw a (fun v => Z.lor v bits) w).

Definition GICD_SIZE : Z := 0x10000.
Definition GICR_SIZE : Z := 0x20000.

(** The register frames lie in the address space. *)
Definition wf_gic self : Prop :=
  frame_ok (dist_addr self) GICD_SIZE /\ frame_ok (redist_addr self) GICR_SIZE.

Definition spi_prio_reg self id := dist_addr self + GICD_IPRIORITYR + id / 4 * 4.
Definition spi_cfg_reg self id := dist_addr self + GICD_ICFGR + id / 16 * 4.
Definition spi_group_reg self id := dist_addr self + GICD_IGROUPR + id / 32 * 4.
Definition spi_enable_reg self id := dist_addr self + GICD_ISENABLER + id / 32 * 4.
Definition spi_route_reg self id := dist_addr self + GICD_IROUTER + 8 * id.
Definition ppi_prio_reg self id := redist_addr self + GICR_SGI_BASE + GICR_IPRIORITYR + id / 4 * 4.
Definition ppi_cfg_reg self id := redist_addr self + GICR_SGI_BASE + GICR_ICFGR + id / 16 * 4.
Definition ppi_group_reg self := redist_addr self + GICR_SGI_BASE + GICR_IGROUPR0.
Definition ppi_enable_reg self := redist_addr self + GICR_SGI_BASE + GICR_ISENABLER0.

End gicv3.

Ltac unfold_gic :=
  unfold GICD_CTLR, GICD_ISENABLER, GICD_IPRIORITYR, GICD_ICFGR, GICD_IROUTER, GICD_IGROUPR,
    GICR_SGI_BASE, GICR_WAKER, GICR_IPRIORITYR, GICR_IGROUPR0, GICR_ISENABLER0, GICR_ICFGR,
    GICD_SIZE, GICR_SIZE in *.

Ltac gic_side :=
  unfold wf_gic, frame_ok, reg_ok, fits, U8, U16, U32, U64, USIZE in *; unfold_gic; lia.

#[local] Hint Extern 3 (fits _ _) => gic_side : exec.
#[local] Hint Extern 3 (reg_ok _) => gic_side : exec.
#[local] Hint Extern 3 (_ <= _ < _) => gic_side : exec.

Section gicv3_facts.
Context {HW : Hardware}.
Import GicState.
Implicit Types (w : world) (self : GicState.t).

Lemma exec_set_spi_priority self id prio w :
  wf_gic self -> 0 <= id < 1024 ->
  Gicv3_set_spi_priority self id prio w =
    Done tt (field_write (spi_prio_reg self id) (id mod 4 * 8) 8 prio w).
Proof. intros Hg Hid. unfold Gicv3_set_spi_priority. exec_run. Qed.

Lemma exec_set_ppi_priority self id prio w :
  wf_gic self -> 0 <= id < 32 ->
  Gicv3_set_ppi_priority self id prio w =
    Done tt (field_write (ppi_prio_reg self id) (id mod 4 * 8) 8 prio w).
Proof. intros Hg Hid. unfold Gicv3_set_ppi_priority. exec_run. Qed.

Lemma set_field_0 v lo width :
  Z.land v (unot U32 (shl U32 (Z.ones width) lo)) = set_field v lo width 0.
Proof. unfold set_field, shl at 3. by rewrite Z.shiftl_0_l, Z.lor_0_r. Qed.

Lemma exec_set_spi_trigger_level self id w :
  wf_gic self -> 0 <= id < 1024 ->
  Gicv3_set_spi_trigger_level self id w =
    Done tt (field_write (spi_cfg_reg self id) (id mod 16 * 2) 2 0 w).
Proof.
  intros Hg Hid. unfold Gicv3_set_spi_trigger_level, field_write, after_rmw.
  rewrite <- set_field_0. exec_run.
Qed.

Lemma exec_set_spi_trigger_edge self id w :
  wf_gic self -> 0 <= id < 1024 ->
  Gicv3_set_spi_trigger_edge self id w =
    Done tt (field_write (spi_cfg_reg self id) (id mod 16 * 2) 2 2 w).
Proof. intros Hg Hid. unfold Gicv3_set_spi_trigger_edge. exec_run. Qed.

Lemma exec_set_ppi_trigger_level self id w :
  wf_gic self -> 0 <= id < 32 ->
  Gicv3_set_ppi_trigger_level self id w =
    Done tt (field_write (ppi_cfg_reg self id) (id mod 16 * 2) 2 0 w).
Proof.
  intros Hg Hid. unfold Gicv3_set_ppi_trigger_level, field_write, after_rmw.
  rewrite <- set_field_0. exec_run.
Qed.

Lemma exec_set_ppi_trigger_edge self id w :
  wf_gic self -> 0 <= id < 32 ->
  Gicv3_set_ppi_trigger_edge self id w =
    Done tt (field_write (ppi_cfg_reg self id) (id mod 16 * 2) 2 2 w).
Proof. intros Hg Hid. unfold Gicv3_set_ppi_trigger_edge. exec_run. Qed.

Lemma exec_set_spi_group self id w :
  wf_gic self -> 0 <= id < 1024 ->
  Gicv3_set_spi_group self id w =
    Done tt (bits_set (spi_group_reg self id) (shl U32 1 (id mod 32)) w).
Proof. intros Hg Hid. unfold Gicv3_set_spi_group. exec_run. Qed.

Lemma exec_set_ppi_group self id w :
  wf_gic self -> 0 <= id < 32 ->
  Gicv3_set_ppi_group self id w = Done tt (bits_set (ppi_group_reg self) (shl U32 1 id) w).
Proof. intros Hg Hid. unfold Gicv3_set_ppi_group. exec_run. Qed.

Lemma exec_enable_ppi self id w :
  wf_gic self -> 0 <= id < 32 ->
  Gicv3_enable_ppi self id w = Done tt (bits_set (ppi_enable_reg self) (shl U32 1 id) w).
Proof. intros Hg Hid. unfold Gicv3_enable_ppi. exec_run. Qed.

Lemma exec_enable_spi self id w :
  wf_gic self -> 0 <= id < 1024 ->
  Gicv3_enable_spi self id w =
    Done tt (log (Barrier DsbSy) (after_write (spi_enable_reg self id) (shl U32 1 (id mod 32)) w)).
Proof. intros Hg Hid. unfold Gicv3_enable_spi. exec_run. Qed.

Lemma exec_write_volatile64 p v w :
  p <> 0 -> p mod 8 = 0 -> write_volatile64 p v w = Done tt (after_write64 p v w).
Proof. intros H0 H8. unfold write_volatile64. by rewrite (proj2 (Z.eqb_neq p 0)), H8. Qed.

Lemma exec_set_spi_routing self id aff w :
  wf_gic self -> 0 <= id < 1024 ->
  Gicv3_set_spi_routing self id aff w =
    Done tt (log (Barrier DsbSy) (after_write64 (spi_route_reg self id) aff w)).
Proof.
  intros Hg Hid. unfold Gicv3_set_spi_routing. do 3 exec_step.
  erewrite bind_done by (apply exec_write_volatile64; gic_side). done.
Qed.

Lemma exec_init_gic_distributor self w :
  wf_gic self ->
  init_gic_distributor self w = Done tt (bits_set (dist_addr self) 6 w).
Proof.
  intros Hg. unfold init_gic_distributor, bits_set.
  erewrite bind_done by (apply exec_set_mmio_bits32_0; gic_side). done.
Qed.

(** The redistributor wakes up when the hardware reports its children awake. *)
Lemma exec_init_gic_redistributor self fuel n w :
  wf_gic self ->
  let waker := redist_addr self + GICR_WAKER in
  let woken := log (Barrier DsbSy)
    (after_rmw waker (fun v => Z.land v (unot U32 GICR_WAKER_PSLEEP)) w) in
  busy_for waker GICR_WAKER_CASLEEP n woken -> (n < fuel)%nat ->
  init_gic_redistributor fuel self w = Done tt (after_reads waker (S n) woken).
Proof.
  intros Hg waker woken Hb Hf. unfold init_gic_redistributor.
  erewrite bind_done by (apply exec_clear_mmio_bits32; gic_side).
  rewrite (bind_done _ _ _ _ _ (exec_barrier _ _)).
  apply poll_done; [gic_side | done | done].
Qed.

(** The PPI bit for interrupt numbers above 31 overflows the shift. *)
Lemma ppi_bit_panics self id w (k : Z -> Z -> M unit) :
  wf_gic self -> 32 <= id ->
  (x <- uadd USIZE (redist_addr self) GICR_SGI_BASE ;; b <- ushl U32 1 id ;; k x b) w =
    Panicked w.
Proof.
  intros Hg Hid.
  rewrite (bind_done _ _ _ _ w (exec_uadd USIZE (redist_addr self) GICR_SGI_BASE w ltac:(gic_side))).
  apply bind_panicked. by apply ushl_panics.
Qed.

(** ** Reading the register base addresses *)

(** The cells of a [reg] value, mapped at [p]. *)
Definition cells_at (ram : gmap Z byte) (p : Z) (cells : list (list byte)) : Prop :=
  0 < p /\ p + 4 * Z.of_nat (length cells) < 2 ^ USIZE /\
  cells_ok cells /\ ram_bytes ram p (concat cells).

Lemma cells_at_mono ram ram' p cells : ram ⊆ ram' -> cells_at ram p cells -> cells_at ram' p cells.
Proof. intros Hs (H1 & H2 & H3 & Hb). do 3 (split; [done |]). by eapply ram_bytes_mono. Qed.

Lemma exec_address_body p cells i c acc w :
  cells_at (w_ram w) p cells -> cells !! i = Some c ->
  (off <- umul USIZE (Z.of_nat i) 4 ;;
   cell <- read_be_u32 p off ;;
   addr <- ushl U64 acc 32 ;;
   ret (Z.lor addr cell)) w = Done (shift_in acc (be_combine c)) w.
Proof.
  intros (Hp & Hfit & Hc & Hram) Hi. pose proof (lookup_lt_Some _ _ _ Hi) as Hlt.
  pose proof (ram_bytes_concat _ _ _ _ _ Hc Hram Hi) as Hb.
  assert (length c = 4%nat) as Hlen by (by eapply Forall_lookup in Hc).
  rewrite (bind_done _ _ _ (Z.of_nat i * 4) w) by (apply exec_umul; solve_fits).
  rewrite (bind_done _ _ _ (be_combine c) w).
  2:{ apply exec_read_be_u32; [unfold place_ok; lia | done | done]. }
  by rewrite (bind_done _ _ _ _ w (exec_ushl U64 acc 32 w ltac:(solve_fits))).
Qed.

Lemma exec_read_address p n cells w :
  n = Z.of_nat (length cells) -> cells_at (w_ram w) p cells ->
  read_address p n w = Done (wrap U64 (be_combine (concat cells))) w.
Proof.
  intros Hn Hc. unfold read_address. apply for_each_address; [done | by apply Hc |].
  intros i c acc Hi. by apply (exec_address_body p cells).
Qed.

Lemma cells_at_app ram p cs1 cs2 :
  cells_at ram p (cs1 ++ cs2) ->
  cells_at ram p cs1 /\ cells_at ram (p + 4 * Z.of_nat (length cs1)) cs2.
Proof.
  intros (Hp & Hfit & Hc & Hram). rewrite length_app in Hfit.
  apply Forall_app in Hc as [Hc1 Hc2]. rewrite concat_app, ram_bytes_app in Hram.
  assert (length (concat cs1) = 4 * length cs1)%nat as Hl.
  { clear -Hc1. induction Hc1 as [| c cs Hc Hcs IH]; [done |].
    simpl. rewrite length_app, Hc, IH. lia. }
  destruct Hram as [Hr1 Hr2]. repeat split; try done; try lia.
  by replace (p + 4 * Z.of_nat (length cs1)) with (p + Z.of_nat (length (concat cs1))) by lia.
Qed.

(** The part of [setup] that reads the two base addresses. *)
Lemma exec_setup_addresses fuel dev w ac sc reg dist size redist rest :
  wf_device dev -> get_parent_cells dev w = Done (ac, sc) w ->
  first_named "reg" (valid_props dev) = Some reg ->
  cells_at (w_ram w) (Property.value reg) (dist ++ size ++ redist ++ rest) ->
  ac = Z.of_nat (length dist) -> sc = Z.of_nat (length size) -> ac = Z.of_nat (length redist) ->
  ac + sc < 2 ^ U32 ->
  setup fuel dev w =
    (init_gic fuel (wrap U64 (be_combine (concat dist))) (wrap U64 (be_combine (concat redist))) ;;
     set_priority_mask 0xff ;; enable_grp1_ints) w.
Proof.
  intros Hwf Hcells Hreg Hat Hd Hs Hr Hfit. unfold setup.
  rewrite (bind_done _ _ _ _ _ Hcells).
  rewrite (bind_done _ _ _ _ _ (exec_find_property dev "reg" w Hwf)), Hreg.
  apply cells_at_app in Hat as [Hat1 Hat].
  rewrite bind_bind. rewrite (bind_done _ _ _ _ _ (exec_read_address _ ac dist w Hd Hat1)).
  rewrite bind_bind. rewrite (bind_done _ _ _ (ac + sc) w) by (apply exec_uadd; solve_fits).
  rewrite bind_bind. rewrite (bind_done _ _ _ ((ac + sc) * 4) w) by (apply exec_umul; solve_fits).
  apply cells_at_app in Hat as [_ Hat]. apply cells_at_app in Hat as [Hat _].
  replace (Property.value reg + 4 * Z.of_nat (length dist) + 4 * Z.of_nat (length size))
    with (Property.value reg + (ac + sc) * 4) in Hat by lia.
  rewrite bind_bind.
  rewrite (bind_done _ _ _ (wrap U64 (be_combine (concat redist))) w); [done |].
  apply for_each_address; [done | by apply Hat |].
  intros i c acc Hi. pose proof Hat as (? & ? & _).
  rewrite (bind_done _ _ _ (Property.value reg + (ac + sc) * 4) w)
    by (apply exec_ptr_add; solve_fits).
  by apply (exec_address_body _ redist).
Qed.

End gicv3_facts.

(** ** Theorems *)

Section gic_theorems.
Import GicState.
Implicit Types (self : GicState.t).

(** The registers of the GICv3 architecture that hold one setting per interrupt:
    8-bit priorities, 2-bit configurations (0b00 level, 0b10 edge), 1-bit groups,
    in the distributor and in the SGI frame of the redistributor. *)
Definition GICD_priorities (dist : Z) : Z := dist + 0x400.
Definition GICD_configs (dist : Z) : Z := dist + 0xC00.
Definition GICD_groups (dist : Z) : Z := dist + 0x080.
Definition GICR_priorities (redist : Z) : Z := redist + 0x10400.
Definition GICR_configs (redist : Z) : Z := redist + 0x10C00.
Definition GICR_groups (redist : Z) : Z := redist + 0x10080.

Definition trigger_bits (edge : bool) : Z := if edge then 2 else 0.

(** What an operation leaves: the kernel's state, and the accesses made. *)
Definition only_accesses {HW : Hardware} (r : outcome unit) (w : world) (evs : list event) : Prop :=
  exists w', r = Done tt w' /\ same_kernel w w' /\ w_trace w' = w_trace w ++ evs.

(** A field write of the register that the code computes is an update of the array. *)
Lemma field_write_updates {HW : Hardware} base per width id x (w : world) :
  0 < per -> 0 < width -> per * width = 32 -> fits width x ->
  exists evs, w_trace (field_write (base + id / per * 4) (id mod per * width) width x w) =
    w_trace w ++ evs /\ entry_updated base width id x evs.
Proof.
  intros Hp Hw Hpack Hx. eexists. split; [simpl; by rewrite <- !app_assoc |].
  eexists _, _, _. split; [done |]. split; [apply set_field_fits |].
  split; [by apply entry_here |]. intros id' Hin. by apply entry_set.
Qed.

Lemma bits_set_field {HW : Hardware} a n (w : world) :
  0 <= n < 32 -> bits_set a (shl U32 1 n) w = field_write a n 1 1 w.
Proof.
  intros Hn. unfold bits_set, field_write, after_rmw.
  by rewrite set_bit_field by (try apply wrap_fits; unfold U32; lia).
Qed.

Lemma only_accesses_field {HW : Hardware} (m : M unit) base per width id x (w : world) :
  0 < per -> 0 < width -> per * width = 32 -> fits width x ->
  m w = Done tt (field_write (base + id / per * 4) (id mod per * width) width x w) ->
  exists evs, only_accesses (m w) w evs /\ entry_updated base width id x evs.
Proof.
  intros Hp Hw Hpack Hx E. destruct (field_write_updates base per width id x w) as (evs & Htr & Hu);
    try done. exists evs. split; [| done]. by eexists.
Qed.

Lemma only_accesses_bit {HW : Hardware} (m : M unit) base id (w : world) :
  m w = Done tt (bits_set (base + id / 32 * 4) (shl U32 1 (id mod 32)) w) ->
  exists evs, only_accesses (m w) w evs /\ entry_updated base 1 id 1 evs.
Proof.
  intros E. pose proof (Z.mod_pos_bound id 32 ltac:(lia)).
  apply (only_accesses_field m base 32 1); [lia | lia | lia | solve_fits |].
  rewrite E, bits_set_field by lia. by rewrite Z.mul_1_r.
Qed.

(** C29: configuring an SPI.  Each of the operations on the priority, the trigger
    mode and the group of interrupt [id] is one read, one write and one barrier of
    the distributor register that the architecture assigns to that interrupt; in
    the value written the entry of [id] is the new setting and the entries of all
    other interrupts of the register are as they were read.  Nothing is assumed
    of how the registers react. *)
Theorem set_spi_updates_entries {HW : Hardware} self id prio (edge : bool) (w : world) :
  wf_gic self -> 0 <= id < 1024 -> fits U8 prio ->
  let trigger := if edge then Gicv3_set_spi_trigger_edge else Gicv3_set_spi_trigger_level in
  (exists evs, only_accesses (Gicv3_set_spi_priority self id prio w) w evs /\
     entry_updated (GICD_priorities (dist_addr self)) 8 id prio evs) /\
  (exists evs, only_accesses (trigger self id w) w evs /\
     entry_updated (GICD_configs (dist_addr self)) 2 id (trigger_bits edge) evs) /\
  (exists evs, only_accesses (Gicv3_set_spi_group self id w) w evs /\
     entry_updated (GICD_groups (dist_addr self)) 1 id 1 evs).
Proof.
  intros Hg Hid Hp trigger. split; [| split].
  - apply (only_accesses_field _ _ 4 8); [done.. | by apply exec_set_spi_priority].
  - apply (only_accesses_field _ _ 16 2); [done.. | by destruct edge |].
    destruct edge; [by apply exec_set_spi_trigger_edge | by apply exec_set_spi_trigger_level].
  - apply only_accesses_bit. by apply exec_set_spi_group.
Qed.

(** C30: configuring a PPI, as the timer driver does: trigger mode, priority and
    group, in this order, are three such updates of the arrays in the SGI frame of
    the redistributor, and no other access is made. *)
Theorem configure_ppi_updates_entries {HW : Hardware} self id prio (edge : bool) (w : world) :
  wf_gic self -> 0 <= id < 32 -> fits U8 prio ->
  let trigger := if edge then Gicv3_set_ppi_trigger_edge else Gicv3_set_ppi_trigger_level in
  exists cfg pri grp,
    only_accesses ((trigger self id ;; Gicv3_set_ppi_priority self id prio ;;
      Gicv3_set_ppi_group self id)%kernel w) w (cfg ++ pri ++ grp) /\
    entry_updated (GICR_configs (redist_addr self)) 2 id (trigger_bits edge) cfg /\
    entry_updated (GICR_priorities (redist_addr self)) 8 id prio pri /\
    entry_updated (GICR_groups (redist_addr self)) 1 id 1 grp.
Proof.
  intros Hg Hid Hp trigger.
  destruct (only_accesses_field (trigger self id) (GICR_configs (redist_addr self)) 16 2 id
    (trigger_bits edge) w) as (cfg & (w1 & E1 & S1 & T1) & U1); [done.. | by destruct edge | |].
  { replace (GICR_configs (redist_addr self) + id / 16 * 4) with (ppi_cfg_reg self id)
      by (unfold ppi_cfg_reg, GICR_configs; gic_side).
    destruct edge; [by apply exec_set_ppi_trigger_edge | by apply exec_set_ppi_trigger_level]. }
  destruct (only_accesses_field (Gicv3_set_ppi_priority self id prio)
    (GICR_priorities (redist_addr self)) 4 8 id prio w1)
    as (pri & (w2 & E2 & S2 & T2) & U2); [done.. | |].
  { replace (GICR_priorities (redist_addr self) + id / 4 * 4) with (ppi_prio_reg self id)
      by (unfold ppi_prio_reg, GICR_priorities; gic_side). by apply exec_set_ppi_priority. }
  destruct (only_accesses_bit (Gicv3_set_ppi_group self id) (GICR_groups (redist_addr self)) id w2)
    as (grp & (w3 & E3 & S3 & T3) & U3).
  { rewrite Z.div_small, Z.mod_small by lia.
    replace (GICR_groups (redist_addr self) + 0 * 4) with (ppi_group_reg self)
      by (unfold ppi_group_reg, GICR_groups; gic_side). by apply exec_set_ppi_group. }
  exists cfg, pri, grp. split; [| done]. exists w3.
  rewrite (bind_done _ _ _ _ _ E1), (bind_done _ _ _ _ _ E2). split; [done |].
  split; [by etransitivity; [| etransitivity] |]. by rewrite T3, T2, T1, <- !app_assoc.
Qed.

(** C32: group and enable operations on a PPI number that is not below 32
    overflow the shift: they panic and no register is touched. *)
Theorem ppi_bit_operations_overflow {HW : Hardware} self id (w : world) :
  wf_gic self -> 32 <= id ->
  Gicv3_set_ppi_group self id w = Panicked w /\ Gicv3_enable_ppi self id w = Panicked w.
Proof. intros Hg Hid. split; by apply ppi_bit_panics. Qed.

(** C33: waking the redistributor terminates exactly when the hardware clears
    ChildrenAsleep: after [n] busy answers [n + 1] reads are made and the
    wake-up returns; with an answer that stays busy it never returns. *)
Theorem redistributor_wakeup {HW : Hardware} self fuel (w : world) :
  wf_gic self ->
  let waker := redist_addr self + GICR_WAKER in
  let woken := log (Barrier DsbSy)
    (after_rmw waker (fun v => Z.land v (unot U32 GICR_WAKER_PSLEEP)) w) in
  (forall n, busy_for waker GICR_WAKER_CASLEEP n woken -> (n < fuel)%nat ->
     init_gic_redistributor fuel self w = Done tt (after_reads waker (S n) woken)) /\
  ((forall k, Z.land (peek32 waker (after_reads waker k woken)) GICR_WAKER_CASLEEP <> 0) ->
     init_gic_redistributor fuel self w = Spinning (after_reads waker fuel woken)).
Proof.
  intros Hg waker woken. split.
  - intros n Hn Hf. by apply exec_init_gic_redistributor.
  - intros Hb. unfold init_gic_redistributor.
    erewrite bind_done by (apply exec_clear_mmio_bits32; gic_side).
    rewrite (bind_done _ _ _ _ _ (exec_barrier _ _)).
    apply poll_spins; [gic_side | intros; apply Hb].
Qed.

(** The register of the GICv3 architecture that routes interrupt [n], for the
    interrupts from 32 on: GICD_IROUTER<n>, at 0x6000 + 8 * n. *)
Definition architectural_router (dist n : Z) : Z := dist + 0x6000 + 8 * n.

(** C31: [set_spi_routing] adds eight bytes per interrupt to 0x6100, which is
    already the register of interrupt 32: the routing of interrupt [id] is
    written to the register of interrupt [id + 32], and that is the only
    access. *)
Theorem set_spi_routing_register {HW : Hardware} self id aff (w : world) :
  wf_gic self -> 0 <= id < 1024 ->
  exists w', Gicv3_set_spi_routing self id aff w = Done tt w' /\ same_kernel w w' /\
    w_trace w' = w_trace w ++
      [Write64 (architectural_router (dist_addr self) (id + 32)) aff; Barrier DsbSy].
Proof.
  intros Hg Hid. eexists. rewrite exec_set_spi_routing by done. split; [done |].
  split; [done |]. simpl. rewrite <- app_assoc. simpl. do 3 f_equal.
  unfold spi_route_reg, architectural_router, GICD_IROUTER. lia.
Qed.

(** Initialising the distributor sets the two Group 1 enable bits (1 and 2)
    of GICD_CTLR and no other bit: the affinity-routing bits 4 and 5 keep
    whatever value the firmware left. *)
Theorem distributor_init_bits {HW : Hardware} self (w : world) :
  wf_gic self ->
  exists v v' h,
    init_gic_distributor self w =
      Done tt (set_trace (w_trace w ++
        [Read32 (dist_addr self) v; Write32 (dist_addr self) v'; Barrier DsbSy]) (set_hw h w)) /\
    forall i, 0 <= i -> Z.testbit v' i = (i =? 1) || (i =? 2) || Z.testbit v i.
Proof.
  intros Hg. exists (peek32 (dist_addr self) w), (Z.lor (peek32 (dist_addr self) w) 6).
  eexists. rewrite exec_init_gic_distributor by done. split.
  - unfold bits_set, log, after_rmw, after_write, after_read, log, set_trace, set_hw. simpl.
    rewrite <- !app_assoc. done.
  - intros i Hi. rewrite Z.lor_spec, orb_comm. f_equal.
    destruct (Z.ltb_spec i 3).
    + assert (i = 0 \/ i = 1 \/ i = 2) as [-> | [-> | ->]] by lia; done.
    + rewrite (testbit_high 3 6) by lia. repeat case_cmp; done.
Qed.

(** What [setup] needs to find in the tree: two pairs of address and size in
    the [reg] property, of which the addresses are the frames of [self]. *)
Definition gic_node {HW : Hardware} (w : world) (dev : PlatformDevice.t) self : Prop :=
  wf_device dev /\
  exists ac sc reg dist size redist rest,
    get_parent_cells dev w = Done (ac, sc) w /\
    first_named "reg" (valid_props dev) = Some reg /\
    cells_at (w_ram w) (Property.value reg) (dist ++ size ++ redist ++ rest) /\
    ac = Z.of_nat (length dist) /\ sc = Z.of_nat (length size) /\ ac = Z.of_nat (length redist) /\
    ac + sc < 2 ^ U32 /\
    self = mk (wrap U64 (be_combine (concat dist))) (wrap U64 (be_combine (concat redist))).

(** The controller when its wake-up wait starts. *)
Definition woken {HW : Hardware} self (w : world) : world :=
  log (Barrier DsbSy)
    (after_rmw (redist_addr self + GICR_WAKER) (fun v => Z.land v (unot U32 GICR_WAKER_PSLEEP))
      (bits_set (dist_addr self) 6 (set_gic self w))).

(** The accesses of the initialisation: distributor, wake-up with its polls,
    priority mask, Group 1. *)
Definition gic_events self (ctlr wk : Z) (polls : list Z) (grpen : Z) : list event :=
  let waker := redist_addr self + GICR_WAKER in
  [Read32 (dist_addr self) ctlr; Write32 (dist_addr self) (Z.lor ctlr 6); Barrier DsbSy;
   Read32 waker wk; Write32 waker (Z.land wk (unot U32 2)); Barrier DsbSy] ++
  (Read32 waker <$> polls) ++
  [Msr ICC_PMR_EL1 255; Mrs ICC_IGRPEN1_EL1 grpen; Msr ICC_IGRPEN1_EL1 (Z.lor grpen 1);
   Barrier Isb].

Lemma exec_gic_setup {HW : Hardware} fuel dev self n (w : world) :
  gic_node w dev self -> wf_gic self ->
  busy_for (redist_addr self + GICR_WAKER) GICR_WAKER_CASLEEP n (woken self w) -> (n < fuel)%nat ->
  exists w' ctlr wk polls grpen,
    setup fuel dev w = Done tt w' /\ w_gic w' = self /\
    w_ram w' = w_ram w /\ w_dtb w' = w_dtb w /\ w_uart w' = w_uart w /\ w_rx w' = w_rx w /\
    length polls = S n /\ w_trace w' = w_trace w ++ gic_events self ctlr wk polls grpen.
Proof.
  intros (Hwf & ac & sc & reg & dist & size & redist & rest & Hcells & Hreg & Hat & Hd & Hs & Hr & Hfit & ->).
  set (self := mk _ _). intros Hg Hb Hf. set (waker := redist_addr self + GICR_WAKER) in *.
  destruct (after_reads_trace waker (S n) (woken self w)) as (polls & Hlen & Htr).
  pose proof (after_reads_same waker (S n) (woken self w)) as (Eram & Edtb & Egic & Euart & Erx).
  set (w1 := after_msr ICC_PMR_EL1 255 (after_reads waker (S n) (woken self w))).
  exists (log (Barrier Isb) (after_msr ICC_IGRPEN1_EL1 (Z.lor (peek_reg ICC_IGRPEN1_EL1 w1) 1)
    (after_mrs ICC_IGRPEN1_EL1 w1))), (peek32 (dist_addr self) (set_gic self w)),
    (peek32 waker (bits_set (dist_addr self) 6 (set_gic self w))), polls,
    (peek_reg ICC_IGRPEN1_EL1 w1). split.
  { erewrite exec_setup_addresses by done.
    unfold init_gic, GIC. rewrite !bind_bind. repeat exec_step.
    rewrite (bind_done _ _ _ _ _ (exec_init_gic_distributor self _ Hg)). repeat exec_step.
    rewrite (bind_done _ _ _ _ _ (exec_init_gic_redistributor self fuel n _ Hg Hb Hf)).
    reflexivity. }
  unfold w1. cbn [w_trace w_gic w_ram w_dtb w_uart w_rx after_msr after_mrs log set_trace set_hw].
  rewrite Egic, Eram, Edtb, Euart, Erx, Htr. do 6 (split; [done |]).
  unfold woken, bits_set, after_rmw, after_write, after_read, gic_events.
  cbn [w_trace log set_trace set_hw set_gic]. by rewrite <- !app_assoc.
Qed.

(** C26: [setup] takes the distributor and redistributor bases from the [reg]
    property, as the big-endian values of its first and second address (modulo
    2^64), stores them in [GIC], and then runs the hardware initialisation in
    the order distributor, redistributor wake-up, priority mask, Group 1. *)
Theorem gic_setup_initialises {HW : Hardware} fuel dev self n (w : world) :
  gic_node w dev self -> wf_gic self ->
  busy_for (redist_addr self + GICR_WAKER) GICR_WAKER_CASLEEP n (woken self w) -> (n < fuel)%nat ->
  exists w' ctlr wk polls grpen,
    setup fuel dev w = Done tt w' /\ w_gic w' = self /\
    w_ram w' = w_ram w /\ w_dtb w' = w_dtb w /\ w_uart w' = w_uart w /\ w_rx w' = w_rx w /\
    length polls = S n /\ w_trace w' = w_trace w ++ gic_events self ctlr wk polls grpen.
Proof. apply exec_gic_setup. Qed.

(** *** Witnesses: the controller of QEMU's virt machine *)

Definition virt_gic : GicState.t := mk 0x08000000 0x080A0000.
Definition virt_status : list Z := [0x080A0014; 0x09000018].

#[local] Instance virt_hw : Hardware := regfile virt_status.
Lemma virt_gic_wf : wf_gic virt_gic.
Proof. unfold virt_gic, wf_gic. cbn [dist_addr redist_addr]. gic_side. Qed.

Definition virt_world (script : list Z) (ram : gmap Z byte) : @world virt_hw :=
  @boot_world virt_hw (regfile_init script) ram.


Lemma set_spi_routing_register_witness :
  exists w', @Gicv3_set_spi_routing quiet virt_gic 33 0 (@boot_world quiet tt ∅) = Done tt w' /\
    w_trace w' = [Write64 (architectural_router 0x08000000 65) 0; Barrier DsbSy].
Proof.
  destruct (set_spi_routing_register virt_gic 33 0 (@boot_world quiet tt ∅) virt_gic_wf ltac:(lia))
    as (w' & E & _ & Htr).
  exists w'. split; [exact E | exact Htr].
Defined.

(** Interrupt 33 shares its registers with others, which keep what was read. *)
Lemma set_spi_updates_entries_witness :
  exists r v v',
    only_accesses (Gicv3_set_spi_priority virt_gic 33 0xA0 (virt_world [] ∅)) (virt_world [] ∅)
      [Read32 r v; Write32 r v'; Barrier DsbSy] /\
    entry r v' 0x08000400 8 33 = 0xA0.
Proof.
  destruct (set_spi_updates_entries virt_gic 33 0xA0 true (virt_world [] ∅) virt_gic_wf ltac:(lia)
    ltac:(solve_fits)) as ((evs & Ha & r & v & v' & -> & _ & Hin & Hv) & _).
  exists r, v, v'. split; [exact Ha | exact (Hv 33 Hin)].
Defined.

Lemma configure_ppi_updates_entries_witness :
  exists cfg pri grp,
    only_accesses ((Gicv3_set_ppi_trigger_level virt_gic 30 ;; Gicv3_set_ppi_priority virt_gic 30 0x80 ;;
      Gicv3_set_ppi_group virt_gic 30)%kernel (virt_world [] ∅)) (virt_world [] ∅)
      (cfg ++ pri ++ grp) /\
    entry_updated 0x080B0400 8 30 0x80 pri.
Proof.
  destruct (configure_ppi_updates_entries virt_gic 30 0x80 false (virt_world [] ∅) virt_gic_wf
    ltac:(lia) ltac:(solve_fits)) as (cfg & pri & grp & Ha & _ & Hp & _).
  exists cfg, pri, grp. split; [exact Ha | exact Hp].
Defined.

Lemma ppi_bit_operations_overflow_witness :
  Gicv3_set_ppi_group virt_gic 32 (virt_world [] ∅) = Panicked (virt_world [] ∅).
Proof. apply (ppi_bit_operations_overflow virt_gic 32 _ virt_gic_wf). lia. Defined.

(** The controller is asleep twice and then awake. *)
Lemma redistributor_wakeup_witness :
  exists w', init_gic_redistributor 10 virt_gic (virt_world [6; 4; 4; 0] ∅) = Done tt w'.
Proof.
  eexists. apply (redistributor_wakeup virt_gic 10 (virt_world [6; 4; 4; 0] ∅) virt_gic_wf) with (n := 2%nat).
  - split; [| vm_compute; reflexivity].
    intros k Hk. do 2 (destruct k as [| k]; [vm_compute; discriminate |]). lia.
  - lia.
Defined.

(** A node with the default cell counts (2 and 1) and its [reg] value at 0x1000. *)
Definition virt_gic_reg : list (list byte) :=
  be_split 4 <$> [0; 0x08000000; 0x10000; 0; 0x080A0000; 0xF60000].

Definition virt_gic_node : PlatformDevice.t :=
  PlatformDevice.mk None "intc@8000000"
    (<[0%nat := Property.mk "reg" 0x1000 24]> (replicate 16 Property.new)) 1.

Definition virt_gic_world : @world virt_hw :=
  virt_world [6; 4; 0] (ram_of 0x1000 (concat virt_gic_reg)).

Lemma virt_gic_at : gic_node virt_gic_world virt_gic_node virt_gic.
Proof.
  split; [split; [reflexivity | simpl; unfold PlatformDevice.MAX_PROPS; lia] |].
  exists 2, 1, (Property.mk "reg" 0x1000 24), (take 2 virt_gic_reg), (take 1 (drop 2 virt_gic_reg)),
    (take 2 (drop 3 virt_gic_reg)), (drop 5 virt_gic_reg).
  split; [reflexivity |]. split; [reflexivity |]. split.
  { split; [simpl; lia |]. split; [vm_compute; reflexivity |]. split.
    + repeat constructor.
    + apply ram_write_bytes. }
  do 3 (split; [reflexivity |]). split; [unfold U32; lia | vm_compute; reflexivity].
Qed.

Lemma gic_setup_initialises_witness :
  exists w', setup 10 virt_gic_node virt_gic_world = Done tt w' /\ w_gic w' = virt_gic.
Proof.
  destruct (gic_setup_initialises (HW := virt_hw) 10 virt_gic_node virt_gic 1 virt_gic_world)
    as (w' & _ & _ & _ & _ & E & G & _).
  - apply virt_gic_at.
  - apply virt_gic_wf.
  - split; [| vm_compute; reflexivity].
    intros k Hk. destruct k; [vm_compute; discriminate | lia].
  - lia.
  - exists w'. split; [exact E | exact G].
Defined.

End gic_theorems.
