(* ===== verification/ArchTimer.v ===== *)
(** * src/drivers/timer/arch_timer.rs: the generic timer

    Register accessors, arming (with the tick arithmetic at its widths) and
    the device-tree setup, which configures the second interrupt of the node
    as a PPI.  What the counter does between two accesses belongs to the
    hardware; the theorems state the values written and their order. *)

From S2P Require Export Demo Gicv3.

Local Open Scope Z_scope.
Local Open Scope kernel_scope.

Definition CTL_ENABLE : Z := 1.
Definition CTL_IMASK : Z := 2.
Definition CTL_ISTATUS : Z := 4.

Section arch_timer.
Context {HW : Hardware}.
Implicit Types (w : world).

Definition get_frequency : M Z := mrs CNTFRQ_EL0.
Definition get_counter : M Z := mrs CNTPCT_EL0.
Definition set_timer_value (tval : Z) : M unit := msr CNTP_TVAL_EL0 tval.
Definition get_timer_value : M Z := tval <- mrs CNTP_TVAL_EL0 ;; ret (wrap U32 tval).
Definition set_compare_value (cval : Z) : M unit := msr CNTP_CVAL_EL0 cval.
Definition get_compare_value : M Z := mrs CNTP_CVAL_EL0.
Definition get_ctl : M Z := mrs CNTP_CTL_EL0.
Definition set_ctl (ctl : Z) : M unit := msr CNTP_CTL_EL0 ctl ;; barrier_ins Isb.

Definition enable : M unit := ctl <- get_ctl ;; set_ctl (Z.lor ctl CTL_ENABLE).
Definition disable : M unit := ctl <- get_ctl ;; set_ctl (Z.land ctl (unot U64 CTL_ENABLE)).
Definition mask_interrupt : M unit := ctl <- get_ctl ;; set_ctl (Z.lor ctl CTL_IMASK).
Definition unmask_interrupt : M unit :=
  ctl <- get_ctl ;; set_ctl (Z.land ctl (unot U64 CTL_IMASK)).
Definition is_pending : M bool :=
  ctl <- get_ctl ;; ret (negb (Z.land ctl CTL_ISTATUS =? 0)).

Definition arm (ticks : Z) : M unit :=
  set_timer_value ticks ;;
  set_ctl CTL_ENABLE.

Definition arm_ms (ms : Z) : M unit :=
  freq <- get_frequency ;;
  q <- udiv freq 1000 ;;
  ticks <- umul U64 q ms ;;
  arm (wrap U32 ticks).

Definition rearm (ticks : Z) : M unit := set_timer_value ticks.

(** The specifier loop: [interrupt_cells.min(4)] cells from [ns_offset] on. *)
Definition read_specifier (value ns_offset interrupt_cells : Z) : M (list Z) :=
  for_each (range (Z.min interrupt_cells MAX_INTERRUPT_CELLS))
    (replicate (Z.to_nat MAX_INTERRUPT_CELLS) 0) (fun interrupt_info i =>
      p <- ptr_add value ns_offset ;;
      off <- umul U32 i 4 ;;
      cell <- read_be_u32 p off ;;
      arr_set interrupt_info (Z.to_nat i) cell).

(** [#interrupt-cells] of the interrupt controller, 3 if absent. *)
Definition get_interrupt_cells (intc : PlatformDevice.t) : M Z :=
  cells_prop <- find_property intc "#interrupt-cells" ;;
  match cells_prop with
  | Some cells_prop => read_be_u32 (Property.value cells_prop) 0
  | None => ret 3
  end.

Definition configure_ppi (interrupt_info : list Z) : M unit :=
  irq_type <- arr_get interrupt_info 0 ;;
  if irq_type =? 1 then
    irq_number <- arr_get interrupt_info 1 ;;
    ppi_id <- uadd U32 16 irq_number ;;
    flags <- arr_get interrupt_info 2 ;;
    (if negb (Z.land flags 3 =? 0) then set_ppi_trigger_edge ppi_id
     else set_ppi_trigger_level ppi_id) ;;
    set_ppi_priority ppi_id 0 ;;
    set_ppi_group ppi_id ;;
    enable_ppi ppi_id
  else ret tt.

Definition setup (fuel : nat) (dev : PlatformDevice.t) : M unit :=
  int_prop <- find_property dev "interrupts" ;;
  match int_prop with
  | Some int_prop =>
      intc <- find_interrupt_parent fuel dev ;;
      match intc with
      | Some intc =>
          interrupt_cells <- get_interrupt_cells intc ;;
          ns_offset <- umul USIZE interrupt_cells 4 ;;
          interrupt_info <- read_specifier (Property.value int_prop) ns_offset interrupt_cells ;;
          configure_ppi interrupt_info
      | None => ret tt
      end
  | None => ret tt
  end.

(** ** Arming *)

Definition armed (ticks : Z) w : world :=
  log (Barrier Isb) (after_msr CNTP_CTL_EL0 CTL_ENABLE (after_msr CNTP_TVAL_EL0 ticks w)).

Lemma exec_arm ticks w : arm ticks w = Done tt (armed ticks w).
Proof. done. Qed.

Lemma exec_arm_ms ms w :
  let q := peek_reg CNTFRQ_EL0 w / 1000 in
  arm_ms ms w =
    if fitsb U64 (q * ms) then Done tt (armed (wrap U32 (q * ms)) (after_mrs CNTFRQ_EL0 w))
    else Panicked (after_mrs CNTFRQ_EL0 w).
Proof.
  intros q. unfold arm_ms, get_frequency. rewrite (bind_done _ _ _ _ _ (exec_mrs _ _)).
  rewrite (bind_done _ _ _ _ _ (exec_udiv _ 1000 _ ltac:(lia))).
  unfold bind, umul, checked. fold q. by destruct (fitsb U64 (q * ms)).
Qed.

(** ** Specifiers *)

(** The interrupt-info array after reading the cells [cs]. *)
Definition info_of (cs : list Z) : list Z := take 4 (cs ++ replicate 4 0).

Lemma info_of_step cs c : (length cs < 4)%nat -> <[length cs := c]> (info_of cs) = info_of (cs ++ [c]).
Proof.
  intros H. unfold info_of.
  do 4 (destruct cs as [| ? cs]; [reflexivity |]). simpl in H. lia.
Qed.

(** A loop that stores the cells of a specifier in [interrupt_info]. *)
Lemma exec_info_loop (body : list Z -> Z -> M (list Z)) cells w :
  (length cells <= 4)%nat ->
  (forall i c info, cells !! i = Some c -> length info = 4%nat ->
     body info (Z.of_nat i) w = Done (<[i := be_combine c]> info) w) ->
  for_each (range (Z.of_nat (length cells))) (replicate (Z.to_nat MAX_INTERRUPT_CELLS) 0) body w =
    Done (info_of (be_combine <$> cells)) w.
Proof.
  intros Hlen Hbody. unfold range. rewrite Nat2Z.id.
  enough (forall cs dc, cells = dc ++ cs ->
    for_each (Z.of_nat <$> seq (length dc) (length cs)) (info_of (be_combine <$> dc)) body w =
      Done (info_of (be_combine <$> cells)) w) as H by exact (H cells [] eq_refl).
  induction cs as [| c cs IH]; intros dc E; simpl.
  { by rewrite E, app_nil_r. }
  assert (length dc < 4)%nat as Hdc by (rewrite E, length_app in Hlen; simpl in Hlen; lia).
  assert (cells !! length dc = Some c) as Hi by (rewrite E; by apply list_lookup_middle).
  rewrite (bind_done _ _ _ (info_of (be_combine <$> (dc ++ [c]))) w).
  - replace (S (length dc)) with (length (dc ++ [c])) by (rewrite length_app; simpl; lia).
    apply IH. by rewrite <- app_assoc.
  - rewrite (Hbody _ c).
    + rewrite fmap_app. simpl.
      rewrite <- (length_fmap be_combine dc), info_of_step by (rewrite length_fmap; lia). done.
    + done.
    + unfold info_of. rewrite length_take, length_app, length_replicate. lia.
Qed.

(** One iteration: a readable cell is stored at its index. *)
Lemma exec_info_body p cells i c info w :
  cells_at (w_ram w) p cells -> cells !! i = Some c -> length info = 4%nat ->
  (length cells <= 4)%nat ->
  (off <- umul U32 (Z.of_nat i) 4 ;;
   cell <- read_be_u32 p off ;;
   arr_set info (Z.to_nat (Z.of_nat i)) cell) w = Done (<[i := be_combine c]> info) w.
Proof.
  intros (Hp & Hpf & Hc & Hram) Hi Hinfo Hlen. pose proof (lookup_lt_Some _ _ _ Hi).
  pose proof (ram_bytes_concat _ _ _ _ _ Hc Hram Hi) as Hb.
  assert (length c = 4%nat) as Hlc by (by eapply Forall_lookup in Hc).
  rewrite (bind_done _ _ _ (Z.of_nat i * 4) w) by (apply exec_umul; solve_fits).
  rewrite (bind_done _ _ _ (be_combine c) w).
  2:{ apply exec_read_be_u32; [unfold place_ok; lia | done | done]. }
  rewrite Nat2Z.id. apply exec_arr_set. lia.
Qed.

Lemma exec_read_specifier value ns cells w :
  cells_at (w_ram w) (value + ns) cells -> fits USIZE (value + ns) -> (length cells <= 4)%nat ->
  read_specifier value ns (Z.of_nat (length cells)) w = Done (info_of (be_combine <$> cells)) w.
Proof.
  intros Hat Hfit Hlen. unfold read_specifier.
  rewrite Z.min_l by (unfold MAX_INTERRUPT_CELLS; lia).
  apply exec_info_loop; [done |]. intros i c info Hi Hinfo.
  rewrite (bind_done _ _ _ _ _ (exec_ptr_add _ _ _ Hfit)). by apply (exec_info_body _ cells).
Qed.

Lemma exec_get_interrupt_cells intc n w :
  wf_device intc ->
  match first_named "#interrupt-cells" (valid_props intc) with
  | Some p => u32_at (w_ram w) (Property.value p) n
  | None => n = 3
  end ->
  get_interrupt_cells intc w = Done n w.
Proof.
  intros Hwf Hn. unfold get_interrupt_cells.
  rewrite (bind_done _ _ _ _ _ (exec_find_property intc _ w Hwf)).
  destruct (first_named _ _) as [p |]; [| by subst].
  apply exec_read_u32_at. by rewrite Z.add_0_r.
Qed.

(** ** Configuration of the PPI *)

(** Trigger, priority, group, and only then the enable bit. *)
Definition ppi_configured (g : GicState.t) (id : Z) (edge : bool) w : world :=
  bits_set (ppi_enable_reg g) (shl U32 1 id)
    (bits_set (ppi_group_reg g) (shl U32 1 id)
      (field_write (ppi_prio_reg g id) (id mod 4 * 8) 8 0
        (field_write (ppi_cfg_reg g id) (id mod 16 * 2) 2 (if edge then 2 else 0) w))).

Lemma exec_wrapper {A} (f : GicState.t -> M A) g w :
  w_gic w = g -> (x <- GIC ;; f x) w = f g w.
Proof. intros <-. done. Qed.

Lemma exec_configure_ppi w num flags rest :
  wf_gic (w_gic w) -> 0 <= num < 16 ->
  configure_ppi (1 :: num :: flags :: rest) w =
    Done tt (ppi_configured (w_gic w) (16 + num) (negb (Z.land flags 3 =? 0)) w).
Proof.
  intros Hg Hn. unfold configure_ppi. set (g := w_gic w) in *.
  rewrite (bind_done _ _ _ 1 w) by done. cbn [Z.eqb Pos.eqb].
  rewrite (bind_done _ _ _ num w) by done.
  rewrite (bind_done _ _ _ (16 + num) w) by (apply exec_uadd; solve_fits).
  rewrite (bind_done _ _ _ flags w) by done.
  assert (0 <= 16 + num < 32) as Hid by lia.
  set (edge := negb (Z.land flags 3 =? 0)).
  rewrite (bind_done _ _ _ tt (field_write (ppi_cfg_reg g (16 + num)) ((16 + num) mod 16 * 2) 2
    (if edge then 2 else 0) w)).
  2:{ destruct edge; unfold set_ppi_trigger_edge, set_ppi_trigger_level;
        rewrite (exec_wrapper _ g) by done;
        [by apply exec_set_ppi_trigger_edge | by apply exec_set_ppi_trigger_level]. }
  erewrite bind_done.
  2:{ unfold set_ppi_priority. rewrite (exec_wrapper _ g) by done. by apply exec_set_ppi_priority. }
  erewrite bind_done.
  2:{ unfold set_ppi_group. rewrite (exec_wrapper _ g) by done. by apply exec_set_ppi_group. }
  unfold enable_ppi. rewrite (exec_wrapper _ g) by done. by apply exec_enable_ppi.
Qed.

Lemma exec_configure_other info w t rest :
  info = t :: rest -> t <> 1 -> configure_ppi info w = Done tt w.
Proof.
  intros -> Ht. unfold configure_ppi. rewrite (bind_done _ _ _ t w) by done.
  by rewrite (proj2 (Z.eqb_neq t 1)).
Qed.

End arch_timer.

(** ** Theorems *)

(** C34: [arm_ms] writes [(CNTFRQ / 1000) * ms] modulo 2^32 to the timer value
    register, then enables the timer with its interrupt unmasked; it panics
    (having written nothing) exactly when that product does not fit 64 bits. *)
Theorem arm_ms_writes_ticks {HW : Hardware} ms (w : world) :
  fits U32 ms ->
  let freq := peek_reg CNTFRQ_EL0 w in
  let ticks := freq / 1000 * ms in
  (ticks < 2 ^ U64 ->
     exists w', arm_ms ms w = Done tt w' /\ same_kernel w w' /\
       w_trace w' = w_trace w ++
         [Mrs CNTFRQ_EL0 freq; Msr CNTP_TVAL_EL0 (ticks mod 2 ^ 32);
          Msr CNTP_CTL_EL0 1; Barrier Isb]) /\
  (2 ^ U64 <= ticks -> arm_ms ms w = Panicked (after_mrs CNTFRQ_EL0 w)).
Proof.
  intros Hms freq ticks. pose proof (peek_reg_fits CNTFRQ_EL0 w) as Hf. fold freq in Hf.
  assert (0 <= ticks) as H0.
  { unfold ticks, fits in *. apply Z.mul_nonneg_nonneg; [apply Z.div_pos |]; lia. }
  rewrite exec_arm_ms. fold freq. fold ticks. split; intros Ht.
  - rewrite fitsb_true by done. eexists. split; [done |]. split; [done |].
    simpl. by rewrite <- !app_assoc.
  - by rewrite fitsb_false by (unfold fits; lia).
Qed.

(** When the tick count fits 32 bits the programmed interval is [ms]
    milliseconds of the counter, short of it by at most 0.999 [ms] ticks (none
    when the frequency is a multiple of 1000 Hz). *)
Theorem arm_ms_accuracy {HW : Hardware} ms (w : world) :
  fits U32 ms ->
  let freq := peek_reg CNTFRQ_EL0 w in
  freq / 1000 * ms < 2 ^ U32 ->
  exists w' ticks,
    arm_ms ms w = Done tt w' /\
    Msr CNTP_TVAL_EL0 ticks ∈ w_trace w' /\
    1000 * ticks <= freq * ms <= 1000 * ticks + 999 * ms /\
    (freq mod 1000 = 0 -> 1000 * ticks = freq * ms).
Proof.
  intros Hms freq Hfit. pose proof (peek_reg_fits CNTFRQ_EL0 w) as Hf. fold freq in Hf.
  unfold fits in *. pose proof (Z.div_mod freq 1000 ltac:(lia)) as D.
  pose proof (Z.mod_pos_bound freq 1000 ltac:(lia)) as B.
  assert (0 <= freq / 1000) by (apply Z.div_pos; lia).
  assert (0 <= freq / 1000 * ms < 2 ^ 64).
  { unfold U32 in Hfit. split; [nia | lia]. }
  rewrite exec_arm_ms. fold freq. rewrite fitsb_true by (unfold fits, U64; lia).
  exists (armed (wrap U32 (freq / 1000 * ms)) (after_mrs CNTFRQ_EL0 w)), (freq / 1000 * ms).
  split; [done |]. split; [| split; nia].
  rewrite wrap_small by (unfold fits, U32 in *; lia). simpl. set_solver.
Qed.

(** The control operations change their own bit of CNTP_CTL and no other. *)
Theorem timer_ctl_bits {HW : Hardware} (w : world) :
  let ctl := peek_reg CNTP_CTL_EL0 w in
  let writes (c : M unit) (bit : Z) (b : bool) :=
    exists v, c w = Done tt (log (Barrier Isb) (after_msr CNTP_CTL_EL0 v (after_mrs CNTP_CTL_EL0 w))) /\
      forall i, 0 <= i -> Z.testbit v i = if i =? bit then b else Z.testbit ctl i in
  writes enable 0 true /\ writes disable 0 false /\
  writes mask_interrupt 1 true /\ writes unmask_interrupt 1 false.
Proof.
  intros ctl writes. pose proof (peek_reg_fits CNTP_CTL_EL0 w) as Hf. fold ctl in Hf.
  assert (forall c b i, 0 <= b < 64 -> 0 <= i -> c = 2 ^ b ->
            Z.testbit (Z.lor ctl c) i = if i =? b then true else Z.testbit ctl i) as Hor.
  { intros c b i Hb Hi ->. rewrite Z.lor_spec, testbit_pow2 by lia.
    destruct (i =? b); [apply orb_true_r | apply orb_false_r]. }
  assert (forall c b i, 0 <= b < 64 -> 0 <= i -> c = 2 ^ b ->
            Z.testbit (Z.land ctl (unot U64 c)) i = if i =? b then false else Z.testbit ctl i) as Hand.
  { intros c b i Hb Hi ->. rewrite Z.land_spec, unot_bits, testbit_pow2 by (unfold U64; lia).
    destruct (i =? b); simpl; [by rewrite !andb_false_r |].
    destruct (Z.ltb_spec i U64); simpl; [apply andb_true_r |].
    by rewrite (testbit_high U64 ctl) by done. }
  repeat split; (eexists; split; [reflexivity |]; intros i Hi);
    first [apply Hor | apply Hand]; done || lia.
Qed.

(** The accesses that configure PPI [id]: trigger, priority 0, Group 1, and
    the enable bit last. *)
Definition ppi_events (g : GicState.t) (id : Z) (edge : bool) (c p gr e : Z) : list event :=
  [Read32 (ppi_cfg_reg g id) c;
   Write32 (ppi_cfg_reg g id) (set_field c (id mod 16 * 2) 2 (if edge then 2 else 0)); Barrier DsbSy;
   Read32 (ppi_prio_reg g id) p;
   Write32 (ppi_prio_reg g id) (set_field p (id mod 4 * 8) 8 0); Barrier DsbSy;
   Read32 (ppi_group_reg g) gr; Write32 (ppi_group_reg g) (Z.lor gr (2 ^ id)); Barrier DsbSy;
   Read32 (ppi_enable_reg g) e; Write32 (ppi_enable_reg g) (Z.lor e (2 ^ id)); Barrier DsbSy].

Lemma ppi_configured_trace {HW : Hardware} g id edge (w : world) :
  0 <= id < 32 ->
  exists c p gr e, w_trace (ppi_configured g id edge w) = w_trace w ++ ppi_events g id edge c p gr e.
Proof.
  intros Hid. do 4 eexists. unfold ppi_configured, bits_set, field_write, after_rmw, after_write, after_read.
  assert (shl U32 1 id = 2 ^ id) as ->.
  { unfold shl. rewrite Z.shiftl_1_l. apply wrap_small. split; [lia |].
    apply Z.pow_lt_mono_r; unfold U32; lia. }
  cbn [w_trace log set_trace set_hw]. rewrite <- !app_assoc. reflexivity.
Qed.

(** What [setup] needs to find in the tree: a second interrupt specifier of
    [irq_type], number [num] and [flags]. *)
Record timer_node {HW : Hardware} (w : world) (dev : PlatformDevice.t) (irq_type num flags : Z) : Prop := {
  tn_dev : wf_device dev;
  tn_irq : exists val intc ip n first second rest more,
    first_named "interrupts" (valid_props dev) = Some ip /\
    interrupt_controller w val dev (Some intc) /\ wf_device intc /\
    match first_named "#interrupt-cells" (valid_props intc) with
    | Some p => u32_at (w_ram w) (Property.value p) n
    | None => n = 3
    end /\ 3 <= n <= 4 /\ n = Z.of_nat (length first) /\ n = Z.of_nat (length second) /\
    cells_at (w_ram w) (Property.value ip) (first ++ second ++ rest) /\
    be_combine <$> second = irq_type :: num :: flags :: more;
}.

Lemma timer_num_nonneg {HW : Hardware} w dev irq_type num flags :
  timer_node w dev irq_type num flags -> 0 <= num.
Proof.
  intros [_ (val & intc & ip & n & first & second & rest & more & H)].
  destruct H as (_ & _ & _ & _ & _ & _ & _ & _ & Hspec).
  assert (num ∈ be_combine <$> second) as Hin by (rewrite Hspec; set_solver).
  apply list_elem_of_fmap in Hin as (bs & -> & _). apply be_combine_bound.
Qed.

Lemma exec_timer_setup {HW : Hardware} fuel w dev irq_type num flags :
  timer_node w dev irq_type num flags -> (DtbTables.MAX_DEVICES <= fuel)%nat ->
  exists rest, setup fuel dev w = configure_ppi (irq_type :: num :: flags :: rest) w.
Proof.
  intros [Hwd (val & intc & ip & n & first & second & rest & more & H)] Hfuel.
  destruct H as (Hip & Hic & Hwi & Hn & Hn34 & Hl1 & Hl2 & Hat & Hspec).
  apply cells_at_app in Hat as [Hat1 Hat]. apply cells_at_app in Hat as [Hat _].
  assert (read_specifier (Property.value ip) (n * 4) n w =
            Done (info_of (irq_type :: num :: flags :: more)) w) as Hread.
  { rewrite <- Hspec. replace (n * 4) with (4 * Z.of_nat (length first)) by lia.
    rewrite Hl2. apply exec_read_specifier; [done | | lia].
    destruct Hat as (? & ? & _). unfold fits. lia. }
  exists (take 1 (more ++ [0; 0; 0; 0])). unfold setup.
  rewrite (bind_done _ _ _ _ _ (exec_find_property dev _ w Hwd)), Hip.
  rewrite (bind_done _ _ _ _ _ (exec_find_interrupt_parent fuel val dev _ w Hfuel Hic)).
  rewrite (bind_done _ _ _ _ _ (exec_get_interrupt_cells intc n w Hwi Hn)).
  rewrite (bind_done _ _ _ (n * 4) w) by (apply exec_umul; solve_fits).
  rewrite (bind_done _ _ _ _ _ Hread). by destruct more as [| ? more].
Qed.

Lemma exec_timer_setup_ppi {HW : Hardware} fuel w dev num flags :
  wf_gic (w_gic w) -> timer_node w dev 1 num flags -> (DtbTables.MAX_DEVICES <= fuel)%nat -> num < 16 ->
  exists w' c p gr e,
    setup fuel dev w = Done tt w' /\ same_kernel w w' /\
    w_trace w' = w_trace w ++ ppi_events (w_gic w) (16 + num) (negb (Z.land flags 3 =? 0)) c p gr e.
Proof.
  intros Hg Hn Hfuel Hnum. pose proof (timer_num_nonneg _ _ _ _ _ Hn).
  destruct (exec_timer_setup _ _ _ _ _ _ Hn Hfuel) as [rest E].
  destruct (ppi_configured_trace (w_gic w) (16 + num) (negb (Z.land flags 3 =? 0)) w ltac:(lia))
    as (c & p & gr & e & Htr).
  eexists _, c, p, gr, e. split; [rewrite E; by apply exec_configure_ppi |]. split; [done | exact Htr].
Qed.

(** C28: the timer's setup uses the second interrupt specifier of the node.  If
    it names a PPI below 16, PPI [16 + num] is configured in the redistributor:
    trigger mode from the flags, then priority 0, then Group 1, and the enable
    bit last; if it does not name a PPI nothing is written. *)
Theorem timer_setup_configures_ppi {HW : Hardware} fuel dev irq_type num flags (w : world) :
  wf_gic (w_gic w) -> timer_node w dev irq_type num flags -> (DtbTables.MAX_DEVICES <= fuel)%nat ->
  (irq_type = 1 -> num < 16 ->
     exists w' c p gr e,
       setup fuel dev w = Done tt w' /\ same_kernel w w' /\
       w_trace w' = w_trace w ++ ppi_events (w_gic w) (16 + num) (negb (Z.land flags 3 =? 0)) c p gr e) /\
  (irq_type <> 1 -> setup fuel dev w = Done tt w).
Proof.
  intros Hg Hn Hfuel. split.
  - intros -> Hnum. by apply exec_timer_setup_ppi.
  - intros Ht. destruct (exec_timer_setup _ _ _ _ _ _ Hn Hfuel) as [rest ->].
    by eapply exec_configure_other.
Qed.

(** ** Witnesses *)

(** A machine whose counter runs at 62.5 MHz. *)
Definition clocked : Hardware := regfile [].
Definition clocked_world (freq : Z) : @world clocked :=
  @boot_world clocked (mkRegfile ∅ [] (fun r => if decide (r = CNTFRQ_EL0) then freq else 0)) ∅.

Lemma arm_ms_writes_ticks_witness :
  (exists w', @arm_ms clocked 1000 (clocked_world 62500000) = Done tt w' /\
     Msr CNTP_TVAL_EL0 62500000 ∈ w_trace w') /\
  @arm_ms clocked (2 ^ 32 - 1) (clocked_world (2 ^ 63)) =
    Panicked (after_mrs CNTFRQ_EL0 (clocked_world (2 ^ 63))).
Proof.
  split.
  - destruct (arm_ms_writes_ticks 1000 (clocked_world 62500000) ltac:(solve_fits)) as [H _].
    destruct (H eq_refl) as (w' & E & _ & Htr). exists w'. split; [exact E |].
    rewrite Htr. set_solver.
  - apply (arm_ms_writes_ticks (2 ^ 32 - 1) (clocked_world (2 ^ 63)) ltac:(solve_fits)).
    vm_compute. discriminate.
Defined.

(** The board with the tables parsed and the GIC found. *)
Definition virt_ready : @world quiet := set_gic virt_gic (set_dtb virt_tables virt_quiet).

Definition timer_specs (i : nat) : list (list byte) :=
  take 3 (drop (3 * i) (be_split 4 <$> [1; 13; 0x104; 1; 14; 0x104; 1; 11; 0x104; 1; 10; 0x104])).

Lemma virt_timer_node {HW : Hardware} (w : world) :
  virt_ram ⊆ w_ram w -> w_dtb w = virt_tables -> timer_node w (virt_device 4) 1 14 0x104.
Proof.
  intros Er Ed. split; [exact (virt_device_wf 4) |].
  exists virt_val, (virt_device 3), (virt_property 4 "interrupts"), 3, (timer_specs 0), (timer_specs 1),
    (timer_specs 2 ++ timer_specs 3), [].
  split; [vm_compute; reflexivity |].
  split; [apply virt_interrupt_controller; [done | done | lia] |].
  split; [exact (virt_device_wf 3) |].
  split; [eapply u32_at_mono; [exact Er | by_decision] |]. split; [lia |].
  do 2 (split; [reflexivity |]). split; [| reflexivity].
  eapply cells_at_mono; [exact Er | unfold cells_at; by_decision].
Qed.

(** The virt board's timer: its second specifier is PPI 14, level triggered. *)
Lemma timer_setup_configures_ppi_witness :
  exists w' c p gr e, @ArchTimer.setup quiet 300 (virt_device 4) virt_ready = Done tt w' /\
    w_trace w' = ppi_events virt_gic 30 false c p gr e.
Proof.
  destruct (timer_setup_configures_ppi 300 (virt_device 4) 1 14 0x104 virt_ready virt_gic_wf
    (virt_timer_node virt_ready ltac:(reflexivity) eq_refl) ltac:(unfold DtbTables.MAX_DEVICES; lia))
    as [H _].
  destruct (H eq_refl eq_refl) as (w' & c & p & gr & e & E & _ & Htr).
  exists w', c, p, gr, e. split; [exact E | exact Htr].
Defined.
