(* ===== verification/Pl011.v ===== *)
(** * src/drivers/uart/pl011.rs: the PL011 driver

    The methods of [UartPl011], the static [UART] with its wrappers, the
    interrupt-driven receive side on top of [RxBuffer] and [IrqSafeMutex], the
    writer behind [print!], and the device-tree setup. *)

From S2P Require Export ArchTimer RxBuffer IrqSafeMutex.

Local Open Scope Z_scope.
Local Open Scope kernel_scope.

Definition EARLY_BASE : Z := 0x09000000.
Definition DR_OFF : Z := 0x00.
Definition FR_OFF : Z := 0x18.
Definition FR_BUSY : Z := 8.
Definition FR_TXFE : Z := 32.
Definition IBRD_OFF : Z := 0x24.
Definition FBRD_OFF : Z := 0x28.
Definition LCR_OFF : Z := 0x2c.
Definition LCR_FEN : Z := 16.
Definition LCR_STP2 : Z := 8.
Definition CR_OFF : Z := 0x30.
Definition CR_UARTEN : Z := 1.
Definition CR_RXEN : Z := 512.
Definition IMSC_OFF : Z := 0x38.
Definition IMSC_RXIM : Z := 16.
Definition ICR_OFF : Z := 0x44.
Definition ICR_RXIC : Z := 16.
Definition DMACR_OFF : Z := 0x48.

Section pl011.
Context {HW : Hardware}.
Import UartState.
Implicit Types (w : world) (self : UartState.t).

(** ** Methods *)

Definition init (base clock : Z) self : UartState.t :=
  mk base clock (baudrate self) (data_bits self) (stop_bits self).
Definition UartPl011_set_baudrate (baud : Z) self : UartState.t :=
  mk (base_addr self) (base_clock self) baud (data_bits self) (stop_bits self).
Definition UartPl011_set_data_bits (bits : Z) self : UartState.t :=
  mk (base_addr self) (base_clock self) (baudrate self) bits (stop_bits self).
Definition UartPl011_set_stop_bits (bits : Z) self : UartState.t :=
  mk (base_addr self) (base_clock self) (baudrate self) (data_bits self) bits.

Definition set_speed self : M unit :=
  c <- umul U32 4 (base_clock self) ;;
  baud_div <- udiv c (baudrate self) ;;
  write_mmio32 (base_addr self) IBRD_OFF (Z.land (Z.shiftr baud_div 6) 0xffff) ;;
  write_mmio32 (base_addr self) FBRD_OFF (Z.land baud_div 0x3f).

(** The line control value of step 5 and 6 of [configure]. *)
Definition lcr_value self : M Z :=
  d <- usub U32 (data_bits self) 1 ;;
  wlen <- ushl U32 (Z.land d 3) 5 ;;
  let lcr_val := Z.lor 0 wlen in
  let lcr_val := if stop_bits self =? 2 then Z.lor lcr_val LCR_STP2 else lcr_val in
  ret (Z.lor lcr_val LCR_FEN).

Definition configure (fuel : nat) self : M unit :=
  write_mmio32 (base_addr self) CR_OFF 0 ;;
  spin_while fuel (poll_bit (base_addr self) FR_OFF FR_BUSY) ;;
  clear_mmio_bits32 (base_addr self) LCR_OFF LCR_FEN ;;
  set_speed self ;;
  lcr_val <- lcr_value self ;;
  write_mmio32 (base_addr self) LCR_OFF lcr_val ;;
  set_mmio_bits32 (base_addr self) IMSC_OFF IMSC_RXIM ;;
  write_mmio32 (base_addr self) DMACR_OFF 0x01 ;;
  set_mmio_bits32 (base_addr self) CR_OFF (Z.lor CR_UARTEN CR_RXEN).

Definition console_base self : Z := if base_addr self =? 0 then EARLY_BASE else base_addr self.

Definition UartPl011_putchar (fuel : nat) self (c : Z) : M unit :=
  let base := console_base self in
  spin_while fuel (poll_bit base FR_OFF FR_TXFE) ;;
  write_mmio32 base DR_OFF c.

(** ** The static [UART] *)

Definition UART : M UartState.t := gets w_uart.

Definition init_uart (base clock : Z) : M unit :=
  modify (fun w => set_uart (init base clock (w_uart w)) w).
Definition set_baudrate (baud : Z) : M unit :=
  modify (fun w => set_uart (UartPl011_set_baudrate baud (w_uart w)) w).
Definition set_data_bits (bits : Z) : M unit :=
  modify (fun w => set_uart (UartPl011_set_data_bits bits (w_uart w)) w).
Definition set_stop_bits (bits : Z) : M unit :=
  modify (fun w => set_uart (UartPl011_set_stop_bits bits (w_uart w)) w).
Definition configure_uart (fuel : nat) : M unit := u <- UART ;; configure fuel u.
Definition putchar (fuel : nat) (c : Z) : M unit := u <- UART ;; UartPl011_putchar fuel u c.
Definition get_base_addr : M Z := u <- UART ;; ret (base_addr u).

(** ** Receiving *)

(** The place of the static [RX_BUFFER]. *)
Definition RX_BUFFER : place (Mutex.t UartBuffer.t) := mkPlace w_rx set_rx.

Definition getchar (fuel : nat) : M (option Z) := lock_irqsafe fuel RX_BUFFER pop.

(** ** Printing *)

Definition bytes_of (s : string) : list Z :=
  (fun c => Z.of_N (Ascii.N_of_ascii c)) <$> String.list_ascii_of_string s.

(** [UartWriter::write_str] *)
Fixpoint write_bytes (fuel : nat) (bs : list Z) : M unit :=
  match bs with [] => ret tt | c :: bs => putchar fuel c ;; write_bytes fuel bs end.

Definition write_str (fuel : nat) (s : string) : M unit := write_bytes fuel (bytes_of s).

(** [print!] of an already formatted text, and [println!]. *)
Definition print (fuel : nat) (s : string) : M unit := write_str fuel s.
Definition newline : string := String (Ascii.ascii_of_nat 10) EmptyString.
Definition println (fuel : nat) (s : string) : M unit := print fuel (s +:+ newline).

(** ** Setup from the device tree *)

Definition configure_spi (interrupt_info : list Z) : M unit :=
  irq_type <- arr_get interrupt_info 0 ;;
  if irq_type =? 0 then
    irq_number <- arr_get interrupt_info 1 ;;
    spi_id <- uadd U32 32 irq_number ;;
    flags <- arr_get interrupt_info 2 ;;
    (if negb (Z.land flags 3 =? 0) then set_spi_trigger_edge spi_id
     else set_spi_trigger_level spi_id) ;;
    set_spi_priority spi_id 0 ;;
    set_spi_group spi_id ;;
    set_spi_routing spi_id 0 ;;
    enable_spi spi_id
  else ret tt.

(** The specifier loop, without the offset of the timer's. *)
Definition read_first_specifier (value interrupt_cells : Z) : M (list Z) :=
  for_each (range (Z.min interrupt_cells MAX_INTERRUPT_CELLS))
    (replicate (Z.to_nat MAX_INTERRUPT_CELLS) 0) (fun interrupt_info i =>
      off <- umul U32 i 4 ;;
      cell <- read_be_u32 value off ;;
      arr_set interrupt_info (Z.to_nat i) cell).

(** The [interrupts] part of [setup]. *)
Definition setup_interrupt (fuel : nat) (dev : PlatformDevice.t) : M unit :=
  int_prop <- find_property dev "interrupts" ;;
  match int_prop with
  | Some int_prop =>
      intc <- find_interrupt_parent fuel dev ;;
      match intc with
      | Some intc =>
          interrupt_cells <- get_interrupt_cells intc ;;
          interrupt_info <- read_first_specifier (Property.value int_prop) interrupt_cells ;;
          configure_spi interrupt_info
      | None => ret tt
      end
  | None => ret tt
  end.

(** The [clocks] part of [setup]: the frequency, 0 if it is not found. *)
Definition clock_frequency (dev : PlatformDevice.t) : M Z :=
  clocks_prop <- find_property dev "clocks" ;;
  match clocks_prop with
  | Some clocks_prop =>
      phandle_id <- read_be_u32 (Property.value clocks_prop) 0 ;;
      clock_node <- find_device_by_phandle phandle_id ;;
      match clock_node with
      | Some clock_node =>
          freq_prop <- find_property clock_node "clock-frequency" ;;
          match freq_prop with
          | Some freq_prop => read_be_u32 (Property.value freq_prop) 0
          | None => ret 0
          end
      | None => ret 0
      end
  | None => ret 0
  end.

Definition setup (fuel : nat) (dev : PlatformDevice.t) : M unit :=
  cells <- get_parent_cells dev ;;
  let '(addr_cells, _) := cells in
  reg <- find_property dev "reg" ;;
  addr <- match reg with
          | Some reg_prop => read_address (Property.value reg_prop) addr_cells
          | None => ret 0
          end ;;
  setup_interrupt fuel dev ;;
  freq <- clock_frequency dev ;;
  init_uart addr freq ;;
  configure_uart fuel.

End pl011.

#[export] Instance RX_BUFFER_laws {HW : Hardware} : PlaceLaws RX_BUFFER.
Proof. split; try done. intros []; done. Qed.

(** ** Facts *)

Definition UART_SIZE : Z := 0x1000.

Ltac unfold_uart :=
  unfold DR_OFF, FR_OFF, IBRD_OFF, FBRD_OFF, LCR_OFF, CR_OFF, IMSC_OFF, ICR_OFF, DMACR_OFF,
    UART_SIZE, EARLY_BASE in *.

Ltac uart_side := unfold frame_ok, reg_ok, fits, U8, U16, U32, U64, USIZE in *; unfold_uart; lia.

#[local] Hint Extern 3 (fits _ _) => uart_side : exec.
#[local] Hint Extern 3 (reg_ok _) => uart_side : exec.
#[local] Hint Extern 3 (_ <= _ < _) => uart_side : exec.

Section pl011_facts.
Context {HW : Hardware}.
Import UartState.
Implicit Types (w : world) (self : UartState.t).

Definition wf_uart self : Prop := frame_ok (base_addr self) UART_SIZE.

(** The baud rate divisor, in 64ths. *)
Definition baud_div self : Z := 4 * base_clock self / baudrate self.

Definition speed_set self w : world :=
  after_write (base_addr self + FBRD_OFF) (Z.land (baud_div self) 0x3f)
    (after_write (base_addr self + IBRD_OFF) (Z.land (Z.shiftr (baud_div self) 6) 0xffff) w).

Lemma exec_set_speed self w :
  wf_uart self -> 0 <= base_clock self -> 4 * base_clock self < 2 ^ U32 -> baudrate self <> 0 ->
  set_speed self w = Done tt (speed_set self w).
Proof. intros Hu Hc Hc' Hb. unfold wf_uart in Hu. unfold set_speed. exec_run. Qed.

Definition lcr_bits self : Z :=
  Z.lor (let wlen := Z.lor 0 (shl U32 (Z.land (data_bits self - 1) 3) 5) in
         if stop_bits self =? 2 then Z.lor wlen LCR_STP2 else wlen) LCR_FEN.

Lemma exec_lcr_value self w :
  1 <= data_bits self < 256 -> lcr_value self w = Done (lcr_bits self) w.
Proof. intros Hd. unfold lcr_value. exec_run. Qed.

(** The world before [configure] enables the UART, after [n] busy answers. *)
Definition programmed (n : nat) self w : world :=
  let base := base_addr self in
  after_write (base + DMACR_OFF) 1
    (after_rmw (base + IMSC_OFF) (fun v => Z.lor v IMSC_RXIM)
      (after_write (base + LCR_OFF) (lcr_bits self)
        (speed_set self
          (after_rmw (base + LCR_OFF) (fun v => Z.land v (unot U32 LCR_FEN))
            (after_reads (base + FR_OFF) (S n) (after_write (base + CR_OFF) 0 w)))))).

(** The world it leaves. *)
Definition configured (n : nat) self w : world :=
  after_rmw (base_addr self + CR_OFF) (fun v => Z.lor v (Z.lor CR_UARTEN CR_RXEN))
    (programmed n self w).

Definition uart_config_ok self : Prop :=
  wf_uart self /\ 0 <= base_clock self /\ 4 * base_clock self < 2 ^ U32 /\
  0 < baudrate self /\ 1 <= data_bits self < 256.

Lemma exec_configure fuel n self w :
  uart_config_ok self ->
  busy_for (base_addr self + FR_OFF) FR_BUSY n (after_write (base_addr self + CR_OFF) 0 w) ->
  (n < fuel)%nat ->
  configure fuel self w = Done tt (configured n self w).
Proof.
  intros (Hu & Hc & Hc' & Hb & Hd) Hn Hf. pose proof Hu as Hf'. unfold wf_uart in Hf'.
  unfold configure. exec_step.
  erewrite bind_done by (apply poll_done; [uart_side | exact Hn | done]).
  exec_step.
  erewrite bind_done by (apply exec_set_speed; done || lia).
  erewrite bind_done by (by apply exec_lcr_value).
  repeat exec_step. rewrite exec_set_mmio_bits32 by uart_side. done.
Qed.

(** ** Transmission *)

Definition console_ok self : Prop := frame_ok (console_base self) UART_SIZE.

Lemma console_ok_early self : base_addr self = 0 -> console_ok self.
Proof. intros H. unfold console_ok, console_base. rewrite H. simpl. unfold EARLY_BASE. uart_side. Qed.

(** One byte: poll until the FIFO has room, then write it. *)
Definition sent (n : nat) (base c : Z) w : world :=
  after_write (base + DR_OFF) c (after_reads (base + FR_OFF) (S n) w).

Lemma exec_putchar fuel n c w :
  console_ok (w_uart w) ->
  busy_for (console_base (w_uart w) + FR_OFF) FR_TXFE n w -> (n < fuel)%nat ->
  putchar fuel c w = Done tt (sent n (console_base (w_uart w)) c w).
Proof.
  intros Hu Hn Hf. unfold console_ok in Hu. unfold putchar, UART, UartPl011_putchar.
  rewrite (bind_done _ _ _ _ _ (exec_gets _ _)).
  erewrite bind_done by (apply poll_done; [uart_side | exact Hn | done]).
  apply exec_write_mmio32. uart_side.
Qed.

(** The bytes written to a data register, in order. *)
Definition tx_of (base : Z) (t : list event) : list Z :=
  omap (fun e => match e with
                 | Write32 a v => if a =? base + DR_OFF then Some v else None
                 | _ => None
                 end) t.

Lemma tx_of_app base t1 t2 : tx_of base (t1 ++ t2) = tx_of base t1 ++ tx_of base t2.
Proof. apply omap_app. Qed.

Lemma tx_of_reads base a vs : tx_of base (Read32 a <$> vs) = [].
Proof. induction vs; done. Qed.

Lemma sent_same n base c w : same_kernel w (sent n base c w).
Proof. by transitivity (after_reads (base + FR_OFF) (S n) w); [apply after_reads_same |]. Qed.

Lemma sent_tx n base c w : tx_of base (w_trace (sent n base c w)) = tx_of base (w_trace w) ++ [c].
Proof.
  destruct (after_reads_trace (base + FR_OFF) (S n) w) as (vs & _ & Htr).
  unfold sent, after_write. cbn [w_trace log set_trace set_hw].
  rewrite Htr, !tx_of_app, tx_of_reads, app_nil_r. simpl. by rewrite Z.eqb_refl.
Qed.

(** The transmitter always makes room within [fuel] reads of the flag register. *)
Definition tx_drains (fuel : nat) (base : Z) : Prop := settles fuel (base + FR_OFF) FR_TXFE.

(** What printing does to the bus: reads of the flag register, writes of the
    data register. *)
Definition console_event (base : Z) (e : event) : Prop :=
  match e with
  | Read32 a _ => a = base + FR_OFF
  | Write32 a _ => a = base + DR_OFF
  | _ => False
  end.

Lemma sent_events n base c w :
  exists t, w_trace (sent n base c w) = w_trace w ++ t /\ Forall (console_event base) t.
Proof.
  destruct (after_reads_trace (base + FR_OFF) (S n) w) as (vs & _ & Htr).
  exists ((Read32 (base + FR_OFF) <$> vs) ++ [Write32 (base + DR_OFF) c]).
  unfold sent, after_write. cbn [w_trace log set_trace set_hw]. rewrite Htr, <- app_assoc.
  split; [done |]. apply Forall_app. split; [| by repeat constructor].
  apply Forall_fmap, Forall_true. done.
Qed.

Lemma exec_write_bytes fuel bs w :
  console_ok (w_uart w) -> tx_drains fuel (console_base (w_uart w)) ->
  exists w' t, write_bytes fuel bs w = Done tt w' /\ same_kernel w w' /\
    w_trace w' = w_trace w ++ t /\ Forall (console_event (console_base (w_uart w))) t /\
    tx_of (console_base (w_uart w)) t = bs.
Proof.
  intros Hu Hd. revert w Hu Hd. induction bs as [| c bs IH]; intros w Hu Hd.
  - exists w, []. by rewrite app_nil_r.
  - destruct (Hd w) as (n & Hf & Hn).
    set (w1 := sent n (console_base (w_uart w)) c w).
    pose proof (sent_same n (console_base (w_uart w)) c w) as Hsame. fold w1 in Hsame.
    pose proof Hsame as (_ & _ & _ & Euart & _).
    destruct (IH w1) as (w' & t & E & Hs & Htr & Hev & Htx); [by rewrite Euart.. |].
    rewrite Euart in Hev, Htx.
    destruct (sent_events n (console_base (w_uart w)) c w) as (t1 & Htr1 & Hev1). fold w1 in Htr1.
    exists w', (t1 ++ t). split; [| split; [by transitivity w1 | split; [| split]]].
    + simpl. rewrite (bind_done _ _ _ tt w1) by by apply exec_putchar. done.
    + by rewrite Htr, Htr1, app_assoc.
    + by apply Forall_app.
    + pose proof (sent_tx n (console_base (w_uart w)) c w) as Hc. fold w1 in Hc.
      rewrite Htr1, tx_of_app in Hc. apply app_inv_head in Hc.
      by rewrite tx_of_app, Hc, Htx.
Qed.

(** ** SPI configuration *)

(** Trigger, priority, group, routing, and only then the enable bit. *)
Definition spi_configured (g : GicState.t) (id : Z) (edge : bool) w : world :=
  log (Barrier DsbSy) (after_write (spi_enable_reg g id) (shl U32 1 (id mod 32))
    (log (Barrier DsbSy) (after_write64 (spi_route_reg g id) 0
      (bits_set (spi_group_reg g id) (shl U32 1 (id mod 32))
        (field_write (spi_prio_reg g id) (id mod 4 * 8) 8 0
          (field_write (spi_cfg_reg g id) (id mod 16 * 2) 2 (if edge then 2 else 0) w)))))).

Lemma exec_configure_spi w num flags rest :
  wf_gic (w_gic w) -> 0 <= num < 992 ->
  configure_spi (0 :: num :: flags :: rest) w =
    Done tt (spi_configured (w_gic w) (32 + num) (negb (Z.land flags 3 =? 0)) w).
Proof.
  intros Hg Hn. unfold configure_spi. set (g := w_gic w) in *.
  rewrite (bind_done _ _ _ 0 w) by done. cbn [Z.eqb].
  rewrite (bind_done _ _ _ num w) by done.
  rewrite (bind_done _ _ _ (32 + num) w) by (apply exec_uadd; solve_fits).
  rewrite (bind_done _ _ _ flags w) by done.
  assert (0 <= 32 + num < 1024) as Hid by lia.
  set (edge := negb (Z.land flags 3 =? 0)).
  rewrite (bind_done _ _ _ tt (field_write (spi_cfg_reg g (32 + num)) ((32 + num) mod 16 * 2) 2
    (if edge then 2 else 0) w)).
  2:{ destruct edge; unfold set_spi_trigger_edge, set_spi_trigger_level;
        rewrite (exec_wrapper _ g) by done;
        [by apply exec_set_spi_trigger_edge | by apply exec_set_spi_trigger_level]. }
  erewrite bind_done.
  2:{ unfold set_spi_priority. rewrite (exec_wrapper _ g) by done. by apply exec_set_spi_priority. }
  erewrite bind_done.
  2:{ unfold set_spi_group. rewrite (exec_wrapper _ g) by done. by apply exec_set_spi_group. }
  erewrite bind_done.
  2:{ unfold set_spi_routing. rewrite (exec_wrapper _ g) by done. by apply exec_set_spi_routing. }
  unfold enable_spi. rewrite (exec_wrapper _ g) by done. by apply exec_enable_spi.
Qed.

Lemma exec_configure_spi_other info w t rest :
  info = t :: rest -> t <> 0 -> configure_spi info w = Done tt w.
Proof.
  intros -> Ht. unfold configure_spi. rewrite (bind_done _ _ _ t w) by done.
  by rewrite (proj2 (Z.eqb_neq t 0)).
Qed.

(** The accesses of [configure] between its two writes of CR, in order. *)
Definition program_events self (polls : list Z) (lcr imsc : Z) : list event :=
  let base := base_addr self in
  (Read32 (base + FR_OFF) <$> polls) ++
  [Read32 (base + LCR_OFF) lcr; Write32 (base + LCR_OFF) (Z.land lcr (unot U32 LCR_FEN));
   Write32 (base + IBRD_OFF) (Z.land (Z.shiftr (baud_div self) 6) 0xffff);
   Write32 (base + FBRD_OFF) (Z.land (baud_div self) 0x3f);
   Write32 (base + LCR_OFF) (lcr_bits self);
   Read32 (base + IMSC_OFF) imsc; Write32 (base + IMSC_OFF) (Z.lor imsc IMSC_RXIM);
   Write32 (base + DMACR_OFF) 1].

(** The accesses of [configure], in order. *)
Definition configure_events self (polls : list Z) (lcr imsc cr : Z) : list event :=
  let base := base_addr self in
  [Write32 (base + CR_OFF) 0] ++ (Read32 (base + FR_OFF) <$> polls) ++
  [Read32 (base + LCR_OFF) lcr; Write32 (base + LCR_OFF) (Z.land lcr (unot U32 LCR_FEN));
   Write32 (base + IBRD_OFF) (Z.land (Z.shiftr (baud_div self) 6) 0xffff);
   Write32 (base + FBRD_OFF) (Z.land (baud_div self) 0x3f);
   Write32 (base + LCR_OFF) (lcr_bits self);
   Read32 (base + IMSC_OFF) imsc; Write32 (base + IMSC_OFF) (Z.lor imsc IMSC_RXIM);
   Write32 (base + DMACR_OFF) 1;
   Read32 (base + CR_OFF) cr; Write32 (base + CR_OFF) (Z.lor cr 0x201)].

Lemma programmed_trace n self w :
  exists polls lcr imsc, length polls = S n /\
    w_trace (programmed n self w) =
      w_trace w ++ Write32 (base_addr self + CR_OFF) 0 :: program_events self polls lcr imsc.
Proof.
  unfold programmed, program_events. set (base := base_addr self).
  set (w1 := after_write (base + CR_OFF) 0 w).
  destruct (after_reads_trace (base + FR_OFF) (S n) w1) as (polls & Hl & Htr).
  exists polls. do 2 eexists. split; [done |].
  unfold speed_set, after_rmw, after_write, after_read. fold base.
  cbn [w_trace log set_trace set_hw]. rewrite Htr. unfold w1 at 1.
  cbn [w_trace after_write log set_trace set_hw].
  rewrite <- !app_assoc. reflexivity.
Qed.

Lemma configured_trace n self w :
  exists polls lcr imsc cr, length polls = S n /\
    w_trace (configured n self w) = w_trace w ++ configure_events self polls lcr imsc cr.
Proof.
  destruct (programmed_trace n self w) as (polls & lcr & imsc & Hl & Htr).
  exists polls, lcr, imsc, (peek32 (base_addr self + CR_OFF) (programmed n self w)).
  split; [done |]. unfold configured, after_rmw, after_write, after_read.
  cbn [w_trace log set_trace set_hw]. rewrite Htr. unfold program_events, configure_events.
  rewrite <- !app_assoc. simpl. by rewrite <- app_assoc.
Qed.

Lemma configured_same n self w : same_kernel w (configured n self w).
Proof.
  exact (after_reads_same (base_addr self + FR_OFF) (S n)
    (after_write (base_addr self + CR_OFF) 0 w)).
Qed.

Lemma exec_read_first_specifier value cells w :
  cells_at (w_ram w) value cells -> (length cells <= 4)%nat ->
  read_first_specifier value (Z.of_nat (length cells)) w = Done (info_of (be_combine <$> cells)) w.
Proof.
  intros Hat Hlen. unfold read_first_specifier.
  rewrite Z.min_l by (unfold MAX_INTERRUPT_CELLS; lia).
  apply exec_info_loop; [done |]. intros i c info Hi Hinfo. by apply (exec_info_body _ cells).
Qed.

Lemma exec_clock_frequency dev clocks ph node fp freq w :
  wf_tables (w_dtb w) -> wf_device dev -> wf_device node ->
  first_named "clocks" (valid_props dev) = Some clocks ->
  u32_at (w_ram w) (Property.value clocks) ph ->
  device_of_phandle (w_dtb w) ph = Some node ->
  first_named "clock-frequency" (valid_props node) = Some fp ->
  u32_at (w_ram w) (Property.value fp) freq ->
  clock_frequency dev w = Done freq w.
Proof.
  intros Hwf Hd Hnode Hcl Hph Hdev Hfp Hfr. unfold clock_frequency.
  rewrite (bind_done _ _ _ _ _ (exec_find_property dev _ w Hd)), Hcl.
  rewrite (bind_done _ _ _ ph w) by (apply exec_read_u32_at; by rewrite Z.add_0_r).
  rewrite (bind_done _ _ _ _ _ (exec_find_device_by_phandle ph w Hwf)), Hdev.
  rewrite (bind_done _ _ _ _ _ (exec_find_property node _ w Hnode)), Hfp.
  apply exec_read_u32_at. by rewrite Z.add_0_r.
Qed.

(** The accesses that configure an SPI, in order. *)
Definition spi_events (g : GicState.t) (id : Z) (edge : bool) (c p gr : Z) : list event :=
  [Read32 (spi_cfg_reg g id) c;
   Write32 (spi_cfg_reg g id) (set_field c (id mod 16 * 2) 2 (if edge then 2 else 0));
   Barrier DsbSy;
   Read32 (spi_prio_reg g id) p;
   Write32 (spi_prio_reg g id) (set_field p (id mod 4 * 8) 8 0); Barrier DsbSy;
   Read32 (spi_group_reg g id) gr;
   Write32 (spi_group_reg g id) (Z.lor gr (2 ^ (id mod 32))); Barrier DsbSy;
   Write64 (spi_route_reg g id) 0; Barrier DsbSy;
   Write32 (spi_enable_reg g id) (2 ^ (id mod 32)); Barrier DsbSy].

Lemma spi_configured_trace g id edge w :
  exists c p gr,
    w_trace (spi_configured g id edge w) = w_trace w ++ spi_events g id edge c p gr.
Proof.
  do 3 eexists. unfold spi_configured, spi_events, bits_set, field_write, after_rmw,
    after_write64, after_write, after_read.
  assert (shl U32 1 (id mod 32) = 2 ^ (id mod 32)) as ->.
  { pose proof (Z.mod_pos_bound id 32 ltac:(lia)).
    unfold shl. rewrite Z.shiftl_1_l. apply wrap_small. split; [lia |].
    apply Z.pow_lt_mono_r; unfold U32; lia. }
  cbn [w_trace log set_trace set_hw]. rewrite <- !app_assoc. reflexivity.
Qed.

(** What [setup] needs to find in the tree: the node's base address, its SPI
    and its clock. *)
Record uart_node w (dev : PlatformDevice.t) (addr num flags freq : Z) : Prop := {
  un_dev : wf_device dev;
  un_tables : wf_tables (w_dtb w);
  un_reg : exists ac sc reg cells rest,
    get_parent_cells dev w = Done (ac, sc) w /\
    first_named "reg" (valid_props dev) = Some reg /\
    cells_at (w_ram w) (Property.value reg) (cells ++ rest) /\
    ac = Z.of_nat (length cells) /\ addr = wrap U64 (be_combine (concat cells));
  un_irq : exists val intc ip n cells rest more,
    first_named "interrupts" (valid_props dev) = Some ip /\
    interrupt_controller w val dev (Some intc) /\ wf_device intc /\
    match first_named "#interrupt-cells" (valid_props intc) with
    | Some p => u32_at (w_ram w) (Property.value p) n
    | None => n = 3
    end /\ 3 <= n <= 4 /\ n = Z.of_nat (length cells) /\
    cells_at (w_ram w) (Property.value ip) (cells ++ rest) /\
    be_combine <$> cells = 0 :: num :: flags :: more;
  un_clock : exists clocks ph node fp,
    wf_device node /\ first_named "clocks" (valid_props dev) = Some clocks /\
    u32_at (w_ram w) (Property.value clocks) ph /\
    device_of_phandle (w_dtb w) ph = Some node /\
    first_named "clock-frequency" (valid_props node) = Some fp /\
    u32_at (w_ram w) (Property.value fp) freq;
}.

Lemma exec_setup_interrupt fuel w dev addr num flags freq :
  uart_node w dev addr num flags freq -> (DtbTables.MAX_DEVICES <= fuel)%nat ->
  wf_gic (w_gic w) -> num < 992 ->
  setup_interrupt fuel dev w =
    Done tt (spi_configured (w_gic w) (32 + num) (negb (Z.land flags 3 =? 0)) w).
Proof.
  intros [Hwd _ _ Hirq _] Hfuel Hg Hnum.
  destruct Hirq as (val & intc & ip & n & cells & rest & more & Hip & Hic & Hwi & Hn & Hn34 & Hl & Hat & Hspec).
  apply cells_at_app in Hat as [Hat _]. unfold setup_interrupt.
  rewrite (bind_done _ _ _ _ _ (exec_find_property dev _ w Hwd)), Hip.
  rewrite (bind_done _ _ _ _ _ (exec_find_interrupt_parent fuel val dev _ w Hfuel Hic)).
  rewrite (bind_done _ _ _ _ _ (exec_get_interrupt_cells intc n w Hwi Hn)). rewrite Hl.
  rewrite (bind_done _ _ _ _ _ (exec_read_first_specifier _ cells w Hat ltac:(lia))), Hspec.
  assert (0 <= num).
  { assert (num ∈ be_combine <$> cells) as Hin by (rewrite Hspec; set_solver).
    apply list_elem_of_fmap in Hin as (bs & -> & _). apply be_combine_bound. }
  change (info_of (0 :: num :: flags :: more))
    with (0 :: num :: flags :: take 1 (more ++ [0; 0; 0; 0])).
  by apply exec_configure_spi.
Qed.

Lemma uart_node_hw w w' dev addr num flags freq :
  w_ram w' = w_ram w -> w_dtb w' = w_dtb w ->
  uart_node w dev addr num flags freq -> clock_frequency dev w' = Done freq w'.
Proof.
  intros Er Ed [Hwd Ht _ _ Hcl]. destruct Hcl as (clocks & ph & node & fp & H1 & H2 & H3 & H4 & H5 & H6).
  by eapply exec_clock_frequency; rewrite ?Er, ?Ed.
Qed.

Lemma exec_setup fuel k w dev addr num flags freq :
  uart_node w dev addr num flags freq -> (DtbTables.MAX_DEVICES <= fuel)%nat ->
  wf_gic (w_gic w) -> num < 992 ->
  let u := init addr freq (w_uart w) in
  uart_config_ok u ->
  let w1 := set_uart u (spi_configured (w_gic w) (32 + num) (negb (Z.land flags 3 =? 0)) w) in
  busy_for (addr + FR_OFF) FR_BUSY k (after_write (addr + CR_OFF) 0 w1) -> (k < fuel)%nat ->
  setup fuel dev w = Done tt (configured k u w1).
Proof.
  intros Hun Hfuel Hg Hnum u Hok w1 Hb Hk. unfold setup.
  pose proof (exec_setup_interrupt fuel w dev addr num flags freq Hun Hfuel Hg Hnum) as Hirq.
  pose proof Hun as [Hwd _ Hreg _ _].
  destruct Hreg as (ac & sc & reg & cells & rest & Hcells & Hreg & Hat & Hac & Haddr).
  apply cells_at_app in Hat as [Hat _].
  rewrite (bind_done _ _ _ _ _ Hcells).
  rewrite (bind_done _ _ _ _ _ (exec_find_property dev _ w Hwd)), Hreg.
  rewrite (bind_done _ _ _ _ _ (exec_read_address _ ac cells w Hac Hat)), <- Haddr.
  rewrite (bind_done _ _ _ _ _ Hirq).
  set (w2 := spi_configured _ _ _ _) in *.
  rewrite (bind_done _ _ _ freq w2) by (by eapply (uart_node_hw w w2)).
  rewrite (bind_done _ _ _ tt w1) by done.
  unfold configure_uart, UART. rewrite (bind_done _ _ _ _ _ (exec_gets _ _)).
  by apply (exec_configure fuel k u w1).
Qed.

End pl011_facts.

(** ** Theorems *)

Section pl011_theorems.
Import UartState.
Implicit Types (self : UartState.t).

(** C35: [set_speed] writes the integer part of [4 * clock / baud] 64ths to IBRD
    and the fraction to FBRD.  When the divisor fits the 16.6 format the two
    registers hold exactly [clock / (16 * baud)] rounded down to a 64th; when
    [4 * clock] does not fit 32 bits, or the baud rate is 0, it panics. *)
Theorem set_speed_divisor {HW : Hardware} self (w : world) :
  wf_uart self -> fits U32 (base_clock self) -> fits U32 (baudrate self) ->
  (4 * base_clock self < 2 ^ U32 -> baudrate self <> 0 ->
     exists w' ibrd fbrd,
       set_speed self w = Done tt w' /\ same_kernel w w' /\
       w_trace w' = w_trace w ++
         [Write32 (base_addr self + IBRD_OFF) ibrd; Write32 (base_addr self + FBRD_OFF) fbrd] /\
       fits 16 ibrd /\ fits 6 fbrd /\
       (4 * base_clock self / baudrate self < 2 ^ 22 ->
          (64 * ibrd + fbrd) * baudrate self <= 4 * base_clock self
            < (64 * ibrd + fbrd + 1) * baudrate self)) /\
  (2 ^ U32 <= 4 * base_clock self -> set_speed self w = Panicked w) /\
  (4 * base_clock self < 2 ^ U32 -> baudrate self = 0 -> set_speed self w = Panicked w).
Proof.
  intros Hu Hc Hb. unfold fits in Hc, Hb. split; [| split].
  - intros Hc' Hb0. eexists _, _, _. split; [apply exec_set_speed; done || lia |].
    split; [done |]. split; [simpl; by rewrite list_app_snoc |].
    change 0xffff with (Z.ones 16). change 0x3f with (Z.ones 6).
    rewrite !Z.land_ones, Z.shiftr_div_pow2 by lia.
    split; [apply Z.mod_pos_bound; lia |]. split; [apply Z.mod_pos_bound; lia |].
    intros Hsmall. fold (baud_div self) in Hsmall.
    assert (0 <= baud_div self) by (apply Z.div_pos; lia).
    rewrite (Z.mod_small (baud_div self / 2 ^ 6)).
    2:{ split; [apply Z.div_pos; lia | apply Z.div_lt_upper_bound; lia]. }
    change (2 ^ 6) with 64. rewrite <- Z.div_mod by lia. unfold baud_div.
    pose proof (Z.div_mod (4 * base_clock self) (baudrate self) Hb0).
    pose proof (Z.mod_pos_bound (4 * base_clock self) (baudrate self)). nia.
  - intros Hc'. unfold set_speed. apply bind_panicked. apply checked_panics. unfold fits. lia.
  - intros Hc' Hb0. unfold set_speed.
    rewrite (bind_done _ _ _ _ _ (exec_umul U32 4 (base_clock self) w ltac:(unfold fits; lia))).
    apply bind_panicked. by rewrite Hb0.
Qed.

(** The line control value encodes the frame format: word length
    [data_bits - 5] in bits 5 and 6, the second stop bit in bit 3, FIFOs on
    (bit 4), everything else 0. *)
Theorem lcr_encodes_format self :
  5 <= data_bits self <= 8 -> 1 <= stop_bits self <= 2 ->
  field (lcr_bits self) 5 2 = data_bits self - 5 /\
  Z.testbit (lcr_bits self) 3 = (stop_bits self =? 2) /\
  Z.testbit (lcr_bits self) 4 = true /\
  Z.land (lcr_bits self) (unot U32 0x78) = 0.
Proof.
  intros Hd Hs. unfold lcr_bits.
  assert (data_bits self = 5 \/ data_bits self = 6 \/ data_bits self = 7 \/ data_bits self = 8)
    as Hd' by lia.
  assert (stop_bits self = 1 \/ stop_bits self = 2) as Hs' by lia.
  destruct Hd' as [-> | [-> | [-> | ->]]], Hs' as [-> | ->]; repeat split; reflexivity.
Qed.

(** [configure] performs the PL011 programming sequence in order: UART off,
    wait until idle, FIFOs off, divisor, frame format, receive interrupt
    unmasked, DMACR written, and the UART enabled last.  It waits exactly as
    long as the hardware reports busy. *)
Theorem configure_sequence {HW : Hardware} fuel n self (w : world) :
  uart_config_ok self ->
  let base := base_addr self in
  busy_for (base + FR_OFF) FR_BUSY n (after_write (base + CR_OFF) 0 w) -> (n < fuel)%nat ->
  exists w' polls lcr imsc cr,
    configure fuel self w = Done tt w' /\ same_kernel w w' /\ length polls = S n /\
    w_trace w' = w_trace w ++ configure_events self polls lcr imsc cr.
Proof.
  intros Hok base Hn Hf. destruct (configured_trace n self w) as (polls & lcr & imsc & cr & Hl & Htr).
  exists (configured n self w), polls, lcr, imsc, cr.
  split; [by apply exec_configure |]. split; [apply configured_same | done].
Qed.

(** The control register of the PL011 (DDI 0183): the bits that are implemented
    and read as written. *)
Definition CR_BITS : Z := 0xFF87.
Definition CR_TXE_BIT : Z := 8.

Definition in_frame (base a : Z) : Prop := base <= a < base + UART_SIZE.

(** No write of the register at [a]. *)
Definition not_written (a : Z) (e : event) : Prop :=
  match e with Write32 a' _ | Write64 a' _ => a' <> a | _ => True end.

Lemma program_events_skip_cr self polls lcr imsc :
  Forall (not_written (base_addr self + CR_OFF)) (program_events self polls lcr imsc).
Proof.
  unfold program_events. apply Forall_app. split; [by apply Forall_fmap, Forall_true |].
  repeat constructor; simpl; unfold_uart; lia.
Qed.

(** [configure] writes CR before [programmed] and not again until its end. *)
Lemma held_programmed {HW : Hardware} self n mask (w : world)
    {HB : HeldBits HW (in_frame (base_addr self)) (base_addr self + CR_OFF) mask} :
  held (w_hw (programmed n self w)) = 0.
Proof.
  unfold programmed, speed_set. set (base := base_addr self) in *.
  rewrite !held_other, held_rmw, !held_other, held_rmw, held_reads
    by (unfold in_frame, base; unfold_uart; lia).
  apply held_write.
Qed.

(** C36: [configure] never turns the transmitter on.  It zeroes CR first, does
    not write it again until its last access, and that writes the value it
    reads back with UARTEN and RXEN (0x201) added: transmit enable (bit 8) stays as
    read.  So on a control register whose implemented bits hold what is written
    to them, the UART ends with the transmitter disabled. *)
Theorem configure_leaves_tx_disabled {HW : Hardware} fuel n self (w : world) :
  uart_config_ok self ->
  let CR := base_addr self + CR_OFF in
  busy_for (base_addr self + FR_OFF) FR_BUSY n (after_write CR 0 w) -> (n < fuel)%nat ->
  exists w' t cr cr',
    configure fuel self w = Done tt w' /\
    w_trace w' = w_trace w ++ [Write32 CR 0] ++ t ++ [Read32 CR cr; Write32 CR cr'] /\
    Forall (not_written CR) t /\
    cr' = Z.lor cr 0x201 /\ Z.testbit cr' CR_TXE_BIT = Z.testbit cr CR_TXE_BIT /\
    (HeldBits HW (in_frame (base_addr self)) CR CR_BITS ->
       Z.land cr' CR_BITS = 0x201 /\ Z.testbit cr' CR_TXE_BIT = false).
Proof.
  intros Hok CR Hn Hf. destruct (programmed_trace n self w) as (polls & lcr & imsc & Hl & Htr).
  set (cr := peek32 CR (programmed n self w)).
  exists (configured n self w), (program_events self polls lcr imsc), cr, (Z.lor cr 0x201).
  assert (Z.testbit (Z.lor cr 0x201) CR_TXE_BIT = Z.testbit cr CR_TXE_BIT) as Hbit
    by (by rewrite Z.lor_spec, orb_false_r).
  split; [by apply exec_configure |]. split.
  { unfold configured, after_rmw, after_write, after_read. cbn [w_trace log set_trace set_hw].
    rewrite Htr, <- !app_assoc. done. }
  split; [apply program_events_skip_cr |]. split; [done |]. split; [done |].
  intros HB. assert (Z.land cr CR_BITS = 0) as Hcr.
  { unfold cr. rewrite held_peek. apply held_programmed. }
  split; [by rewrite Z.land_lor_distr_l, Hcr |]. rewrite Hbit.
  change (Z.testbit cr CR_TXE_BIT) with (Z.testbit cr 8).
  apply (f_equal (fun z => Z.testbit z 8)) in Hcr. rewrite Z.land_spec, Z.bits_0 in Hcr.
  by rewrite andb_true_r in Hcr.
Qed.

(** [write_str] (and so [print!]) transmits the bytes of the string, all of
    them, in order, each once, and returns, on a transmitter that makes room
    within the polls allowed; before the driver is set up they go to the early
    console. *)
Theorem write_str_transmits {HW : Hardware} fuel s (w : world) :
  console_ok (w_uart w) -> tx_drains fuel (console_base (w_uart w)) ->
  exists w', write_str fuel s w = Done tt w' /\ same_kernel w w' /\
    tx_of (console_base (w_uart w)) (w_trace w') =
      tx_of (console_base (w_uart w)) (w_trace w) ++ bytes_of s.
Proof.
  intros Hu Hd. destruct (exec_write_bytes fuel (bytes_of s) w Hu Hd) as (w' & t & E & Hs & Htr & _ & Htx).
  exists w'. split; [exact E |]. split; [exact Hs |]. by rewrite Htr, tx_of_app, Htx.
Qed.

Lemma exec_getchar {HW : Hardware} fuel (w : world) :
  Mutex.lock (w_rx w) = false -> wf (Mutex.data (w_rx w)) ->
  exists w', getchar (S fuel) w = Done (fst (Fifo.pop (contents (Mutex.data (w_rx w))))) w' /\
    Mutex.lock (w_rx w') = false /\ wf (Mutex.data (w_rx w')) /\
    contents (Mutex.data (w_rx w')) = snd (Fifo.pop (contents (Mutex.data (w_rx w)))) /\
    w_trace w' = w_trace w ++
      [Mrs DAIF (peek_reg DAIF w); DaifSet 2; Msr DAIF (peek_reg DAIF w)] /\
    w_ram w' = w_ram w /\ w_dtb w' = w_dtb w /\ w_gic w' = w_gic w /\ w_uart w' = w_uart w.
Proof.
  intros Hl Hwf. set (rx := Mutex.data (w_rx w)) in *.
  assert (forall r rx', pop rx (acquired RX_BUFFER (irqs_off w)) =
            Done (r, rx') (acquired RX_BUFFER (irqs_off w)) ->
          getchar (S fuel) w = Done r (after_msr DAIF (peek_reg DAIF w)
            (released RX_BUFFER rx' (acquired RX_BUFFER (irqs_off w))))) as Hexec.
  { intros r rx' E. unfold getchar. by apply exec_lock_irqsafe. }
  pose proof (exec_pop rx (acquired RX_BUFFER (irqs_off w)) Hwf) as E.
  destruct (Nat.eqb_spec (used rx) 0) as [Hu | Hu].
  - assert (contents rx = []) as Hc by (apply nil_length_inv; by rewrite length_contents).
    eexists. split; [rewrite Hc; exact (Hexec _ _ E) |].
    simpl. rewrite Hc, <- !app_assoc. done.
  - rewrite (contents_popped rx) by done.
    eexists. split; [exact (Hexec _ _ E) |].
    simpl. rewrite <- !app_assoc. split; [done |]. split; [by apply wf_popped |]. done.
Qed.

(** [getchar] takes the oldest waiting byte (or none), with interrupts
    masked while the lock is held: it ends with the buffer unlocked and well
    formed, the byte removed, and DAIF written back with the value read;
    nothing else in the kernel's state changes. *)
Theorem getchar_takes_oldest {HW : Hardware} fuel (w : world) :
  Mutex.lock (w_rx w) = false -> wf (Mutex.data (w_rx w)) ->
  exists w', getchar (S fuel) w = Done (fst (Fifo.pop (contents (Mutex.data (w_rx w))))) w' /\
    Mutex.lock (w_rx w') = false /\ wf (Mutex.data (w_rx w')) /\
    contents (Mutex.data (w_rx w')) = snd (Fifo.pop (contents (Mutex.data (w_rx w)))) /\
    w_trace w' = w_trace w ++
      [Mrs DAIF (peek_reg DAIF w); DaifSet 2; Msr DAIF (peek_reg DAIF w)] /\
    w_ram w' = w_ram w /\ w_dtb w' = w_dtb w /\ w_gic w' = w_gic w /\ w_uart w' = w_uart w.
Proof. apply exec_getchar. Qed.

(** The UART as its setup starts programming it. *)
Definition uart_found {HW : Hardware} (w : world) (addr num flags freq : Z) : world :=
  after_write (addr + CR_OFF) 0 (set_uart (init addr freq (w_uart w))
    (spi_configured (w_gic w) (32 + num) (negb (Z.land flags 3 =? 0)) w)).

Lemma exec_uart_setup {HW : Hardware} fuel k (w : world) dev addr num flags freq :
  uart_node w dev addr num flags freq -> (DtbTables.MAX_DEVICES <= fuel)%nat ->
  wf_gic (w_gic w) -> num < 992 ->
  let u := init addr freq (w_uart w) in
  uart_config_ok u ->
  busy_for (addr + FR_OFF) FR_BUSY k (uart_found w addr num flags freq) -> (k < fuel)%nat ->
  exists w' c p gr polls lcr imsc cr,
    setup fuel dev w = Done tt w' /\ w_uart w' = u /\ w_ram w' = w_ram w /\ w_dtb w' = w_dtb w /\
    w_gic w' = w_gic w /\ w_rx w' = w_rx w /\ length polls = S k /\
    w_trace w' = w_trace w ++
      spi_events (w_gic w) (32 + num) (negb (Z.land flags 3 =? 0)) c p gr ++
      configure_events u polls lcr imsc cr.
Proof.
  intros Hun Hfuel Hg Hnum u Hok Hb Hk. set (edge := negb (Z.land flags 3 =? 0)) in *.
  destruct (spi_configured_trace (w_gic w) (32 + num) edge w) as (c & p & gr & Htr).
  set (w1 := set_uart u (spi_configured (w_gic w) (32 + num) edge w)) in *.
  destruct (configured_trace k u w1) as (polls & lcr & imsc & cr & Hl & Htr').
  pose proof (configured_same k u w1) as (Eram & Edtb & Egic & Eu & Ex).
  exists (configured k u w1), c, p, gr, polls, lcr, imsc, cr.
  split; [by eapply exec_setup |]. split; [exact Eu |]. split; [exact Eram |]. split; [exact Edtb |].
  split; [exact Egic |]. split; [exact Ex |]. split; [done |]. rewrite Htr'.
  change (w_trace w1) with (w_trace (spi_configured (w_gic w) (32 + num) edge w)).
  by rewrite Htr, <- app_assoc.
Qed.

(** C27: the driver's setup takes base address, SPI and clock from the device
    tree, configures the SPI in the distributor (trigger from the flags,
    priority 0, Group 1, routed to core 0, enabled last), records the address
    and clock in [UART], and only then programs the UART registers; the rest
    of the kernel's state, memory and receive buffer included, is untouched. *)
Theorem uart_setup_sequence {HW : Hardware} fuel k (w : world) dev addr num flags freq :
  uart_node w dev addr num flags freq -> (DtbTables.MAX_DEVICES <= fuel)%nat ->
  wf_gic (w_gic w) -> num < 992 ->
  let u := init addr freq (w_uart w) in
  uart_config_ok u ->
  busy_for (addr + FR_OFF) FR_BUSY k (uart_found w addr num flags freq) -> (k < fuel)%nat ->
  exists w' c p gr polls lcr imsc cr,
    setup fuel dev w = Done tt w' /\ w_uart w' = u /\ w_ram w' = w_ram w /\ w_dtb w' = w_dtb w /\
    w_gic w' = w_gic w /\ w_rx w' = w_rx w /\ length polls = S k /\
    w_trace w' = w_trace w ++
      spi_events (w_gic w) (32 + num) (negb (Z.land flags 3 =? 0)) c p gr ++
      configure_events u polls lcr imsc cr.
Proof. apply exec_uart_setup. Qed.

End pl011_theorems.

(** ** Witnesses *)

Definition virt_uart_state : UartState.t := UartState.mk 0x09000000 24000000 115200 8 1.

Lemma virt_uart_wf : wf_uart virt_uart_state.
Proof. unfold wf_uart, virt_uart_state. simpl. uart_side. Qed.

Lemma virt_uart_config_ok : uart_config_ok virt_uart_state.
Proof. split; [apply virt_uart_wf |]. unfold virt_uart_state. simpl. uart_side. Qed.

Lemma quiet_not_busy a mask (w : @world quiet) : @busy_for quiet a mask 0 w.
Proof. split; [lia | done]. Qed.

(** 115200 baud from 24 MHz: the divisor is 13 + 1/64. *)
Lemma set_speed_divisor_witness :
  exists w', @set_speed quiet virt_uart_state virt_quiet = Done tt w' /\
    exists ibrd fbrd, w_trace w' = [Write32 0x09000024 ibrd; Write32 0x09000028 fbrd] /\
      (64 * ibrd + fbrd) * 115200 <= 96000000 < (64 * ibrd + fbrd + 1) * 115200.
Proof.
  destruct (set_speed_divisor virt_uart_state virt_quiet virt_uart_wf ltac:(simpl; uart_side)
    ltac:(simpl; uart_side)) as (H & _ & _).
  destruct (H eq_refl ltac:(simpl; lia)) as (w' & ibrd & fbrd & E & _ & Htr & _ & _ & Hdiv).
  exists w'. split; [exact E |]. exists ibrd, fbrd. split; [exact Htr |]. exact (Hdiv eq_refl).
Defined.

(** A register file that answers busy once; all but the flag register hold what is
    written to them. *)
Definition uart_status : list Z := [0x09000018].

Lemma configure_leaves_tx_disabled_witness :
  exists w' cr', @configure (regfile uart_status) 10 virt_uart_state
      (@boot_world (regfile uart_status) (regfile_init [8; 0]) ∅) = Done tt w' /\
    last (w_trace w') = Some (Write32 0x09000030 cr') /\ Z.testbit cr' 8 = false.
Proof.
  destruct (configure_leaves_tx_disabled (HW := regfile uart_status) 10 1 virt_uart_state
    (@boot_world (regfile uart_status) (regfile_init [8; 0]) ∅) virt_uart_config_ok)
    as (w' & t & cr & cr' & E & Htr & _ & _ & _ & Hoff).
  - split; [| reflexivity]. intros k Hk. destruct k; [vm_compute; discriminate | lia].
  - lia.
  - exists w', cr'. split; [exact E |]. split.
    + rewrite Htr, app_assoc. change [Read32 ?r cr; ?e] with ([Read32 r cr] ++ [e]).
      by rewrite !app_assoc, last_snoc.
    + apply Hoff. apply regfile_held; [| split; [discriminate | reflexivity]].
      unfold uart_status. rewrite list_elem_of_singleton. discriminate.
Defined.

Lemma virt_uart_node {HW : Hardware} (w : world) :
  virt_ram ⊆ w_ram w -> w_dtb w = virt_tables ->
  uart_node w (virt_device 2) 0x09000000 1 4 24000000.
Proof.
  intros Er Ed.
  assert (forall p v, u32_at virt_ram p v -> u32_at (w_ram w) p v) as Hu
    by (intros p v; by apply u32_at_mono).
  assert (forall p l, cells_at virt_ram p l -> cells_at (w_ram w) p l) as Hc
    by (intros p l; by apply cells_at_mono).
  split.
  - apply virt_device_wf.
  - rewrite Ed. apply virt_tables_wf.
  - exists 2, 2, (virt_property 2 "reg"), (be_split 4 <$> [0; 0x09000000]), (be_split 4 <$> [0; 0x1000]).
    split; [by apply virt_get_parent_cells; [.. | lia] |]. split; [vm_compute; reflexivity |].
    split; [apply Hc; unfold cells_at; by_decision |]. split; reflexivity.
  - exists virt_val, (virt_device 3), (virt_property 2 "interrupts"), 3, (be_split 4 <$> [0; 1; 4]), [], [].
    split; [vm_compute; reflexivity |].
    split; [apply virt_interrupt_controller; [done | done | lia] |].
    split; [apply virt_device_wf |]. split; [apply Hu; by_decision |]. split; [lia |]. split; [reflexivity |].
    split; [apply Hc; unfold cells_at; by_decision | reflexivity].
  - exists (virt_property 2 "clocks"), 0x8000, (virt_device 1), (virt_property 1 "clock-frequency").
    split; [apply virt_device_wf |]. split; [vm_compute; reflexivity |]. split; [apply Hu; by_decision |].
    split; [rewrite Ed; vm_compute; reflexivity |]. split; [vm_compute; reflexivity | apply Hu; by_decision].
Qed.

Lemma uart_setup_sequence_witness :
  exists w' c p gr polls lcr imsc cr,
    @setup quiet virt_fuel (virt_device 2) virt_ready = Done tt w' /\ w_uart w' = virt_uart_state /\
    length polls = 1%nat /\
    w_trace w' = spi_events virt_gic 33 false c p gr ++
      configure_events virt_uart_state polls lcr imsc cr.
Proof.
  destruct (uart_setup_sequence virt_fuel 0 virt_ready (virt_device 2) 0x09000000 1 4 24000000
    (virt_uart_node virt_ready ltac:(done) eq_refl) ltac:(unfold virt_fuel, DtbTables.MAX_DEVICES; lia) virt_gic_wf ltac:(lia)
    virt_uart_config_ok (quiet_not_busy _ _ _) ltac:(unfold virt_fuel; lia))
    as (w' & c & p & gr & polls & lcr & imsc & cr & E & Hu & _ & _ & _ & _ & Hl & Htr).
  exists w', c, p, gr, polls, lcr, imsc, cr.
  split; [exact E |]. split; [exact Hu |]. split; [exact Hl | exact Htr].
Defined.
