(* ===== verification/Pgtable.v ===== *)
(** * src/kernel/mm/pgtable.rs and bits.rs: page-table descriptors

    The read-modify-write helpers on descriptors in memory, and the walk that
    the MMU makes with a 4 KiB granule and 48-bit addresses (Arm ARM, D8.3) as
    far as the kernel uses it: a level-0 table entry and a level-1 block. *)

From S2P Require Export Ram.

Local Open Scope Z_scope.
Local Open Scope kernel_scope.

(** ** bits.rs *)

Definition SZ_1G : Z := 2 ^ 30.
Definition SCTLR_ELX_MMU : Z := 1.
Definition DESC_UXN : Z := 2 ^ 54.
Definition DESC_PXN : Z := 2 ^ 53.
Definition DESC_AF : Z := 2 ^ 10.
Definition DESC_SH_INNER : Z := 0x300.
Definition DESC_SH_NONE : Z := 0.
Definition DESC_AP_RW_EL1 : Z := 0.
Definition MAIR_DEVICE_NGNRNE : Z := 0x00.
Definition MAIR_NORMAL_NC : Z := 0x44.
Definition MAIR_NORMAL_WB : Z := 0xFF.
Definition MAIR_IDX_DEVICE : Z := 0.
Definition MAIR_IDX_NORMAL_NC : Z := 1.
Definition MAIR_IDX_NORMAL_WB : Z := 2.
Definition TABLE_APTABLE0 : Z := 2 ^ 61.
Definition TABLE_UXNTABLE : Z := 2 ^ 60.

(** ** pgtable.rs *)

Definition PAGE_SHIFT : Z := 12.
Definition PAGE_SIZE : Z := 2 ^ 12.
Definition PAGE_MASK : Z := unot USIZE (PAGE_SIZE - 1).
Definition L1_SIZE_PER_ENTRY : Z := 2 ^ 30.
Definition ATTR_IDX_SHIFT : Z := 2.

Section pgtable.
Context {HW : Hardware}.
Implicit Types (w : world).

(** [*desc |= bits] *)
Definition desc_or (desc bits : Z) : M unit :=
  v <- deref_u64 desc ;;
  assign_u64 desc (Z.lor v bits).

Definition mark_page_desc (desc : Z) : M unit := desc_or desc 0x03.
Definition mark_block_desc (desc : Z) : M unit := desc_or desc 0x01.

Definition set_mair_range (desc idx : Z) : M unit :=
  bits <- ushl U64 (Z.land idx 7) ATTR_IDX_SHIFT ;;
  desc_or desc bits.

Definition set_table_attrs (desc attrs : Z) : M unit := desc_or desc attrs.

Definition set_next_lvl_table_addr (desc addr : Z) : M unit := desc_or desc (Z.land addr PAGE_MASK).

(** The names the functions are exported under as well. *)
Definition mark_table_desc := mark_page_desc.
Definition set_block_attrs := set_table_attrs.

(** ** Words in memory *)

Definition word_at (ram : gmap Z byte) (p v : Z) : Prop :=
  0 < p /\ p mod 8 = 0 /\ fits U64 v /\ ram_bytes ram p (le_split 8 v).

Definition set_word (p v : Z) w : world := set_ram (ram_write p (le_split 8 v) (w_ram w)) w.

Lemma le_combine_split_u64 v : fits U64 v -> le_combine (le_split 8 v) = v.
Proof. intros Hv. rewrite le_combine_split. by apply Z.mod_small. Qed.

Lemma exec_deref_u64 p v w : word_at (w_ram w) p v -> deref_u64 p w = Done v w.
Proof.
  intros (Hp & Ha & Hv & Hram). unfold deref_u64. rewrite (proj2 (Z.eqb_eq _ _) Ha).
  rewrite (exec_load_le p 8 (le_split 8 v)) by (done || apply length_le_split).
  by rewrite le_combine_split_u64.
Qed.

Lemma exec_assign_u64 p v u w :
  word_at (w_ram w) p v -> assign_u64 p u w = Done tt (set_word p u w).
Proof.
  intros (Hp & Ha & Hv & Hram). unfold assign_u64. rewrite (proj2 (Z.eqb_eq _ _) Ha).
  by rewrite (exec_store_le p 8 u (le_split 8 v)) by (done || apply length_le_split).
Qed.

Lemma exec_desc_or p v bits w :
  word_at (w_ram w) p v -> desc_or p bits w = Done tt (set_word p (Z.lor v bits) w).
Proof.
  intros Hw. unfold desc_or. rewrite (bind_done _ _ _ _ _ (exec_deref_u64 _ _ _ Hw)).
  by apply (exec_assign_u64 p v).
Qed.

Lemma word_at_set p v u w :
  word_at (w_ram w) p v -> fits U64 u -> word_at (w_ram (set_word p u w)) p u.
Proof. intros (Hp & Ha & _ & _) Hu. repeat split; [done.. | apply Hu | apply Hu |]. apply ram_write_bytes. Qed.

(** Two different aligned words do not overlap. *)
Lemma word_at_set_other p q v u w :
  p mod 8 = 0 -> q <> p -> word_at (w_ram w) q v -> word_at (w_ram (set_word p u w)) q v.
Proof.
  intros Hp Hne (Hq & Ha & Hv & Hram). repeat split; [done.. | apply Hv | apply Hv |].
  apply ram_write_bytes_other; [| done]. rewrite !length_le_split.
  pose proof (Z.div_mod p 8). pose proof (Z.div_mod q 8). lia.
Qed.

Lemma ram_write_twice p bs cs ram :
  length bs = length cs -> ram_write p bs (ram_write p cs ram) = ram_write p bs ram.
Proof.
  revert p cs ram. induction bs as [| b bs IH]; intros p [| c cs] ram Hl; simpl in *; try done.
  injection Hl as Hl.
  assert (forall q x r, q < p + 1 -> ram_write (p + 1) bs (<[q := x]> r) = <[q := x]> (ram_write (p + 1) bs r)) as Hc.
  { clear. intros q x r. generalize (p + 1) as a. induction bs as [| b bs IH]; intros a Ha; [done |].
    simpl. rewrite IH by lia. rewrite insert_insert_ne by lia. done. }
  rewrite Hc by lia. rewrite insert_insert_eq. by rewrite IH.
Qed.

Lemma set_word_twice p v u w : set_word p u (set_word p v w) = set_word p u w.
Proof.
  unfold set_word, set_ram. cbn [w_hw w_ram w_trace w_dtb w_gic w_uart w_rx]. by rewrite ram_write_twice by by rewrite !length_le_split.
Qed.

(** ** The walk *)

(** The word a table walk reads at [p]. *)
Definition read_word (ram : gmap Z byte) (p : Z) : option Z :=
  le_combine <$> mapM (fun i => ram !! (p + Z.of_nat i)) (seq 0 8).

(** Bits 47..12 of a descriptor, in place. *)
Definition desc_table (d : Z) : Z := Z.shiftl (Z.land (Z.shiftr d 12) (Z.ones 36)) 12.
(** Bits 47..30 of a descriptor, in place. *)
Definition desc_block (d : Z) : Z := Z.shiftl (Z.land (Z.shiftr d 30) (Z.ones 18)) 30.

(** The translation of [va] through a level-0 table at [ttbr]: the physical
    address and the block descriptor, whose attribute bits govern the access. *)
Definition walk (ram : gmap Z byte) (ttbr va : Z) : option (Z * Z) :=
  d0 ← read_word ram (ttbr + 8 * Z.land (Z.shiftr va 39) (Z.ones 9));
  if Z.land d0 3 =? 3 then
    d1 ← read_word ram (desc_table d0 + 8 * Z.land (Z.shiftr va 30) (Z.ones 9));
    if Z.land d1 3 =? 1 then Some (desc_block d1 + Z.land va (Z.ones 30), d1) else None
  else None.

Lemma ram_bytes_mapM ram bs k p :
  ram_bytes ram (p + Z.of_nat k) bs ->
  mapM (fun i => ram !! (p + Z.of_nat i)) (seq k (length bs)) = Some bs.
Proof.
  revert k. induction bs as [| b bs IH]; intros k Hb; [done |]. simpl.
  apply ram_bytes_cons in Hb as [Hb Hbs]. rewrite Hb. simpl.
  rewrite IH; [done |]. by replace (p + Z.of_nat (S k)) with (p + Z.of_nat k + 1) by lia.
Qed.

Lemma read_word_at ram p v : word_at ram p v -> read_word ram p = Some v.
Proof.
  intros (_ & _ & Hv & Hram). unfold read_word.
  pose proof (ram_bytes_mapM ram (le_split 8 v) 0 p) as H.
  rewrite length_le_split in H. rewrite H by (by rewrite Z.add_0_r). simpl.
  by rewrite le_combine_split_u64.
Qed.

End pgtable.
