(* ===== verification/Fmt.v ===== *)
(** * The formatting that the kernel's messages use

    What [core::fmt] writes for the format specifications in the source:
    decimal [u32], padded hexadecimal, pointers and characters.  Strings are
    the bytes sent to the console. *)

From S2P Require Export Prelude.
From stdpp Require Export strings.

Local Open Scope Z_scope.

(** The character of a digit, upper or lower case. *)
Definition digit (upper : bool) (d : Z) : Ascii.ascii :=
  Ascii.ascii_of_N (Z.to_N (if d <? 10 then 48 + d else if upper then 55 + d else 87 + d)).

(** The digits of [n], most significant first, in front of [acc]. *)
Fixpoint digits (fuel : nat) (upper : bool) (base n : Z) (acc : string) : string :=
  match fuel with
  | O => acc
  | S fuel =>
      let acc := String (digit upper (n mod base)) acc in
      if n / base =? 0 then acc else digits fuel upper base (n / base) acc
  end.

(** 64 digits are enough for a 64-bit number in any base. *)
Definition number (upper : bool) (base n : Z) : string := digits 64 upper base n EmptyString.

Fixpoint zeros (n : nat) : string := match n with O => EmptyString | S n => String (Ascii.ascii_of_N 48) (zeros n) end.

Definition padded_to (width : nat) (s : string) : string := zeros (width - String.length s) +:+ s.

(** [{}] of an unsigned integer, [{:016x}], [{:02X}], [{:?}] of a pointer. *)
Definition fmt_dec (n : Z) : string := number false 10 n.
Definition fmt_016x (n : Z) : string := padded_to 16 (number false 16 n).
Definition fmt_02X (n : Z) : string := padded_to 2 (number true 16 n).
Definition fmt_pointer (n : Z) : string := "0x" +:+ number false 16 n.

(** [{}] of a [char] below 256: its UTF-8 encoding. *)
Definition fmt_char (c : Z) : string :=
  if c <? 128 then String (Ascii.ascii_of_N (Z.to_N c)) EmptyString
  else
    String (Ascii.ascii_of_N (Z.to_N (192 + c / 64)))
      (String (Ascii.ascii_of_N (Z.to_N (128 + c mod 64))) EmptyString).

(** ** Reading numbers back *)

Definition digit_value (c : Ascii.ascii) : Z :=
  let n := Z.of_N (Ascii.N_of_ascii c) in
  if n <? 58 then n - 48 else if n <? 71 then n - 55 else n - 87.

Fixpoint value_of (base acc : Z) (s : string) : Z :=
  match s with EmptyString => acc | String c s => value_of base (acc * base + digit_value c) s end.

Lemma digit_value_digit upper d : 0 <= d < 16 -> digit_value (digit upper d) = d.
Proof.
  intros Hd. assert (d = Z.of_nat (Z.to_nat d)) as -> by lia.
  assert (Z.to_nat d < 16)%nat as Hn by lia. revert Hn. generalize (Z.to_nat d) as n. intros n Hn.
  do 16 (destruct n as [| n]; [by destruct upper |]). lia.
Qed.

Lemma length_digits_ge fuel upper base n acc :
  (String.length acc <= String.length (digits fuel upper base n acc))%nat.
Proof.
  revert n acc. induction fuel as [| fuel IH]; intros n acc; simpl; [done |].
  destruct (_ =? 0); simpl; [lia |]. specialize (IH (n / base) (String (digit upper (n mod base)) acc)).
  simpl in IH. lia.
Qed.

Lemma length_digits_le fuel upper base n acc k :
  2 <= base -> 0 <= n < base ^ Z.of_nat (S k) ->
  (String.length (digits fuel upper base n acc) <= String.length acc + S k)%nat.
Proof.
  intros Hb. revert n acc k. induction fuel as [| fuel IH]; intros n acc k Hn; simpl; [lia |].
  destruct (Z.eqb_spec (n / base) 0) as [H0 | H0]; simpl; [lia |].
  assert (0 < n / base) by (pose proof (Z.div_pos n base); lia).
  assert (n / base < base ^ Z.of_nat k) as Hq.
  { apply Z.div_lt_upper_bound; [lia |]. rewrite Nat2Z.inj_succ, Z.pow_succ_r in Hn by lia. lia. }
  destruct k as [| k]; [simpl in Hq; lia |].
  etransitivity; [apply (IH _ _ k); lia |]. simpl. lia.
Qed.

Lemma value_of_digits fuel upper base n acc k :
  2 <= base <= 16 -> 0 <= n < base ^ Z.of_nat fuel ->
  value_of base k (digits fuel upper base n acc) =
    value_of base (k * base ^ Z.of_nat (String.length (digits fuel upper base n acc) - String.length acc) + n) acc.
Proof.
  intros Hb. revert n acc. induction fuel as [| fuel IH]; intros n acc Hn.
  - simpl in *. rewrite Nat.sub_diag. simpl. f_equal. lia.
  - simpl. pose proof (Z.mod_pos_bound n base ltac:(lia)) as Hm.
    pose proof (Z.div_mod n base ltac:(lia)) as Hd.
    destruct (Z.eqb_spec (n / base) 0) as [H0 | H0].
    + simpl. replace (S (String.length acc) - String.length acc)%nat with 1%nat by lia.
      rewrite digit_value_digit by lia. f_equal. lia.
    + assert (0 <= n / base < base ^ Z.of_nat fuel) as Hq.
      { split; [apply Z.div_pos; lia |]. apply Z.div_lt_upper_bound; [lia |].
        rewrite Nat2Z.inj_succ, Z.pow_succ_r in Hn by lia. lia. }
      rewrite IH by done.
      set (s := digits fuel upper base (n / base) _).
      assert (S (String.length acc) <= String.length s)%nat as Hlen.
      { apply (length_digits_ge fuel upper base (n / base) (String _ acc)). }
      cbn [value_of String.length]. rewrite digit_value_digit by lia.
      replace (String.length s - String.length acc)%nat
        with (S (String.length s - S (String.length acc))) by lia.
      rewrite Nat2Z.inj_succ, Z.pow_succ_r by lia. f_equal. nia.
Qed.

Lemma value_of_number upper base n :
  2 <= base <= 16 -> 0 <= n < 2 ^ 64 -> value_of base 0 (number upper base n) = n.
Proof.
  intros Hb Hn. unfold number. rewrite value_of_digits; [done | done |].
  split; [lia |]. eapply Z.lt_le_trans; [apply Hn |]. apply Z.pow_le_mono_l. lia.
Qed.

Lemma value_of_zeros base k s : value_of base 0 (zeros k +:+ s) = value_of base 0 s.
Proof. induction k as [| k IH]; [done |]. simpl. exact IH. Qed.

Lemma length_zeros k : String.length (zeros k) = k.
Proof. induction k as [| k IH]; simpl; congruence. Qed.

Lemma length_string_app s t : String.length (s +:+ t) = (String.length s + String.length t)%nat.
Proof. induction s as [| c s IH]; [done |]. exact (f_equal S IH). Qed.

(** A 64-bit number printed with {:016x} takes exactly sixteen characters,
    and reading them back gives the number; likewise for {} in decimal. *)
Theorem formatted_numbers_read_back n :
  0 <= n < 2 ^ 64 ->
  String.length (fmt_016x n) = 16%nat /\ value_of 16 0 (fmt_016x n) = n /\
  value_of 10 0 (fmt_dec n) = n.
Proof.
  intros Hn. unfold fmt_016x, padded_to. split; [| split].
  - rewrite length_string_app, length_zeros.
    pose proof (length_digits_le 64 false 16 n EmptyString 15 ltac:(lia) Hn) as H.
    change (String.length EmptyString) with 0%nat in H.
    fold (number false 16 n) in H. revert H. generalize (String.length (number false 16 n)). lia.
  - rewrite value_of_zeros. apply value_of_number; lia.
  - apply value_of_number; lia.
Qed.

