(* ===== verification/Console.v ===== *)
(** * Printing on the console

    [prints c s]: from a world whose console can be used, [c] returns, having
    transmitted the text [s] and done nothing else.  Every message of the kernel
    is described by it, with the rules of this file. *)

From S2P Require Export Pl011 Fmt.

Local Open Scope Z_scope.
Local Open Scope kernel_scope.

(** ** Texts *)

Lemma string_app_cons c (s t : string) : String c s +:+ t = String c (s +:+ t).
Proof. done. Qed.

Lemma string_app_nil_r (s : string) : s +:+ "" = s.
Proof. induction s as [| c s IH]; [done |]. by rewrite string_app_cons, IH. Qed.

Lemma string_app_assoc (s t u : string) : (s +:+ t) +:+ u = s +:+ t +:+ u.
Proof. induction s as [| c s IH]; [done |]. by rewrite !string_app_cons, IH. Qed.

Lemma bytes_of_cons c s : bytes_of (String c s) = Z.of_N (Ascii.N_of_ascii c) :: bytes_of s.
Proof. done. Qed.

Lemma bytes_of_app s t : bytes_of (s +:+ t) = bytes_of s ++ bytes_of t.
Proof.
  induction s as [| c s IH]; [done |]. by rewrite string_app_cons, !bytes_of_cons, IH.
Qed.

(** ** What printing does *)

Section console.
Context {HW : Hardware} (fuel : nat).
Implicit Types (w : world).

(** The console can be used. *)
Definition console_up w : Prop :=
  console_ok (w_uart w) /\ tx_drains fuel (console_base (w_uart w)).

(** From [w] to [w'] nothing happened but the transmission of [s]. *)
Definition printed (s : string) w w' : Prop :=
  same_kernel w w' /\
  exists t, w_trace w' = w_trace w ++ t /\ Forall (console_event (console_base (w_uart w))) t /\
    tx_of (console_base (w_uart w)) t = bytes_of s.

Definition prints (c : M unit) (s : string) : Prop :=
  forall w, console_up w -> exists w', c w = Done tt w' /\ printed s w w'.

Lemma console_up_same w w' : same_kernel w w' -> console_up w -> console_up w'.
Proof. intros (_ & _ & _ & Eu & _) Hup. unfold console_up. by rewrite Eu. Qed.

Lemma printed_nil w : printed "" w w.
Proof. split; [done |]. exists []. by rewrite app_nil_r. Qed.

Lemma printed_app s t w1 w2 w3 : printed s w1 w2 -> printed t w2 w3 -> printed (s +:+ t) w1 w3.
Proof.
  intros (Hs & t1 & E1 & F1 & X1) (Ht & t2 & E2 & F2 & X2).
  pose proof Hs as (_ & _ & _ & Eu & _). rewrite Eu in F2, X2.
  split; [by transitivity w2 |]. exists (t1 ++ t2).
  split; [by rewrite E2, E1, app_assoc |]. split; [by apply Forall_app |].
  by rewrite tx_of_app, bytes_of_app, X1, X2.
Qed.

Lemma prints_print s : prints (print fuel s) s.
Proof.
  intros w [Hu Hd]. destruct (exec_write_bytes fuel (bytes_of s) w Hu Hd) as (w' & t & E & Hs & Htr & Hev & Htx).
  exists w'. split; [exact E |]. split; [done |]. by exists t.
Qed.

Lemma prints_println s : prints (println fuel s) (s +:+ newline).
Proof. apply prints_print. Qed.

Lemma prints_ret : prints (ret tt) "".
Proof. intros w _. exists w. split; [done | apply printed_nil]. Qed.

Lemma prints_seq c d s t : prints c s -> prints d t -> prints (c ;; d) (s +:+ t).
Proof.
  intros Hc Hd w Hup. destruct (Hc w Hup) as (w1 & E1 & P1).
  destruct (Hd w1 (console_up_same _ _ (proj1 P1) Hup)) as (w2 & E2 & P2).
  exists w2. split; [by rewrite (bind_done _ _ _ _ _ E1) | by eapply printed_app].
Qed.

(** A pure step in front of printing. *)
Lemma prints_pure {A} (c : M A) (k : A -> M unit) a s :
  (forall w, c w = Done a w) -> prints (k a) s -> prints (bind c k) s.
Proof. intros Hc Hk w Hup. rewrite (bind_done _ _ _ _ _ (Hc w)). by apply Hk. Qed.

Definition concat_strings (l : list string) : string := foldr (fun s t => s +:+ t) EmptyString l.

Lemma prints_for_each {A} (l : list A) (body : A -> M unit) (text : A -> string) :
  (forall x, x ∈ l -> prints (body x) (text x)) ->
  prints (for_each l tt (fun _ x => body x)) (concat_strings (text <$> l)).
Proof.
  induction l as [| x l IH]; intros Hb; [apply prints_ret |]. rewrite fmap_cons. simpl.
  intros w Hup. destruct (Hb x ltac:(by left) w Hup) as (w1 & E1 & P1).
  destruct (IH (fun y Hy => Hb y (list_elem_of_further _ _ _ Hy)) w1 (console_up_same _ _ (proj1 P1) Hup))
    as (w2 & E2 & P2).
  exists w2. split; [by rewrite (bind_done _ _ _ _ _ E1) | by eapply printed_app].
Qed.

End console.

(** The early console of a machine that is never busy. *)
Lemma quiet_console_up w : UartState.base_addr (w_uart w) = 0 -> @console_up quiet 1 w.
Proof.
  intros Hu. split; [by apply console_ok_early |].
  intros w1. exists 0%nat. split; [lia | apply quiet_not_busy].
Qed.
