(* ===== verification/Identity.v ===== *)
(** * src/kernel/mm/mair.rs and identity.rs: memory attributes and the identity map

    [setup_mair_ranges] and [setup_identity_mapping] with the register
    sequences that turn the MMU on.  The linker symbols (linker.lds) are
    parameters: their values depend on the sizes of the compiled sections.
    The main theorem walks the finished tables as the MMU does. *)

From S2P Require Export Pgtable Console.

Local Open Scope Z_scope.
Local Open Scope kernel_scope.

Section mair.
Context {HW : Hardware}.

Definition configure_mair_range (conf range : Z) : M unit :=
  bits <- umul USIZE range 8 ;;
  conf_shifted <- ushl U64 conf bits ;;
  tmp <- mrs MAIR_EL1 ;;
  msr MAIR_EL1 (Z.lor tmp conf_shifted) ;;
  barrier_ins Isb.

Definition setup_mair_ranges : M unit :=
  configure_mair_range MAIR_DEVICE_NGNRNE MAIR_IDX_DEVICE ;;
  configure_mair_range MAIR_NORMAL_WB MAIR_IDX_NORMAL_WB ;;
  configure_mair_range MAIR_NORMAL_NC MAIR_IDX_NORMAL_NC.

End mair.

Section identity.
Context {HW : Hardware}.
Implicit Types (w : world).

(** The symbols [__kernel_start], [__stack_top], [__idmap_l0], [__idmap_l1]. *)
Record symbols := mkSymbols {
  kernel_start : Z;
  sym_stack_top : Z;
  idmap_l0 : Z;
  idmap_l1 : Z;
}.

Definition configure_tcr : M unit :=
  let x0 := 0x10 in
  let x1 := 0x1 in
  let x2 := 0x3 in
  let x3 := 0x10 in
  let x0 := Z.lor x0 (shl U64 x1 8) in
  let x0 := Z.lor x0 (shl U64 x1 10) in
  let x0 := Z.lor x0 (shl U64 x2 12) in
  let x0 := Z.lor x0 (shl U64 x3 16) in
  let x0 := Z.lor x0 (shl U64 x1 23) in
  let x0 := Z.lor x0 (shl U64 x1 31) in
  let x0 := Z.lor x0 (shl U64 x1 34) in
  msr TCR_EL1 x0 ;;
  barrier_ins Isb.

Definition enable_mmu : M unit :=
  configure_tcr ;;
  tmp <- mrs SCTLR_EL1 ;;
  msr SCTLR_EL1 (Z.lor tmp SCTLR_ELX_MMU) ;;
  barrier_ins Isb.

Definition load_ttbr0 (base : Z) : M unit :=
  msr TTBR0_EL1 base ;;
  barrier_ins Isb ;;
  barrier_ins TlbiVmalle1 ;;
  barrier_ins DsbNsh ;;
  barrier_ins Isb.

(** The number of blocks the loop writes. *)
Definition identity_pages (s : symbols) : M Z :=
  kernel_addr_range <- usub USIZE (sym_stack_top s) (kernel_start s) ;;
  mmio_addr_range <- usub USIZE 0x09000000 0x08000000 ;;
  sum <- uadd USIZE kernel_addr_range mmio_addr_range ;;
  pages <- udiv sum L1_SIZE_PER_ENTRY ;;
  ret (Z.max pages 2).

Definition ranges : list Z := [MAIR_IDX_DEVICE; MAIR_IDX_NORMAL_WB].

(** One iteration: the block descriptor of gigabyte [i]; the loop carries [j]. *)
Definition map_block (s : symbols) (j : nat) (i : Z) : M nat :=
  off <- ptr_add (idmap_l1 s) (i * 8) ;;
  assign_u64 off 0 ;;
  mark_block_desc off ;;
  idx <- arr_get ranges j ;;
  set_mair_range off idx ;;
  (if (j =? 0)%nat then
     set_block_attrs off
       (Z.lor (Z.lor (Z.lor (Z.lor DESC_UXN DESC_PXN) DESC_AF) DESC_SH_NONE) DESC_AP_RW_EL1)
   else set_block_attrs off (Z.lor (Z.lor (Z.lor DESC_UXN DESC_AF) DESC_SH_INNER) DESC_AP_RW_EL1)) ;;
  addr <- umul USIZE i SZ_1G ;;
  set_next_lvl_table_addr off addr ;;
  ret (if (j <? 1)%nat then S j else j).

Definition setup_identity_mapping (fuel : nat) (s : symbols) : M unit :=
  pages <- identity_pages s ;;
  println fuel ("idmap_l0 addr " +:+ fmt_pointer (idmap_l0 s)) ;;
  mark_table_desc (idmap_l0 s) ;;
  set_table_attrs (idmap_l0 s) (Z.lor TABLE_UXNTABLE TABLE_APTABLE0) ;;
  println fuel ("idmap_l1 addr " +:+ fmt_pointer (idmap_l1 s)) ;;
  set_next_lvl_table_addr (idmap_l0 s) (idmap_l1 s) ;;
  for_each (range pages) 0%nat (map_block s) ;;
  load_ttbr0 (idmap_l0 s) ;;
  enable_mmu.

(** ** The descriptors written *)

(** Blocks of device memory (gigabyte 0) and of normal memory (the others). *)
Definition block_bits (i : Z) : Z :=
  if i =? 0 then Z.lor (Z.lor (Z.lor DESC_UXN DESC_PXN) DESC_AF) 1
  else Z.lor (Z.lor (Z.lor DESC_UXN DESC_AF) DESC_SH_INNER) (Z.lor 1 (shl U64 2 2)).

Definition block_desc (i : Z) : Z := Z.lor (block_bits i) (i * 2 ^ 30).

Definition table_desc (l1 : Z) : Z := Z.lor (Z.lor 3 (Z.lor TABLE_UXNTABLE TABLE_APTABLE0)) l1.

(** Memory and symbols as the loop needs them, for [n] blocks. *)
Record l1_ok (ram : gmap Z byte) (s : symbols) (n : Z) : Prop := {
  ok_l1 : forall i, 0 <= i < n -> exists v, word_at ram (idmap_l1 s + 8 * i) v;
  ok_page : idmap_l1 s mod 4096 = 0;
  ok_pa : 0 < idmap_l1 s < 2 ^ 48;
  ok_distinct : forall i, 0 <= i < n -> idmap_l1 s + 8 * i <> idmap_l0 s;
  ok_count : 2 <= n <= 512;
}.

(** The level-0 entry is empty. *)
Definition tables_ok (ram : gmap Z byte) (s : symbols) (n : Z) : Prop :=
  word_at ram (idmap_l0 s) 0 /\ l1_ok ram s n.

Lemma page_mask_aligned a : a mod 4096 = 0 -> fits USIZE a -> Z.land a PAGE_MASK = a.
Proof.
  intros Ha Hf. unfold PAGE_MASK. apply Z.bits_inj'. intros i Hi.
  rewrite Z.land_spec, unot_bits by (unfold USIZE; lia).
  change (PAGE_SIZE - 1) with (Z.ones 12). rewrite Z.testbit_ones_nonneg by lia.
  destruct (Z.ltb_spec i 12); simpl.
  - rewrite andb_false_r, andb_false_r.
    pose proof (Z.mod_pow2_bits_low a 12 i ltac:(lia)) as H1.
    change (2 ^ 12) with 4096 in H1. rewrite Ha, Z.bits_0 in H1. done.
  - rewrite andb_true_r. destruct (Z.ltb_spec i USIZE); simpl; [apply andb_true_r |].
    by rewrite (testbit_high USIZE a) by done.
Qed.

Lemma block_desc_fits i : 0 <= i < 512 -> fits U64 (block_desc i).
Proof.
  intros Hi. unfold block_desc. apply lor_fits; [unfold U64; lia | |].
  - unfold block_bits. destruct (i =? 0); vm_compute; split; discriminate || reflexivity.
  - unfold U64. change (2 ^ 64) with (2 ^ 34 * 2 ^ 30). lia.
Qed.

(** A field of the descriptors, for every index, by evaluation. *)
Definition all_blocks (p : Z -> bool) : bool := forallb p (Z.of_nat <$> seq 0 512).

Lemma all_blocks_spec p i : all_blocks p = true -> 0 <= i < 512 -> p i = true.
Proof.
  unfold all_blocks. rewrite forallb_forall. intros H Hi. apply H. apply list_elem_of_In.
  apply list_elem_of_fmap. exists (Z.to_nat i). split; [lia |]. apply elem_of_seq. lia.
Qed.

Definition block_output_ok (i : Z) : bool :=
  (desc_block (block_desc i) =? i * 2 ^ 30) && (Z.land (block_desc i) 3 =? 1).

Lemma all_block_outputs_ok : all_blocks block_output_ok = true.
Proof. vm_compute. reflexivity. Qed.

Lemma block_desc_output i :
  0 <= i < 512 -> desc_block (block_desc i) = i * 2 ^ 30 /\ Z.land (block_desc i) 3 = 1.
Proof.
  intros Hi. pose proof (all_blocks_spec _ i all_block_outputs_ok Hi) as H.
  unfold block_output_ok in H. apply andb_prop in H as [H1 H2].
  split; by apply Z.eqb_eq.
Qed.

Lemma table_desc_output l1 :
  l1 mod 4096 = 0 -> 0 < l1 < 2 ^ 48 ->
  desc_table (table_desc l1) = l1 /\ Z.land (table_desc l1) 3 = 3 /\ fits U64 (table_desc l1).
Proof.
  intros Ha Hl. unfold table_desc. set (c := Z.lor 3 _).
  assert (forall i, 0 <= i < 12 -> Z.testbit l1 i = false) as Hlow.
  { intros i Hi. pose proof (Z.mod_pow2_bits_low l1 12 i ltac:(lia)) as H1.
    change (2 ^ 12) with 4096 in H1. rewrite Ha, Z.bits_0 in H1. done. }
  assert (forall i, 0 <= i -> Z.testbit c i = ((i <? 2) || ((60 <=? i) && (i <? 62)))) as Hc.
  { intros i Hi. change c with (Z.lor (Z.ones 2) (Z.shiftl (Z.ones 2) 60)).
    rewrite Z.lor_spec, Z.shiftl_spec, Z.testbit_ones_nonneg by lia. f_equal.
    destruct (Z.leb_spec 60 i); simpl; [| apply Z.testbit_neg_r; lia].
    rewrite Z.testbit_ones_nonneg by lia. do 2 case_cmp; done. }
  split; [| split].
  - unfold desc_table. apply Z.bits_inj'. intros i Hi.
    rewrite Z.shiftl_spec by lia. destruct (Z.ltb_spec i 12) as [H12 | H12].
    { rewrite Z.testbit_neg_r by lia. symmetry. by apply Hlow. }
    rewrite Z.land_spec, Z.shiftr_spec, Z.testbit_ones_nonneg, Z.lor_spec by lia.
    replace (i - 12 + 12) with i by lia. rewrite Hc by lia.
    destruct (Z.ltb_spec (i - 12) 36); simpl.
    + rewrite andb_true_r. rewrite (proj2 (Z.ltb_ge i 2)) by lia. simpl.
      rewrite (proj2 (Z.leb_gt 60 i)) by lia. done.
    + rewrite andb_false_r. symmetry. apply (testbit_high 48); lia.
  - apply Z.bits_inj'. intros i Hi. change 3 with (Z.ones 2).
    rewrite Z.land_spec, Z.lor_spec, Hc, Z.testbit_ones_nonneg by lia.
    destruct (Z.ltb_spec i 2); simpl; [done | by rewrite andb_false_r].
  - apply lor_fits; [unfold U64; lia | vm_compute; split; discriminate || reflexivity |].
    unfold U64. lia.
Qed.

(** ** The loop *)

(** The descriptor as the loop puts it together. *)
Definition built (attr_idx attrs i : Z) : Z :=
  Z.lor (Z.lor (Z.lor (Z.lor 0 1) (shl U64 (Z.land attr_idx 7) 2)) attrs)
    (Z.land (i * SZ_1G) PAGE_MASK).

Definition block_attrs (i : Z) : Z :=
  if i =? 0 then Z.lor (Z.lor (Z.lor (Z.lor DESC_UXN DESC_PXN) DESC_AF) DESC_SH_NONE) DESC_AP_RW_EL1
  else Z.lor (Z.lor (Z.lor DESC_UXN DESC_AF) DESC_SH_INNER) DESC_AP_RW_EL1.

Definition attr_index (i : Z) : Z := if i =? 0 then MAIR_IDX_DEVICE else MAIR_IDX_NORMAL_WB.

Lemma all_built : all_blocks (fun i => built (attr_index i) (block_attrs i) i =? block_desc i) = true.
Proof. vm_compute. reflexivity. Qed.

Lemma built_desc i : 0 <= i < 512 -> built (attr_index i) (block_attrs i) i = block_desc i.
Proof. intros Hi. apply Z.eqb_eq. exact (all_blocks_spec _ i all_built Hi). Qed.

(** [set_word] and then a read-modify-write of the same word. *)
Lemma exec_desc_or_set p v u bits w :
  word_at (w_ram w) p v -> fits U64 u ->
  desc_or p bits (set_word p u w) = Done tt (set_word p (Z.lor u bits) w).
Proof.
  intros Hw Hu. rewrite (exec_desc_or p u) by by eapply word_at_set. by rewrite set_word_twice.
Qed.

Lemma exec_map_block s n i v w :
  l1_ok (w_ram w) s n -> 0 <= i < n -> word_at (w_ram w) (idmap_l1 s + 8 * i) v ->
  map_block s (if i =? 0 then 0%nat else 1%nat) i w =
    Done 1%nat (set_word (idmap_l1 s + 8 * i) (block_desc i) w).
Proof.
  intros Hok Hi Hv. destruct (ok_pa _ _ _ Hok) as [Hl Hl']. pose proof (ok_count _ _ _ Hok) as Hn.
  set (p := idmap_l1 s + 8 * i) in *. unfold map_block.
  rewrite (bind_done _ _ _ p w).
  2:{ unfold p. rewrite (Z.mul_comm 8 i). apply exec_ptr_add. solve_fits. }
  rewrite (bind_done _ _ _ tt (set_word p 0 w)) by by eapply exec_assign_u64.
  rewrite (bind_done _ _ _ tt (set_word p (Z.lor 0 1) w)) by (by eapply exec_desc_or_set).
  rewrite (bind_done _ _ _ (attr_index i) (set_word p (Z.lor 0 1) w))
    by (unfold attr_index; by destruct (i =? 0)).
  set (u := Z.lor (Z.lor 0 1) (shl U64 (Z.land (attr_index i) 7) 2)).
  rewrite (bind_done _ _ _ tt (set_word p u w)).
  2:{ unfold set_mair_range. rewrite (bind_done _ _ _ (shl U64 (Z.land (attr_index i) 7) 2) (set_word p (Z.lor 0 1) w))
        by (apply exec_ushl; unfold U64, ATTR_IDX_SHIFT; lia).
      by eapply exec_desc_or_set. }
  assert (fits U64 u /\ fits U64 (Z.lor u (block_attrs i))) as [Hu Hu'].
  { unfold u, attr_index, block_attrs. destruct (i =? 0); split; vm_compute; split; discriminate || reflexivity. }
  rewrite (bind_done _ _ _ tt (set_word p (Z.lor u (block_attrs i)) w)).
  2:{ unfold block_attrs. destruct (i =? 0); cbn [Nat.eqb]; by eapply exec_desc_or_set. }
  rewrite (bind_done _ _ _ (i * SZ_1G) (set_word p (Z.lor u (block_attrs i)) w))
    by (apply exec_umul; unfold SZ_1G, fits, USIZE; change (2 ^ 64) with (2 ^ 34 * 2 ^ 30); lia).
  rewrite (bind_done _ _ _ tt (set_word p (block_desc i) w)); [by destruct (i =? 0) |].
  rewrite <- built_desc by lia. unfold built. fold u. by eapply exec_desc_or_set.
Qed.

(** The world after [n] blocks, from index [k] on. *)
Fixpoint blocks_set (s : symbols) (k n : nat) w : world :=
  match n with
  | O => w
  | S n => blocks_set s (S k) n (set_word (idmap_l1 s + 8 * Z.of_nat k) (block_desc (Z.of_nat k)) w)
  end.

Lemma l1_ok_set ram s n i w :
  ram = w_ram w -> l1_ok ram s n -> 0 <= i < n ->
  l1_ok (w_ram (set_word (idmap_l1 s + 8 * i) (block_desc i) w)) s n.
Proof.
  intros -> Hok Hi. destruct Hok as [H1 H2 H3 H4 H5].
  assert ((idmap_l1 s + 8 * i) mod 8 = 0) as Ha.
  { destruct (H1 i Hi) as (v & _ & Ha & _). done. }
  split; try done.
  intros j Hj. destruct (H1 j Hj) as [v Hv]. destruct (decide (j = i)) as [-> |].
  - exists (block_desc i). apply (word_at_set _ v); [done | apply block_desc_fits; lia].
  - exists v. apply word_at_set_other; [done | lia | done].
Qed.

Lemma exec_blocks s n k m w :
  l1_ok (w_ram w) s n -> Z.of_nat (k + m) = n ->
  for_each (Z.of_nat <$> seq k m) (if (k =? 0)%nat then 0 else 1)%nat (map_block s) w =
    Done (if (k + m =? 0)%nat then 0 else 1)%nat (blocks_set s k m w).
Proof.
  revert k w. induction m as [| m IH]; intros k w Hok Hn; [by rewrite Nat.add_0_r |].
  cbn [seq]. rewrite fmap_cons. cbn [for_each].
  destruct (ok_l1 _ _ _ Hok (Z.of_nat k) ltac:(lia)) as [v Hv].
  pose proof (exec_map_block s n (Z.of_nat k) v w Hok ltac:(lia) Hv) as E.
  replace (Z.of_nat k =? 0) with (k =? 0)%nat in E by (destruct k; done).
  rewrite (bind_done _ _ _ _ _ E).
  specialize (IH (S k) (set_word (idmap_l1 s + 8 * Z.of_nat k) (block_desc (Z.of_nat k)) w)).
  change ((S k =? 0)%nat) with false in IH. rewrite IH; [| eapply l1_ok_set; [done | done | lia] | lia].
  by rewrite Nat.add_succ_r.
Qed.

(** Every block ends up with its descriptor; the level-0 entry is untouched. *)
Lemma blocks_set_words s n k m w :
  l1_ok (w_ram w) s n -> Z.of_nat (k + m) = n ->
  (forall i, 0 <= i < Z.of_nat k -> word_at (w_ram w) (idmap_l1 s + 8 * i) (block_desc i)) ->
  (forall i, 0 <= i < n -> word_at (w_ram (blocks_set s k m w)) (idmap_l1 s + 8 * i) (block_desc i)).
Proof.
  revert k w. induction m as [| m IH]; intros k w Hok Hn Hdone i Hi; [apply Hdone; lia |]. simpl.
  destruct (ok_l1 _ _ _ Hok (Z.of_nat k) ltac:(lia)) as [v Hv].
  apply IH; [eapply l1_ok_set; [done | done | lia] | lia | | done].
  intros j Hj. pose proof (ok_count _ _ _ Hok). destruct (decide (j = Z.of_nat k)) as [-> |].
  - apply (word_at_set _ v); [done | apply block_desc_fits; lia].
  - apply word_at_set_other; [by destruct Hv as (_ & ? & _) | lia | apply Hdone; lia].
Qed.

Lemma blocks_set_other s k m p v w :
  (forall i, (k <= i < k + m)%nat -> (idmap_l1 s + 8 * Z.of_nat i) mod 8 = 0 /\ p <> idmap_l1 s + 8 * Z.of_nat i) ->
  word_at (w_ram w) p v -> word_at (w_ram (blocks_set s k m w)) p v.
Proof.
  revert k w. induction m as [| m IH]; intros k w Hd Hw; [done |]. simpl.
  apply IH; [intros i Hi; apply Hd; lia |].
  destruct (Hd k ltac:(lia)) as [Ha Hne]. by apply word_at_set_other.
Qed.

(** Only memory changes. *)
Lemma blocks_set_rest s k m w : exists ram, blocks_set s k m w = set_ram ram w.
Proof.
  revert k w. induction m as [| m IH]; intros k w; [exists (w_ram w); by destruct w |]. simpl.
  destruct (IH (S k) (set_word (idmap_l1 s + 8 * Z.of_nat k) (block_desc (Z.of_nat k)) w)) as [ram ->].
  by exists ram.
Qed.

(** ** The walk through the finished tables *)

(** A walk reads the level-1 entry of the address's gigabyte. *)
Lemma walk_level1 ram s va d :
  word_at ram (idmap_l0 s) (table_desc (idmap_l1 s)) ->
  idmap_l1 s mod 4096 = 0 -> 0 < idmap_l1 s < 2 ^ 48 ->
  0 <= va < 2 ^ 39 -> word_at ram (idmap_l1 s + 8 * (va / 2 ^ 30)) d ->
  walk ram (idmap_l0 s) va =
    if Z.land d 3 =? 1 then Some (desc_block d + va mod 2 ^ 30, d) else None.
Proof.
  intros H0 Hp Hl Hva H1.
  assert (0 <= va / 2 ^ 30 < 512) as Hi
    by (split; [apply Z.div_pos; lia | apply Z.div_lt_upper_bound; lia]).
  destruct (table_desc_output _ Hp Hl) as (Ht & Ht3 & _).
  unfold walk. rewrite !Z.land_ones, !Z.shiftr_div_pow2 by lia.
  rewrite (Z.div_small va (2 ^ 39)) by lia.
  change (8 * (0 mod 2 ^ 9)) with 0. rewrite Z.add_0_r, (read_word_at _ _ _ H0). simpl.
  rewrite Ht3, Ht. simpl.
  rewrite (Z.mod_small (va / 2 ^ 30)) by (change (2 ^ 9) with 512; lia).
  by rewrite (read_word_at _ _ _ H1).
Qed.

Lemma walk_identity ram s n va :
  word_at ram (idmap_l0 s) (table_desc (idmap_l1 s)) ->
  idmap_l1 s mod 4096 = 0 -> 0 < idmap_l1 s < 2 ^ 48 -> n <= 512 ->
  (forall i, 0 <= i < n -> word_at ram (idmap_l1 s + 8 * i) (block_desc i)) ->
  0 <= va < n * 2 ^ 30 ->
  walk ram (idmap_l0 s) va = Some (va, block_desc (va / 2 ^ 30)).
Proof.
  intros H0 Hp Hl Hn H1 Hva.
  assert (0 <= va / 2 ^ 30 < n) as Hi
    by (split; [apply Z.div_pos; lia | apply Z.div_lt_upper_bound; lia]).
  destruct (block_desc_output (va / 2 ^ 30) ltac:(lia)) as [Hb Hb3].
  rewrite (walk_level1 ram s va _ H0 Hp Hl ltac:(lia) (H1 _ Hi)), Hb3, Hb. cbn [Z.eqb Pos.eqb].
  do 2 f_equal. pose proof (Z.div_mod va (2 ^ 30)). lia.
Qed.

(** ** Turning the MMU on *)

Definition tcr_value : Z := 0x480903510.

(** The register writes of [load_ttbr0] and [enable_mmu]. *)
Definition mmu_events (base sctlr : Z) : list event :=
  [Msr TTBR0_EL1 base; Barrier Isb; Barrier TlbiVmalle1; Barrier DsbNsh; Barrier Isb;
   Msr TCR_EL1 tcr_value; Barrier Isb; Mrs SCTLR_EL1 sctlr; Msr SCTLR_EL1 (Z.lor sctlr 1);
   Barrier Isb].

Lemma exec_mmu_on base w :
  exists w' sctlr, (load_ttbr0 base ;; enable_mmu) w = Done tt w' /\ same_kernel w w' /\
    w_trace w' = w_trace w ++ mmu_events base sctlr.
Proof.
  eexists _, _. split; [reflexivity |]. split; [do 4 (split; [reflexivity |]); reflexivity |]. simpl. rewrite <- !app_assoc. reflexivity.
Qed.

(** The number of gigabytes mapped. *)
Definition page_count (s : symbols) : Z :=
  Z.max ((sym_stack_top s - kernel_start s + 0x1000000) / 2 ^ 30) 2.

Lemma exec_identity_pages s w :
  0 <= kernel_start s <= sym_stack_top s -> sym_stack_top s - kernel_start s + 0x1000000 < 2 ^ 64 ->
  identity_pages s w = Done (page_count s) w.
Proof.
  intros Hs Hf. unfold identity_pages.
  rewrite (bind_done _ _ _ (sym_stack_top s - kernel_start s) w) by (apply exec_usub; solve_fits).
  rewrite (bind_done _ _ _ 0x1000000 w) by done.
  rewrite (bind_done _ _ _ (sym_stack_top s - kernel_start s + 0x1000000) w)
    by (apply exec_uadd; solve_fits).
  by rewrite (bind_done _ _ _ _ _ (exec_udiv _ L1_SIZE_PER_ENTRY _ ltac:(done))).
Qed.

(** The messages of [setup_identity_mapping]. *)
Definition idmap_text (s : symbols) : string :=
  (("idmap_l0 addr " +:+ fmt_pointer (idmap_l0 s)) +:+ newline) +:+
  (("idmap_l1 addr " +:+ fmt_pointer (idmap_l1 s)) +:+ newline).

(** What the attribute fields of the block of gigabyte [i] say. *)
Record block_attributes (d : Z) (device : bool) : Prop := {
  ba_attr_index : field d 2 3 = if device then 0 else 2;
  ba_access_flag : Z.testbit d 10 = true;
  ba_uxn : Z.testbit d 54 = true;
  ba_pxn : Z.testbit d 53 = device;
  ba_shareability : field d 8 2 = if device then 0 else 3;
  ba_permissions : field d 6 2 = 0;
}.

Definition block_attributesb (d : Z) (device : bool) : bool :=
  (field d 2 3 =? if device then 0 else 2) && Z.testbit d 10 && Z.testbit d 54 &&
  Bool.eqb (Z.testbit d 53) device && (field d 8 2 =? if device then 0 else 3) && (field d 6 2 =? 0).

Lemma all_block_attributes : all_blocks (fun i => block_attributesb (block_desc i) (i =? 0)) = true.
Proof. vm_compute. reflexivity. Qed.

Lemma block_desc_attributes i : 0 <= i < 512 -> block_attributes (block_desc i) (i =? 0).
Proof.
  intros Hi. pose proof (all_blocks_spec _ i all_block_attributes Hi) as H.
  unfold block_attributesb in H. repeat (apply andb_prop in H as [H ?]).
  bool_to_prop. split; try done. by apply eqb_prop.
Qed.

Lemma w_ram_set_word p v w : w_ram (set_word p v w) = ram_write p (le_split 8 v) (w_ram w).
Proof. done. Qed.

(** Writing the level-0 entry does not disturb the level-1 table. *)
Lemma l1_ok_set_l0 s n v u w :
  word_at (w_ram w) (idmap_l0 s) v -> l1_ok (w_ram w) s n ->
  l1_ok (w_ram (set_word (idmap_l0 s) u w)) s n.
Proof.
  intros (_ & Ha & _) [H1 H2 H3 H4 H5]. split; try done.
  intros i Hi. destruct (H1 i Hi) as [x Hx]. exists x. apply word_at_set_other; auto.
Qed.

(** The level-0 entry is complete and the blocks are still to be written. *)
Lemma exec_level0 fuel s n w :
  tables_ok (w_ram w) s n -> console_up fuel w ->
  exists w' t,
    (forall k : M unit,
      (println fuel ("idmap_l0 addr " +:+ fmt_pointer (idmap_l0 s)) ;;
       mark_table_desc (idmap_l0 s) ;;
       set_table_attrs (idmap_l0 s) (Z.lor TABLE_UXNTABLE TABLE_APTABLE0) ;;
       println fuel ("idmap_l1 addr " +:+ fmt_pointer (idmap_l1 s)) ;;
       set_next_lvl_table_addr (idmap_l0 s) (idmap_l1 s) ;;
       k) w = k w') /\
    w_trace w' = w_trace w ++ t /\ Forall (console_event (console_base (w_uart w))) t /\
    tx_of (console_base (w_uart w)) t = bytes_of (idmap_text s) /\
    w_dtb w' = w_dtb w /\ w_gic w' = w_gic w /\ w_uart w' = w_uart w /\ w_rx w' = w_rx w /\
    w_ram w' = w_ram (set_word (idmap_l0 s) (table_desc (idmap_l1 s)) w).
Proof.
  intros [H0 Hok] Hup.
  destruct (prints_println fuel ("idmap_l0 addr " +:+ fmt_pointer (idmap_l0 s)) w Hup)
    as (w1 & E1 & (Er1 & Ed1 & Eg1 & Eu1 & Ex1) & t1 & Htr1 & Hev1 & Htx1).
  rewrite <- Er1 in H0.
  set (u := Z.lor 3 (Z.lor TABLE_UXNTABLE TABLE_APTABLE0)).
  set (w2 := set_word (idmap_l0 s) u w1).
  assert (w_uart w2 = w_uart w) as Eu2 by done.
  assert (console_up fuel w2) as Hup2 by (unfold console_up; by rewrite Eu2).
  destruct (prints_println fuel ("idmap_l1 addr " +:+ fmt_pointer (idmap_l1 s)) w2 Hup2)
    as (w3 & E3 & (Er3 & Ed3 & Eg3 & Eu3 & Ex3) & t3 & Htr3 & Hev3 & Htx3).
  assert (word_at (w_ram w3) (idmap_l0 s) u) as Hw3.
  { rewrite Er3. by apply (word_at_set _ 0). }
  assert (fits USIZE (idmap_l1 s)) as Hfit
    by (pose proof (ok_pa _ _ _ Hok); unfold fits, USIZE; change (2 ^ 64) with (2 ^ 16 * 2 ^ 48); lia).
  exists (set_word (idmap_l0 s) (table_desc (idmap_l1 s)) w3), (t1 ++ t3). split.
  { intros k. rewrite (bind_done _ _ _ _ _ E1).
    rewrite (bind_done _ _ _ tt (set_word (idmap_l0 s) 3 w1)) by by apply (exec_desc_or _ 0).
    rewrite (bind_done _ _ _ tt w2) by by eapply exec_desc_or_set.
    rewrite (bind_done _ _ _ _ _ E3).
    rewrite (bind_done _ _ _ tt (set_word (idmap_l0 s) (table_desc (idmap_l1 s)) w3)); [done |].
    unfold set_next_lvl_table_addr. rewrite page_mask_aligned by (apply Hok || done).
    by apply exec_desc_or. }
  rewrite Eu2 in Hev3, Htx3.
  split; [unfold set_word; cbn [w_trace set_ram]; rewrite Htr3; unfold w2, set_word; cbn [w_trace set_ram];
    by rewrite Htr1, app_assoc |].
  split; [by apply Forall_app |].
  split; [unfold idmap_text; by rewrite tx_of_app, bytes_of_app, Htx1, Htx3 |].
  split; [exact (eq_trans Ed3 Ed1) |].
  split; [exact (eq_trans Eg3 Eg1) |]. split; [exact (eq_trans Eu3 Eu1) |].
  split; [exact (eq_trans Ex3 Ex1) |].
  rewrite !w_ram_set_word, Er3. unfold w2. rewrite w_ram_set_word, Er1.
  by rewrite ram_write_twice by by rewrite !length_le_split.
Qed.

(** The MMU's view of the tables at [l0]: every address below [n] gigabytes is
    translated to itself, the first gigabyte as device memory, the rest as
    normal memory. *)
Definition identity_mapped (ram : gmap Z byte) (l0 n : Z) : Prop :=
  forall va, 0 <= va < n * 2 ^ 30 ->
    exists d, walk ram l0 va = Some (va, d) /\ block_attributes d (va <? 2 ^ 30).

(** The finished tables map the identity. *)
Lemma blocks_identity s n w :
  l1_ok (w_ram w) s n -> word_at (w_ram w) (idmap_l0 s) (table_desc (idmap_l1 s)) ->
  identity_mapped (w_ram (blocks_set s 0 (Z.to_nat n) w)) (idmap_l0 s) n.
Proof.
  intros Hl1 H0 va Hva. pose proof (ok_count _ _ _ Hl1) as Hn. set (m := Z.to_nat n).
  exists (block_desc (va / 2 ^ 30)). split.
  - apply (walk_identity _ _ n); [| apply Hl1 | apply Hl1 | lia | | lia].
    + apply blocks_set_other; [| done]. intros i Hi. split.
      * destruct (ok_l1 _ _ _ Hl1 (Z.of_nat i) ltac:(unfold m in Hi; lia)) as (v & _ & Ha & _). done.
      * intros E. apply (ok_distinct _ _ _ Hl1 (Z.of_nat i)); [unfold m in Hi; lia | done].
    + intros i Hi. apply (blocks_set_words s n); [done | unfold m; lia | lia | done].
  - assert (0 <= va / 2 ^ 30 < n) as Hi
      by (split; [apply Z.div_pos; lia | apply Z.div_lt_upper_bound; lia]).
    replace (va <? 2 ^ 30) with (va / 2 ^ 30 =? 0); [apply block_desc_attributes; lia |].
    destruct (Z.ltb_spec va (2 ^ 30)).
    + rewrite Z.div_small by lia. done.
    + apply Z.eqb_neq. assert (1 <= va / 2 ^ 30) by (apply Z.div_le_lower_bound; lia). lia.
Qed.

End identity.

(** ** Theorems *)

Lemma exec_identity_map {HW : Hardware} fuel s (w : world) :
  let n := page_count s in
  0 <= kernel_start s <= sym_stack_top s -> sym_stack_top s - kernel_start s + 0x1000000 < 2 ^ 64 ->
  tables_ok (w_ram w) s n -> console_up fuel w ->
  exists w' t sctlr,
    setup_identity_mapping fuel s w = Done tt w' /\ identity_mapped (w_ram w') (idmap_l0 s) n /\
    word_at (w_ram w') (idmap_l0 s) (table_desc (idmap_l1 s)) /\
    w_trace w' = w_trace w ++ t ++ mmu_events (idmap_l0 s) sctlr /\
    Forall (console_event (console_base (w_uart w))) t /\
    tx_of (console_base (w_uart w)) t = bytes_of (idmap_text s) /\
    (forall p v, p <> idmap_l0 s -> (forall i, 0 <= i < n -> p <> idmap_l1 s + 8 * i) ->
       word_at (w_ram w) p v -> word_at (w_ram w') p v) /\
    w_dtb w' = w_dtb w /\ w_gic w' = w_gic w /\ w_uart w' = w_uart w /\ w_rx w' = w_rx w.
Proof.
  intros n Hs Hf Hok Hup. destruct Hok as [H0 Hl1]. pose proof (ok_count _ _ _ Hl1) as Hn.
  destruct (exec_level0 fuel s n w (conj H0 Hl1) Hup)
    as (w1 & t & E1 & Htr1 & Hev & Htx & Ed & Eg & Eu & Ex & Er).
  destruct (table_desc_output _ (ok_page _ _ _ Hl1) (ok_pa _ _ _ Hl1)) as (_ & _ & Hfits).
  assert (l1_ok (w_ram w1) s n) as Hl1' by (rewrite Er; by apply (l1_ok_set_l0 s n 0)).
  assert (word_at (w_ram w1) (idmap_l0 s) (table_desc (idmap_l1 s))) as H0'
    by (rewrite Er; by apply (word_at_set _ 0)).
  set (m := Z.to_nat n).
  pose proof (exec_blocks s n 0 m w1 Hl1' ltac:(unfold m; lia)) as E2. simpl in E2.
  destruct (blocks_set_rest s 0 m w1) as [ram Eram].
  destruct (exec_mmu_on (idmap_l0 s) (blocks_set s 0 m w1)) as (w3 & sctlr & E3 & Hsame & Htr3).
  pose proof Hsame as (Er3 & Ed3 & Eg3 & Eu3 & Ex3).
  exists w3, t, sctlr. split; [| split; [| split; [| split; [| split; [done | split; [done | split]]]]]].
  - unfold setup_identity_mapping. rewrite (bind_done _ _ _ _ _ (exec_identity_pages s w Hs Hf)).
    fold n. rewrite E1. by rewrite (bind_done _ _ _ _ _ E2).
  - rewrite Er3. by apply (blocks_identity s n).
  - rewrite Er3. apply blocks_set_other; [| done]. intros i Hi. split.
    + by destruct (ok_l1 _ _ _ Hl1' (Z.of_nat i) ltac:(unfold m in Hi; lia)) as (v & _ & Ha & _).
    + intros E. apply (ok_distinct _ _ _ Hl1 (Z.of_nat i)); [unfold m in Hi; lia | done].
  - rewrite Htr3, Eram. simpl. by rewrite Htr1, <- app_assoc.
  - intros p v Hp0 Hp1 Hv. rewrite Er3. apply blocks_set_other.
    + intros i Hi. destruct (ok_l1 _ _ _ Hl1' (Z.of_nat i) ltac:(unfold m in Hi; lia)) as (u & _ & Ha & _).
      split; [exact Ha | apply Hp1; unfold m in Hi; lia].
    + rewrite Er. apply word_at_set_other; [apply H0 | done | done].
  - rewrite Ed3, Eg3, Eu3, Ex3, Eram. simpl. by rewrite Ed, Eg, Eu, Ex.
Qed.

(** The kernel's image, its stack and the two table pages. *)
Definition image_ok (ram : gmap Z byte) s : Prop :=
  0 <= kernel_start s <= sym_stack_top s /\
  sym_stack_top s - kernel_start s + 0x1000000 < 2 ^ 64 /\
  tables_ok ram s (page_count s).

(** C17: [setup_identity_mapping] leaves page tables through which the MMU
    translates every address below [page_count] gigabytes (at least 2) to
    itself: the first gigabyte as device memory that is never executable, the
    others as inner-shareable write-back memory executable at EL1 only.  The
    tables are complete before TTBR0, TCR and SCTLR.M are written, in that
    order with their barriers; before that only the two messages are printed.
    No word of memory changes but the level-0 entry and the [page_count] entries
    of level 1: what the level-1 table held beyond them stays. *)
Theorem identity_map_translates {HW : Hardware} fuel s (w : world) :
  let n := page_count s in
  0 <= kernel_start s <= sym_stack_top s -> sym_stack_top s - kernel_start s + 0x1000000 < 2 ^ 64 ->
  tables_ok (w_ram w) s n -> console_up fuel w ->
  exists w' t sctlr,
    setup_identity_mapping fuel s w = Done tt w' /\
    (forall va, 0 <= va < n * 2 ^ 30 ->
       exists d, walk (w_ram w') (idmap_l0 s) va = Some (va, d) /\
         block_attributes d (va <? 2 ^ 30)) /\
    w_trace w' = w_trace w ++ t ++ mmu_events (idmap_l0 s) sctlr /\
    Forall (console_event (console_base (w_uart w))) t /\
    tx_of (console_base (w_uart w)) t = bytes_of (idmap_text s) /\
    (forall p v, p <> idmap_l0 s -> (forall i, 0 <= i < n -> p <> idmap_l1 s + 8 * i) ->
       word_at (w_ram w) p v -> word_at (w_ram w') p v) /\
    w_dtb w' = w_dtb w /\ w_gic w' = w_gic w /\ w_uart w' = w_uart w /\ w_rx w' = w_rx w.
Proof.
  intros n Hs Hf Hok Hup. destruct (exec_identity_map fuel s w Hs Hf Hok Hup) as (w' & t & sctlr & E & H & _ & Hr).
  by exists w', t, sctlr.
Qed.

Lemma exec_configure_mair_range {HW : Hardware} conf range (w : world) :
  0 <= range < 8 ->
  configure_mair_range conf range w =
    Done tt (log (Barrier Isb) (after_msr MAIR_EL1
      (Z.lor (peek_reg MAIR_EL1 w) (shl U64 conf (range * 8))) (after_mrs MAIR_EL1 w))).
Proof.
  intros Hr. unfold configure_mair_range.
  rewrite (bind_done _ _ _ (range * 8) w) by (apply exec_umul; solve_fits).
  by rewrite (bind_done _ _ _ (shl U64 conf (range * 8)) w) by (apply exec_ushl; unfold U64; lia).
Qed.

(** The accesses of [setup_mair_ranges]: three read-modify-writes. *)
Definition mair_events (m0 m1 m2 : Z) : list event :=
  [Mrs MAIR_EL1 m0; Msr MAIR_EL1 (Z.lor m0 0); Barrier Isb;
   Mrs MAIR_EL1 m1; Msr MAIR_EL1 (Z.lor m1 0xff0000); Barrier Isb;
   Mrs MAIR_EL1 m2; Msr MAIR_EL1 (Z.lor m2 0x4400); Barrier Isb].

Lemma exec_setup_mair {HW : Hardware} (w : world) :
  exists w' m0 m1 m2, setup_mair_ranges w = Done tt w' /\ same_kernel w w' /\
    w_trace w' = w_trace w ++ mair_events m0 m1 m2.
Proof.
  unfold setup_mair_ranges. do 4 eexists. split.
  { do 2 (erewrite bind_done by (apply exec_configure_mair_range;
      unfold MAIR_IDX_DEVICE, MAIR_IDX_NORMAL_WB; lia)).
    apply exec_configure_mair_range. unfold MAIR_IDX_NORMAL_NC. lia. }
  split; [done |]. unfold after_msr, after_mrs. cbn [w_trace log set_trace set_hw].
  rewrite <- !app_assoc. reflexivity.
Qed.

(** [setup_mair_ranges] ors the three attribute encodings into their
    8-bit slots of MAIR_EL1, 0x00 into slot 0, 0x44 into slot 1 and 0xff into
    slot 2, and keeps the bits that were already set: the slots hold exactly
    these encodings if the register was 0 before. *)
Theorem mair_slots {HW : Hardware} {PS : PlainSys HW MAIR_EL1} (w : world) :
  let m := wrap U64 (sys_at (w_hw w)) in
  exists w',
    setup_mair_ranges w = Done tt w' /\ same_kernel w w' /\
    forall k, 0 <= k < 8 ->
      field (sys_at (w_hw w')) (8 * k) 8 =
        Z.lor (field m (8 * k) 8) (if k =? 1 then 0x44 else if k =? 2 then 0xff else 0).
Proof.
  intros m. unfold setup_mair_ranges.
  do 2 (erewrite bind_done by (apply exec_configure_mair_range;
    unfold MAIR_IDX_DEVICE, MAIR_IDX_NORMAL_WB; lia)).
  eexists. split; [apply exec_configure_mair_range; unfold MAIR_IDX_NORMAL_NC; lia |].
  split; [done |].
  assert (forall v w0, peek_reg MAIR_EL1 (log (Barrier Isb) (after_msr MAIR_EL1 v w0)) = wrap U64 v) as Hpeek.
  { intros v w0. unfold peek_reg. simpl. by rewrite plain_mrs, plain_msr. }
  rewrite !Hpeek. simpl. rewrite plain_msr.
  assert (peek_reg MAIR_EL1 w = m) as -> by (unfold peek_reg, m; by rewrite plain_mrs).
  assert (fits U64 m) as Hm by (by apply wrap_fits).
  rewrite !(wrap_small U64) by (repeat first [done | apply fits_lor | apply wrap_fits | apply shl_fits]).
  change (shl U64 MAIR_DEVICE_NGNRNE (MAIR_IDX_DEVICE * 8)) with 0.
  change (shl U64 MAIR_NORMAL_WB (MAIR_IDX_NORMAL_WB * 8)) with (Z.shiftl 0xff 16).
  change (shl U64 MAIR_NORMAL_NC (MAIR_IDX_NORMAL_NC * 8)) with (Z.shiftl 0x44 8).
  intros k Hk. rewrite Z.lor_0_r. apply Z.bits_inj'. intros i Hi.
  rewrite Z.lor_spec, !field_bits, !Z.lor_spec, !Z.shiftl_spec by lia.
  destruct (Z.ltb_spec i 8); simpl.
  - rewrite <- orb_assoc. f_equal.
    assert (k = 0 \/ k = 1 \/ k = 2 \/ 3 <= k) as [-> | [-> | [-> | Hk3]]] by lia; simpl.
    + rewrite !Z.testbit_neg_r by lia. by rewrite Z.bits_0.
    + rewrite (Z.testbit_neg_r _ (i + 8 - 16)) by lia. simpl. f_equal. lia.
    + rewrite (testbit_high 8 0x44) by lia. rewrite orb_false_r. f_equal. lia.
    + rewrite (testbit_high 8 0xff), (testbit_high 8 0x44) by lia.
      rewrite (proj2 (Z.eqb_neq k 1)), (proj2 (Z.eqb_neq k 2)) by lia. by rewrite Z.bits_0.
  - symmetry. apply (testbit_high 8); [| lia]. repeat case_match; lia.
Qed.

(** *** Witnesses *)

(** The kernel at 0x50000000 with its tables and its stack of 8 MiB. *)
Definition virt_symbols : symbols := mkSymbols 0x50000000 0x50821000 0x50020000 0x50021000.

Definition virt_table_ram : gmap Z byte :=
  ram_write 0x50020000 (replicate 8 Byte.x00) (ram_of 0x50021000 (replicate 16 Byte.x00)).

Lemma virt_tables_ok : tables_ok virt_table_ram virt_symbols 2.
Proof.
  split; [split; [done |]; split; [done |]; split; [solve_fits |]; by_decision |].
  split; try done.
  - intros i Hi. exists 0. assert (i = 0 \/ i = 1) as [-> | ->] by lia;
      (split; [done |]; split; [done |]; split; [solve_fits |]; by_decision).
  - intros i Hi. simpl. lia.
Qed.

Lemma identity_map_translates_witness :
  exists w', @setup_identity_mapping quiet 1 virt_symbols (@boot_world quiet tt virt_table_ram) = Done tt w' /\
    (exists d, walk (w_ram w') 0x50020000 0x09000018 = Some (0x09000018, d) /\ block_attributes d true) /\
    (exists d, walk (w_ram w') 0x50020000 0x50001234 = Some (0x50001234, d) /\ block_attributes d false).
Proof.
  destruct (identity_map_translates 1 virt_symbols (@boot_world quiet tt virt_table_ram))
    as (w' & t & sctlr & E & Hwalk & _).
  - simpl. lia.
  - reflexivity.
  - exact virt_tables_ok.
  - by apply quiet_console_up.
  - exists w'. split; [exact E |].
    split; apply Hwalk; (split; [lia | reflexivity]).
Defined.
