(* ===== verification/Layout.v ===== *)
(** * src/linker.lds: where the kernel and its page tables lie

    The symbols of the linker script as a function of the sizes of the input
    sections, and what this layout means for the identity map: it satisfies
    what [setup_identity_mapping] needs, the whole kernel lies in the memory
    that is mapped as normal memory, and the level-1 table, for which no page
    is reserved, is the lowest page of the stack. *)

From S2P Require Export Identity.

Local Open Scope Z_scope.

(** include/asm/memory.h and include/constants.h, as the script includes them. *)
Definition LD_PAGE_SHIFT : Z := 12.
Definition LD_PAGE_SIZE : Z := Z.shiftl 1 LD_PAGE_SHIFT.
Definition LD_STACK_SIZE : Z := 8 * 1024 * 1024.

(** The memory region RAM. *)
Definition ORIGIN_RAM : Z := 0x50000000.
Definition LENGTH_RAM : Z := 16 * 1024 * 1024.

(** [ALIGN(n)] at the location [a]. *)
Definition align (n a : Z) : Z := (a + (n - 1)) / n * n.

(** The sizes of the input sections that the script collects. *)
Record sections := mkSections { text : Z; rodata : Z; data : Z; bss : Z }.

(** The location counter at the symbols the script defines. *)
Record layout := mkLayout {
  __kernel_start : Z; __text_start : Z; __text_end : Z; __data_start : Z; __rodata_start : Z;
  __rodata_end : Z; _bss_start : Z; __idmap_l0 : Z; __idmap_l1 : Z; _bss_end : Z; __data_end : Z;
  __kernel_end : Z; __stack_top : Z;
}.

Definition link (z : sections) : layout :=
  let start := ORIGIN_RAM in
  let text_end := start + text z in
  let rodata_start := align LD_PAGE_SIZE text_end in
  let rodata_end := rodata_start + rodata z in
  let data_end := align 4096 rodata_end + data z in
  let bss_start := align LD_PAGE_SIZE data_end in
  let l0 := align LD_PAGE_SIZE (bss_start + bss z) in
  let l1 := l0 + LD_PAGE_SIZE in
  {| __kernel_start := start; __text_start := start; __text_end := text_end; __data_start := text_end;
     __rodata_start := rodata_start; __rodata_end := rodata_end; _bss_start := bss_start;
     __idmap_l0 := l0; __idmap_l1 := l1; _bss_end := l1; __data_end := l1; __kernel_end := l1;
     __stack_top := align LD_PAGE_SIZE (l1 + LD_STACK_SIZE) |}.

(** The symbols that identity.rs declares. *)
Definition symbols_of (l : layout) : symbols :=
  mkSymbols (__kernel_start l) (__stack_top l) (__idmap_l0 l) (__idmap_l1 l).

(** The linker places every output section in RAM, or fails. *)
Definition links (z : sections) : Prop :=
  0 <= text z /\ 0 <= rodata z /\ 0 <= data z /\ 0 <= bss z /\
  __kernel_end (link z) <= ORIGIN_RAM + LENGTH_RAM.

Lemma align_bounds n a : 0 < n -> a <= align n a < a + n.
Proof.
  intros Hn. unfold align.
  pose proof (Z.div_mod (a + (n - 1)) n ltac:(lia)). pose proof (Z.mod_pos_bound (a + (n - 1)) n Hn). lia.
Qed.

Lemma align_aligned n a : 0 < n -> align n a mod n = 0.
Proof. intros Hn. apply Z.mod_mul. lia. Qed.

(** The page of the level-1 table ends where the stack, 8 MiB later, begins. *)
Lemma stack_top_exact z : __stack_top (link z) = __idmap_l1 (link z) + LD_STACK_SIZE.
Proof.
  unfold link, __stack_top, __idmap_l1, align. change LD_PAGE_SIZE with 4096. unfold LD_STACK_SIZE.
  set (q := (_ + bss z + (4096 - 1)) / 4096).
  replace (q * 4096 + 4096 + 8 * 1024 * 1024 + (4096 - 1)) with (4095 + (q + 2049) * 4096) by lia.
  rewrite Z.div_add by lia. change (4095 / 4096) with 0. lia.
Qed.

(** The script's sections follow each other. *)
Lemma link_ordered z :
  links z ->
  let l := link z in
  __kernel_start l <= __text_end l <= __rodata_start l /\
  __rodata_start l <= __rodata_end l <= _bss_start l /\ _bss_start l <= __idmap_l0 l /\
  __idmap_l0 l + 4096 = __idmap_l1 l /\ __idmap_l1 l = __kernel_end l /\
  __idmap_l0 l mod 4096 = 0 /\ __idmap_l1 l mod 4096 = 0 /\ __stack_top l mod 4096 = 0.
Proof.
  intros (Ht & Hr & Hd & Hb & _) l.
  pose proof (align_aligned 4096 (_bss_start l + bss z) ltac:(lia)) as A0.
  pose proof (align_bounds 4096 (__text_end l) ltac:(lia)).
  pose proof (align_bounds 4096 (__rodata_end l) ltac:(lia)).
  pose proof (align_bounds 4096 (align 4096 (__rodata_end l) + data z) ltac:(lia)).
  pose proof (align_bounds 4096 (_bss_start l + bss z) ltac:(lia)).
  change (align 4096 (__text_end l)) with (__rodata_start l) in *.
  change (align 4096 (align 4096 (__rodata_end l) + data z)) with (_bss_start l) in *.
  change (align 4096 (_bss_start l + bss z)) with (__idmap_l0 l) in *.
  assert (__idmap_l1 l = __idmap_l0 l + 1 * 4096) as E1 by reflexivity.
  assert (__stack_top l = __idmap_l0 l + 2049 * 4096) as E2.
  { unfold l. rewrite stack_top_exact. fold l. rewrite E1. unfold LD_STACK_SIZE. lia. }
  assert (__text_end l = __kernel_start l + text z) by reflexivity.
  assert (__rodata_end l = __rodata_start l + rodata z) by reflexivity.
  assert (__kernel_end l = __idmap_l1 l) by reflexivity.
  rewrite E2. repeat split; lia.
Qed.

(** The identity map of this image is that of two gigabytes. *)
Lemma link_page_count z : links z -> page_count (symbols_of (link z)) = 2.
Proof.
  intros Hl. pose proof (link_ordered z Hl) as (H1 & H2 & H3 & H4 & H5 & _).
  destruct Hl as (_ & _ & _ & _ & Hend). unfold page_count, symbols_of. cbn [sym_stack_top kernel_start].
  rewrite stack_top_exact, H5. change (__kernel_start (link z)) with ORIGIN_RAM.
  unfold ORIGIN_RAM, LENGTH_RAM, LD_STACK_SIZE in *.
  rewrite Z.max_r; [done |]. enough ((__kernel_end (link z) + 8 * 1024 * 1024 - 0x50000000 + 0x1000000) / 2 ^ 30 < 1) by lia.
  apply Z.div_lt_upper_bound; lia.
Qed.

(** Memory as the loader leaves it: the level-0 page zeroed (.bss), the first
    words of the level-1 page mapped, with any contents. *)
Definition loaded (ram : gmap Z byte) (l : layout) : Prop :=
  word_at ram (__idmap_l0 l) 0 /\
  exists v0 v1, word_at ram (__idmap_l1 l) v0 /\ word_at ram (__idmap_l1 l + 8) v1.

Lemma link_image_ok z ram : links z -> loaded ram (link z) -> image_ok ram (symbols_of (link z)).
Proof.
  intros Hl (H0 & v0 & v1 & Hv0 & Hv1). pose proof (link_page_count z Hl) as Hn.
  pose proof (link_ordered z Hl) as (O1 & O2 & O3 & O4 & O5 & A0 & A1 & _).
  pose proof (stack_top_exact z) as Hst. destruct Hl as (_ & _ & _ & _ & Hend).
  change (__kernel_start (link z)) with ORIGIN_RAM in *.
  unfold ORIGIN_RAM, LENGTH_RAM, LD_STACK_SIZE in *. unfold image_ok. rewrite Hn.
  cbn [symbols_of kernel_start sym_stack_top idmap_l0 idmap_l1].
  change (__kernel_start (link z)) with 0x50000000.
  split; [lia |]. split; [lia |]. split; [exact H0 |].
  split; cbn [symbols_of idmap_l0 idmap_l1]; [| exact A1 | lia | lia | lia].
  intros i Hi. assert (i = 0 \/ i = 1) as [-> | ->] by lia; [exists v0 | by exists v1].
  by rewrite Z.add_0_r.
Qed.

(** ** What the layout means for the MMU *)

Section mapping.
Context {HW : Hardware} (fuel : nat).
Implicit Types (w : world) (z : sections).

(** C18: on the image as linked, whatever the sizes of its sections, the identity
    map covers two gigabytes, and every address of the kernel's image and of
    its stack, the two tables included, translates to itself as normal memory
    when the MMU comes on; the addresses below 1 GiB, where the devices of the
    board are, do so as device memory. *)
Theorem linked_image_is_mapped z w :
  links z -> loaded (w_ram w) (link z) -> console_up fuel w ->
  let l := link z in
  exists w', setup_identity_mapping fuel (symbols_of l) w = Done tt w' /\
    (forall va, __kernel_start l <= va < __stack_top l ->
       exists d, walk (w_ram w') (__idmap_l0 l) va = Some (va, d) /\ block_attributes d false) /\
    (forall va, 0 <= va < 2 ^ 30 ->
       exists d, walk (w_ram w') (__idmap_l0 l) va = Some (va, d) /\ block_attributes d true).
Proof.
  intros Hl Hram Hup l. destruct (link_image_ok z (w_ram w) Hl Hram) as (Hs & Hf & Hok).
  destruct (exec_identity_map fuel (symbols_of l) w Hs Hf Hok Hup) as (w' & t & sctlr & E & Hmap & _).
  exists w'. split; [exact E |]. unfold identity_mapped in Hmap. unfold l in Hmap.
  rewrite (link_page_count z Hl) in Hmap. fold l in Hmap.
  change (idmap_l0 (symbols_of l)) with (__idmap_l0 l) in Hmap.
  split; intros va Hva; (destruct (Hmap va) as (d & Hw & Ha); [| exists d; split; [exact Hw |]]).
  - pose proof (stack_top_exact z) as Hst. destruct Hl as (_ & _ & _ & _ & Hend). fold l in Hst, Hend.
    change (__kernel_end l) with (__idmap_l1 l) in Hend. change (__kernel_start l) with ORIGIN_RAM in Hva.
    unfold ORIGIN_RAM, LENGTH_RAM, LD_STACK_SIZE in *. lia.
  - change (__kernel_start l) with ORIGIN_RAM in Hva. unfold ORIGIN_RAM in Hva.
    by rewrite (proj2 (Z.ltb_ge va (2 ^ 30))) in Ha by lia.
  - lia.
  - by rewrite (proj2 (Z.ltb_lt va (2 ^ 30))) in Ha by lia.
Qed.

(** C19: no page is reserved for the level-1 table: it begins where the image,
    .bss included, ends, and is the lowest page of the stack.  The mapping
    writes only its first two words, so that an address from 2 GiB on is
    translated by whatever word the memory of the stack held there. *)
Theorem level1_table_in_stack z w :
  links z -> loaded (w_ram w) (link z) -> console_up fuel w ->
  let l := link z in
  (_bss_end l = __idmap_l1 l /\ __kernel_end l = __idmap_l1 l /\
   __stack_top l - LD_STACK_SIZE = __idmap_l1 l) /\
  exists w', setup_identity_mapping fuel (symbols_of l) w = Done tt w' /\
    forall va v, 2 ^ 31 <= va < 2 ^ 39 -> word_at (w_ram w) (__idmap_l1 l + 8 * (va / 2 ^ 30)) v ->
      walk (w_ram w') (__idmap_l0 l) va =
        if Z.land v 3 =? 1 then Some (desc_block v + va mod 2 ^ 30, v) else None.
Proof.
  intros Hl Hram Hup l. split; [do 2 (split; [done |]); unfold l; rewrite stack_top_exact; lia |].
  pose proof (link_image_ok z (w_ram w) Hl Hram) as (Hs & Hf & Hok).
  pose proof (link_ordered z Hl) as (_ & _ & _ & E01 & _). fold l in E01.
  destruct (exec_identity_map fuel (symbols_of l) w Hs Hf Hok Hup)
    as (w' & t & sctlr & E & _ & H0 & _ & _ & _ & Hrest & _).
  exists w'. split; [exact E |]. intros va v Hva Hv. destruct Hok as [_ Hl1].
  apply (walk_level1 _ (symbols_of l)); [exact H0 | apply Hl1 | apply Hl1 | lia |].
  assert (2 <= va / 2 ^ 30) by (apply Z.div_le_lower_bound; lia).
  unfold l in Hrest. rewrite (link_page_count z Hl) in Hrest. fold l in Hrest.
  apply Hrest; cbn [symbols_of idmap_l0 idmap_l1]; [lia | lia | exact Hv].
Qed.

End mapping.

(** ** Witnesses *)

(** An image of about 128 KiB. *)
Definition virt_sections : sections := mkSections 0x14a30 0x5120 0x48 0x3e10.

Lemma virt_layout : symbols_of (link virt_sections) = virt_symbols.
Proof. reflexivity. Qed.

Lemma virt_links : links virt_sections.
Proof. repeat split; vm_compute; discriminate. Qed.

(** The third word of the level-1 page happens to look like a block. *)
Definition stale_ram : gmap Z byte := ram_write 0x50021010 (le_split 8 1) virt_table_ram.

Lemma stale_word : word_at stale_ram 0x50021010 1.
Proof. split; [done |]. split; [done |]. split; [solve_fits |]. by_decision. Qed.

Lemma virt_loaded : loaded virt_table_ram (link virt_sections).
Proof.
  split; [| exists 0, 0; split];
    (split; [done |]; split; [done |]; split; [solve_fits |]; by_decision).
Qed.

Lemma stale_loaded : loaded stale_ram (link virt_sections).
Proof.
  split; [| exists 0, 0; split];
    (split; [done |]; split; [done |]; split; [solve_fits |]; by_decision).
Qed.

(** The UART, and the kernel's entry point. *)
Lemma linked_image_is_mapped_witness :
  exists w', @setup_identity_mapping quiet 1 virt_symbols (@boot_world quiet tt virt_table_ram) = Done tt w' /\
    (exists d, walk (w_ram w') 0x50020000 0x50000000 = Some (0x50000000, d) /\ block_attributes d false) /\
    (exists d, walk (w_ram w') 0x50020000 0x09000000 = Some (0x09000000, d) /\ block_attributes d true).
Proof.
  destruct (linked_image_is_mapped (HW := quiet) 1 virt_sections (@boot_world quiet tt virt_table_ram)
    virt_links virt_loaded ltac:(by apply quiet_console_up)) as (w' & E & Hk & Hd).
  exists w'. split; [exact E |].
  split; [exact (Hk 0x50000000 ltac:(split; [discriminate | reflexivity])) |].
  exact (Hd 0x09000000 ltac:(split; [discriminate | reflexivity])).
Defined.

(** The first address above 2 GiB is translated to physical address 0. *)
Lemma level1_table_in_stack_witness :
  exists w', @setup_identity_mapping quiet 1 virt_symbols (@boot_world quiet tt stale_ram) = Done tt w' /\
    walk (w_ram w') 0x50020000 0x80000000 = Some (0, 1).
Proof.
  destruct (level1_table_in_stack (HW := quiet) 1 virt_sections (@boot_world quiet tt stale_ram)
    virt_links stale_loaded ltac:(by apply quiet_console_up)) as (_ & w' & E & H).
  exists w'. split; [exact E |].
  exact (H 0x80000000 1 ltac:(split; [discriminate | reflexivity]) stale_word).
Defined.
