(* ===== verification/Irq.v ===== *)
(** * src/kernel/irq.rs: the exception handlers

    The handlers that the vectors branch to, with the texts they print, the
    interrupt dispatcher and the register dump.  [Regs] is the struct the
    handlers are given a reference to; what the vectors really put there is in
    [Vectors]. *)

From S2P Require Export Console.

Local Open Scope Z_scope.
Local Open Scope kernel_scope.

Module Regs.
Record t := mk {
  spsr : Z; elr : Z; esr : Z; xzr : Z;
  x0 : Z; x1 : Z; x2 : Z; x3 : Z; x4 : Z; x5 : Z; x6 : Z; x7 : Z;
  x8 : Z; x9 : Z; x10 : Z; x11 : Z; x12 : Z; x13 : Z; x14 : Z; x15 : Z;
  x16 : Z; x17 : Z; x18 : Z; x19 : Z; x20 : Z; x21 : Z; x22 : Z; x23 : Z;
  x24 : Z; x25 : Z; x26 : Z; x27 : Z; x28 : Z; x29 : Z; x30 : Z;
}.

Definition NAMES : list string :=
  ["x0 "; "x1 "; "x2 "; "x3 "; "x4 "; "x5 "; "x6 "; "x7 "; "x8 "; "x9 "; "x10"; "x11"; "x12";
   "x13"; "x14"; "x15"; "x16"; "x17"; "x18"; "x19"; "x20"; "x21"; "x22"; "x23"; "x24"; "x25";
   "x26"; "x27"; "x28"; "x29"; "x30"; "esr"; "elr"; "spsr"]%string.

Definition as_array (self : t) : list Z :=
  [x0 self; x1 self; x2 self; x3 self; x4 self; x5 self; x6 self; x7 self; x8 self;
   x9 self; x10 self; x11 self; x12 self; x13 self; x14 self; x15 self; x16 self;
   x17 self; x18 self; x19 self; x20 self; x21 self; x22 self; x23 self; x24 self;
   x25 self; x26 self; x27 self; x28 self; x29 self; x30 self; esr self; elr self;
   spsr self].

(** [self.as_array().into_iter().zip(NAMES).map(|(val, name)| (name, val))] *)
Definition iter (self : t) : list (string * Z) :=
  (fun '(val, name) => (name, val)) <$> combine (as_array self) NAMES.
End Regs.

Section irq.
Context {HW : Hardware} (fuel : nat).
Implicit Types (w : world) (regs : Regs.t).

Definition regs_print regs : M unit :=
  println fuel (newline +:+ "Registers:") ;;
  for_each (Regs.iter regs) tt (fun _ '(name, value) =>
    println fuel (name +:+ ": 0x" +:+ fmt_016x value)).

(** One iteration of the byte loop. *)
Definition print_opcode_byte (opcode i : Z) : M unit :=
  bits <- umul U32 i 8 ;;
  shifted <- ushr U32 opcode bits ;;
  let byte := wrap U8 shifted in
  (if i =? 0 then print fuel ("[" +:+ fmt_02X byte +:+ "]") else print fuel (fmt_02X byte)) ;;
  (if i <? 3 then print fuel " " else ret tt).

Definition print_faulting_instr (elr : Z) : M unit :=
  let addr := Z.land elr (unot U64 3) in
  opcode <- load_le addr 4 ;;
  print fuel ("Faulting instruction at 0x" +:+ fmt_016x elr +:+ ": ") ;;
  for_each (range 4) tt (fun _ i => print_opcode_byte opcode i) ;;
  println fuel "".

Definition print_regs regs : M unit := regs_print regs.

(** The body that the handlers which give up share. *)
Definition report_and_panic (message : string) regs : M unit :=
  println fuel message ;;
  print_faulting_instr (Regs.elr regs) ;;
  print_regs regs ;;
  panic.

Definition do_bad_sync regs : M unit :=
  report_and_panic "Bad mode in Synchronous Exception handler" regs.
Definition do_bad_irq regs : M unit := report_and_panic "Bad mode in IRQ handler" regs.
Definition do_bad_fiq regs : M unit := report_and_panic "Bad mode in FIQ handler" regs.
Definition do_bad_serror regs : M unit := report_and_panic "Bad mode in SError handler" regs.
Definition do_fiq regs : M unit := report_and_panic "FIQ handler" regs.
Definition do_serror regs : M unit := report_and_panic "SError handler" regs.

Definition do_sync (nr : Z) : M Z :=
  println fuel ("Requested syscall: " +:+ fmt_dec nr) ;;
  ret 0.

(** The closure of the UART arm: the byte is read with the lock held. *)
Definition receive (base : Z) (rx : UartBuffer.t) : M (unit * UartBuffer.t) :=
  v <- read_mmio32 base 0 ;;
  r <- push (wrap U8 v) rx ;;
  ret (tt, snd r).

Definition do_irq (id : Z) : M Z :=
  (if id =? 30 then
     println fuel "Timer interrupt!" ;;
     freq <- get_frequency ;;
     rearm (wrap U32 freq)
   else if id =? 33 then
     base <- get_base_addr ;;
     lock_irqsafe fuel RX_BUFFER (receive base) ;;
     write_mmio32 base ICR_OFF ICR_RXIC
   else println fuel ("Unhandled IRQ: " +:+ fmt_dec id)) ;;
  ret id.

Definition exception_kind (exception_class : Z) : string :=
  match exception_class with
  | 1 => "Trapped WF"
  | 3 => "Trapped MCR (coproc==0b1111). EC value 0b000000"
  | 4 => "Trapped MCRR or MRRC (coproc=0b1111). EC value 0b000000"
  | 5 => "Trapped MCR (coproc==0b1110)"
  | 6 => "Trapped LDC"
  | 7 => "SIMD not implemented. EC value 0b000000"
  | 10 => "Trapped execution of any instruction not covered by other EC values"
  | 12 => "Trapped MRRC (coproc=0b1110)"
  | 13 => "Branch Target Exception"
  | 14 => "Illegal Execution State"
  | 17 => "SVC in AArch32 state"
  | 20 => "Trapped MSRR, MRRS or System instruction execution in AArch64 state. EC value 0b000000"
  | 21 => "SVC in AArch64 state"
  | 24 => "Trapped MSRR, MRRS or System instruction execution in AArch64 state. EC values 0b000000, 0b000001, 0b000111"
  | 25 => "Access to SVE functionality. EC value 0b000000"
  | 27 => "TSTART instruction at EL0"
  | 28 => "PAC fail"
  | 29 => "Access to SME functionality. EC value 0b000000"
  | 32 => "Instruction abort from lower EL"
  | 33 => "Instruction abort taken without a change in EL"
  | 34 => "PC alignement fault"
  | 36 => "Data abort from lower EL"
  | 37 => "Data abort taken without a change in EL"
  | 38 => "SP alignement fault"
  | 39 => "Memory operation exception"
  | 40 => "FPE from AArch32 state"
  | 44 => "FPE from AArch64 state"
  | 45 => "GCS exception"
  | 47 => "SError exception"
  | 48 => "Breakpoint exception from a lower EL"
  | 49 => "Breakpoint exception taken without a change in EL"
  | 50 => "Software step exception from a lower EL"
  | 51 => "Software step exception exception taken without a change in EL"
  | 52 => "Watchpoint exception from a lower EL"
  | 53 => "Watchpoint exception exception taken without a change in EL"
  | 56 => "BKPT instruction in AArch32 state"
  | 60 => "BRK instruction in AArch64 state"
  | 61 => "Profiling exception"
  | _ => "Unknown reason"
  end.

Definition unimplemented_sync (exception_class : Z) : M unit :=
  println fuel ("Unimplemented synchronous exception: " +:+ exception_kind exception_class).

End irq.

(** ** What the handlers print *)

Section printing.
Context {HW : Hardware} (fuel : nat).
Implicit Types (w : world) (regs : Regs.t).

(** ** The register dump *)

Definition register_line (r : string * Z) : string :=
  (fst r +:+ ": 0x" +:+ fmt_016x (snd r)) +:+ newline.

Definition register_dump regs : string :=
  ((newline +:+ "Registers:") +:+ newline) +:+ concat_strings (register_line <$> Regs.iter regs).

Lemma prints_regs regs : prints fuel (print_regs fuel regs) (register_dump regs).
Proof.
  unfold print_regs, regs_print, register_dump. apply prints_seq; [apply prints_println |].
  intros w Hup.
  destruct (prints_for_each fuel (Regs.iter regs)
    (fun r => println fuel (fst r +:+ ": 0x" +:+ fmt_016x (snd r))) register_line
    (fun r _ => prints_println fuel _) w Hup) as (w' & E & P).
  exists w'. split; [| exact P]. rewrite <- E. f_equal.
Qed.

(** ** The faulting instruction *)

(** The bytes of an instruction in memory order, the first one bracketed. *)
Definition opcode_text (bs : list byte) : string :=
  match fmt_02X <$> (byte.unsigned <$> bs) with
  | [b0; b1; b2; b3] =>
      ("[" +:+ b0 +:+ "]") +:+ " " +:+ b1 +:+ " " +:+ b2 +:+ " " +:+ b3
  | _ => EmptyString
  end.

Lemma le_combine_low b bs : wrap U8 (le_combine (b :: bs)) = byte.unsigned b.
Proof.
  change (le_combine (b :: bs)) with (Z.lor (byte.unsigned b) (Z.shiftl (le_combine bs) 8)).
  pose proof (byte.unsigned_range b) as Hb. apply Z.bits_inj'. intros i Hi.
  rewrite wrap_bits, Z.lor_spec, Z.shiftl_spec by (unfold U8; lia).
  destruct (Z.ltb_spec i U8); unfold U8 in *; simpl.
  - rewrite (Z.testbit_neg_r _ (i - 8)) by lia. apply orb_false_r.
  - symmetry. apply (testbit_high 8); lia.
Qed.

Lemma le_combine_shift b bs : Z.shiftr (le_combine (b :: bs)) 8 = le_combine bs.
Proof.
  change (le_combine (b :: bs)) with (Z.lor (byte.unsigned b) (Z.shiftl (le_combine bs) 8)).
  pose proof (byte.unsigned_range b) as Hb. apply Z.bits_inj'. intros i Hi.
  rewrite Z.shiftr_spec, Z.lor_spec, Z.shiftl_spec by lia.
  rewrite (testbit_high 8 (byte.unsigned b)) by lia. simpl. f_equal. lia.
Qed.

Definition opcode_part (v i : Z) : string :=
  (if i =? 0 then "[" +:+ fmt_02X v +:+ "]" else fmt_02X v) +:+ (if i <? 3 then " " else "").

Lemma prints_opcode_byte opcode i :
  fits U32 opcode -> 0 <= i < 4 ->
  prints fuel (print_opcode_byte fuel opcode i) (opcode_part (wrap U8 (Z.shiftr opcode (i * 8))) i).
Proof.
  intros Ho Hi. unfold print_opcode_byte.
  apply (prints_pure _ _ _ (i * 8)); [intros w; apply exec_umul; solve_fits |].
  apply (prints_pure _ _ _ (Z.shiftr opcode (i * 8))); [intros w; apply exec_ushr; unfold U32; lia |].
  cbv zeta. apply prints_seq.
  - destruct (i =? 0); apply prints_print.
  - destruct (i <? 3); [apply prints_print | apply prints_ret].
Qed.

(** An instruction in memory, at the word that contains [elr]. *)
Definition instruction_at w (elr : Z) (bs : list byte) : Prop :=
  length bs = 4%nat /\ 0 < Z.land elr (unot U64 3) /\
  ram_bytes (w_ram w) (Z.land elr (unot U64 3)) bs.

Definition instruction_line (elr : Z) (bs : list byte) : string :=
  ("Faulting instruction at 0x" +:+ fmt_016x elr +:+ ": ") +:+ opcode_text bs +:+ newline.

Lemma exec_print_faulting_instr elr bs w :
  console_up fuel w -> instruction_at w elr bs ->
  exists w', print_faulting_instr fuel elr w = Done tt w' /\ printed (instruction_line elr bs) w w'.
Proof.
  intros Hup (Hl & Hp & Hram). unfold print_faulting_instr.
  set (opcode := le_combine bs).
  assert (fits U32 opcode) as Ho.
  { pose proof (le_combine_bound bs) as H. rewrite Hl in H. exact H. }
  rewrite (bind_done _ _ _ opcode w) by by apply exec_load_le.
  enough (prints fuel
    (print fuel ("Faulting instruction at 0x" +:+ fmt_016x elr +:+ ": ") ;;
     for_each (range 4) tt (fun _ i => print_opcode_byte fuel opcode i) ;; println fuel "")
    (instruction_line elr bs)) as H by by apply H.
  unfold instruction_line. apply prints_seq; [apply prints_print |].
  replace (opcode_text bs) with
    (concat_strings ((fun i => opcode_part (wrap U8 (Z.shiftr opcode (i * 8))) i) <$> range 4)).
  - apply prints_seq; [| apply prints_println]. apply prints_for_each.
    intros i Hi. apply prints_opcode_byte; [done |].
    change (range 4) with [0; 1; 2; 3] in Hi. set_solver by lia.
  - unfold opcode. destruct bs as [| b0 [| b1 [| b2 [| b3 [| ? ?]]]]]; try done.
    change (range 4) with [0; 1; 2; 3]. rewrite !fmap_cons, fmap_nil.
    change (0 * 8) with 0. change (1 * 8) with 8. change (2 * 8) with (8 + 8). change (3 * 8) with (8 + (8 + 8)).
    rewrite Z.shiftr_0_r, <- !Z.shiftr_shiftr by lia. rewrite !le_combine_shift, !le_combine_low.
    unfold opcode_text, opcode_part, concat_strings. cbn [foldr fmap list_fmap Z.eqb Z.ltb Z.compare].
    rewrite !string_app_nil_r, !string_app_assoc. done.
Qed.

End printing.

(** ** Theorems *)

Section theorems.
Context {HW : Hardware}.
Implicit Types (w : world) (regs : Regs.t).

(** The handlers that give up, with their messages. *)
Definition fatal_handlers (fuel : nat) : list ((Regs.t -> M unit) * string) :=
  [(do_bad_sync fuel, "Bad mode in Synchronous Exception handler");
   (do_bad_irq fuel, "Bad mode in IRQ handler"); (do_bad_fiq fuel, "Bad mode in FIQ handler");
   (do_bad_serror fuel, "Bad mode in SError handler"); (do_fiq fuel, "FIQ handler");
   (do_serror fuel, "SError handler")]%string.

(** What such a handler prints. *)
Definition fatal_report (message : string) regs (bs : list byte) : string :=
  (message +:+ newline) +:+ instruction_line (Regs.elr regs) bs +:+ register_dump regs.

Lemma exec_report_and_panic fuel message regs bs w :
  console_up fuel w -> instruction_at w (Regs.elr regs) bs ->
  exists w', report_and_panic fuel message regs w = Panicked w' /\
    printed (fatal_report message regs bs) w w'.
Proof.
  intros Hup Hinstr. unfold report_and_panic.
  destruct (prints_println fuel message w Hup) as (w1 & E1 & P1).
  pose proof (proj1 P1) as (Er1 & _).
  destruct (exec_print_faulting_instr fuel (Regs.elr regs) bs w1) as (w2 & E2 & P2).
  { by eapply console_up_same; [apply P1 |]. }
  { unfold instruction_at in *. by rewrite Er1. }
  destruct (prints_regs fuel regs w2) as (w3 & E3 & P3).
  { eapply console_up_same; [apply P2 |]. by eapply console_up_same; [apply P1 |]. }
  exists w3. rewrite (bind_done _ _ _ _ _ E1), (bind_done _ _ _ _ _ E2), (bind_done _ _ _ _ _ E3).
  split; [done |]. unfold fatal_report. eapply printed_app; [exact P1 |]. by eapply printed_app.
Qed.

(** The word of the instruction is not mapped: the report stops at the message. *)
Lemma exec_report_faults fuel message regs w :
  console_up fuel w -> w_ram w !! Z.land (Regs.elr regs) (unot U64 3) = None ->
  exists w', report_and_panic fuel message regs w = Faulted w' /\ printed (message +:+ newline) w w'.
Proof.
  intros Hup Hram. unfold report_and_panic.
  destruct (prints_println fuel message w Hup) as (w1 & E1 & P1).
  exists w1. split; [| exact P1]. rewrite (bind_done _ _ _ _ _ E1).
  pose proof (proj1 P1) as (Er1 & _). rewrite <- Er1 in Hram.
  unfold print_faulting_instr, load_le, load_bytes, load_byte. unfold bind, gets.
  rewrite Hram. by destruct (_ =? 0).
Qed.

Lemma fatal_handler_body fuel handler message regs :
  (handler, message) ∈ fatal_handlers fuel -> handler regs = report_and_panic fuel message regs.
Proof.
  intros Hh. unfold fatal_handlers in Hh.
  repeat (apply elem_of_cons in Hh as [Hh | Hh]; [by injection Hh as -> -> |]).
  by apply not_elem_of_nil in Hh.
Qed.

(** Every handler that gives up prints its message, the four bytes of the
    instruction at the word containing [regs.elr] and the 34 registers, and
    then panics, changing nothing else. *)
Theorem fatal_handlers_report fuel handler message regs bs w :
  (handler, message) ∈ fatal_handlers fuel ->
  console_up fuel w -> instruction_at w (Regs.elr regs) bs ->
  exists w', handler regs w = Panicked w' /\ printed (fatal_report message regs bs) w w'.
Proof.
  intros Hh. rewrite (fatal_handler_body _ _ _ regs Hh). apply exec_report_and_panic.
Qed.

(** The system call stub prints the number and returns 0 whatever is asked;
    the unimplemented-exception handler prints the name of the class and
    returns. *)
Theorem sync_handlers_print fuel nr ec w :
  console_up fuel w ->
  (exists w', do_sync fuel nr w = Done 0 w' /\
     printed (("Requested syscall: " +:+ fmt_dec nr) +:+ newline) w w') /\
  (exists w', unimplemented_sync fuel ec w = Done tt w' /\
     printed (("Unimplemented synchronous exception: " +:+ exception_kind ec) +:+ newline) w w').
Proof.
  intros Hup. split; [| by apply prints_println].
  destruct (prints_println fuel ("Requested syscall: " +:+ fmt_dec nr) w Hup) as (w1 & E & P).
  exists w1. split; [| exact P]. unfold do_sync. by rewrite (bind_done _ _ _ _ _ E).
Qed.

(** The UART interrupt (33) reads the data register exactly once, inside the
    critical section and with interrupts masked, appends its low byte to the
    waiting bytes (or drops it when 255 are waiting), releases the lock, puts
    DAIF back, clears the interrupt in the UART and returns the id, and changes
    nothing else.  If the lock is held it never returns. *)
Lemma exec_do_irq_receives fuel w :
  let base := UartState.base_addr (w_uart w) in
  let daif := peek_reg DAIF w in
  let v := peek32 base (irqs_off w) in
  frame_ok base UART_SIZE ->
  (Mutex.lock (w_rx w) = false -> wf (Mutex.data (w_rx w)) ->
   exists w', do_irq (S fuel) 33 w = Done 33 w' /\
     Mutex.lock (w_rx w') = false /\ wf (Mutex.data (w_rx w')) /\
     contents (Mutex.data (w_rx w')) = snd (Fifo.push (wrap U8 v) (contents (Mutex.data (w_rx w)))) /\
     w_trace w' = w_trace w ++
       [Mrs DAIF daif; DaifSet 2; Read32 base v; Msr DAIF daif; Write32 (base + 0x44) 0x10] /\
     w_ram w' = w_ram w /\ w_dtb w' = w_dtb w /\ w_gic w' = w_gic w /\ w_uart w' = w_uart w) /\
  (Mutex.lock (w_rx w) = true -> do_irq fuel 33 w = Spinning (irqs_off w)).
Proof.
  intros base daif v Hb. unfold do_irq. cbn [Z.eqb Pos.eqb].
  assert (reg_ok base) as Hreg by (rewrite <- (Z.add_0_r base); by eapply frame_reg_ok).
  split.
  - intros Hl Hwf. set (rx := Mutex.data (w_rx w)) in *.
    assert (fits U8 (wrap U8 v)) as Hf by by apply wrap_fits.
    destruct (exec_push_fifo (wrap U8 v) rx (after_read base (acquired RX_BUFFER (irqs_off w))) Hwf Hf)
      as (rx' & E & Hc & Hwf').
    assert (receive base rx (acquired RX_BUFFER (irqs_off w)) =
      Done (tt, rx') (after_read base (acquired RX_BUFFER (irqs_off w)))) as Hrec.
    { unfold receive. rewrite (bind_done _ _ _ _ _ (exec_read_mmio32_0 base _ Hreg)).
      change (peek32 base (acquired RX_BUFFER (irqs_off w))) with v.
      by rewrite (bind_done _ _ _ _ _ E). }
    eexists. split.
    { rewrite bind_bind. unfold get_base_addr, UART.
      rewrite bind_bind, (bind_done _ _ _ _ _ (exec_gets _ _)). fold base. unfold ret at 1.
      rewrite (bind_done _ _ _ base w) by done.
      rewrite bind_bind.
      rewrite (bind_done _ _ _ _ _ (exec_lock_irqsafe (m := RX_BUFFER) fuel (receive base) w tt rx' _ Hl Hrec)).
      rewrite (bind_done _ _ _ _ _ (exec_write_mmio32 base ICR_OFF ICR_RXIC _
        ltac:(eapply frame_reg_ok; [exact Hb | unfold ICR_OFF, UART_SIZE; lia | done]))).
      reflexivity. }
    simpl. split; [done |]. split; [done |]. split; [exact Hc |].
    rewrite <- !app_assoc. done.
  - intros Hl. apply bind_spinning. rewrite (bind_done _ _ _ base w) by done.
    apply bind_spinning. unfold lock_irqsafe.
    rewrite (bind_done _ _ _ _ _ (exec_disable_irq w)).
    apply bind_spinning. unfold lock. apply bind_spinning. by apply spin_lock_held.
Qed.

(** The timer interrupt (30) prints its message and writes the counter
    frequency, truncated to 32 bits, to the timer value register; any other id
    (33 apart) only prints its number.  Both return the id. *)
Lemma exec_do_irq_prints fuel id w :
  console_up fuel w -> id <> 33 ->
  exists w1 w', printed
      ((if id =? 30 then "Timer interrupt!" else "Unhandled IRQ: " +:+ fmt_dec id) +:+ newline) w w1 /\
    do_irq fuel id w = Done id w' /\ same_kernel w w' /\
    w_trace w' = w_trace w1 ++
      (if id =? 30 then
         let freq := peek_reg CNTFRQ_EL0 w1 in [Mrs CNTFRQ_EL0 freq; Msr CNTP_TVAL_EL0 (freq mod 2 ^ 32)]
       else []).
Proof.
  intros Hup Hid. unfold do_irq. rewrite (proj2 (Z.eqb_neq id 33) Hid).
  destruct (Z.eqb_spec id 30) as [-> | Hne].
  - destruct (prints_println fuel "Timer interrupt!" w Hup) as (w1 & E1 & P1).
    exists w1. eexists. split; [exact P1 |]. split.
    { rewrite bind_bind, (bind_done _ _ _ _ _ E1). reflexivity. }
    split; [exact (proj1 P1) |]. simpl. by rewrite <- app_assoc.
  - destruct (prints_println fuel ("Unhandled IRQ: " +:+ fmt_dec id) w Hup) as (w1 & E1 & P1).
    exists w1, w1. split; [exact P1 |]. split; [by rewrite (bind_done _ _ _ _ _ E1) |].
    split; [exact (proj1 P1) | by rewrite app_nil_r].
Qed.

End theorems.

(** *** Witnesses *)

(** The instruction at which the exception was taken, and the registers saved. *)
Definition stopped_world : @world quiet :=
  @boot_world quiet tt (ram_of 0x40080000 (le_split 4 0xD4200000)).

Definition stopped_regs : Regs.t :=
  Regs.mk 0x3C5 0x40080000 0xF2000000 0 10 11 12 13 14 15 16 17 18 19 20 21 22 23 24 25 26 27
    28 29 30 31 32 33 34 35 36 37 38 39 40.
