(* ===== verification/LockInterleaving.v ===== *)
(** * src/ipc/irq_safe_mutex.rs: the lock under interrupts and other cores

    The operations of [IrqSafeMutex] that are visible from outside, one per
    step, for any number of cores.  On each core a task runs the operation
    again and again, and so does the interrupt handler, which preempts the task
    whenever interrupts are not masked.  [safe] tells [lock_irqsafe] from
    plain [lock]. *)

From S2P Require Export Prelude.

Local Open Scope nat_scope.

(** ** The system *)

(** Where a context is in the operation. *)
Inductive pc :=
  | Outside                (* not in a call *)
  | ReadDaif               (* [disable_irq], before the [mrs] *)
  | MaskIrq                (* [disable_irq], before the [msr daifset] *)
  | Spin                   (* [while self.lock.compare_exchange(..).is_err()] *)
  | Critical               (* [let result = f(..)] *)
  | Unlock                 (* before [self.lock.store(false, ..)] *)
  | RestoreDaif.           (* before [restore_interrupts] *)

#[export] Instance pc_eq_dec : EqDecision pc.
Proof. solve_decision. Defined.

(** A context: its place and the DAIF value it saved (is I masked?). *)
Record ctx := mkCtx { at_pc : pc; saved : bool }.

Record core := mkCore {
  masked : bool;           (* DAIF.I *)
  task : ctx;
  handler : option ctx;    (* the interrupt handler, when it runs *)
}.

Record state := mkState { locked : bool; cores : list core }.

(** One step of a context: the lock, the mask and the context after it.  A
    failed compare-exchange is a step that changes nothing. *)
Definition ctx_step (safe lock mask : bool) (x : ctx) : bool * bool * ctx :=
  match at_pc x with
  | Outside => (lock, mask, mkCtx (if safe then ReadDaif else Spin) (saved x))
  | ReadDaif => (lock, mask, mkCtx MaskIrq mask)
  | MaskIrq => (lock, true, mkCtx Spin (saved x))
  | Spin => if lock then (lock, mask, x) else (true, mask, mkCtx Critical (saved x))
  | Critical => (lock, mask, mkCtx Unlock (saved x))
  | Unlock => (false, mask, mkCtx (if safe then RestoreDaif else Outside) (saved x))
  | RestoreDaif => (lock, saved x, mkCtx Outside (saved x))
  end.

Definition is_outside (x : ctx) : bool := match at_pc x with Outside => true | _ => false end.

(** The moves of a core: its running context steps; or an interrupt is taken
    (which masks interrupts); or the handler, outside the operation, returns
    (which unmasks them). *)
Definition core_moves (safe lock : bool) (c : core) : list (bool * core) :=
  match handler c with
  | None =>
      let '(lock', mask', x) := ctx_step safe lock (masked c) (task c) in
      (lock', mkCore mask' x None) ::
      (if masked c then [] else [(lock, mkCore true (task c) (Some (mkCtx Outside false)))])
  | Some h =>
      let '(lock', mask', x) := ctx_step safe lock (masked c) h in
      (lock', mkCore mask' (task c) (Some x)) ::
      (if is_outside h then [(lock, mkCore false (task c) None)] else [])
  end.

Inductive step (safe : bool) (s : state) : state -> Prop :=
  | step_core i c lock' c' :
      cores s !! i = Some c -> (lock', c') ∈ core_moves safe (locked s) c ->
      step safe s (mkState lock' (<[i := c']> (cores s))).

Inductive steps (safe : bool) (s : state) : state -> Prop :=
  | steps_refl : steps safe s s
  | steps_step s1 s2 : steps safe s s1 -> step safe s1 s2 -> steps safe s s2.

Definition idle_core : core := mkCore false (mkCtx Outside false) None.
Definition init (n : nat) : state := mkState false (replicate n idle_core).

(** ** Invariants *)

Definition holds (x : ctx) : bool := match at_pc x with Critical | Unlock => true | _ => false end.

Definition holders (c : core) : nat :=
  Nat.b2n (holds (task c)) + match handler c with Some h => Nat.b2n (holds h) | None => 0 end.

Definition total_holders (s : state) : nat := sum_list (holders <$> cores s).

(** In the part of the operation that runs with interrupts masked. *)
Definition guarded (x : ctx) : bool :=
  match at_pc x with Spin | Critical | Unlock | RestoreDaif => true | _ => false end.

(** With a DAIF value saved. *)
Definition has_saved (x : ctx) : bool :=
  match at_pc x with Outside | ReadDaif => false | _ => true end.

(** The mask discipline of [lock_irqsafe] on a core: the task is guarded only
    with interrupts masked and no handler running, outside they are enabled,
    and every context has saved the mask it found. *)
Definition core_ok (c : core) : bool :=
  (if has_saved (task c) then negb (saved (task c)) else true) &&
  match handler c with
  | None => eqb (masked c) (guarded (task c))
  | Some h => masked c && negb (guarded (task c)) && (if has_saved h then saved h else true)
  end.

Definition inv (safe : bool) (s : state) : Prop :=
  total_holders s = Nat.b2n (locked s) /\
  (safe = true -> Forall (fun c => core_ok c = true) (cores s)).

Lemma sum_list_insert {A} (f : A -> nat) l i x y :
  l !! i = Some x -> sum_list (f <$> <[i := y]> l) + f x = sum_list (f <$> l) + f y.
Proof.
  revert i. induction l as [| z l IH]; intros [| i] H; try done.
  - injection H as ->. cbn. lia.
  - specialize (IH i H). change (<[S i := y]> (z :: l)) with (z :: <[i := y]> l).
    rewrite !fmap_cons. cbn [sum_list]. rewrite <- !Nat.add_assoc. f_equal. exact IH.
Qed.

(** A move keeps the number of holders in step with the lock. *)
Lemma move_balance safe lock c lock' c' :
  (lock', c') ∈ core_moves safe lock c -> holders c <= Nat.b2n lock ->
  holders c' + Nat.b2n lock = holders c + Nat.b2n lock'.
Proof.
  destruct c as [m [p sv] [[p' sv'] |]]; unfold core_moves; cbn [handler task masked];
    destruct safe, lock; try destruct m; destruct p; try destruct p';
    rewrite ?list_elem_of_cons, ?list_elem_of_singleton; cbn;
    intros H; try (simpl; lia);
    repeat (apply elem_of_cons in H as [[= -> ->] | H]; [cbn; lia |]);
    by apply not_elem_of_nil in H.
Qed.

Lemma move_ok lock c lock' c' :
  (lock', c') ∈ core_moves true lock c -> core_ok c = true -> core_ok c' = true.
Proof.
  destruct c as [m [p sv] [[p' sv'] |]]; unfold core_moves; cbn [handler task masked];
    destruct lock, m, sv; destruct p; try destruct p'; try destruct sv'; cbn;
    intros H; try done;
    repeat (apply elem_of_cons in H as [[= -> ->] | H]; [done |]);
    by apply not_elem_of_nil in H.
Qed.

Lemma holders_le_total s i c : cores s !! i = Some c -> holders c <= total_holders s.
Proof.
  unfold total_holders. generalize (cores s). intros l. revert i.
  induction l as [| x l IH]; intros [| i] H; try done; rewrite fmap_cons; cbn [sum_list].
  - injection H as ->. apply Nat.le_add_r.
  - specialize (IH i H). etrans; [exact IH |]. apply Nat.le_add_l.
Qed.

Lemma inv_init safe n : inv safe (init n).
Proof.
  split.
  - unfold total_holders. simpl. induction n as [| n IH]; [done |]. exact IH.
  - intros _. simpl. by apply Forall_replicate.
Qed.

Lemma inv_step safe s s' : step safe s s' -> inv safe s -> inv safe s'.
Proof.
  intros [i c lock' c' Hc Hm] [Hb Hok]. split; unfold total_holders in *; cbn [locked cores].
  - pose proof (move_balance _ _ _ _ _ Hm) as Hbal.
    pose proof (holders_le_total s i c Hc) as Hle. unfold total_holders in Hle.
    pose proof (sum_list_insert holders (cores s) i c c' Hc) as Hs.
    rewrite Hb in Hle, Hs. specialize (Hbal Hle).
    generalize dependent (sum_list (holders <$> <[i:=c']> (cores s))). intros. lia.
  - intros ->. apply Forall_insert; [by apply Hok |]. eapply move_ok; [exact Hm |].
    specialize (Hok eq_refl). rewrite Forall_forall in Hok.
    apply Hok. by eapply list_elem_of_lookup_2.
Qed.

Lemma inv_reachable safe n s : steps safe (init n) s -> inv safe s.
Proof. induction 1; [apply inv_init | by eapply inv_step]. Qed.

(** A core's holder, seen from outside: the task or the handler is in the
    critical section. *)
Definition in_critical (c : core) : Prop :=
  at_pc (task c) = Critical \/ exists h, handler c = Some h /\ at_pc h = Critical.

Lemma sum_two {A} (f : A -> nat) l i j x y :
  i <> j -> l !! i = Some x -> l !! j = Some y -> f x + f y <= sum_list (f <$> l).
Proof.
  revert i j. induction l as [| z l IH]; intros [| i] [| j] Hij Hx Hy; try done;
    rewrite fmap_cons; cbn [sum_list].
  - injection Hx as ->. apply Nat.add_le_mono_l. clear -Hy. cbn in Hy. revert j Hy.
    induction l as [| z l IH]; intros [| j] Hy; try done; rewrite fmap_cons; cbn [sum_list].
    + injection Hy as ->. apply Nat.le_add_r.
    + etrans; [by eapply IH | apply Nat.le_add_l].
  - injection Hy as ->. rewrite Nat.add_comm. apply Nat.add_le_mono_l. clear -Hx. cbn in Hx. revert i Hx.
    induction l as [| z l IH]; intros [| i] Hx; try done; rewrite fmap_cons; cbn [sum_list].
    + injection Hx as ->. apply Nat.le_add_r.
    + etrans; [by eapply IH | apply Nat.le_add_l].
  - etrans; [eapply (IH i j); [lia | exact Hx | exact Hy] | apply Nat.le_add_l].
Qed.

(** The context that runs on a core. *)
Definition running (c : core) : ctx := default (task c) (handler c).

(** With [lock_irqsafe] a holder is the running context of its core. *)
Lemma holder_runs c : core_ok c = true -> 1 <= holders c -> holds (running c) = true.
Proof.
  destruct c as [m [p sv] [[p' sv'] |]]; unfold core_ok, holders, running, holds, guarded; cbn;
    destruct p; try destruct p'; destruct m; cbn; try done; try lia; by destruct sv.
Qed.

(** The holder's moves: one, or one more after it, to the release. *)
Lemma holder_moves c :
  core_ok c = true -> holds (running c) = true ->
  (exists c1, core_moves true true c = [(false, c1)]) \/
  (exists c1 c2, core_moves true true c = [(true, c1)] /\ core_moves true true c1 = [(false, c2)]).
Proof.
  destruct c as [m [p sv] [[p' sv'] |]]; unfold core_ok, running, holds, guarded, has_saved; cbn.
  - intros _. destruct p'; try done; intros _; [right | left]; repeat eexists.
  - destruct p, m; cbn; rewrite ?andb_false_r; try done; intros _ _; [right | left]; repeat eexists.
Qed.

Lemma some_holder s : total_holders s = 1 -> exists i c, cores s !! i = Some c /\ 1 <= holders c.
Proof.
  unfold total_holders. generalize (cores s). intros l.
  induction l as [| x l IH]; [done |]. rewrite fmap_cons. cbn [sum_list]. intros H.
  destruct (holders x) as [| k] eqn:Hx.
  - destruct (IH H) as (i & c & Hc & Hh). by exists (S i), c.
  - exists 0, x. split; [done | rewrite Hx; lia].
Qed.

(** The context on core [i]: its task, or its handler. *)
Definition ctx_at (s : state) (i : nat) (h : bool) : option ctx :=
  c ← cores s !! i; if h then handler c else Some (task c).

Lemma holds_holders c (h : bool) x :
  (if h then handler c else Some (task c)) = Some x -> holds x = true -> 1 <= holders c.
Proof.
  unfold holders. destruct h; intros H Hx; [rewrite H, Hx; simpl; lia |].
  injection H as ->. rewrite Hx. simpl. lia.
Qed.

(** Two contexts never hold the lock at once, and it is taken when one does. *)
Lemma inv_exclusive safe s i h x j h' y :
  inv safe s -> ctx_at s i h = Some x -> ctx_at s j h' = Some y ->
  holds x = true -> holds y = true -> i = j /\ h = h'.
Proof.
  intros [Hb _] Hx Hy Hhx Hhy. apply bind_Some in Hx as (c & Hc & Hx).
  apply bind_Some in Hy as (d & Hd & Hy).
  assert (total_holders s <= 1) as Hle by (rewrite Hb; destruct (locked s); simpl; lia).
  destruct (Nat.eq_dec i j) as [<- | Hij].
  - split; [done |]. rewrite Hc in Hd. injection Hd as <-.
    pose proof (holders_le_total s i c Hc) as H1. unfold holders in H1.
    destruct h, h'; try done; exfalso; rewrite ?Hx, ?Hy in H1; simplify_eq;
      rewrite Hhx, Hhy in H1; simpl in H1; lia.
  - exfalso. pose proof (sum_two holders (cores s) i j c d Hij Hc Hd) as H2.
    pose proof (holds_holders c h x Hx Hhx). pose proof (holds_holders d h' y Hy Hhy).
    unfold total_holders in Hle. pose proof (Nat.le_trans _ _ _ H2 Hle). lia.
Qed.

Lemma inv_locked safe s i h x :
  inv safe s -> ctx_at s i h = Some x -> holds x = true -> locked s = true.
Proof.
  intros [Hb _] Hx Hhx. apply bind_Some in Hx as (c & Hc & Hx).
  pose proof (holders_le_total s i c Hc). pose proof (holds_holders c h x Hx Hhx).
  destruct (locked s); [done |]. simpl in Hb. lia.
Qed.

(** ** Theorems *)

(** C14: mutual exclusion, for [lock] as for [lock_irqsafe], any number of cores
    and interrupts at any point: never two contexts are in the critical
    section, be they on two cores or task and handler of one core, and the
    flag is set whenever one is. *)
Theorem mutual_exclusion safe n s :
  steps safe (init n) s ->
  (forall i j c d, i <> j -> cores s !! i = Some c -> cores s !! j = Some d ->
     ~ (in_critical c /\ in_critical d)) /\
  (forall i c h, cores s !! i = Some c -> handler c = Some h ->
     ~ (at_pc (task c) = Critical /\ at_pc h = Critical)) /\
  (forall i c, cores s !! i = Some c -> in_critical c -> locked s = true).
Proof.
  intros Hs. pose proof (inv_reachable _ _ _ Hs) as Hinv.
  assert (forall i c, cores s !! i = Some c -> in_critical c ->
    exists h x, ctx_at s i h = Some x /\ holds x = true) as Hin.
  { intros i c Hc [H | (x & Hx & H)]; [exists false, (task c) | exists true, x];
      unfold ctx_at, holds; rewrite Hc, H; by split. }
  split; [| split].
  - intros i j c d Hij Hc Hd [Hic Hid].
    destruct (Hin _ _ Hc Hic) as (h & x & Hx & Hhx), (Hin _ _ Hd Hid) as (h' & y & Hy & Hhy).
    by destruct (inv_exclusive _ _ _ _ _ _ _ _ Hinv Hx Hy Hhx Hhy) as [-> _].
  - intros i c h Hc Hh [Ht Hp].
    destruct (inv_exclusive _ s i false (task c) i true h Hinv); unfold ctx_at, holds; rewrite ?Hc, ?Ht, ?Hp; done.
  - intros i c Hc Hic. destruct (Hin _ _ Hc Hic) as (h & x & Hx & Hhx). by eapply inv_locked.
Qed.

(** C15: [lock_irqsafe] never deadlocks: in every reachable state in which the
    lock is taken, its holder is what its core is running, has that one move
    (no interrupt can come in between), and two moves of its own release the
    lock; and a core whose task is outside, with no handler running, has its
    interrupts enabled. *)
Theorem irqsafe_lock_is_released n s :
  steps true (init n) s ->
  (locked s = true -> exists i c, cores s !! i = Some c /\ holds (running c) = true /\
     length (core_moves true (locked s) c) = 1%nat /\
     exists s', steps true s s' /\ locked s' = false /\
       forall j, j <> i -> cores s' !! j = cores s !! j) /\
  (forall i c, cores s !! i = Some c -> handler c = None -> at_pc (task c) = Outside ->
     masked c = false).
Proof.
  intros Hs. destruct (inv_reachable _ _ _ Hs) as [Hb Hok]. specialize (Hok eq_refl).
  rewrite Forall_forall in Hok. split.
  - intros Hl. rewrite Hl in Hb. destruct (some_holder s Hb) as (i & c & Hc & Hh).
    assert (core_ok c = true) as Hcok by (apply Hok; by eapply list_elem_of_lookup_2).
    exists i, c. pose proof (holder_runs c Hcok Hh) as Hr.
    split; [done |]. split; [done |].
    rewrite Hl. destruct (holder_moves c Hcok Hr) as [(c1 & E1) | (c1 & c2 & E1 & E2)]; rewrite E1.
    + split; [done |]. exists (mkState false (<[i := c1]> (cores s))).
      split; [| split; [done |]; intros j Hj; by apply list_lookup_insert_ne].
      eapply steps_step; [apply steps_refl |]. eapply step_core; [exact Hc |].
      rewrite Hl, E1. by left.
    + split; [done |]. exists (mkState false (<[i := c2]> (<[i := c1]> (cores s)))).
      split; [| split; [done |]; intros j Hj; cbn; by rewrite !list_lookup_insert_ne].
      eapply steps_step; [eapply steps_step; [apply steps_refl |] |].
      * eapply (step_core _ _ i c true c1); [exact Hc |]. rewrite Hl, E1. by left.
      * apply (step_core true (mkState true (<[i := c1]> (cores s))) i c1 false c2);
          cbn [cores locked]; [| rewrite E2; by left].
        apply list_lookup_insert_eq. by eapply lookup_lt_Some.
  - intros i c Hc Hn Ho. assert (core_ok c = true) as H by (apply Hok; by eapply list_elem_of_lookup_2).
    unfold core_ok in H. rewrite Hn in H. unfold has_saved, guarded in H. rewrite Ho in H. simpl in H.
    by destruct (masked c).
Qed.

(** One core: the task was interrupted in the critical section and the handler
    waits for the lock. *)
Definition deadlocked : state :=
  mkState true [mkCore true (mkCtx Critical false) (Some (mkCtx Spin false))].

(** Makes the core's move that is at position [k] of its list. *)
Definition choose (safe : bool) (k : nat) (s : state) : option state :=
  c ← cores s !! 0%nat;
  m ← core_moves safe (locked s) c !! k;
  Some (mkState (fst m) (<[0%nat := snd m]> (cores s))).

Fixpoint run_choices (safe : bool) (ks : list nat) (s : state) : option state :=
  match ks with [] => Some s | k :: ks => s' ← choose safe k s; run_choices safe ks s' end.

Lemma choose_step safe k s s' : choose safe k s = Some s' -> step safe s s'.
Proof.
  unfold choose. intros H. apply bind_Some in H as (c & Hc & H).
  apply bind_Some in H as ([l c'] & Hm & [= <-]).
  apply (step_core _ _ 0 c); [done |]. by eapply list_elem_of_lookup_2.
Qed.

Lemma run_choices_steps safe ks s0 s s' :
  steps safe s0 s -> run_choices safe ks s = Some s' -> steps safe s0 s'.
Proof.
  revert s. induction ks as [| k ks IH]; intros s Hs H; [by injection H as <- |].
  apply bind_Some in H as (s1 & E & H). apply (IH s1); [| done].
  eapply steps_step; [exact Hs | by eapply choose_step].
Qed.

(** C38: why [lock_irqsafe] is needed: with plain [lock], an interrupt inside
    the critical section whose handler takes the same lock leads to a state
    that no step ever leaves. *)
Theorem plain_lock_deadlocks :
  steps false (init 1) deadlocked /\ forall s, steps false deadlocked s -> s = deadlocked.
Proof.
  split.
  - apply (run_choices_steps false [0; 0; 1; 0] _ (init 1)); [apply steps_refl | reflexivity].
  - induction 1 as [| s1 s2 _ -> Hstep]; [done |].
    destruct Hstep as [i c lock' c' Hc Hm]. destruct i; [| done].
    injection Hc as <-. apply list_elem_of_singleton in Hm as [= -> ->]. done.
Qed.

(** *** Witnesses *)

(** Two cores, the first in its critical section. *)
Definition one_inside : state :=
  mkState true [mkCore true (mkCtx Critical false) None; idle_core].

Lemma one_inside_reachable : steps true (init 2) one_inside.
Proof. apply (run_choices_steps true [0; 0; 0; 0] _ (init 2)); [apply steps_refl | reflexivity]. Qed.

Lemma mutual_exclusion_witness :
  locked one_inside = true /\ ~ (in_critical (mkCore true (mkCtx Critical false) None) /\ in_critical idle_core).
Proof.
  destruct (mutual_exclusion true 2 one_inside one_inside_reachable) as (Hcores & _ & Hlock).
  split; [apply (Hlock 0 (mkCore true (mkCtx Critical false) None)); [reflexivity | by left] |].
  by apply (Hcores 0 1).
Defined.

Lemma irqsafe_lock_is_released_witness :
  exists s', steps true one_inside s' /\ locked s' = false.
Proof.
  destruct (irqsafe_lock_is_released 2 one_inside one_inside_reachable) as [H _].
  destruct (H eq_refl) as (i & c & _ & _ & _ & s' & Hs & Hl & _). by exists s'.
Defined.
