(* ===== verification/LockRefine.v ===== *)
(** * The mutex's code as steps of the interleaving model

    [code] cuts [lock_irqsafe] of [IrqSafeMutex] into its externally visible
    operations, one for each place of [LockInterleaving]; each of them does to
    flag and interrupt mask what the model's step does, and together they are
    the function. *)

From S2P Require Export IrqSafeMutex LockInterleaving RegFile.

Local Open Scope Z_scope.
Local Open Scope kernel_scope.

(** The interrupt mask of the CPU: DAIF holds what is written to it, and
    [msr daifset] sets the bits of its operand, shifted to D, A, I and F. *)
Class MaskRegister (HW : Hardware) := {
  daif_at : hw_state -> Z;
  daif_mrs : forall h, hw_mrs DAIF h = (daif_at h, h);
  daif_msr : forall v h, daif_at (hw_msr DAIF v h) = v;
  daif_daifset : forall i h, daif_at (hw_daifset i h) = Z.lor (daif_at h) (Z.shiftl i 6);
}.

(** DAIF.I *)
Definition I_BIT : Z := 7.

Section refine.
Context {HW : Hardware} {MR : MaskRegister HW} {T R : Type}.
Context (m : place (Mutex.t T)) `{!PlaceLaws m} (f : T -> M (R * T)).
Implicit Types (w : world).

Definition flag w : bool := Mutex.lock (pl_get m w).
Definition mask w : bool := Z.testbit (daif_at (w_hw w)) I_BIT.

(** What the closure may do: it does not get at the flag or the mask. *)
Definition closure_ok : Prop :=
  forall d w r w', f d w = Done r w' -> flag w' = flag w /\ mask w' = mask w.

(** The operation at a place, with the local [daif_state]. *)
Definition code (x : pc) (daif_state : Z) : M (pc * Z) :=
  match x with
  | Outside => ret (ReadDaif, daif_state)
  | ReadDaif => daif <- mrs DAIF ;; ret (MaskIrq, daif)
  | MaskIrq => msr_daifset 2 ;; ret (Spin, daif_state)
  | Spin =>
      is_err <- compare_exchange_is_err m ;;
      ret (if is_err : bool then Spin else Critical, daif_state)
  | Critical => with_data m f ;; ret (Unlock, daif_state)
  | Unlock => store_unlocked m ;; ret (RestoreDaif, daif_state)
  | RestoreDaif => restore_interrupts daif_state ;; ret (Outside, daif_state)
  end.

Fixpoint run_code (n : nat) (x : pc) (daif_state : Z) : M (pc * Z) :=
  match n with
  | O => ret (x, daif_state)
  | S n => r <- code x daif_state ;; run_code n (fst r) (snd r)
  end.

Lemma flag_hw h e w : flag (log e (set_hw h w)) = flag w.
Proof. unfold flag. by rewrite place_get_log, place_get_hw. Qed.

Lemma mask_put v w : mask (pl_put m v w) = mask w.
Proof. unfold mask. by rewrite place_hw_put. Qed.

Lemma flag_put v w : flag (pl_put m v w) = Mutex.lock v.
Proof. unfold flag. by rewrite place_get_put. Qed.

Lemma sim_with_data w a w' :
  closure_ok -> with_data m f w = Done a w' -> flag w' = flag w /\ mask w' = mask w.
Proof.
  intros Hf E. unfold with_data in E. rewrite (bind_done _ _ _ _ _ (exec_gets _ _)) in E.
  apply bind_inv in E as (r & w1 & E1 & E). injection E as <- <-.
  destruct (Hf _ _ _ _ E1) as [Hl Hm]. rewrite flag_put, mask_put. by split.
Qed.

(** One operation of the code is one step of the model. *)
Lemma sim_code x daif w x' daif' w' :
  closure_ok -> code x daif w = Done (x', daif') w' ->
  ctx_step true (flag w) (mask w) (mkCtx x (Z.testbit daif I_BIT)) =
    (flag w', mask w', mkCtx x' (Z.testbit daif' I_BIT)).
Proof.
  intros Hf E. destruct x; unfold ctx_step; cbn [at_pc saved].
  - by injection E as <- <- <-.
  - cbn [code] in E. rewrite (bind_done _ _ _ _ _ (exec_mrs _ _)) in E. injection E as <- <- <-.
    assert (Z.testbit (peek_reg DAIF w) I_BIT = mask w) as ->.
    { unfold peek_reg, mask. rewrite daif_mrs. cbn [fst]. by rewrite wrap_bits. }
    unfold after_mrs. rewrite flag_hw. unfold mask, log. cbn [w_hw set_trace set_hw].
    by rewrite daif_mrs.
  - cbn [code] in E. rewrite (bind_done _ _ _ _ _ (exec_msr_daifset _ _)) in E. injection E as <- <- <-.
    unfold after_daifset. rewrite flag_hw. unfold mask, log.
    cbn [w_hw set_trace set_hw]. rewrite daif_daifset, Z.lor_spec.
    change (Z.testbit (Z.shiftl 2 6) I_BIT) with true. by rewrite orb_true_r.
  - cbn [code] in E. unfold compare_exchange_is_err in E.
    rewrite bind_bind, (bind_done _ _ _ _ _ (exec_gets _ _)) in E. fold (flag w) in E.
    destruct (flag w) eqn:Hfl; injection E as <- <- <-; [by rewrite Hfl |].
    by rewrite flag_put, mask_put.
  - cbn [code] in E. apply bind_inv in E as (r & w1 & E1 & E). injection E as <- <- <-.
    destruct (sim_with_data w r w1 Hf E1) as [-> ->]. done.
  - injection E as <- <- <-. by rewrite flag_put, mask_put.
  - cbn [code] in E. unfold restore_interrupts in E.
    rewrite (bind_done _ _ _ _ _ (exec_msr _ _ _)) in E. injection E as <- <- <-.
    unfold after_msr. rewrite flag_hw. unfold mask, log. cbn [w_hw set_trace set_hw].
    by rewrite daif_msr.
Qed.

Lemma run_code_bind n k x daif w :
  run_code (n + k) x daif w = (r <- run_code n x daif ;; run_code k (fst r) (snd r)) w.
Proof.
  revert x daif w. induction n as [| n IH]; intros x daif w; [done |].
  cbn [Nat.add run_code]. rewrite bind_bind. unfold bind at 1 2.
  destruct (code x daif w); [apply IH | done..].
Qed.

Lemma run_code_spin fuel daif w w1 :
  spin_while fuel (compare_exchange_is_err m) w = Done tt w1 ->
  exists n, run_code n Spin daif w = Done (Critical, daif) w1.
Proof.
  revert w. induction fuel as [| fuel IH]; intros w E; [done |]. cbn [spin_while] in E.
  apply bind_inv in E as (b & w2 & E2 & E). destruct b.
  - destruct (IH _ E) as [n Hn]. exists (S n). cbn [run_code code].
    rewrite bind_bind, (bind_done _ _ _ _ _ E2). exact Hn.
  - injection E as <-. exists 1%nat. cbn [run_code code].
    by rewrite bind_bind, (bind_done _ _ _ _ _ E2).
Qed.

(** C16: [lock_irqsafe] refines the context of the interleaving model: each
    operation of its code changes flag, interrupt mask and the saved mask as
    the model's step at that place does, and a call that returns is a run of
    these operations from outside to outside with the same final world. *)
Theorem lock_irqsafe_refines_steps :
  closure_ok ->
  (forall x daif w x' daif' w', code x daif w = Done (x', daif') w' ->
     ctx_step true (flag w) (mask w) (mkCtx x (Z.testbit daif I_BIT)) =
       (flag w', mask w', mkCtx x' (Z.testbit daif' I_BIT))) /\
  (forall fuel w r w', lock_irqsafe fuel m f w = Done r w' ->
     exists n daif, run_code n Outside 0 w = Done (Outside, daif) w' /\ (6 < n)%nat).
Proof.
  intros Hf. split; [intros *; by apply sim_code |].
  intros fuel w r w' E. unfold lock_irqsafe in E.
  rewrite (bind_done _ _ _ _ _ (exec_disable_irq w)) in E.
  apply bind_inv in E as (r1 & w4 & E1 & E). injection E as _ <-.
  unfold lock in E1. apply bind_inv in E1 as ([] & w2 & E2 & E1).
  apply bind_inv in E1 as (r2 & w3 & E3 & E1). injection E1 as _ <-.
  destruct (run_code_spin fuel (peek_reg DAIF w) _ _ E2) as [n Hn].
  exists (3 + (n + 3))%nat, (peek_reg DAIF w). split.
  - rewrite run_code_bind. rewrite (bind_done _ _ _ (Spin, peek_reg DAIF w) (irqs_off w)) by done.
    cbn [fst snd]. rewrite run_code_bind. unfold irqs_off. rewrite (bind_done _ _ _ _ _ Hn).
    cbn [fst snd run_code code]. rewrite bind_bind, (bind_done _ _ _ _ _ E3). done.
  - destruct n; [discriminate Hn | lia].
Qed.
End refine.

(** The register file has such a mask register. *)
Definition regfile_mask (status : list Z) : MaskRegister (regfile status).
Proof.
  refine {| daif_at := fun (h : @hw_state (regfile status)) => rf_sys h DAIF |}.
  - done.
  - intros v h. reflexivity.
  - intros i h. reflexivity.
Defined.
