(* ===== verification/LockData.v ===== *)
(** * The data behind the lock, access by access

    [LockInterleaving] with the critical sections opened: a closure is a
    sequence of single accesses to the protected data, and other cores and
    interrupt handlers run between any two of them.  Whatever the interleaving,
    the calls return what they would return one after the other, in the order
    in which they leave their critical sections.  The circular buffer of the
    UART with the accesses of its [push] and [pop] is the instance. *)

From S2P Require Export LockInterleaving RxBuffer.

Local Open Scope nat_scope.

Section data.
Context {D Op Res : Type}.

(** A closure: accesses to the data, then a result; [None] is a panic. *)
Inductive prog :=
  | Ret (r : Res)
  | Act (f : D -> option (D * prog)).

(** The closure on its own. *)
Fixpoint seq_run (p : prog) (d : D) : option (D * Res) :=
  match p with
  | Ret r => Some (d, r)
  | Act f => match f d with Some (d', p') => seq_run p' d' | None => None end
  end.

Context (code : Op -> prog).

(** A context with the call it is in and what is left of its closure. *)
Record actx := mkActx { base : ctx; call : option (Op * prog) }.
Record acore := mkACore { amasked : bool; atask : actx; ahandler : option actx }.
Record astate := mkAState {
  alocked : bool; shared : D; history : list (Op * Res); acores : list acore }.

(** One step of a context, [o] being the operation it calls if it starts a
    call: the lock, the mask, the data, the call that returns from its
    critical section, and the context afterwards. *)
Definition actx_step (safe : bool) (o : Op) (lock mask : bool) (d : D) (x : actx) :
    option (bool * bool * D * list (Op * Res) * actx) :=
  let '(lock', mask', b) := ctx_step safe lock mask (base x) in
  match at_pc (base x) with
  | Outside => Some (lock', mask', d, [], mkActx b (Some (o, code o)))
  | Critical =>
      match call x with
      | Some (o, Ret r) => Some (lock', mask', d, [(o, r)], mkActx b None)
      | Some (o, Act f) =>
          '(d', p) ← f d; Some (lock, mask, d', [], mkActx (base x) (Some (o, p)))
      | None => None
      end
  | _ => Some (lock', mask', d, [], mkActx b (call x))
  end.

Definition fresh : actx := mkActx (mkCtx Outside false) None.

(** The context that runs on a core, and the core after its step. *)
Definition arunning (c : acore) : bool * actx :=
  match ahandler c with Some h => (true, h) | None => (false, atask c) end.

Definition put_ctx (c : acore) (mask : bool) (x : actx) : acore :=
  match ahandler c with Some _ => mkACore mask (atask c) (Some x) | None => mkACore mask x None end.

Inductive astep (safe : bool) (s : astate) : astate -> Prop :=
  | astep_ctx i c o lock mask d ev x :
      acores s !! i = Some c ->
      actx_step safe o (alocked s) (amasked c) (shared s) (snd (arunning c)) =
        Some (lock, mask, d, ev, x) ->
      astep safe s (mkAState lock d (history s ++ ev) (<[i := put_ctx c mask x]> (acores s)))
  | astep_irq i c :
      acores s !! i = Some c -> ahandler c = None -> amasked c = false ->
      astep safe s (mkAState (alocked s) (shared s) (history s)
        (<[i := mkACore true (atask c) (Some fresh)]> (acores s)))
  | astep_eret i c h :
      acores s !! i = Some c -> ahandler c = Some h -> is_outside (base h) = true ->
      astep safe s (mkAState (alocked s) (shared s) (history s)
        (<[i := mkACore false (atask c) None]> (acores s))).

Inductive asteps (safe : bool) (s : astate) : astate -> Prop :=
  | asteps_refl : asteps safe s s
  | asteps_step s1 s2 : asteps safe s s1 -> astep safe s1 s2 -> asteps safe s s2.

Definition ainit (n : nat) (d : D) : astate :=
  mkAState false d [] (replicate n (mkACore false fresh None)).

(** ** The interleaving model underneath *)

Definition erase_core (c : acore) : core := mkCore (amasked c) (base (atask c)) (base <$> ahandler c).
Definition erase (s : astate) : state := mkState (alocked s) (erase_core <$> acores s).

Lemma erase_lookup s i c : acores s !! i = Some c -> cores (erase s) !! i = Some (erase_core c).
Proof. intros H. unfold erase. cbn [cores]. by rewrite list_lookup_fmap, H. Qed.

(** A step of a context is one step of its base, or none (inside the closure). *)
Lemma actx_step_base safe o lock mask d x lock' mask' d' ev x' :
  actx_step safe o lock mask d x = Some (lock', mask', d', ev, x') ->
  ctx_step safe lock mask (base x) = (lock', mask', base x') \/
  (at_pc (base x) = Critical /\ lock' = lock /\ mask' = mask /\ base x' = base x /\ ev = []).
Proof.
  unfold actx_step. destruct (ctx_step safe lock mask (base x)) as [[l m] b] eqn:E.
  destruct (at_pc (base x)) eqn:Hp; try (intros [= <- <- <- <- <-]; by left).
  destruct (call x) as [[o' [r | f]] |]; [intros [= <- <- <- <- <-]; by left | | done].
  intros H. apply bind_Some in H as ([d1 p] & _ & [= <- <- <- <- <-]). by right.
Qed.

Lemma base_moves safe lock c lock' mask' x :
  ctx_step safe lock (amasked c) (base (snd (arunning c))) = (lock', mask', base x) ->
  (lock', erase_core (put_ctx c mask' x)) ∈ core_moves safe lock (erase_core c).
Proof.
  unfold arunning, put_ctx, core_moves, erase_core. cbn [handler masked task].
  destruct (ahandler c) as [h |]; cbn [fmap option_fmap option_map snd amasked atask ahandler];
    intros ->; by left.
Qed.

Lemma erase_same s i c c' :
  acores s !! i = Some c -> erase_core c' = erase_core c -> erase_core <$> <[i := c']> (acores s) = erase_core <$> acores s.
Proof.
  intros Hc He. rewrite list_fmap_insert, He. apply list_insert_id. by rewrite list_lookup_fmap, Hc.
Qed.

Lemma astep_inv safe s s' : astep safe s s' -> inv safe (erase s) -> inv safe (erase s').
Proof.
  intros [i c o lock mask d ev x Hc E | i c Hc Hh Hm | i c h Hc Hh Ho] Hinv.
  - apply actx_step_base in E as [E | (Hp & -> & -> & Eb & _)].
    + eapply inv_step; [| exact Hinv]. unfold erase at 2. cbn [alocked acores].
      rewrite list_fmap_insert. apply (step_core safe (erase s) i (erase_core c)); [by apply erase_lookup | by apply base_moves].
    + unfold erase. cbn [alocked acores]. rewrite (erase_same s i c); [done | done |].
      unfold erase_core, put_ctx, arunning in *. destruct (ahandler c) eqn:Hh; cbn in *; by rewrite ?Hh, Eb.
  - eapply inv_step; [| exact Hinv]. unfold erase at 2. cbn [alocked acores]. rewrite list_fmap_insert.
    apply (step_core safe (erase s) i (erase_core c)); [by apply erase_lookup |].
    unfold core_moves, erase_core. cbn [handler masked task]. rewrite Hh, Hm. cbn.
    destruct (ctx_step safe (alocked s) false (base (atask c))) as [[l m] b]. right. by left.
  - eapply inv_step; [| exact Hinv]. unfold erase at 2. cbn [alocked acores]. rewrite list_fmap_insert.
    apply (step_core safe (erase s) i (erase_core c)); [by apply erase_lookup |].
    unfold core_moves, erase_core. cbn [handler masked task]. rewrite Hh. cbn.
    destruct (ctx_step safe (alocked s) (amasked c) (base h)) as [[l m] b]. rewrite Ho. right. by left.
Qed.

(** ** The invariant of the data *)

Definition actx_at (s : astate) (i : nat) (h : bool) : option actx :=
  c ← acores s !! i; if h then ahandler c else Some (atask c).

Lemma actx_at_erase s i h x : actx_at s i h = Some x -> ctx_at (erase s) i h = Some (base x).
Proof.
  intros H. apply bind_Some in H as (c & Hc & H). unfold ctx_at. rewrite (erase_lookup s i c Hc).
  cbn [mbind option_bind erase_core handler task]. destruct h; [by rewrite H | by injection H as ->].
Qed.

Lemma actx_at_running s i c :
  acores s !! i = Some c -> actx_at s i (fst (arunning c)) = Some (snd (arunning c)).
Proof.
  intros Hc. unfold actx_at, arunning. rewrite Hc. cbn. by destruct (ahandler c) eqn:Hh; cbn; rewrite ?Hh.
Qed.

(** The contexts after a step of the one that runs on core [i]. *)
Lemma actx_at_put s i c lock mask d hist x j h y :
  acores s !! i = Some c ->
  actx_at (mkAState lock d hist (<[i := put_ctx c mask x]> (acores s))) j h = Some y <->
  (j = i /\ h = fst (arunning c) /\ y = x) \/
  (actx_at s j h = Some y /\ ~ (j = i /\ h = fst (arunning c))).
Proof.
  intros Hc. unfold actx_at. cbn [acores]. destruct (Nat.eq_dec j i) as [-> | Hji].
  - rewrite list_lookup_insert_eq, Hc by (by eapply lookup_lt_Some). cbn.
    unfold put_ctx, arunning. destruct (ahandler c) as [g |] eqn:Hg, h; cbn; rewrite ?Hg; naive_solver.
  - rewrite list_lookup_insert_ne by done. naive_solver.
Qed.

(** Replaying calls one after the other, from data [d] to data [d']. *)
Fixpoint replays (d : D) (hist : list (Op * Res)) (d' : D) : Prop :=
  match hist with
  | [] => d' = d
  | (o, r) :: hist => exists d1, seq_run (code o) d = Some (d1, r) /\ replays d1 hist d'
  end.

Lemma replays_snoc d hist d1 o r d2 :
  replays d hist d1 -> seq_run (code o) d1 = Some (d2, r) -> replays d (hist ++ [(o, r)]) d2.
Proof.
  revert d. induction hist as [| [o' r'] hist IH]; intros d; simpl.
  - intros -> H. by exists d2.
  - intros (d' & E & H) H2. exists d'. split; [done | by apply IH].
Qed.

Definition critical (s : astate) : Prop :=
  exists i h x, actx_at s i h = Some x /\ at_pc (base x) = Critical.

(** The calls that have left their critical sections lead from [d0] to data
    [dh]; the one that is inside, if any, continues from there. *)
Record data_ok (d0 : D) (s : astate) (dh : D) : Prop := {
  ok_replays : replays d0 (history s) dh;
  ok_inside : forall i h x, actx_at s i h = Some x -> at_pc (base x) = Critical ->
    exists o p, call x = Some (o, p) /\ seq_run p (shared s) = seq_run (code o) dh;
  ok_outside : ~ critical s -> shared s = dh;
}.

(** A context that is to enter has all of its closure before it. *)
Definition entering (x : actx) : Prop :=
  match at_pc (base x) with
  | ReadDaif | MaskIrq | Spin => exists o, call x = Some (o, code o)
  | _ => True
  end.

Definition ainv (safe : bool) (d0 : D) (s : astate) : Prop :=
  inv safe (erase s) /\ (forall i h x, actx_at s i h = Some x -> entering x) /\
  exists dh, data_ok d0 s dh.

Lemma entering_step safe o lock mask d x lock' mask' d' ev x' :
  actx_step safe o lock mask d x = Some (lock', mask', d', ev, x') -> entering x -> entering x'.
Proof.
  unfold actx_step, entering, ctx_step. destruct x as [[p sv] cl]. cbn [base call at_pc saved].
  destruct p; try (destruct safe; intros [= <- <- <- <- <-]; cbn; by eauto).
  - destruct lock; intros [= <- <- <- <- <-]; cbn; by eauto.
  - destruct cl as [[o' [r | f]] |]; [by intros [= <- <- <- <- <-] | | done].
    intros H. apply bind_Some in H as ([d1 p] & _ & [= <- <- <- <- <-]). done.
Qed.

(** Inside the critical section nobody else is. *)
Lemma alone safe s i h x j h' y :
  inv safe (erase s) -> actx_at s i h = Some x -> at_pc (base x) = Critical ->
  actx_at s j h' = Some y -> at_pc (base y) = Critical -> j = i /\ h' = h.
Proof.
  intros Hinv Hx Hpx Hy Hpy. apply actx_at_erase in Hx, Hy.
  eapply inv_exclusive; [exact Hinv | exact Hy | exact Hx | |]; unfold holds; by rewrite ?Hpx, ?Hpy.
Qed.

Section ctx_step.
Context (safe : bool) (d0 dh : D) (s : astate) (i : nat) (c : acore).
Context (Hinv : inv safe (erase s)) (Hok : data_ok d0 s dh) (Hc : acores s !! i = Some c).
Let x0 : actx := snd (arunning c).
Let next (lock mask : bool) (d : D) (ev : list (Op * Res)) (x : actx) : astate :=
  mkAState lock d (history s ++ ev) (<[i := put_ctx c mask x]> (acores s)).

Lemma x0_at : actx_at s i (fst (arunning c)) = Some x0.
Proof. by apply actx_at_running. Qed.

Lemma next_at lock mask d ev x j h y :
  actx_at (next lock mask d ev x) j h = Some y ->
  (j = i /\ h = fst (arunning c) /\ y = x) \/
  (actx_at s j h = Some y /\ ~ (j = i /\ h = fst (arunning c))).
Proof. by apply actx_at_put. Qed.

(** A step that neither is nor goes inside. *)
Lemma next_outside lock mask x :
  at_pc (base x0) <> Critical -> at_pc (base x) <> Critical ->
  data_ok d0 (next lock mask (shared s) [] x) dh.
Proof.
  intros H0 Hx. destruct Hok as [Hr Hin Hout]. split; cbn [next history shared].
  - by rewrite app_nil_r.
  - intros j h y Hy Hp. apply next_at in Hy as [(_ & _ & ->) | [Hy _]]; [done | by apply (Hin j h)].
  - intros Hn. apply Hout. intros (j & h & y & Hy & Hp). apply Hn. exists j, h, y. split; [| done].
    apply actx_at_put; [done |]. right. split; [done |]. intros [-> ->].
    rewrite x0_at in Hy. by injection Hy as <-.
Qed.

(** Entering: nobody was inside, so the data is that of the calls so far. *)
Lemma next_enter mask x o :
  alocked s = false -> at_pc (base x0) <> Critical -> call x = Some (o, code o) ->
  data_ok d0 (next true mask (shared s) [] x) dh.
Proof.
  intros Hl H0 Hcall. destruct Hok as [Hr Hin Hout].
  assert (shared s = dh) as Hd.
  { apply Hout. intros (j & h & y & Hy & Hp). apply actx_at_erase in Hy.
    assert (locked (erase s) = true) as H by (eapply inv_locked; [exact Hinv | exact Hy | unfold holds; by rewrite Hp]).
    cbn in H. by rewrite Hl in H. }
  split; cbn [next history shared].
  - by rewrite app_nil_r.
  - intros j h y Hy Hp. apply next_at in Hy as [(_ & _ & ->) | [Hy _]]; [| by apply (Hin j h)].
    exists o, (code o). by rewrite Hd.
  - intros _. done.
Qed.

(** An access inside. *)
Lemma next_access lock mask x o f d p :
  at_pc (base x0) = Critical -> at_pc (base x) = Critical -> call x0 = Some (o, Act f) ->
  f (shared s) = Some (d, p) -> call x = Some (o, p) ->
  data_ok d0 (next lock mask d [] x) dh.
Proof.
  intros H0 Hx Hc0 Hf Hcx. destruct Hok as [Hr Hin Hout].
  destruct (Hin _ _ _ x0_at H0) as (o1 & p1 & Hc1 & Hrun). rewrite Hc0 in Hc1. injection Hc1 as <- <-.
  cbn [seq_run] in Hrun. rewrite Hf in Hrun. split; cbn [next history shared].
  - by rewrite app_nil_r.
  - intros j h y Hy Hp. apply next_at in Hy as [(_ & _ & ->) | [Hy Hne]]; [by exists o, p |].
    exfalso. apply Hne. by eapply (alone _ _ i _ x0 j h y Hinv x0_at).
  - intros Hn. exfalso. apply Hn. exists i, (fst (arunning c)), x. split; [| done].
    apply actx_at_put; [done | by left].
Qed.

(** Leaving: the call is the next of the sequence. *)
Lemma next_leave lock mask x o r :
  at_pc (base x0) = Critical -> at_pc (base x) <> Critical -> call x0 = Some (o, Ret r) ->
  data_ok d0 (next lock mask (shared s) [(o, r)] x) (shared s).
Proof.
  intros H0 Hx Hc0. destruct Hok as [Hr Hin Hout].
  destruct (Hin _ _ _ x0_at H0) as (o1 & p1 & Hc1 & Hrun). rewrite Hc0 in Hc1. injection Hc1 as <- <-.
  split; cbn [next history shared].
  - by eapply replays_snoc.
  - intros j h y Hy Hp. exfalso. apply next_at in Hy as [(_ & _ & ->) | [Hy Hne]]; [done |].
    apply Hne. by eapply (alone _ _ i _ x0 j h y Hinv x0_at).
  - done.
Qed.

Lemma data_ok_ctx o lock mask d ev x :
  entering x0 -> actx_step safe o (alocked s) (amasked c) (shared s) x0 = Some (lock, mask, d, ev, x) ->
  exists dh', data_ok d0 (next lock mask d ev x) dh'.
Proof.
  intros Hent. unfold actx_step, ctx_step. destruct (at_pc (base x0)) eqn:Hp; unfold entering in Hent; rewrite Hp in Hent.
  - destruct safe; intros [= <- <- <- <- <-]; exists dh; apply next_outside; by rewrite ?Hp.
  - intros [= <- <- <- <- <-]. exists dh. apply next_outside; by rewrite ?Hp.
  - intros [= <- <- <- <- <-]. exists dh. apply next_outside; by rewrite ?Hp.
  - destruct Hent as [o' Hcall]. destruct (alocked s) eqn:Hl; intros [= <- <- <- <- <-]; exists dh.
    + apply next_outside; cbn [base]; by rewrite ?Hp.
    + apply (next_enter _ _ o'); by rewrite ?Hp.
  - destruct (call x0) as [[o' [r | f]] |] eqn:Hcall; [| | done].
    + intros [= <- <- <- <- <-]. exists (shared s). by apply next_leave.
    + intros H. apply bind_Some in H as ([d1 p] & Hf & [= <- <- <- <- <-]). exists dh.
      by apply (next_access _ _ _ o' f d1 p).
  - destruct safe; intros [= <- <- <- <- <-]; exists dh; apply next_outside; by rewrite ?Hp.
  - intros [= <- <- <- <- <-]. exists dh. apply next_outside; by rewrite ?Hp.
Qed.
End ctx_step.

(** Interrupts coming and going change no context that is inside. *)
Lemma data_ok_handler d0 dh s i c c' :
  data_ok d0 s dh -> acores s !! i = Some c -> atask c' = atask c ->
  (forall h, ahandler c' = Some h -> at_pc (base h) = Outside) ->
  (forall h, ahandler c = Some h -> at_pc (base h) = Outside) ->
  data_ok d0 (mkAState (alocked s) (shared s) (history s) (<[i := c']> (acores s))) dh.
Proof.
  intros [Hr Hin Hout] Hc Ht Hh' Hh. split; cbn [history shared]; [done | |].
  - intros j h y Hy Hp. apply (Hin j h); [| done]. unfold actx_at in *. cbn [acores] in Hy.
    destruct (Nat.eq_dec j i) as [-> | Hji].
    + rewrite list_lookup_insert_eq in Hy by (by eapply lookup_lt_Some). rewrite Hc. cbn in *.
      destruct h; [rewrite (Hh' y Hy) in Hp; discriminate | by rewrite <- Ht].
    + by rewrite list_lookup_insert_ne in Hy.
  - intros Hn. apply Hout. intros (j & h & y & Hy & Hp). apply Hn. exists j, h, y. split; [| done].
    unfold actx_at in *. cbn [acores]. destruct (Nat.eq_dec j i) as [-> | Hji].
    + rewrite list_lookup_insert_eq by (by eapply lookup_lt_Some). rewrite Hc in Hy. cbn in *.
      destruct h; [rewrite (Hh y Hy) in Hp; discriminate | by rewrite Ht].
    + by rewrite list_lookup_insert_ne.
Qed.

Lemma entering_handler s i c c' :
  (forall j h x, actx_at s j h = Some x -> entering x) -> acores s !! i = Some c ->
  atask c' = atask c -> (forall h, ahandler c' = Some h -> entering h) ->
  forall j h x,
    actx_at (mkAState (alocked s) (shared s) (history s) (<[i := c']> (acores s))) j h = Some x -> entering x.
Proof.
  intros He Hc Ht Hh j h x Hx. unfold actx_at in Hx. cbn [acores] in Hx.
  destruct (Nat.eq_dec j i) as [-> | Hji].
  - rewrite list_lookup_insert_eq in Hx by (by eapply lookup_lt_Some). cbn in Hx.
    destruct h; [by apply Hh | injection Hx as <-; rewrite Ht].
    apply (He i false). unfold actx_at. by rewrite Hc.
  - rewrite list_lookup_insert_ne in Hx by done. by apply (He j h).
Qed.

Lemma ainv_step safe d0 s s' : astep safe s s' -> ainv safe d0 s -> ainv safe d0 s'.
Proof.
  intros Hstep (Hinv & He & dh & Hok). split; [by eapply astep_inv |].
  destruct Hstep as [i c o lock mask d ev x Hc E | i c Hc Hh Hm | i c h Hc Hh Ho].
  - assert (entering (snd (arunning c))) as He0 by by eapply He, actx_at_running.
    split; [| by eapply data_ok_ctx].
    intros j h y Hy. apply (actx_at_put s i c) in Hy as [(_ & _ & ->) | [Hy _]]; [| by eapply He | done].
    by eapply entering_step.
  - split; [apply (entering_handler s i c); try done; by intros h [= <-] |].
    exists dh. apply (data_ok_handler d0 dh s i c); try done; [by intros h [= <-] |].
    intros h E. by rewrite Hh in E.
  - split; [by apply (entering_handler s i c) |].
    exists dh. apply (data_ok_handler d0 dh s i c); try done.
    intros g E. rewrite Hh in E. injection E as <-. unfold is_outside in Ho. by destruct (at_pc (base h)).
Qed.

Lemma ainv_init safe n d : ainv safe d (ainit n d).
Proof.
  assert (forall i h x, actx_at (ainit n d) i h = Some x -> x = fresh) as Hf.
  { intros i h x Hx. apply bind_Some in Hx as (c & Hc & Hx). cbn in Hc.
    apply lookup_replicate in Hc as [-> _]. destruct h; [done | by injection Hx as <-]. }
  split; [| split].
  - unfold erase, ainit. cbn [alocked acores]. rewrite fmap_replicate. apply inv_init.
  - intros i h x Hx. by rewrite (Hf _ _ _ Hx).
  - exists d. split; [done | | done]. intros i h x Hx Hp. by rewrite (Hf _ _ _ Hx) in Hp.
Qed.

Lemma ainv_reachable safe n d s : asteps safe (ainit n d) s -> ainv safe d s.
Proof. induction 1; [apply ainv_init | by eapply ainv_step]. Qed.

(** The calls of a reachable state, in the order in which they left their
    critical sections, are a sequential run from the initial data; its final
    data is what is there whenever nobody is inside. *)
Lemma serialisable safe n d s :
  asteps safe (ainit n d) s ->
  exists dh, replays d (history s) dh /\ (~ critical s -> shared s = dh).
Proof.
  intros Hs. destruct (ainv_reachable _ _ _ _ Hs) as (_ & _ & dh & [Hr _ Ho]). by exists dh.
Qed.
End data.

Arguments prog _ _ : clear implicits.

(** ** The receive buffer *)

Inductive reply := Accepted (b : bool) | Delivered (r : option Z).

Section buffer.
Import UartBuffer.
Implicit Types (rx : UartBuffer.t) (q : list Z).

(** [UartBuffer::push], one load or store after the other. *)
Definition push_prog (byte : Z) : prog UartBuffer.t reply :=
  Act (fun rx =>                                          (* let head = self.head.load(..) *)
    let head := head rx in
    let next_head := (head + 1) mod UART_BUFFER_SIZE in
    Some (rx, Act (fun rx =>                              (* self.tail.load(..) *)
      if next_head =? tail rx then Some (rx, Ret (Accepted false))
      else Some (rx, Act (fun rx =>                       (* self.buffer[head] = byte *)
        _ ← buffer rx !! head;
        Some ({| buffer := <[head := byte]> (buffer rx); head := UartBuffer.head rx; tail := tail rx |},
          Act (fun rx =>                                  (* self.head.store(next_head, ..) *)
            Some ({| buffer := buffer rx; head := next_head; tail := tail rx |},
              Ret (Accepted true))))))))).

(** [UartBuffer::pop] likewise. *)
Definition pop_prog : prog UartBuffer.t reply :=
  Act (fun rx =>                                          (* let tail = self.tail.load(..) *)
    let tail := tail rx in
    Some (rx, Act (fun rx =>                              (* self.head.load(..) *)
      if head rx =? tail then Some (rx, Ret (Delivered None))
      else Some (rx, Act (fun rx =>                       (* byte = self.buffer[tail] *)
        byte ← buffer rx !! tail;
        Some (rx, Act (fun rx =>                          (* self.tail.store(next_tail, ..) *)
          Some ({| buffer := buffer rx; head := head rx; tail := (tail + 1) mod UART_BUFFER_SIZE |},
            Ret (Delivered (Some byte)))))))))).

Definition op_prog (o : op) : prog UartBuffer.t reply :=
  match o with Push b => push_prog b | Pop => pop_prog end.

(** Run on their own the accesses are the functions of [RxBuffer]. *)
Lemma push_prog_push {HW : Hardware} b rx rx' r (w : world) :
  push b rx w = Done (r, rx') w <-> seq_run (push_prog b) rx = Some (rx', Accepted r).
Proof.
  unfold push, push_prog. cbn [seq_run]. destruct (_ =? _)%nat eqn:E; cbn [seq_run].
  { split; intros [= <- <-]; done. }
  unfold arr_set, bind, panic, ret. destruct (buffer rx !! head rx); cbn; [| done].
  split; intros [= <- <-]; done.
Qed.

Lemma pop_prog_pop {HW : Hardware} rx rx' r (w : world) :
  pop rx w = Done (r, rx') w <-> seq_run pop_prog rx = Some (rx', Delivered r).
Proof.
  unfold pop, pop_prog. cbn [seq_run]. destruct (_ =? _)%nat eqn:E; cbn [seq_run].
  { split; intros [= <- <-]; done. }
  unfold arr_get, bind, panic, ret. destruct (buffer rx !! tail rx); cbn; [| done].
  split; intros [= <- <-]; done.
Qed.

(** One operation of the abstract queue with its reply, and a sequence. *)
Definition fifo_op (o : op) q : reply * list Z :=
  match o with
  | Push b => let '(ok, q') := Fifo.push b q in (Accepted ok, q')
  | Pop => let '(r, q') := Fifo.pop q in (Delivered r, q')
  end.

Fixpoint fifo_ops (ops : list op) q : list reply * list Z :=
  match ops with
  | [] => ([], q)
  | o :: ops =>
      let '(r, q1) := fifo_op o q in
      let '(rs, q') := fifo_ops ops q1 in (r :: rs, q')
  end.

Lemma op_prog_fifo o rx rx' r :
  wf rx -> op_ok o -> seq_run (op_prog o) rx = Some (rx', r) ->
  fifo_op o (contents rx) = (r, contents rx') /\ wf rx'.
Proof.
  intros Hwf Hok E. set (w := @boot_world quiet tt ∅). destruct o as [b |]; cbn [op_prog fifo_op] in *.
  - destruct (exec_push_fifo b rx w Hwf Hok) as (rx1 & E1 & Hc & Hwf1).
    pose proof (proj1 (push_prog_push _ _ _ _ _) E1) as E2. rewrite E2 in E. injection E as <- <-.
    destruct (Fifo.push b (contents rx)) as [ok q]. cbn in Hc |- *. by rewrite Hc.
  - destruct (exec_pop_fifo rx w Hwf) as (rx1 & E1 & Hc & Hwf1).
    pose proof (proj1 (pop_prog_pop _ _ _ _) E1) as E2. rewrite E2 in E. injection E as <- <-.
    destruct (Fifo.pop (contents rx)) as [o q]. cbn in Hc |- *. by rewrite Hc.
Qed.

Lemma replays_fifo hist rx rx' :
  wf rx -> Forall (fun e => op_ok (fst e)) hist -> replays op_prog rx hist rx' ->
  fifo_ops (fst <$> hist) (contents rx) = (snd <$> hist, contents rx') /\ wf rx'.
Proof.
  intros Hwf Hok. revert rx Hwf. induction Hok as [| [o r] hist Ho _ IH]; intros rx Hwf; cbn [replays].
  - by intros ->.
  - intros (rx1 & E & H). cbn [fst] in Ho. destruct (op_prog_fifo _ _ _ _ Hwf Ho E) as [Ef Hwf1].
    destruct (IH rx1 Hwf1 H) as [Eh Hwf']. rewrite !fmap_cons. cbn [fst snd fifo_ops].
    by rewrite Ef, Eh.
Qed.

(** The receive buffer shared by any number of cores, their tasks and their
    interrupt handlers, each calling [push] and [pop] through the mutex again
    and again, interleaved at every single load and store: the calls return
    exactly what a bounded FIFO returns when they are made one after the other,
    in the order in which they leave the critical section; and whenever nobody
    is inside, the buffer is well formed and holds that FIFO's queue. *)
Theorem rx_buffer_linearizable safe n s :
  asteps op_prog safe (ainit n UartBuffer.init) s ->
  Forall (fun e => op_ok (fst e)) (history s) ->
  exists q, fifo_ops (fst <$> history s) [] = (snd <$> history s, q) /\
    (~ critical s -> contents (shared s) = q /\ wf (shared s)).
Proof.
  intros Hs Hok. destruct (serialisable op_prog safe n _ s Hs) as (rx & Hr & Hq).
  destruct (replays_fifo _ _ _ wf_init Hok Hr) as [E Hwf].
  exists (contents rx). split; [exact E |]. intros Hn. by rewrite Hq.
Qed.
End buffer.

(** ** Schedules *)

Section schedules.
Context {D Op Res : Type} (code : Op -> prog D Res).

(** What a core does next: its running context steps, it takes an interrupt, or
    the handler returns. *)
Inductive turn := Run (o : Op) | TakeIrq | Eret.

Definition take_turn (safe : bool) (i : nat) (t : turn) (s : @astate D Op Res) : option astate :=
  c ← acores s !! i;
  match t with
  | Run o =>
      '(lock, mask, d, ev, x) ← actx_step code safe o (alocked s) (amasked c) (shared s) (snd (arunning c));
      Some (mkAState lock d (history s ++ ev) (<[i := put_ctx c mask x]> (acores s)))
  | TakeIrq =>
      match ahandler c, amasked c with
      | None, false =>
          Some (mkAState (alocked s) (shared s) (history s) (<[i := mkACore true (atask c) (Some fresh)]> (acores s)))
      | _, _ => None
      end
  | Eret =>
      h ← ahandler c;
      if is_outside (base h) then
        Some (mkAState (alocked s) (shared s) (history s) (<[i := mkACore false (atask c) None]> (acores s)))
      else None
  end.

Fixpoint schedule (safe : bool) (ts : list (nat * turn)) (s : astate) : option astate :=
  match ts with [] => Some s | (i, t) :: ts => s' ← take_turn safe i t s; schedule safe ts s' end.

Lemma take_turn_step safe i t s s' : take_turn safe i t s = Some s' -> astep code safe s s'.
Proof.
  unfold take_turn. intros H. apply bind_Some in H as (c & Hc & H). destruct t as [o | |].
  - apply bind_Some in H as ([[[[lock mask] d] ev] x] & E & [= <-]). by eapply astep_ctx.
  - destruct (ahandler c) eqn:Hh, (amasked c) eqn:Hm; try done. injection H as <-. by apply astep_irq.
  - apply bind_Some in H as (h & Hh & H). destruct (is_outside (base h)) eqn:Ho; [| done].
    injection H as <-. by eapply astep_eret.
Qed.

Lemma schedule_steps safe ts s0 s s' :
  asteps code safe s0 s -> schedule safe ts s = Some s' -> asteps code safe s0 s'.
Proof.
  revert s. induction ts as [| [i t] ts IH]; intros s Hs H; [by injection H as <- |].
  apply bind_Some in H as (s1 & E & H). apply (IH s1); [| done].
  eapply asteps_step; [exact Hs | by eapply take_turn_step].
Qed.
End schedules.

Arguments turn _ : clear implicits.
