(* ===== verification/WeakLock.v ===== *)
(** * The lock and its data on a weakly ordered memory

    [LockData] gives every load the last value stored.  AArch64 does not: here a
    location keeps all the values stored to it, by timestamp, and a core has a
    view, the oldest message it may still read at each location.  Only the
    orderings of irq_safe_mutex.rs pass views on: the [Release] store of the
    unlock publishes the view of its core, the [Acquire] compare-exchange that
    takes the lock joins it to its own.  Relaxed and plain accesses read any
    message that the view allows, and store anywhere after it.

    With both orderings every step is a step of [LockData], so that its results
    hold; on a single core they hold without any ordering; with one of the two
    missing, two cores can get bytes out of the buffer that were never put in
    ([orderings_needed], a run of the model with other orderings than the code's).

    The flag itself has one value: a compare-exchange that succeeds reads the
    last message (the one after an older message is taken by the exchange that
    read it), and one that fails changes nothing, whatever it read.  Task and
    handler of one core share its view, since taking an exception does not
    reorder a core's own accesses.  Loads do not see stores that come later. *)

From stdpp Require Import functions gmap.
From S2P Require Export LockData.

Local Open Scope nat_scope.

(** ** The machine *)

Section weak.
Context {V Op Res : Type}.

(** A closure whose accesses are loads from and stores to single locations. *)
Inductive wprog :=
  | WRet (r : Res)
  | WLoad (l : nat) (k : V -> wprog)
  | WStore (l : nat) (v : V) (k : wprog).

Context (code : Op -> wprog).

(** The oldest message that may be read, at each location. *)
#[local] Notation view := (nat -> nat).

Definition view_init : view := fun _ => 0.
Definition join (v1 v2 : view) : view := fun l => v1 l `max` v2 l.

Record wctx := mkWctx { wbase : ctx; wcall : option (Op * wprog) }.

Record wcore := mkWcore {
  wmasked : bool; wtask : wctx; whandler : option wctx;
  wview : view;
}.

(** What the cores share. *)
Record shared_state := mkShared {
  wlocked : bool;
  released : view;                 (* the view that came with the last unlock *)
  memory : nat -> gmap nat V;      (* the messages of a location, by timestamp *)
  whistory : list (Op * Res);
}.

Record wstate := mkWstate { global : shared_state; wcores : list wcore }.

(** Orderings: does taking the lock acquire, does the unlock release? *)
Context (acq rel safe : bool).

(** One step of a context on a core with view [vw]: [o] is the operation it
    calls if it starts a call, [t] the timestamp of the message it reads or
    writes if it accesses memory. *)
Definition wctx_step (o : Op) (t : nat) (g : shared_state) (mask : bool) (vw : view) (x : wctx) :
    option (shared_state * bool * view * wctx) :=
  let '(lock, mask', b) := ctx_step safe (wlocked g) mask (wbase x) in
  match at_pc (wbase x) with
  | Outside => Some (g, mask', vw, mkWctx b (Some (o, code o)))
  | Spin =>
      let vw := if negb (wlocked g) && acq then join vw (released g) else vw in
      Some (mkShared lock (released g) (memory g) (whistory g), mask', vw, mkWctx b (wcall x))
  | Critical =>
      match wcall x with
      | Some (o, WRet r) =>
          Some (mkShared lock (released g) (memory g) (whistory g ++ [(o, r)]), mask', vw, mkWctx b None)
      | Some (o, WLoad l k) =>
          if vw l <=? t then
            v ← memory g l !! t;
            Some (g, mask, <[l := t]> vw, mkWctx (wbase x) (Some (o, k v)))
          else None
      | Some (o, WStore l v k) =>
          _ ← memory g l !! vw l;                       (* the location exists *)
          if (vw l <? t) && bool_decide (memory g l !! t = None) then
            Some (mkShared (wlocked g) (released g)
                    (<[l := <[t := v]> (memory g l)]> (memory g)) (whistory g),
                  mask, <[l := t]> vw, mkWctx (wbase x) (Some (o, k)))
          else None
      | None => None
      end
  | Unlock =>
      Some (mkShared lock (if rel then vw else view_init) (memory g) (whistory g), mask', vw, mkWctx b (wcall x))
  | _ => Some (g, mask', vw, mkWctx b (wcall x))
  end.

Definition wfresh : wctx := mkWctx (mkCtx Outside false) None.

Definition wrunning (c : wcore) : wctx := default (wtask c) (whandler c).

Definition put_wctx (c : wcore) (mask : bool) (vw : view) (x : wctx) : wcore :=
  match whandler c with
  | Some _ => mkWcore mask (wtask c) (Some x) vw
  | None => mkWcore mask x None vw
  end.

(** What core [i] does next, as [take_turn]. *)
Definition take_wturn (i : nat) (tn : turn Op) (t : nat) (s : wstate) : option wstate :=
  c ← wcores s !! i;
  match tn with
  | Run o =>
      '(g, mask, vw, x) ← wctx_step o t (global s) (wmasked c) (wview c) (wrunning c);
      Some (mkWstate g (<[i := put_wctx c mask vw x]> (wcores s)))
  | TakeIrq =>
      match whandler c, wmasked c with
      | None, false =>
          Some (mkWstate (global s) (<[i := mkWcore true (wtask c) (Some wfresh) (wview c)]> (wcores s)))
      | _, _ => None
      end
  | Eret =>
      h ← whandler c;
      if is_outside (wbase h) then
        Some (mkWstate (global s) (<[i := mkWcore false (wtask c) None (wview c)]> (wcores s)))
      else None
  end.

Definition wstep (s s' : wstate) : Prop := exists i tn t, take_wturn i tn t s = Some s'.

Inductive wsteps (s : wstate) : wstate -> Prop :=
  | wsteps_refl : wsteps s s
  | wsteps_step s1 s2 : wsteps s s1 -> wstep s1 s2 -> wsteps s s2.

(** [n] idle cores, and the data [d], location by location. *)
Definition initial_memory (d : list V) (l : nat) : gmap nat V :=
  match d !! l with Some v => {[ 0 := v ]} | None => ∅ end.

Definition winit (n : nat) (d : list V) : wstate :=
  mkWstate (mkShared false view_init (initial_memory d) [])
    (replicate n (mkWcore false wfresh None view_init)).

Fixpoint wschedule (ts : list (nat * turn Op * nat)) (s : wstate) : option wstate :=
  match ts with
  | [] => Some s
  | (i, tn, t) :: ts => s' ← take_wturn i tn t s; wschedule ts s'
  end.

Lemma wschedule_steps ts s0 s s' : wsteps s0 s -> wschedule ts s = Some s' -> wsteps s0 s'.
Proof.
  revert s. induction ts as [| [[i tn] t] ts IH]; intros s Hs H; [by injection H as <- |].
  apply bind_Some in H as (s1 & E & H). apply (IH s1); [| done].
  eapply wsteps_step; [exact Hs | by exists i, tn, t].
Qed.

(** ** The sequentially consistent system *)

(** The same accesses on the values themselves; a location that does not exist
    panics. *)
Fixpoint sc (p : wprog) : prog (list V) Res :=
  match p with
  | WRet r => Ret r
  | WLoad l k => Act (fun d => v ← d !! l; Some (d, sc (k v)))
  | WStore l v k => Act (fun d => _ ← d !! l; Some (<[l := v]> d, sc k))
  end.

Definition sc_code (o : Op) : prog (list V) Res := sc (code o).

Definition sc_ctx (x : wctx) : actx := mkActx (wbase x) (prod_map id sc <$> wcall x).
Definition sc_core (c : wcore) : acore := mkACore (wmasked c) (sc_ctx (wtask c)) (sc_ctx <$> whandler c).

(** A context of the core holds the lock. *)
Definition wholds (c : wcore) : bool :=
  holds (wbase (wtask c)) || match whandler c with Some h => holds (wbase h) | None => false end.

(** [a] has the newest message of every location, whose timestamps are [top].
    A core that holds the lock can read no other; the lock, when free, carries
    that view.  On one core all of it holds with any orderings. *)
Record sc_rel (s : wstate) (a : @astate (list V) Op Res) (top : view) : Prop := {
  rel_locked : alocked a = wlocked (global s);
  rel_history : history a = whistory (global s);
  rel_cores : acores a = sc_core <$> wcores s;
  rel_newest l : shared a !! l = memory (global s) l !! top l;
  rel_top l t : is_Some (memory (global s) l !! t) -> t <= top l;
  rel_views i c l : wcores s !! i = Some c -> wview c l <= top l;
  rel_released l : released (global s) l <= top l;
  rel_ordered : acq && rel = true \/ length (wcores s) <= 1;
  rel_holder i c l :
    wcores s !! i = Some c -> (acq && rel = true -> wholds c = true) -> wview c l = top l;
  rel_free l : acq && rel = true -> wlocked (global s) = false -> released (global s) l = top l;
}.

(** ** Simulation *)

Section simulation.
Context (s : wstate) (a : @astate (list V) Op Res) (top : view).
Context (HR : sc_rel s a top) (Hinv : inv safe (erase a)).

Lemma sc_core_at i c : wcores s !! i = Some c -> acores a !! i = Some (sc_core c).
Proof. intros H. by rewrite (rel_cores _ _ _ HR), list_lookup_fmap, H. Qed.

(** A core that holds the lock has a context that does. *)
Lemma wholds_ctx i c :
  wcores s !! i = Some c -> wholds c = true ->
  exists h x, ctx_at (erase a) i h = Some x /\ holds x = true.
Proof.
  intros Hc H. apply sc_core_at, erase_lookup in Hc. apply orb_true_iff in H as [H | H].
  - exists false, (wbase (wtask c)). unfold ctx_at. by rewrite Hc.
  - destruct (whandler c) as [x |] eqn:Hx; [| done]. exists true, (wbase x). unfold ctx_at. rewrite Hc.
    cbn. by rewrite Hx.
Qed.

Lemma wholds_unique i j c d :
  wcores s !! i = Some c -> wcores s !! j = Some d -> wholds c = true -> wholds d = true -> i = j.
Proof.
  intros Hc Hd Hhc Hhd. destruct (wholds_ctx i c Hc Hhc) as (h & x & Hx & Hhx).
  destruct (wholds_ctx j d Hd Hhd) as (h' & y & Hy & Hhy).
  by destruct (inv_exclusive _ _ _ _ _ _ _ _ Hinv Hx Hy Hhx Hhy).
Qed.

Lemma wholds_locked i c : wcores s !! i = Some c -> wholds c = true -> wlocked (global s) = true.
Proof.
  intros Hc Hhc. destruct (wholds_ctx i c Hc Hhc) as (h & x & Hx & Hhx).
  rewrite <- (rel_locked _ _ _ HR). exact (inv_locked _ _ _ _ _ Hinv Hx Hhx).
Qed.

Lemma wholds_running c : holds (wbase (wrunning c)) = true -> wholds c = true.
Proof. unfold wrunning, wholds. destruct (whandler c); intros H; apply orb_true_iff; by eauto. Qed.

Lemma wholds_put c mask vw x :
  wholds (put_wctx c mask vw x) = true ->
  (holds (wbase x) = true -> holds (wbase (wrunning c)) = true) -> wholds c = true.
Proof.
  unfold wholds, put_wctx, wrunning. destruct (whandler c) as [h |]; cbn; rewrite ?orb_true_iff; naive_solver.
Qed.

(** The relation after a step of core [i], from what the step did to the shared
    state and to the core's view. *)
Lemma sc_rel_put i c g d mask vw x top' :
  wcores s !! i = Some c ->
  (forall l, d !! l = memory g l !! top' l) ->
  (forall l t, is_Some (memory g l !! t) -> t <= top' l) ->
  (forall l, vw l <= top' l) -> (forall l, top l <= top' l) -> (forall l, released g l <= top' l) ->
  ((acq && rel = true -> wholds (put_wctx c mask vw x) = true) -> forall l, vw l = top' l) ->
  (forall l, top' l = top l) \/ wholds c = true ->
  (forall l, acq && rel = true -> wlocked g = false -> released g l = top' l) ->
  sc_rel (mkWstate g (<[i := put_wctx c mask vw x]> (wcores s)))
    (mkAState (wlocked g) d (whistory g) (<[i := put_ctx (sc_core c) mask (sc_ctx x)]> (acores a))) top'.
Proof.
  intros Hc H1 H2 H3 H4 H5 H6 H7 H8. destruct HR. split; cbn [alocked history acores shared global wcores]; try done.
  - rewrite rel_cores0, list_fmap_insert. f_equal. unfold put_ctx, put_wctx, sc_core. cbn.
    by destruct (whandler c).
  - intros j e l He. apply list_lookup_insert_Some in He as [(-> & <- & _) | [_ He]].
    + unfold put_wctx. by destruct (whandler c).
    + etrans; [by eapply rel_views0 | done].
  - by rewrite length_insert.
  - intros j e l He Hh. apply list_lookup_insert_Some in He as [(-> & <- & _) | [Hne He]].
    + rewrite <- (H6 Hh). unfold put_wctx. by destruct (whandler c).
    + rewrite (rel_holder0 j e l He Hh). destruct H7 as [H7 | H7]; [done |]. exfalso.
      destruct (acq && rel) eqn:Ho.
      * apply Hne. exact (wholds_unique i j c e Hc He H7 (Hh eq_refl)).
      * destruct rel_ordered0 as [| Hlen]; [done |].
        apply lookup_lt_Some in Hc, He. lia.
Qed.

(** One step of the running context of core [i]. *)
Section context_step.
Context (i : nat) (c : wcore) (Hc : wcores s !! i = Some c).
Let x := wrunning c.

(** The step [y] of the weak machine is a step of the other one. *)
Definition simulated (o : Op) (y : shared_state * bool * view * wctx) : Prop :=
  let '(g, mask, vw, x') := y in
  exists d ev top',
    actx_step sc_code safe o (wlocked (global s)) (wmasked c) (shared a) (sc_ctx x) =
      Some (wlocked g, mask, d, ev, sc_ctx x') /\
    whistory g = whistory (global s) ++ ev /\
    sc_rel (mkWstate g (<[i := put_wctx c mask vw x']> (wcores s)))
      (mkAState (wlocked g) d (whistory g) (<[i := put_ctx (sc_core c) mask (sc_ctx x')]> (acores a))) top'.

(** A step that leaves memory and view alone and does not enter. *)
Lemma sim_still o g mask x' ev :
  actx_step sc_code safe o (wlocked (global s)) (wmasked c) (shared a) (sc_ctx x) =
    Some (wlocked g, mask, shared a, ev, sc_ctx x') ->
  whistory g = whistory (global s) ++ ev -> memory g = memory (global s) ->
  (forall l, released g l <= top l) ->
  (forall l, acq && rel = true -> wlocked g = false -> released g l = top l) ->
  (holds (wbase x') = true -> holds (wbase x) = true) ->
  simulated o (g, mask, wview c, x').
Proof.
  intros E Hh Hm Hr Hf Hx. exists (shared a), ev, top. split; [exact E |]. split; [exact Hh |].
  apply sc_rel_put; rewrite ?Hm; try done.
  - apply (rel_newest _ _ _ HR).
  - apply (rel_top _ _ _ HR).
  - intros l. by eapply (rel_views _ _ _ HR).
  - intros Hput l. apply (rel_holder _ _ _ HR i c l Hc). intros Ho.
    eapply wholds_put; [by apply Hput | exact Hx].
  - by left.
Qed.

(** The view of a core whose running context holds the lock. *)
Lemma holder_view l : holds (wbase x) = true -> wview c l = top l.
Proof. intros H. apply (rel_holder _ _ _ HR i c l Hc). intros _. by apply wholds_running. Qed.

Lemma sim_enter o mask x' :
  at_pc (wbase x) = Spin -> wlocked (global s) = false ->
  actx_step sc_code safe o (wlocked (global s)) (wmasked c) (shared a) (sc_ctx x) =
    Some (true, mask, shared a, [], sc_ctx x') ->
  let g := global s in
  simulated o (mkShared true (released g) (memory g) (whistory g), mask,
    if acq then join (wview c) (released g) else wview c, x').
Proof.
  intros Hp Hl E g.
  assert (forall l, wview c l <= top l) as Hv by (intros l; by eapply (rel_views _ _ _ HR)).
  pose proof (rel_released _ _ _ HR) as Hrel.
  assert (forall l, (if acq then join (wview c) (released g) else wview c) l = top l) as Hview.
  { intros l. specialize (Hv l). specialize (Hrel l). destruct (acq && rel) eqn:Ho.
    - pose proof (rel_free _ _ _ HR l Ho Hl) as Hf. apply andb_true_iff in Ho as [-> _].
      unfold join, g. lia.
    - assert (wview c l = top l) as Ht by (apply (rel_holder _ _ _ HR i c l Hc); by rewrite Ho).
      unfold join, g. destruct acq; lia. }
  exists (shared a), [], top. split; [exact E |]. split; [by rewrite app_nil_r |].
  apply sc_rel_put; cbn [memory released wlocked]; try done.
  - apply (rel_newest _ _ _ HR).
  - apply (rel_top _ _ _ HR).
  - intros l. by rewrite Hview.
  - by left.
Qed.

Lemma sim_weak_load o o' l k t v :
  at_pc (wbase x) = Critical -> wcall x = Some (o', WLoad l k) ->
  wview c l <= t -> memory (global s) l !! t = Some v ->
  simulated o (global s, wmasked c, <[l := t]> (wview c), mkWctx (wbase x) (Some (o', k v))).
Proof.
  intros Hp Hcall Ht Hv.
  assert (holds (wbase x) = true) as Hx by (unfold holds; by rewrite Hp).
  pose proof (holder_view l Hx) as Hvl.
  assert (t = top l) as ->.
  { pose proof (rel_top _ _ _ HR l t (mk_is_Some _ _ Hv)). lia. }
  assert (forall l', (<[l := top l]> (wview c) : view) l' = top l') as Hview.
  { intros l'. destruct (Nat.eq_dec l l') as [<- | Hne]; [by rewrite fn_lookup_insert |].
    rewrite fn_lookup_insert_ne by done. by apply holder_view. }
  exists (shared a), [], top. split; [| split; [by rewrite app_nil_r |]].
  - unfold actx_step, sc_ctx. cbn [base call]. rewrite Hcall. cbn [fmap option_fmap option_map prod_map id fst snd sc].
    unfold ctx_step. rewrite Hp. by rewrite (rel_newest _ _ _ HR), Hv.
  - apply sc_rel_put; try done.
    + apply (rel_newest _ _ _ HR).
    + apply (rel_top _ _ _ HR).
    + intros l'. by rewrite Hview.
    + apply (rel_released _ _ _ HR).
    + by left.
    + apply (rel_free _ _ _ HR).
Qed.

Lemma sim_weak_store o o' l v k t u :
  at_pc (wbase x) = Critical -> wcall x = Some (o', WStore l v k) ->
  memory (global s) l !! wview c l = Some u -> wview c l < t ->
  let g := global s in
  simulated o (mkShared (wlocked g) (released g) (<[l := <[t := v]> (memory g l)]> (memory g)) (whistory g),
    wmasked c, <[l := t]> (wview c), mkWctx (wbase x) (Some (o', k))).
Proof.
  intros Hp Hcall Hu Ht g.
  assert (holds (wbase x) = true) as Hx by (unfold holds; by rewrite Hp).
  pose proof (holder_view l Hx) as Hvl. rewrite Hvl in Hu, Ht.
  pose proof (rel_newest _ _ _ HR l) as Hd. rewrite Hu in Hd.
  pose proof (wholds_locked i c Hc (wholds_running c Hx)) as Hlock.
  assert (forall l', top l' <= (<[l := t]> top : view) l') as Hle.
  { intros l'. destruct (Nat.eq_dec l l') as [<- | Hne].
    - rewrite fn_lookup_insert. lia.
    - by rewrite fn_lookup_insert_ne. }
  assert (forall l', (<[l := t]> (wview c) : view) l' = (<[l := t]> top : view) l') as Hview.
  { intros l'. destruct (Nat.eq_dec l l') as [<- | Hne]; [by rewrite !fn_lookup_insert |].
    rewrite !fn_lookup_insert_ne by done. by apply holder_view. }
  exists (<[l := v]> (shared a)), [], (<[l := t]> top). split; [| split; [by rewrite app_nil_r |]].
  - unfold actx_step, sc_ctx. cbn [base call]. rewrite Hcall. cbn [fmap option_fmap option_map prod_map id fst snd sc].
    unfold ctx_step. rewrite Hp. by rewrite Hd.
  - apply sc_rel_put; cbn [memory released wlocked]; try done.
    + intros l'. destruct (Nat.eq_dec l l') as [<- | Hne].
      * rewrite !fn_lookup_insert, lookup_insert_eq, list_lookup_insert_eq; [done | by eapply lookup_lt_Some].
      * rewrite !fn_lookup_insert_ne, list_lookup_insert_ne by done. apply (rel_newest _ _ _ HR).
    + intros l' t' H. destruct (Nat.eq_dec l l') as [<- | Hne].
      * rewrite fn_lookup_insert in H. rewrite fn_lookup_insert. apply lookup_insert_is_Some in H as [<- | [_ H]]; [done |].
        apply (rel_top _ _ _ HR) in H. lia.
      * rewrite fn_lookup_insert_ne in H by done. rewrite fn_lookup_insert_ne by done. by apply (rel_top _ _ _ HR).
    + intros l'. by rewrite Hview.
    + intros l'. etrans; [apply (rel_released _ _ _ HR) | apply Hle].
    + right. by apply wholds_running.
    + intros l' _. unfold g. by rewrite Hlock.
Qed.

Lemma sim_unlock o mask x' :
  at_pc (wbase x) = Unlock -> holds (wbase x') = false ->
  actx_step sc_code safe o (wlocked (global s)) (wmasked c) (shared a) (sc_ctx x) =
    Some (false, mask, shared a, [], sc_ctx x') ->
  let g := global s in
  simulated o (mkShared false (if rel then wview c else view_init) (memory g) (whistory g), mask, wview c, x').
Proof.
  intros Hp Hx' E g. assert (holds (wbase x) = true) as Hx by (unfold holds; by rewrite Hp).
  apply (sim_still o _ mask x' []); cbn [wlocked whistory memory released]; try done.
  - by rewrite app_nil_r.
  - intros l. destruct rel; [by rewrite holder_view | unfold view_init; lia].
  - intros l Ho _. apply andb_true_iff in Ho as [_ ->]. by apply holder_view.
Qed.

(** Evaluates the step of the strong machine at the current place. *)
#[local] Ltac sc_step :=
  unfold actx_step, ctx_step; cbn [sc_ctx base call];
  match goal with H : at_pc (wbase x) = _ |- _ => rewrite H end.

Lemma sim_ctx o t y :
  wctx_step o t (global s) (wmasked c) (wview c) x = Some y -> simulated o y.
Proof.
  unfold wctx_step, ctx_step.
  pose proof (rel_released _ _ _ HR) as Hrel. pose proof (rel_free _ _ _ HR) as Hfree.
  assert (forall mask x', actx_step sc_code safe o (wlocked (global s)) (wmasked c) (shared a) (sc_ctx x) =
      Some (wlocked (global s), mask, shared a, [], sc_ctx x') -> holds (wbase x') = false ->
    simulated o (global s, mask, wview c, x')) as Hstill.
  { intros mask x' E Hx. apply (sim_still o _ mask x' []); try done; by rewrite ?app_nil_r, ?Hx. }
  destruct (at_pc (wbase x)) eqn:Hp.
  - intros [= <-]. apply Hstill; [by sc_step | by destruct safe].
  - intros [= <-]. apply Hstill; [by sc_step | done].
  - intros [= <-]. apply Hstill; [by sc_step | done].
  - destruct (wlocked (global s)) eqn:Hl; cbn [negb andb]; intros [= <-].
    + apply (sim_still o _ _ _ []); cbn [wlocked whistory memory released wbase]; try done.
      * by sc_step; rewrite Hl.
      * by rewrite app_nil_r.
    + apply sim_enter; [done | done |]. by sc_step; rewrite Hl.
  - destruct (wcall x) as [[o' [r | l k | l v k]] |] eqn:Hcall; [| | | done].
    + intros [= <-]. apply (sim_still o _ _ _ [(o', r)]); cbn [wlocked whistory memory released wbase]; try done.
      * by sc_step; rewrite Hcall.
      * intros _. unfold holds. by rewrite Hp.
    + destruct (Nat.leb_spec (wview c l) t); [| done]. intros E. apply bind_Some in E as (v & Hv & [= <-]).
      by apply sim_weak_load.
    + intros E. apply bind_Some in E as (u & Hu & E).
      destruct (Nat.ltb_spec (wview c l) t); [| done]. cbn [andb] in E.
      destruct (bool_decide _); [| done]. injection E as <-. by eapply sim_weak_store.
  - intros [= <-]. apply sim_unlock; [done | by destruct safe |].
    by sc_step.
  - intros [= <-]. apply Hstill; [by sc_step | done].
Qed.
End context_step.

Lemma sc_ctx_fresh : sc_ctx wfresh = fresh.
Proof. done. Qed.

(** Interrupts come and go without touching memory or views. *)
Lemma sim_switch i c mask h :
  wcores s !! i = Some c -> (forall h', h = Some h' -> is_outside (wbase h') = true) ->
  (forall h', whandler c = Some h' -> is_outside (wbase h') = true) ->
  sc_rel (mkWstate (global s) (<[i := mkWcore mask (wtask c) h (wview c)]> (wcores s)))
    (mkAState (alocked a) (shared a) (history a)
       (<[i := mkACore mask (sc_ctx (wtask c)) (sc_ctx <$> h)]> (acores a))) top.
Proof.
  intros Hc Hh Hh'. pose proof HR as []. split; cbn [alocked history acores shared global wcores]; try done.
  - by rewrite rel_cores0, list_fmap_insert.
  - intros j e l He. apply list_lookup_insert_Some in He as [(-> & <- & _) | [_ He]]; [exact (rel_views0 _ _ l Hc) | by eapply rel_views0].
  - by rewrite length_insert.
  - intros j e l He Hhe. apply list_lookup_insert_Some in He as [(-> & <- & _) | [_ He]]; [| by eapply rel_holder0].
    cbn [wview]. apply (rel_holder0 _ _ l Hc). intros Ho. specialize (Hhe Ho). unfold wholds in *.
    cbn [wtask whandler] in Hhe. destruct h as [h |]; [specialize (Hh h eq_refl) |].
    + unfold is_outside, holds in *. destruct (at_pc (wbase h)); try done.
      apply orb_true_iff. left. by rewrite orb_false_r in Hhe.
    + apply orb_true_iff. left. by rewrite orb_false_r in Hhe.
Qed.

(** A step of the weak machine is a step of the other one. *)
Lemma simulates i tn t s' :
  take_wturn i tn t s = Some s' ->
  exists a' top', take_turn sc_code safe i tn a = Some a' /\ sc_rel s' a' top'.
Proof.
  unfold take_wturn, take_turn. intros H. apply bind_Some in H as (c & Hc & H).
  rewrite (sc_core_at i c Hc). cbn [mbind option_bind]. destruct tn as [o | |].
  - apply bind_Some in H as ([[[g mask] vw] x] & E & [= <-]).
    apply (sim_ctx i c Hc) in E as (d & ev & top' & E & Hev & Hrel).
    exists (mkAState (wlocked g) d (whistory g) (<[i := put_ctx (sc_core c) mask (sc_ctx x)]> (acores a))), top'.
    split; [| exact Hrel]. rewrite (rel_locked _ _ _ HR), (rel_history _ _ _ HR), Hev.
    assert (snd (arunning (sc_core c)) = sc_ctx (wrunning c)) as ->
      by (unfold arunning, wrunning, sc_core; cbn; by destruct (whandler c)).
    cbn [amasked sc_core]. by rewrite E.
  - destruct (whandler c) as [h |] eqn:Hh; [done |]. destruct (wmasked c) eqn:Hm; [done |].
    injection H as <-. eexists _, top. unfold sc_core at 1 2. cbn [ahandler amasked]. rewrite Hh, Hm.
    split; [reflexivity |]. apply (sim_switch i c true (Some wfresh)); try done; [by intros h [= <-] | by rewrite Hh].
  - apply bind_Some in H as (h & Hh & H). destruct (is_outside (wbase h)) eqn:Ho; [| done]. injection H as <-.
    eexists _, top. assert (ahandler (sc_core c) = Some (sc_ctx h)) as -> by (unfold sc_core; cbn; by rewrite Hh).
    cbn [mbind option_bind sc_ctx base]. rewrite Ho. split; [reflexivity |].
    apply (sim_switch i c false None); try done. rewrite Hh. by intros h' [= <-].
Qed.
End simulation.

Lemma sc_rel_init n d :
  acq && rel = true \/ n <= 1 -> sc_rel (winit n d) (ainit n d) view_init.
Proof.
  intros Ho. split; cbn [alocked history acores shared global wcores winit ainit wlocked whistory memory released]; try done.
  - by rewrite fmap_replicate.
  - intros l. unfold initial_memory, view_init. by destruct (d !! l).
  - intros l t. unfold initial_memory, view_init. destruct (d !! l) as [v |].
    + intros [u Hu]. apply lookup_singleton_Some in Hu as [<- _]. done.
    + rewrite lookup_empty. by intros [].
  - intros i c l H. by apply lookup_replicate in H as [-> _].
  - by rewrite length_replicate.
  - intros i c l H _. by apply lookup_replicate in H as [-> _].
Qed.

Lemma simulated_run n d s :
  acq && rel = true \/ n <= 1 -> wsteps (winit n d) s ->
  exists a top, asteps sc_code safe (ainit n d) a /\ sc_rel s a top.
Proof.
  intros Ho. induction 1 as [| s1 s2 _ (a & top & Ha & HR) (i & tn & t & E)].
  - exists (ainit n d), view_init. split; [apply asteps_refl | by apply sc_rel_init].
  - assert (inv safe (erase a)) as Hinv by by destruct (ainv_reachable _ _ _ _ _ Ha) as [? _].
    destruct (simulates s1 a top HR Hinv i tn t s2 E) as (a' & top' & Ea & HR').
    exists a', top'. split; [| exact HR']. eapply asteps_step; [exact Ha | by eapply take_turn_step].
Qed.

(** Somebody is in the critical section. *)
Definition wcritical (s : wstate) : Prop :=
  exists i c x, wcores s !! i = Some c /\ (x = wtask c \/ whandler c = Some x) /\ at_pc (wbase x) = Critical.

(** The last value stored to a location. *)
Definition newest (s : wstate) (l : nat) (v : V) : Prop :=
  exists t, memory (global s) l !! t = Some v /\
    forall t', is_Some (memory (global s) l !! t') -> t' <= t.

Lemma sc_rel_critical s a top : sc_rel s a top -> critical a -> wcritical s.
Proof.
  intros HR (i & h & x & Hx & Hp). unfold actx_at in Hx. rewrite (rel_cores _ _ _ HR), list_lookup_fmap in Hx.
  destruct (wcores s !! i) as [c |] eqn:Hc; [| done]. cbn in Hx. destruct h.
  - destruct (whandler c) as [y |] eqn:Hy; [| done]. injection Hx as <-. exists i, c, y. by eauto.
  - injection Hx as <-. exists i, c, (wtask c). by eauto.
Qed.

(** The calls of a run of the weak machine are a sequential run on the data. *)
Lemma weak_serialisable n d s :
  acq && rel = true \/ n <= 1 -> wsteps (winit n d) s ->
  exists dh, replays sc_code d (whistory (global s)) dh /\
    (~ wcritical s -> forall l v, dh !! l = Some v -> newest s l v).
Proof.
  intros Ho Hs. destruct (simulated_run n d s Ho Hs) as (a & top & Ha & HR).
  destruct (serialisable sc_code safe n d a Ha) as (dh & Hr & Hq). exists dh.
  rewrite (rel_history _ _ _ HR) in Hr. split; [exact Hr |]. intros Hn l v Hv. exists (top l).
  rewrite <- (rel_newest _ _ _ HR), Hq; [| intros Hc; by eapply Hn, sc_rel_critical].
  split; [exact Hv | by apply (rel_top _ _ _ HR)].
Qed.
End weak.

Arguments wprog _ _ : clear implicits.

(** ** The receive buffer *)

Section buffer.
Import UartBuffer.
Implicit Types (rx : UartBuffer.t).

(** The locations: the two indices, then the array. *)
Definition HEAD : nat := 0.
Definition TAIL : nat := 1.
Definition cell (i : nat) : nat := 2 + i.

Definition layout rx : list Z := Z.of_nat (head rx) :: Z.of_nat (tail rx) :: buffer rx.

(** [UartBuffer::push] and [pop], access by access. *)
Definition push_w (byte : Z) : wprog Z reply :=
  WLoad HEAD (fun head =>                           (* self.head.load(Relaxed) *)
    let next_head := (Z.to_nat head + 1) mod UART_BUFFER_SIZE in
    WLoad TAIL (fun tail =>                         (* self.tail.load(Relaxed) *)
      if next_head =? Z.to_nat tail then WRet (Accepted false)
      else
        WStore (cell (Z.to_nat head)) byte (        (* self.buffer[head] = byte *)
        WStore HEAD (Z.of_nat next_head) (          (* self.head.store(next_head, Relaxed) *)
        WRet (Accepted true))))).

Definition pop_w : wprog Z reply :=
  WLoad TAIL (fun tail =>                           (* self.tail.load(Relaxed) *)
    WLoad HEAD (fun head =>                         (* self.head.load(Relaxed) *)
      if Z.to_nat head =? Z.to_nat tail then WRet (Delivered None)
      else
        WLoad (cell (Z.to_nat tail)) (fun byte =>   (* byte = self.buffer[tail] *)
        let next_tail := (Z.to_nat tail + 1) mod UART_BUFFER_SIZE in
        WStore TAIL (Z.of_nat next_tail) (          (* self.tail.store(next_tail, Relaxed) *)
        WRet (Delivered (Some byte)))))).

Definition op_w (o : op) : wprog Z reply := match o with Push b => push_w b | Pop => pop_w end.

(** On the values themselves they are the accesses of [LockData]. *)
Lemma op_w_prog o rx :
  seq_run (sc_code op_w o) (layout rx) =
    (fun '(rx', r) => (layout rx', r)) <$> seq_run (op_prog o) rx.
Proof.
  destruct rx as [buf h t], o as [b |];
    unfold sc_code, layout; cbn [op_w op_prog push_w pop_w push_prog pop_prog sc seq_run head tail buffer];
    unfold HEAD, TAIL, cell; cbn [lookup list_lookup mbind option_bind seq_run head tail buffer]; rewrite !Nat2Z.id.
  - destruct (_ =? t); [done |]. cbn [sc seq_run head tail buffer]. cbn [Nat.add lookup list_lookup].
    by destruct (buf !! h).
  - destruct (_ =? t); [done |]. cbn [sc seq_run head tail buffer]. cbn [Nat.add lookup list_lookup].
    by destruct (buf !! t).
Qed.

Lemma replays_layout hist rx d' :
  replays (sc_code op_w) (layout rx) hist d' ->
  exists rx', d' = layout rx' /\ replays op_prog rx hist rx'.
Proof.
  revert rx. induction hist as [| [o r] hist IH]; intros rx; cbn [replays]; [intros ->; by exists rx |].
  intros (d1 & E & H). rewrite op_w_prog in E. apply fmap_Some in E as ([rx1 r1] & E & [= -> ->]).
  destruct (IH rx1 H) as (rx' & -> & H'). exists rx'. split; [done |]. by exists rx1.
Qed.

(** C13: the orderings of the mutex are enough on a weakly ordered memory.  With
    the acquiring compare-exchange and the releasing store, any number of cores
    with their interrupt handlers that call [push] and [pop] through the mutex,
    each relaxed or plain access reading any value its core may still see, get
    what a bounded FIFO returns to the same calls made one after the other in
    the order in which they leave the critical section; whenever nobody is
    inside, the newest values in memory are a well-formed buffer that holds
    that queue.  On one core the same holds with any orderings. *)
Theorem release_acquire_suffices acq rel safe n s :
  acq && rel = true \/ n <= 1 ->
  wsteps op_w acq rel safe (winit n (layout init)) s ->
  Forall (fun e => op_ok (fst e)) (whistory (global s)) ->
  exists q, fifo_ops (fst <$> whistory (global s)) [] = (snd <$> whistory (global s), q) /\
    (~ wcritical s -> exists rx, contents rx = q /\ wf rx /\
       forall l v, layout rx !! l = Some v -> newest s l v).
Proof.
  intros Ho Hs Hok. destruct (weak_serialisable op_w acq rel safe n _ s Ho Hs) as (dh & Hr & Hq).
  apply replays_layout in Hr as (rx & -> & Hr).
  destruct (replays_fifo _ _ _ wf_init Hok Hr) as [E Hwf].
  exists (contents rx). split; [exact E |]. intros Hn. exists rx. split; [done |]. split; [done | by apply Hq].
Qed.
End buffer.

(** ** Schedules *)

(** Core 0 pushes 'A'; then core 1 takes an interrupt whose handler calls
    [pop] and reads the message of timestamp [t] in the cell. *)
Definition race (t : nat) : list (nat * turn op * nat) :=
  ((fun t => (0, Run (Push 65), t)) <$> [0; 0; 0; 0; 0; 0; 1; 1; 0; 0; 0]) ++ [(1, TakeIrq, 0)] ++
  ((fun t => (1, Run Pop, t)) <$> [0; 0; 0; 0; 0; 1; t; 1; 0; 0; 0]) ++ [(1, Eret, 0)].

Definition race_init : @wstate Z op reply := winit 2 (layout UartBuffer.init).

Definition race_end (acq rel : bool) (t : nat) : @wstate Z op reply :=
  default race_init (wschedule op_w acq rel true (race t) race_init).

Lemma race_reached acq rel t :
  wschedule op_w acq rel true (race t) race_init <> None ->
  wsteps op_w acq rel true race_init (race_end acq rel t).
Proof.
  unfold race_end. destruct (wschedule _ _ _ _ _ _) as [s |] eqn:E; [intros _ | done].
  apply (wschedule_steps op_w acq rel true (race t) _ race_init); [apply wsteps_refl | exact E].
Qed.

(** What an outsider sees of the calls. *)
Definition explained (hist : list (op * reply)) : Prop :=
  exists h q, h ≡ₚ hist /\ fifo_ops (fst <$> h) [] = (snd <$> h, q).

Lemma stale_pop_unexplained : ~ explained [(Push 65, Accepted true); (Pop, Delivered (Some 0%Z))].
Proof.
  intros (h & q & Hh & E).
  symmetry in Hh. apply Permutation_length_2_inv in Hh as [-> | ->]; vm_compute in E; discriminate E.
Qed.

Lemma race_stale acq rel :
  acq && rel = false ->
  wsteps op_w acq rel true race_init (race_end acq rel 0) /\
  whistory (global (race_end acq rel 0)) = [(Push 65, Accepted true); (Pop, Delivered (Some 0%Z))].
Proof.
  intros Ho. split; [apply race_reached |]; destruct acq, rel; try discriminate Ho; vm_compute; done.
Qed.

(** Neither ordering can be weakened to [Relaxed]: without the acquire or
    without the release, and with the mutual exclusion of the lock intact, two
    cores can reach a state in which [pop] has returned a byte that was never
    pushed, a history that no FIFO gives, in whatever order the calls are put. *)
Theorem orderings_needed :
  Forall (fun '(acq, rel) =>
    exists s, wsteps op_w acq rel true (winit 2 (layout UartBuffer.init)) s /\
      whistory (global s) = [(Push 65, Accepted true); (Pop, Delivered (Some 0%Z))] /\
      ~ explained (whistory (global s)))
    [(false, true); (true, false); (false, false)].
Proof.
  assert (forall acq rel, acq && rel = false -> exists s,
    wsteps op_w acq rel true (winit 2 (layout UartBuffer.init)) s /\
    whistory (global s) = [(Push 65, Accepted true); (Pop, Delivered (Some 0%Z))] /\
    ~ explained (whistory (global s))) as H; [| by repeat constructor; apply H].
  intros acq rel Ho. destruct (race_stale acq rel Ho) as [Hs Hh]. exists (race_end acq rel 0).
  split; [exact Hs |]. split; [exact Hh |]. rewrite Hh. exact stale_pop_unexplained.
Qed.

Lemma race_outside : ~ wcritical (race_end true true 1).
Proof.
  intros (i & c & x & Hc & Hx & Hp).
  destruct i as [| [| i]]; vm_compute in Hc; try discriminate Hc; injection Hc as <-;
    destruct Hx as [-> | Hx]; try discriminate Hp; discriminate Hx.
Qed.

(** With both orderings the handler gets the byte; the stale value of the cell
    cannot be read. *)
Lemma release_acquire_suffices_witness :
  whistory (global (race_end true true 1)) = [(Push 65, Accepted true); (Pop, Delivered (Some 65%Z))] /\
  wschedule op_w true true true (race 0) race_init = None /\
  exists rx, contents rx = [] /\ forall l v, layout rx !! l = Some v -> newest (race_end true true 1) l v.
Proof.
  assert (whistory (global (race_end true true 1)) = [(Push 65, Accepted true); (Pop, Delivered (Some 65%Z))])
    as Hh by (vm_compute; reflexivity).
  split; [exact Hh |]. split; [vm_compute; reflexivity |].
  destruct (release_acquire_suffices true true true 2 (race_end true true 1)) as (q & E & Hq).
  - by left.
  - apply race_reached. by vm_compute.
  - rewrite Hh. repeat constructor; cbn; solve_fits.
  - rewrite Hh in E. injection E as <-. destruct (Hq race_outside) as (rx & Hc & _ & Hn).
    exists rx. split; [exact Hc | exact Hn].
Defined.
