(* ===== verification/Kernel.v ===== *)
(** * src/lib.rs and the driver table: boot, the main loop, panics

    The table of drivers with the proof that they keep what device
    initialisation relies on, [kmain] and the panic handler. *)

From S2P Require Export DtbInit Irq Identity.

Local Open Scope Z_scope.
Local Open Scope kernel_scope.

Section kernel.
Context {HW : Hardware} (fuel : nat).
Implicit Types (w : world).

Definition CONFIGURED_DEVICES : list DeviceMatch.t :=
  [DeviceMatch.mk _ "arm,gic-v3" (Gicv3.setup fuel);
   DeviceMatch.mk _ "arm,pl011" (Pl011.setup fuel);
   DeviceMatch.mk _ "arm,armv7-timer" (ArchTimer.setup fuel)].

(** One iteration of the main loop. *)
Definition poll : M unit :=
  ch <- getchar fuel ;;
  match ch with
  | Some ch => println fuel ("You typed: " +:+ fmt_char ch)
  | None => ret tt
  end.

(** [loop { .. }], given up after [rounds] iterations. *)
Fixpoint main_loop (rounds : nat) : M unit :=
  match rounds with O => spin | S rounds => poll ;; main_loop rounds end.

Definition kmain (rounds : nat) (s : symbols) (dtb_addr : Z) : M unit :=
  parse_dtb CONFIGURED_DEVICES fuel dtb_addr ;;
  setup_mair_ranges ;;
  setup_identity_mapping fuel s ;;
  println fuel "Hello, from Rust" ;;
  println fuel "Arming the timer (1000ms)" ;;
  arm_ms 1000 ;;
  main_loop rounds.

(** The panic handler; [location] is the file and line in the panic's info. *)
Definition panic_handler (location : option (string * Z)) : M unit :=
  match location with
  | Some (file, line) => println fuel ("Panic at " +:+ file +:+ ":" +:+ fmt_dec line)
  | None => println fuel "Panic!"
  end ;;
  spin.

(** A computation under the panic handler. *)
Definition with_panic_handler {A} (location : option (string * Z)) (c : M A) : M A :=
  fun w =>
    match c w with
    | Panicked w' => (panic_handler location ;; spin) w'
    | o => o
    end.

End kernel.

Section boot.
Context {HW : Hardware} (fuel : nat).
Implicit Types (w : world) (s : symbols).

(** What [kmain] does before its loop. *)
Definition boot_sequence (s : symbols) (dtb_addr : Z) : M unit :=
  parse_dtb (CONFIGURED_DEVICES fuel) fuel dtb_addr ;;
  setup_mair_ranges ;;
  setup_identity_mapping fuel s ;;
  println fuel "Hello, from Rust" ;;
  println fuel "Arming the timer (1000ms)" ;;
  arm_ms 1000.

Lemma kmain_boot rounds s dtb_addr w :
  kmain fuel rounds s dtb_addr w = (boot_sequence s dtb_addr ;; main_loop fuel rounds) w.
Proof.
  unfold kmain, boot_sequence.
  generalize (parse_dtb (CONFIGURED_DEVICES fuel) fuel dtb_addr), setup_mair_ranges,
    (setup_identity_mapping fuel s), (println fuel "Hello, from Rust"),
    (println fuel "Arming the timer (1000ms)"), (arm_ms 1000), (main_loop fuel rounds).
  intros a b c d e f g. unfold bind.
  destruct (a w) as [[] w1 | | |]; try done. destruct (b w1) as [[] w2 | | |]; try done.
  destruct (c w2) as [[] w3 | | |]; try done. destruct (d w3) as [[] w4 | | |]; try done.
  destruct (e w4) as [[] w5 | | |]; try done.
Qed.
End boot.

(** ** The drivers keep memory and tables *)

Section frames.
Context {HW : Hardware}.

#[export] Instance keeps_gic_field_ops id prio : Keeps (set_spi_priority id prio).
Proof. unfold set_spi_priority, GIC. keeps_unfold Gicv3_set_spi_priority. Qed.

#[export] Instance keeps_set_ppi_priority id prio : Keeps (set_ppi_priority id prio).
Proof. unfold set_ppi_priority, GIC. keeps_unfold Gicv3_set_ppi_priority. Qed.

#[export] Instance keeps_set_ppi_group id : Keeps (set_ppi_group id).
Proof. unfold set_ppi_group, GIC. keeps_unfold Gicv3_set_ppi_group. Qed.

#[export] Instance keeps_enable_ppi id : Keeps (enable_ppi id).
Proof. unfold enable_ppi, GIC. keeps_unfold Gicv3_enable_ppi. Qed.

#[export] Instance keeps_set_ppi_trigger_edge id : Keeps (set_ppi_trigger_edge id).
Proof. unfold set_ppi_trigger_edge, GIC. keeps_unfold Gicv3_set_ppi_trigger_edge. Qed.

#[export] Instance keeps_set_ppi_trigger_level id : Keeps (set_ppi_trigger_level id).
Proof. unfold set_ppi_trigger_level, GIC. keeps_unfold Gicv3_set_ppi_trigger_level. Qed.

#[export] Instance keeps_set_spi_trigger_edge id : Keeps (set_spi_trigger_edge id).
Proof. unfold set_spi_trigger_edge, GIC. keeps_unfold Gicv3_set_spi_trigger_edge. Qed.

#[export] Instance keeps_set_spi_trigger_level id : Keeps (set_spi_trigger_level id).
Proof. unfold set_spi_trigger_level, GIC. keeps_unfold Gicv3_set_spi_trigger_level. Qed.

#[export] Instance keeps_set_spi_group id : Keeps (set_spi_group id).
Proof. unfold set_spi_group, GIC. keeps_unfold Gicv3_set_spi_group. Qed.

#[export] Instance keeps_set_spi_routing id core : Keeps (set_spi_routing id core).
Proof. unfold set_spi_routing, GIC, Gicv3_set_spi_routing. keeps_unfold write_volatile64. Qed.

#[export] Instance keeps_enable_spi id : Keeps (enable_spi id).
Proof. unfold enable_spi, GIC. keeps_unfold Gicv3_enable_spi. Qed.

#[export] Instance keeps_init_gic fuel dist redist : Keeps (init_gic fuel dist redist).
Proof.
  unfold init_gic, GIC, init_gic_distributor, init_gic_redistributor. keeps_unfold children_asleep.
Qed.

#[export] Instance keeps_read_address value cells : Keeps (read_address value cells).
Proof. keeps_unfold read_address. Qed.

#[export] Instance keeps_gic_setup fuel dev : Keeps (Gicv3.setup fuel dev).
Proof. unfold Gicv3.setup, set_priority_mask. keeps_unfold enable_grp1_ints. Qed.

#[export] Instance keeps_get_interrupt_cells intc : Keeps (get_interrupt_cells intc).
Proof. keeps_unfold get_interrupt_cells. Qed.

#[export] Instance keeps_timer_setup fuel dev : Keeps (ArchTimer.setup fuel dev).
Proof. unfold ArchTimer.setup, read_specifier. keeps_unfold configure_ppi. Qed.

#[export] Instance keeps_set_speed self : Keeps (set_speed self).
Proof. keeps_unfold set_speed. Qed.

#[export] Instance keeps_lcr_value self : Keeps (lcr_value self).
Proof. keeps_unfold lcr_value. Qed.

#[export] Instance keeps_configure_uart fuel : Keeps (configure_uart fuel).
Proof. unfold configure_uart, UART. keeps_unfold configure. Qed.

#[export] Instance keeps_setup_interrupt fuel dev : Keeps (setup_interrupt fuel dev).
Proof. unfold setup_interrupt, read_first_specifier. keeps_unfold configure_spi. Qed.

#[export] Instance keeps_clock_frequency dev : Keeps (clock_frequency dev).
Proof. keeps_unfold clock_frequency. Qed.

#[export] Instance keeps_uart_setup fuel dev : Keeps (Pl011.setup fuel dev).
Proof. unfold Pl011.setup. keeps_unfold init_uart. Qed.

(** The table of drivers keeps its promise to [init_devices]. *)
#[export] Instance configured_drivers fuel : Drivers (CONFIGURED_DEVICES fuel).
Proof.
  intros e dev He. unfold CONFIGURED_DEVICES in He.
  repeat (apply elem_of_cons in He as [-> | He]; [apply _ |]). by apply not_elem_of_nil in He.
Qed.
End frames.

(** ** Panics *)

Section panics.
Context {HW : Hardware} (fuel : nat).
Implicit Types (w : world).

(** A panic ends in the endless loop of the handler, after the line that
    says where, and nothing else changes any more. *)
Theorem panic_reports_and_stops {A} (c : M A) location w w' :
  c w = Panicked w' -> console_up fuel w' ->
  exists w'', with_panic_handler fuel location c w = Spinning w'' /\
    printed ((match location with
              | Some (file, line) => "Panic at " +:+ file +:+ ":" +:+ fmt_dec line
              | None => "Panic!"
              end) +:+ newline) w' w''.
Proof.
  intros Hc Hup. unfold with_panic_handler, panic_handler. rewrite Hc.
  destruct location as [[file line] |];
    (edestruct (prints_println fuel) as (w2 & E & P); [exact Hup |]; exists w2; split; [| exact P];
     rewrite bind_bind, (bind_done _ _ _ _ _ E); done).
Qed.

End panics.
