(* ===== verification/Ends.v ===== *)
(** * Which loops end

    [Ends W I c]: from a world that satisfies [I] the computation [c] spins only
    in worlds that satisfy [W], and when it returns [I] still holds (it may panic
    or fault).  As [Keeps], the class is resolved along the structure of a
    computation.  The loops of the code that are bounded by data only get
    instances that never spin, from what bounds them: the size of memory, the
    order of the device table, the length of a property.  [W] is for the loops
    that wait for a device. *)

From S2P Require Export Kernel DtbTokens.

Local Open Scope Z_scope.
Local Open Scope kernel_scope.

(** Memory, tables and receive buffer are the same. *)
Definition undisturbed {HW : Hardware} (w w' : world) : Prop :=
  w_ram w' = w_ram w /\ w_dtb w' = w_dtb w /\ w_rx w' = w_rx w.

(** Invariants of memory, tables and receive buffer. *)
Class Stable {HW : Hardware} (I : world -> Prop) : Prop :=
  stable : forall w w', undisturbed w w' -> I w -> I w'.

(** Invariants of all that is not hardware. *)
Class Kept {HW : Hardware} (I : world -> Prop) : Prop :=
  kept : forall w w', same_kernel w w' -> I w -> I w'.

#[export] Instance stable_kept {HW : Hardware} I : Stable I -> Kept I.
Proof. intros HI w w' (Er & Ed & _ & _ & Ex). by apply HI. Qed.

(** [I], while a static has the value [a]. *)
Definition pinned {HW : Hardware} {A} (I : world -> Prop) (f : world -> A) (a : A) (w : world) : Prop :=
  I w /\ f w = a.

#[export] Instance pinned_gic_kept {HW : Hardware} I g : Kept I -> Kept (pinned I w_gic g).
Proof. intros HI w w' Hs [Hw Hg]. split; [by eapply HI |]. by destruct Hs as (_ & _ & -> & _). Qed.

#[export] Instance pinned_uart_kept {HW : Hardware} I u : Kept I -> Kept (pinned I w_uart u).
Proof. intros HI w w' Hs [Hw Hu]. split; [by eapply HI |]. by destruct Hs as (_ & _ & _ & -> & _). Qed.

Class Ends {HW : Hardware} (W I : world -> Prop) {A} (c : M A) : Prop :=
  ends : forall w, I w ->
    match c w with Done _ w' => I w' | Spinning w' => W w' | _ => True end.

(** A computation that does not spin at all. *)
Definition never {HW : Hardware} (w : world) : Prop := False.

Section ends.
Context {HW : Hardware} (W I : world -> Prop).

#[export] Instance ends_ret {A} (a : A) : Ends W I (ret a).
Proof. by intros w Hw. Qed.

#[export] Instance ends_bind {A B} (c : M A) (k : A -> M B) :
  Ends W I c -> (forall a, Ends W I (k a)) -> Ends W I (bind c k).
Proof.
  intros Hc Hk w Hw. specialize (Hc w Hw). unfold bind. destruct (c w) as [a w1 | | |]; try done.
  exact (Hk a w1 Hc).
Qed.

(** The continuation has to end only on values that [c] returns. *)
Lemma ends_bind_result {A B} (c : M A) (k : A -> M B) :
  Ends W I c -> (forall a w w', c w = Done a w' -> Ends W I (k a)) -> Ends W I (bind c k).
Proof.
  intros Hc Hk w Hw. specialize (Hc w Hw). unfold bind. destruct (c w) as [a w1 | | |] eqn:E; try done.
  by apply (Hk a w w1).
Qed.

#[export] Instance ends_panic {A} : Ends (A := A) W I panic.
Proof. done. Qed.

#[export] Instance ends_fault {A} : Ends (A := A) W I fault.
Proof. done. Qed.

#[export] Instance ends_gets {A} (f : world -> A) : Ends W I (gets f).
Proof. by intros w Hw. Qed.

Lemma ends_match_option {A B} (o : option A) (k : A -> M B) (n : M B) :
  (forall a, Ends W I (k a)) -> Ends W I n -> Ends W I (match o with Some a => k a | None => n end).
Proof. intros. by destruct o. Qed.

Lemma ends_match_pair {A B C} (p : A * B) (k : A -> B -> M C) :
  (forall a b, Ends W I (k a b)) -> Ends W I (let '(a, b) := p in k a b).
Proof. intros. by destruct p. Qed.

Lemma ends_match_nat {B} (n : nat) (z : M B) (k : nat -> M B) :
  Ends W I z -> (forall n, Ends W I (k n)) -> Ends W I (match n with O => z | S n => k n end).
Proof. intros. by destruct n. Qed.

Lemma ends_if {A} (b : bool) (c d : M A) : Ends W I c -> Ends W I d -> Ends W I (if b then c else d).
Proof. intros. by destruct b. Qed.

#[export] Instance ends_for_each {A B} (l : list A) (acc : B) body :
  (forall b x, Ends W I (body b x)) -> Ends W I (for_each l acc body).
Proof. intros Hb. revert acc. induction l; intros acc; simpl; apply _. Qed.

#[export] Instance ends_for_find {A B} (l : list A) (body : A -> M (option B)) :
  (forall x, Ends W I (body x)) -> Ends W I (for_find l body).
Proof.
  intros Hb. induction l; simpl; [apply _ |]. apply ends_bind; [apply _ |].
  intros [y |]; [apply _ | done].
Qed.

(** A static that is read keeps its value for the continuation. *)
Lemma ends_pinned {A B} (f : world -> A) (k : A -> M B) :
  (forall a, Ends W (pinned I f a) (k a)) -> Ends W I (bind (gets f) k).
Proof.
  intros Hk w Hw. unfold bind, gets. specialize (Hk (f w) w (conj Hw eq_refl)).
  destruct (k (f w) w); try done. by destruct Hk.
Qed.

Lemma ends_modify f : Kept I -> (forall w, same_kernel w (f w)) -> Ends W I (modify f).
Proof. intros HI Hf w Hw. by eapply kept; [apply Hf |]. Qed.

Lemma ends_modify_static f : Stable I -> (forall w, undisturbed w (f w)) -> Ends W I (modify f).
Proof. intros HI Hf w Hw. by eapply stable; [apply Hf |]. Qed.
End ends.

#[export] Hint Extern 2 (Ends _ _ (modify _)) =>
  first [ apply ends_modify; [apply _ | intros ?; repeat split; reflexivity]
        | apply ends_modify_static; [apply _ | intros ?; repeat split; reflexivity] ]
  : typeclass_instances.
#[export] Hint Extern 2 (Ends _ _ (if _ then _ else _)) => apply ends_if : typeclass_instances.
#[export] Hint Extern 2 (Ends _ _ (match _ with Some _ => _ | None => _ end)) =>
  apply ends_match_option : typeclass_instances.
#[export] Hint Extern 2 (Ends _ _ (match _ with O => _ | S _ => _ end)) =>
  apply ends_match_nat : typeclass_instances.
#[export] Hint Extern 2 (Ends _ _ (let '(_, _) := _ in _)) => apply ends_match_pair : typeclass_instances.

(** Unfolds a named operation and resolves its body. *)
Tactic Notation "ends_unfold" reference(c) := unfold c; cbv zeta; apply _.

Section primitives.
Context {HW : Hardware} (W I : world -> Prop).

#[export] Instance ends_checked n z : Ends W I (checked n z).
Proof. ends_unfold checked. Qed.

#[export] Instance ends_uadd n a b : Ends W I (uadd n a b).
Proof. ends_unfold uadd. Qed.

#[export] Instance ends_usub n a b : Ends W I (usub n a b).
Proof. ends_unfold usub. Qed.

#[export] Instance ends_umul n a b : Ends W I (umul n a b).
Proof. ends_unfold umul. Qed.

#[export] Instance ends_udiv a b : Ends W I (udiv a b).
Proof. ends_unfold udiv. Qed.

#[export] Instance ends_ushl n a b : Ends W I (ushl n a b).
Proof. ends_unfold ushl. Qed.

#[export] Instance ends_ushr n a b : Ends W I (ushr n a b).
Proof. ends_unfold ushr. Qed.

#[export] Instance ends_arr_get {A} (l : list A) i : Ends W I (arr_get l i).
Proof. ends_unfold arr_get. Qed.

#[export] Instance ends_arr_set {A} (l : list A) i x : Ends W I (arr_set l i x).
Proof. ends_unfold arr_set. Qed.

#[export] Instance ends_ptr_add p n : Ends W I (ptr_add p n).
Proof. ends_unfold ptr_add. Qed.

#[export] Instance ends_load_byte p : Ends W I (load_byte p).
Proof. ends_unfold load_byte. Qed.

#[export] Instance ends_load_bytes p n : Ends W I (load_bytes p n).
Proof. revert p. induction n; intros p; simpl; apply _. Qed.

#[export] Instance ends_load_le p n : Ends W I (load_le p n).
Proof. ends_unfold load_le. Qed.

#[export] Instance ends_read_be_u32 p o : Ends W I (read_be_u32 p o).
Proof. unfold read_be_u32. ends_unfold read_unaligned. Qed.

#[export] Instance ends_mmio_ptr b o : Ends W I (mmio_ptr b o).
Proof. ends_unfold mmio_ptr. Qed.

#[export] Instance ends_deref_u64 p : Ends W I (deref_u64 p).
Proof. ends_unfold deref_u64. Qed.

Context `{!Kept I}.

#[export] Instance ends_emit e : Ends W I (emit e).
Proof. ends_unfold emit. Qed.

#[export] Instance ends_bus_read32 a : Ends W I (bus_read32 a).
Proof. ends_unfold bus_read32. Qed.

#[export] Instance ends_bus_write32 a v : Ends W I (bus_write32 a v).
Proof. ends_unfold bus_write32. Qed.

#[export] Instance ends_bus_write64 a v : Ends W I (bus_write64 a v).
Proof. ends_unfold bus_write64. Qed.

#[export] Instance ends_mrs r : Ends W I (mrs r).
Proof. ends_unfold mrs. Qed.

#[export] Instance ends_msr r v : Ends W I (msr r v).
Proof. ends_unfold msr. Qed.

#[export] Instance ends_barrier b : Ends W I (barrier_ins b).
Proof. ends_unfold barrier_ins. Qed.

#[export] Instance ends_read_mmio32 b o : Ends W I (read_mmio32 b o).
Proof. ends_unfold read_mmio32. Qed.

#[export] Instance ends_write_mmio32 b o v : Ends W I (write_mmio32 b o v).
Proof. ends_unfold write_mmio32. Qed.

#[export] Instance ends_set_mmio_bits32 b o v : Ends W I (set_mmio_bits32 b o v).
Proof. ends_unfold set_mmio_bits32. Qed.

#[export] Instance ends_clear_mmio_bits32 b o v : Ends W I (clear_mmio_bits32 b o v).
Proof. ends_unfold clear_mmio_bits32. Qed.

Lemma mmio_ptr_no_reg base off w : ~ reg_ok (base + off) -> mmio_ptr base off w = Faulted w.
Proof.
  intros Hr. unfold mmio_ptr, ptr_add. destruct (fitsb USIZE (base + off)) eqn:Hf; [| done].
  apply fitsb_spec in Hf. unfold bind, ret. case_match eqn:E; [done |]. destruct Hr.
  apply orb_false_elim in E as [E1 E2]. apply negb_false_iff in E2. unfold reg_ok, fits in *. lia.
Qed.

(** A busy wait spins in worlds that its own reads, all answered "busy", have led
    to: as many as there is fuel. *)
Lemma ends_poll fuel base off mask :
  (0 < fuel)%nat ->
  (forall w vs w', I w -> reg_ok (base + off) -> same_kernel w w' -> length vs = fuel ->
     Forall (fun v => Z.land v mask <> 0) vs ->
     w_trace w' = w_trace w ++ (Read32 (base + off) <$> vs) -> W w') ->
  Ends W I (spin_while fuel (poll_bit base off mask)).
Proof.
  intros Hf HW0 w Hw. destruct (decide (reg_ok (base + off))) as [Hr | Hr].
  - destruct (poll_outcome fuel base off mask w Hr) as [(n & E) | (vs & E & Hl & Hb & Htr)].
    + rewrite E. eapply kept; [| exact Hw]. apply after_reads_same.
    + rewrite E. apply (HW0 w vs); try done. apply after_reads_same.
  - destruct fuel; [lia |]. simpl. unfold poll_bit, read_mmio32, bind at 1 2 3.
    by rewrite mmio_ptr_no_reg.
Qed.
End primitives.

(** ** Scans of memory *)

(** At most [n] bytes are mapped. *)
Definition small_ram {HW : Hardware} (n : nat) (w : world) : Prop := (size (w_ram w) <= n)%nat.

Section memory.
Context {HW : Hardware}.

#[export] Instance small_ram_stable n : Stable (small_ram n).
Proof. intros w w' (Er & _). unfold small_ram. by rewrite Er. Qed.

(** Addresses that are all mapped are no more than there is memory. *)
Lemma mapped_bound (ram : gmap Z byte) (ps : list Z) :
  NoDup ps -> Forall (fun p => is_Some (ram !! p)) ps -> (length ps <= size ram)%nat.
Proof.
  intros Hnd Hps. rewrite <- size_dom, <- (size_list_to_set (C := gset Z)) by done.
  apply subseteq_size. intros p Hp. apply elem_of_list_to_set in Hp.
  apply elem_of_dom. by eapply Forall_forall in Hps.
Qed.

Lemma load_byte_mapped p w b w' : load_byte p w = Done b w' -> is_Some (w_ram w !! p).
Proof.
  unfold load_byte, bind, gets. destruct (p =? 0); [done |]. by destruct (w_ram w !! p).
Qed.

(** A scan that runs out of fuel has seen as many mapped bytes. *)
Lemma strlen_spins fuel start len w w' :
  strlen fuel start len w = Spinning w' ->
  forall i, (i < fuel)%nat -> is_Some (w_ram w !! (start + len + Z.of_nat i)).
Proof.
  revert len. induction fuel as [| fuel IH]; intros len; [lia |]. cbn [strlen].
  unfold bind at 1, ptr_add. destruct (fitsb USIZE (start + len)); [| done]. unfold ret at 1.
  unfold bind at 1. destruct (load_byte (start + len) w) as [b w1 | | | w1] eqn:E; try done.
  - pose proof (load_byte_world _ _ _ _ E) as ->. apply load_byte_mapped in E.
    destruct (byte.unsigned b =? 0); [done |].
    unfold bind, uadd, checked. destruct (fitsb USIZE (len + 1)); [| done]. unfold ret.
    intros H [| i] Hi; [by rewrite Z.add_0_r |].
    replace (start + len + Z.of_nat (S i)) with (start + (len + 1) + Z.of_nat i) by lia.
    by eapply IH; [| lia].
  - exfalso. revert E. unfold load_byte, bind, gets. destruct (_ =? 0); [done |]. by destruct (_ !! _).
Qed.

Lemma ends_strlen n fuel start len : (n < fuel)%nat -> Ends never (small_ram n) (strlen fuel start len).
Proof.
  intros Hn w Hw. destruct (strlen fuel start len w) as [r w' | | | w'] eqn:E; try done.
  - by apply strlen_inv in E as ->.
  - pose proof (strlen_spins _ _ _ _ _ E) as Hm. set (f := fun i => start + len + Z.of_nat i) in Hm.
    assert (length (f <$> seq 0 fuel) <= size (w_ram w))%nat as Hl.
    { apply mapped_bound.
      - apply NoDup_fmap_2; [intros i j; unfold f; lia | apply NoDup_seq].
      - apply Forall_fmap, Forall_seq. intros i Hi. apply Hm. lia. }
    rewrite length_fmap, length_seq in Hl. unfold small_ram in Hw. lia.
Qed.
End memory.

(** ** The parser *)

Section parser.
Context {HW : Hardware} (n fuel : nat) (Hfuel : (n < fuel)%nat).
Implicit Types (w : world) (l : locals).

Lemma ends_modify_dtb f : Ends never (small_ram n) (modify_dtb f).
Proof. by intros w Hw. Qed.
#[local] Existing Instance ends_modify_dtb.

#[local] Instance ends_scan s len : Ends never (small_ram n) (strlen fuel s len).
Proof. by apply ends_strlen. Qed.

#[local] Instance ends_str_at s len : Ends never (small_ram n) (str_at s len).
Proof. ends_unfold str_at. Qed.

#[local] Instance ends_align4 a : Ends never (small_ram n) (align4 a).
Proof. ends_unfold align4. Qed.

#[local] Instance ends_set_device i d : Ends never (small_ram n) (set_device i d).
Proof. ends_unfold set_device. Qed.

#[local] Instance ends_register_phandle v i : Ends never (small_ram n) (register_phandle v i).
Proof. ends_unfold register_phandle. Qed.

#[local] Instance ends_stack_top l : Ends never (small_ram n) (stack_top l).
Proof. ends_unfold stack_top. Qed.

#[local] Instance ends_begin_node sb l : Ends never (small_ram n) (begin_node fuel sb l).
Proof. ends_unfold begin_node. Qed.

#[local] Instance ends_end_node l : Ends never (small_ram n) (end_node l).
Proof. ends_unfold end_node. Qed.

#[local] Instance ends_property a o sb l : Ends never (small_ram n) (property fuel a o sb l).
Proof. unfold property, FdtPropHeader_from_be_bytes, get_property_name. cbv zeta. apply _. Qed.

#[local] Instance ends_parse_step a o sb l : Ends never (small_ram n) (parse_step fuel a o sb l).
Proof. ends_unfold parse_step. Qed.

End parser.

(** Every step but the last leaves the offset further on, and it has read its
    token at the offset it began with. *)
Section progress.
Context {HW : Hardware}.
Implicit Types (w : world) (l : locals).

(** Runs an operation in [H] up to its [align4], solving the additions. *)
Ltac binds_before_align H :=
  repeat match type of H with
  | bind ?c _ _ = Done _ _ =>
      lazymatch c with align4 _ => fail | _ => apply bind_inv in H as (? & ? & ? & H) end
  end;
  let a := fresh "a" in let w2 := fresh "w2" in let Ha := fresh "Ha" in
  apply bind_inv in H as (a & w2 & Ha & H); cbv beta in H, Ha;
  repeat match goal with H' : uadd _ _ _ _ = Done _ _ |- _ => apply uadd_inv in H' as (-> & -> & ?) end.

Lemma align4_grows a w r w' : 0 <= a -> align4 a w = Done r w' -> a <= r.
Proof.
  intros Ha H. destruct (decide (a + 3 < 2 ^ USIZE)) as [Hf |].
  - rewrite exec_align4 in H by done. injection H as <- _. pose proof (Z.div_mod (a + 3) 4).
    pose proof (Z.mod_pos_bound (a + 3) 4). lia.
  - unfold align4 in H. apply bind_inv in H as (t & w1 & H & _). apply uadd_inv in H as (_ & _ & H).
    solve_fits.
Qed.

Lemma begin_node_grows fuel sb l w l' w' :
  0 <= off l -> begin_node fuel sb l w = Done l' w' -> off l <= off l'.
Proof.
  intros Hl H. unfold begin_node in H. apply bind_inv in H as (par & w1 & _ & H).
  binds_before_align H. apply align4_grows in Ha; [| solve_fits].
  repeat apply bind_inv in H as (? & ? & _ & H). injection H as <- _. cbn [off]. solve_fits.
Qed.

Lemma prop_header_len p w h w' : FdtPropHeader_from_be_bytes p w = Done h w' -> fits U32 (FdtPropHeader.len h).
Proof. unfold FdtPropHeader_from_be_bytes. intros H. by run_inv. Qed.

Lemma property_grows fuel a o sb l w l' w' :
  0 <= off l -> property fuel a o sb l w = Done l' w' -> off l <= off l'.
Proof.
  intros Hl H. unfold property in H. cbv zeta in H. binds_before_align H.
  match goal with H : FdtPropHeader_from_be_bytes _ _ = _ |- _ => apply prop_header_len in H end.
  cbn [Property.len] in *. apply align4_grows in Ha; [| solve_fits].
  injection H as <- _. cbn [off]. solve_fits.
Qed.

Lemma read_be_u32_mapped p o w v w' : read_be_u32 p o w = Done v w' -> is_Some (w_ram w !! (p + o)).
Proof.
  unfold read_be_u32, read_unaligned. intros H. apply bind_inv in H as (q & w1 & Hq & H).
  apply ptr_add_inv in Hq as [-> ->]. unfold load_le in H. rewrite !bind_bind in H.
  apply bind_inv in H as (b & w1 & Hb & _). apply bind_inv in Hb as (c & w2 & Hc & _).
  by eapply load_byte_mapped.
Qed.

Lemma parse_step_grows fuel a o sb l w l' w' :
  0 <= off l -> parse_step fuel a o sb l w = Done (Some l') w' ->
  off l + 4 <= off l' /\ is_Some (w_ram w !! (sb + off l)).
Proof.
  intros Hl H. unfold parse_step in H. cbv zeta in H. apply bind_inv in H as (tok & w1 & Htok & H).
  split; [| by eapply read_be_u32_mapped]. apply bind_inv in H as (off1 & w2 & Hoff & H).
  apply uadd_inv in Hoff as (-> & -> & _). set (l1 := mkLocals _ _ _ _) in H.
  assert (off l1 = off l + 4) as <- by done.
  repeat case_match; try discriminate H; try (apply bind_inv in H as (l2 & w2 & Hs & H));
    unfold ret in H; injection H as <- _; try done.
  - eapply begin_node_grows; [| exact Hs]. cbn. lia.
  - unfold end_node in Hs. repeat apply bind_inv in Hs as (? & ? & _ & Hs). by injection Hs as <- _.
  - eapply property_grows; [| exact Hs]. cbn. lia.
Qed.

(** A parse that runs out of fuel has seen as many tokens in memory, each at
    its own place. *)
Lemma parse_loop_spins n fuel a o sb l w w' :
  small_ram (pred fuel) w -> (0 < fuel)%nat -> 0 <= off l ->
  parse_loop n fuel a o sb l w = Spinning w' ->
  exists ps, length ps = n /\ NoDup ps /\ Forall (fun p => sb + off l <= p /\ is_Some (w_ram w !! p)) ps.
Proof.
  intros Hs Hf. revert l w Hs. induction n as [| n IH]; intros l w Hs Hl H.
  { exists []. split; [done |]. split; constructor. }
  cbn [parse_loop] in H. unfold bind in H.
  pose proof (ends_parse_step (pred fuel) fuel ltac:(lia) a o sb l w Hs) as He.
  destruct (parse_step fuel a o sb l w) as [[l1 |] w1 | | | w1] eqn:E; try done.
  pose proof (parse_step_dtb_only _ _ _ _ _ _ _ _ E) as Ed.
  assert (w_ram w1 = w_ram w) as Er by (by rewrite Ed).
  apply parse_step_grows in E as [Hg Hm]; [| done].
  destruct (IH l1 w1 He ltac:(lia) H) as (ps & Hlen & Hnd & Hps). rewrite Er in Hps.
  exists (sb + off l :: ps). split; [by rewrite <- Hlen |]. split.
  - constructor; [| done]. intros Hin. eapply Forall_forall in Hps as [Hp _]; [| exact Hin]. lia.
  - constructor; [by split |]. eapply Forall_impl; [exact Hps |]. intros p [Hp Hmp]. split; [lia | done].
Qed.

Lemma ends_parse_tables n fuel dtb : (n < fuel)%nat -> Ends never (small_ram n) (parse_tables fuel dtb).
Proof.
  intros Hn. unfold parse_tables, FdtHeader_from_be_bytes. apply ends_bind; [apply _ |]. intros h.
  apply ends_if; [apply _ |]. apply ends_bind; [apply _ |]. intros sb w Hw.
  destruct (parse_loop _ _ _ _ _ _ w) as [[] w' | | | w'] eqn:E; try done.
  - apply parse_loop_dtb_only in E. red in E. by rewrite E.
  - destruct (parse_loop_spins fuel fuel _ _ _ locals_init w w' ltac:(unfold small_ram in *; lia) ltac:(lia)
      ltac:(vm_compute; discriminate) E)
      as (ps & Hl & Hnd & Hps).
    assert (length ps <= size (w_ram w))%nat; [| unfold small_ram in Hw; lia].
    apply mapped_bound; [done |]. eapply Forall_impl; [exact Hps |]. by intros p [_ Hp].
Qed.
End progress.

(** ** Lookups *)

(** Walks to the root end, and the lock of the receive buffer is in the state
    [held]. *)
Definition sound {HW : Hardware} (held : bool) (w : world) : Prop :=
  wf_tables (w_dtb w) /\ Mutex.lock (w_rx w) = held.

Section lookups.
Context {HW : Hardware}.

#[export] Instance sound_stable held : Stable (sound held).
Proof. intros w w' (_ & Ed & Ex). unfold sound. by rewrite Ed, Ex. Qed.

Section any.
Context (W I : world -> Prop).

#[export] Instance ends_deref_device i : Ends W I (deref_device i).
Proof. ends_unfold deref_device. Qed.

#[export] Instance ends_find_property d name : Ends W I (find_property d name).
Proof. ends_unfold find_property. Qed.

#[export] Instance ends_get_parent_cells d : Ends W I (get_parent_cells d).
Proof. unfold get_parent_cells. ends_unfold parent_cells_step. Qed.

#[export] Instance ends_find_device_by_phandle ph : Ends W I (find_device_by_phandle ph).
Proof. ends_unfold find_device_by_phandle. Qed.

#[export] Instance ends_scan_interrupt_parent d : Ends W I (scan_interrupt_parent d).
Proof. ends_unfold scan_interrupt_parent. Qed.

(** Both loops over a property's strings have as much fuel as bytes are left. *)
Lemma ends_compat_len fuel s o len k :
  len - o - k <= Z.of_nat fuel -> Ends W I (compat_len fuel s o len k).
Proof.
  revert k. induction fuel as [| fuel IH]; intros k Hk; simpl.
  - rewrite (proj2 (Z.ltb_ge _ _)) by lia. apply _.
  - specialize (IH (k + 1) ltac:(lia)). apply _.
Qed.

Lemma compat_len_grows fuel s o len k w r w' : compat_len fuel s o len k w = Done r w' -> k <= r.
Proof.
  revert k. induction fuel as [| fuel IH]; intros k; simpl; case_match; try done.
  - by intros [= <- _].
  - intros H1. apply bind_inv in H1 as (p & w1 & Hp & H1). apply ptr_add_inv in Hp as [-> ->].
    apply bind_inv in H1 as (b & w1 & Hb & H1). apply load_byte_world in Hb as ->.
    case_match; [by injection H1 as <- _ |]. apply IH in H1. lia.
  - by intros [= <- _].
Qed.

Lemma ends_compat_loop fuel p target o :
  0 <= o -> Property.len p - o <= Z.of_nat fuel -> Ends W I (compat_loop fuel p target o).
Proof.
  revert o. induction fuel as [| fuel IH]; intros o Ho Hf; simpl.
  { rewrite (proj2 (Z.ltb_ge _ _)) by lia. apply _. }
  apply ends_if; [| apply _]. apply ends_bind; [apply _ |]. intros s.
  apply ends_bind_result; [apply ends_compat_len; lia |]. intros k w1 w2 Hk%compat_len_grows.
  apply ends_bind; [apply _ |]. intros bs. apply ends_if; [apply _ |].
  apply ends_bind_result; [apply _ |]. intros next w3 w4 (_ & -> & _)%uadd_inv.
  apply ends_bind_result; [apply _ |]. intros o' w5 w6 (_ & -> & _)%uadd_inv. apply IH; lia.
Qed.

#[export] Instance ends_compatible_matches p target : Ends W I (compatible_matches p target).
Proof. apply ends_compat_loop; lia. Qed.
End any.

(** The walk to the interrupt parent climbs to smaller indices. *)
Lemma ends_walk_up W held fuel cur :
  (forall c, cur = Some c -> c < fuel)%nat -> Ends W (sound held) (walk_up fuel cur).
Proof.
  revert cur. induction fuel as [| fuel IH]; intros [c |] Hc; cbn [walk_up]; try apply _.
  { specialize (Hc c eq_refl). lia. }
  intros w Hw. unfold bind at 1, deref_device. rewrite (bind_done _ _ _ _ _ (exec_gets _ _)).
  destruct (DtbTables.DEVICE_TABLE (w_dtb w) !! c) as [d |] eqn:Hd; [| done]. unfold ret at 1.
  pose proof Hw as ((_ & _ & _ & _ & Hdev & _) & _). destruct (Hdev c d Hd) as [_ Hp].
  specialize (IH (PlatformDevice.parent d)). specialize (Hc c eq_refl).
  assert (Ends W (sound held) (walk_up fuel (PlatformDevice.parent d))) as He.
  { apply IH. intros p Hp'. specialize (Hp p Hp'). lia. }
  revert w Hw Hd Hdev. clear IH. intros w Hw _ _. revert w Hw.
  change (Ends W (sound held) (r <- scan_interrupt_parent d ;;
    match r with Some r => ret r | None => walk_up fuel (PlatformDevice.parent d) end)).
  apply _.
Qed.

Lemma ends_find_interrupt_parent W held fuel d :
  (DtbTables.MAX_DEVICES <= fuel)%nat -> Ends W (sound held) (find_interrupt_parent fuel d).
Proof.
  intros Hf. unfold find_interrupt_parent. destruct (PlatformDevice.parent d) as [c |] eqn:Hp; [| destruct fuel; apply _].
  destruct (decide (c < fuel)%nat) as [Hc | Hc]; [apply ends_walk_up; by intros ? [= <-] |].
  intros w Hw. destruct fuel as [| fuel]; [unfold DtbTables.MAX_DEVICES in Hf; lia |]. cbn [walk_up].
  unfold bind at 1, deref_device. rewrite (bind_done _ _ _ _ _ (exec_gets _ _)).
  by rewrite lookup_ge_None_2 by (pose proof (proj1 (proj1 Hw)); lia).
Qed.
End lookups.
