(* ===== verification/Head.v ===== *)
(** * src/asm/head.S: from the reset state to [kmain]

    The entry code as a program of a small machine: the registers it uses, the
    interrupt mask, and the two system registers it writes, whose new value
    takes effect at the next [isb].  It is run one instruction at a time, an
    interrupt being possible between any two of them while it is not masked. *)

From S2P Require Export Layout Kernel.

Local Open Scope Z_scope.
Local Open Scope kernel_scope.

(** include/asm/system.h *)
Definition CPACR_EL1_FPEN0 : Z := Z.shiftl 1 20.
Definition CPACR_EL1_FPEN1 : Z := Z.shiftl 1 21.

Module Head.

Inductive ctl := CPACR_EL1 | VBAR_EL1.

#[export] Instance ctl_eq_dec : EqDecision ctl.
Proof. solve_decision. Defined.

Inductive ins :=
  | MsrDaifSet (imm : Z)                (* msr DAIFSet, #imm *)
  | MsrDaifClr (imm : Z)                (* msr DAIFClr, #imm *)
  | Mov (d n : nat)                     (* mov xd, xn *)
  | Ldr (d : nat) (v : Z)               (* ldr xd, =v and adr xd, v *)
  | MovSp (n : nat)                     (* mov sp, xn *)
  | Msr (r : ctl) (n : nat)             (* msr r, xn *)
  | IsbSy.                              (* isb sy *)

(** The mask of D, A, I and F as the immediates of [DAIFSet] number them
    (8, 4, 2, 1); the control registers as written, and as they are in effect. *)
Record core := mkCore {
  x : nat -> Z;
  sp : Z;
  daif : Z;
  written : ctl -> Z;
  effective : ctl -> Z;
}.

Definition step (c : core) (i : ins) : core :=
  match i with
  | MsrDaifSet imm => mkCore (x c) (sp c) (Z.lor (daif c) imm) (written c) (effective c)
  | MsrDaifClr imm => mkCore (x c) (sp c) (Z.ldiff (daif c) imm) (written c) (effective c)
  | Mov d n => mkCore (fun m => if (m =? d)%nat then x c n else x c m) (sp c) (daif c) (written c) (effective c)
  | Ldr d v => mkCore (fun m => if (m =? d)%nat then v else x c m) (sp c) (daif c) (written c) (effective c)
  | MovSp n => mkCore (x c) (x c n) (daif c) (written c) (effective c)
  | Msr r n =>
      mkCore (x c) (sp c) (daif c) (fun q => if decide (q = r) then x c n else written c q) (effective c)
  | IsbSy => mkCore (x c) (sp c) (daif c) (written c) (written c)
  end.

Definition run (l : list ins) (c : core) : core := fold_left step l c.

(** [_start] up to the call of [kmain]; [evt] is the address of the vectors. *)
Definition _start (l : layout) (evt : Z) : list ins :=
  [MsrDaifSet 15; Mov 8 0;
   Ldr 0 (Z.lor CPACR_EL1_FPEN0 CPACR_EL1_FPEN1); Msr CPACR_EL1 0; IsbSy;
   Ldr 30 (__stack_top l); MovSp 30;
   Ldr 0 evt; Msr VBAR_EL1 0; IsbSy;
   MsrDaifClr 2;
   Mov 0 8].

(** [bl kmain]: the argument is in x0. *)
Definition start {HW : Hardware} (fuel rounds : nat) (l : layout) (evt : Z) (c : core) : M unit :=
  kmain fuel rounds (symbols_of l) (x (run (_start l evt) c) 0%nat).

(** Interrupts are taken. *)
Definition irqs_enabled (c : core) : Prop := Z.testbit (daif c) 1 = false.

(** An interrupt would be handled: the vectors are in effect, and below the
    stack pointer there is the whole stack. *)
Definition can_take_irqs (l : layout) (evt : Z) (c : core) : Prop :=
  effective c VBAR_EL1 = evt /\ sp c = __stack_top l.

Lemma daif_masked d : Z.testbit (Z.lor d 15) 1 = true.
Proof. rewrite Z.lor_spec. apply orb_true_r. Qed.

(** From the second instruction up to the unmasking everything is masked. *)
Lemma start_masked l evt c n :
  (1 <= n <= 10)%nat -> daif (run (take n (_start l evt)) c) = Z.lor (daif c) 15.
Proof.
  intros Hn. do 11 (destruct n as [| n]; [first [lia | reflexivity] |]). lia.
Qed.

Lemma start_finish l evt c n :
  (11 <= n)%nat ->
  effective (run (take n (_start l evt)) c) VBAR_EL1 = evt /\
  sp (run (take n (_start l evt)) c) = __stack_top l.
Proof.
  intros Hn. do 11 (destruct n as [| n]; [lia |]). destruct n as [| n]; [done |].
  cbn [take _start]. by rewrite take_nil.
Qed.

(** C20: the entry code hands over to [kmain] with the device tree's address as
    the loader passed it and the symbols of the linked image.  By then the
    stack pointer is at the top of the 8 MiB stack and aligned as the procedure
    call standard asks, floating point is enabled and the vectors are installed,
    both in effect, and of the four exception masks only that of interrupts is
    clear.  No interrupt can be taken between the first instruction and the
    point where the vectors are in effect and the stack is set up. *)
Theorem start_enters_kmain {HW : Hardware} fuel rounds z evt c (w : world) :
  links z -> 0 <= daif c < 16 ->
  let l := link z in
  let c' := run (_start l evt) c in
  start fuel rounds l evt c w = kmain fuel rounds (symbols_of l) (x c 0%nat) w /\
  (sp c' = __stack_top l /\ sp c' mod 16 = 0 /\ sp c' - LD_STACK_SIZE = __kernel_end l) /\
  effective c' VBAR_EL1 = evt /\ Z.land (effective c' CPACR_EL1) (Z.shiftl 3 20) = Z.shiftl 3 20 /\
  daif c' = 13 /\
  (forall n, (1 <= n)%nat -> irqs_enabled (run (take n (_start l evt)) c) ->
     can_take_irqs l evt (run (take n (_start l evt)) c)).
Proof.
  intros Hl Hd l c'. split; [done |]. split; [| split; [done |]; split; [done |]; split].
  - pose proof (link_ordered z Hl) as (_ & _ & _ & _ & _ & _ & _ & Ha). fold l in Ha.
    change (sp c') with (__stack_top l). split; [done |]. split.
    + pose proof (Z.div_mod (__stack_top l) 4096 ltac:(lia)) as E. rewrite Ha in E. rewrite E.
      replace (4096 * (__stack_top l / 4096) + 0) with (0 + __stack_top l / 4096 * 256 * 16) by lia.
      by rewrite Z.mod_add.
    + unfold l. rewrite stack_top_exact. change (__kernel_end (link z)) with (__idmap_l1 (link z)). lia.
  - change (daif c') with (Z.ldiff (Z.lor (daif c) 15) 2).
    replace (Z.lor (daif c) 15) with 15; [done |].
    symmetry. apply Z.bits_inj'. intros i Hi. rewrite Z.lor_spec. destruct (Z.ltb_spec i 4).
    + assert (i = 0 \/ i = 1 \/ i = 2 \/ i = 3) as [-> | [-> | [-> | ->]]] by lia; apply orb_true_r.
    + by rewrite (testbit_high 4 (daif c)), (testbit_high 4 15) by lia.
  - intros n Hn Hi. destruct (Nat.leb_spec 11 n) as [H11 | Hlt]; [by apply start_finish |].
    unfold irqs_enabled in Hi. rewrite start_masked, daif_masked in Hi by lia. discriminate.
Qed.

(** From a core with everything unmasked, as a debugger may leave it. *)
Lemma start_enters_kmain_witness :
  let c := mkCore (fun n => if (n =? 0)%nat then 0x40000000 else 0) 0 0 (fun _ => 0) (fun _ => 0) in
  let w := @boot_world quiet tt ∅ in
  start 1 0 (link virt_sections) 0x50000800 c w = kmain 1 0 virt_symbols 0x40000000 w /\
  daif (run (_start (link virt_sections) 0x50000800) c) = 13.
Proof.
  intros c w.
  destruct (start_enters_kmain (HW := quiet) 1 0 virt_sections 0x50000800 c w virt_links
    ltac:(cbn; lia)) as (E & _ & _ & _ & Hd & _).
  split; [exact E | exact Hd].
Defined.

End Head.
