(* ===== verification/Invariant.v ===== *)
(** * The invariant of the kernel, and a judgement that keeps it

    [kernel_inv] is what holds of the kernel's statics and of the accesses it has
    made, at every moment and whatever memory and hardware contain: the device
    tables and the receive ring are well formed, the UART is configured for
    115200 baud and 8N1, no access is misaligned or null, and each system
    register is written only with the values meant for it; integers have the width
    and arrays the length of their types.  [safe c P] says that [c] keeps it in every
    outcome, returning, panicking, faulting or spinning, and that what it returns
    satisfies [P].  The rules of this file push the judgement through the monad;
    [safe_step] applies them. *)

From S2P Require Export Frame Gicv3 Pl011 Dtb.

Local Open Scope Z_scope.
Local Open Scope kernel_scope.

(** ** The invariant *)

(** What may be written to a system register: the priority mask is opened, Group 1
    and the MMU are only ever enabled, the timer is enabled and unmasked with a
    32-bit interval, an interrupt id is 32 bits wide. *)
Definition allowed_msr (r : sysreg) (v : Z) : Prop :=
  fits U64 v /\
  match r with
  | ICC_PMR_EL1 => v = 0xff
  | ICC_IGRPEN1_EL1 | SCTLR_EL1 => Z.testbit v 0 = true
  | CNTP_CTL_EL0 => v = 1
  | CNTP_TVAL_EL0 | ICC_EOIR1_EL1 => fits U32 v
  | _ => True
  end.

(** What may appear on the bus: aligned accesses at addresses that are not null;
    and only IRQ (bit 1) is ever masked. *)
Definition safe_event (e : event) : Prop :=
  match e with
  | Read32 a v | Write32 a v => reg_ok a /\ fits U32 v
  | Write64 a v => (0 < a < 2 ^ USIZE /\ a mod 8 = 0) /\ fits U64 v
  | Mrs _ v => fits U64 v
  | Msr r v => allowed_msr r v
  | DaifSet imm => imm = 2
  | Barrier _ => True
  end.

Definition safe_property (p : Property.t) : Prop := fits USIZE (Property.value p) /\ fits USIZE (Property.len p).

(** [\[Property; MAX_PROPS\]] *)
Definition safe_device (d : PlatformDevice.t) : Prop :=
  length (PlatformDevice.properties d) = PlatformDevice.MAX_PROPS /\
  Forall safe_property (PlatformDevice.properties d).

(** [wf_tables]: counts within the arrays, property counts at most [MAX_PROPS],
    parents before their children, phandles of existing devices. *)
Definition safe_tables (t : DtbTables.t) : Prop :=
  wf_tables t /\
  Forall safe_device (DtbTables.DEVICE_TABLE t) /\
  Forall (fun e => fits U32 (fst e) /\ (snd e < DtbTables.MAX_DEVICES)%nat) (DtbTables.PHANDLE_TABLE t).

Definition safe_gic (g : GicState.t) : Prop :=
  fits USIZE (GicState.dist_addr g) /\ fits USIZE (GicState.redist_addr g).

(** The line settings are those of [UartPl011::new]; base and clock come from the
    device tree. *)
Definition safe_uart (u : UartState.t) : Prop :=
  fits USIZE (UartState.base_addr u) /\ fits U32 (UartState.base_clock u) /\
  UartState.baudrate u = 115200 /\ UartState.data_bits u = 8 /\ UartState.stop_bits u = 1.

(** [wf]: both positions inside the array, which holds [UART_BUFFER_SIZE] bytes. *)
Definition safe_rx (rx : UartBuffer.t) : Prop := wf rx.

Section judgement.
Context {HW : Hardware}.
Implicit Types (w : world).

Record kernel_inv w : Prop := {
  tw_trace : Forall safe_event (w_trace w);
  tw_dtb : safe_tables (w_dtb w);
  tw_gic : safe_gic (w_gic w);
  tw_uart : safe_uart (w_uart w);
  tw_rx : safe_rx (Mutex.data (w_rx w));
}.

Definition safe {A} (c : M A) (P : A -> Prop) : Prop :=
  forall w, kernel_inv w ->
    match c w with
    | Done a w' => kernel_inv w' /\ P a
    | Panicked w' | Faulted w' | Spinning w' => kernel_inv w'
    end.

(** ** Rules *)

Lemma safe_ret {A} (a : A) (P : A -> Prop) : P a -> safe (ret a) P.
Proof. by intros Ha w Hw. Qed.

Lemma safe_bind {A B} (c : M A) (k : A -> M B) P Q :
  safe c P -> (forall a, P a -> safe (k a) Q) -> safe (bind c k) Q.
Proof.
  intros Hc Hk w Hw. specialize (Hc w Hw). unfold bind. destruct (c w); try done.
  destruct Hc as [Hw' Ha]. by apply Hk.
Qed.

Lemma safe_weaken {A} (c : M A) (P Q : A -> Prop) : safe c P -> (forall a, P a -> Q a) -> safe c Q.
Proof. intros Hc HPQ w Hw. specialize (Hc w Hw). destruct (c w); naive_solver. Qed.

Lemma safe_panic {A} (P : A -> Prop) : safe panic P.
Proof. by intros w Hw. Qed.

Lemma safe_fault {A} (P : A -> Prop) : safe fault P.
Proof. by intros w Hw. Qed.

Lemma safe_spin {A} (P : A -> Prop) : safe spin P.
Proof. by intros w Hw. Qed.

Lemma safe_gets {A} (f : world -> A) (P : A -> Prop) :
  (forall w, kernel_inv w -> P (f w)) -> safe (gets f) P.
Proof. intros Hf w Hw. split; [done | by apply Hf]. Qed.

Lemma safe_modify f : (forall w, kernel_inv w -> kernel_inv (f w)) -> safe (modify f) (fun _ => True).
Proof. intros Hf w Hw. split; [by apply Hf | done]. Qed.

Lemma safe_if {A} (b : bool) (c d : M A) P : safe c P -> safe d P -> safe (if b then c else d) P.
Proof. by destruct b. Qed.

Lemma safe_for_each {A B} (l : list A) (acc : B) body (I : B -> Prop) :
  I acc -> (forall b x, x ∈ l -> I b -> safe (body b x) I) -> safe (for_each l acc body) I.
Proof.
  revert acc. induction l as [| x l IH]; intros acc Ha Hb; [by apply safe_ret |]. simpl.
  apply (safe_bind _ _ I); [apply Hb; [by left | done] |]. intros b Hib. apply IH; [done |].
  intros b' y Hy. apply Hb. by right.
Qed.

Lemma safe_for_find {A B} (l : list A) (body : A -> M (option B)) (P : B -> Prop) :
  (forall x, x ∈ l -> safe (body x) (fun o => from_option P True o)) ->
  safe (for_find l body) (fun o => from_option P True o).
Proof.
  induction l as [| x l IH]; intros Hb; [by apply safe_ret |]. simpl.
  apply (safe_bind _ _ _ _ (Hb x ltac:(by left))). intros [y |] Hy; [by apply safe_ret |].
  apply IH. intros y' Hy'. apply Hb. by right.
Qed.

Lemma safe_spin_while fuel (c : M bool) P : safe c P -> safe (spin_while fuel c) (fun _ => True).
Proof.
  intros Hc. induction fuel as [| fuel IH]; [apply safe_spin |]. simpl.
  apply (safe_bind _ _ _ _ Hc). intros [] _; [exact IH | by apply safe_ret].
Qed.

(** ** The primitives *)

Lemma safe_checked n z : safe (checked n z) (fits n).
Proof.
  unfold checked. destruct (fitsb n z) eqn:Hf; [| apply safe_panic].
  apply safe_ret. by apply fitsb_spec.
Qed.

Lemma safe_uadd n a b : safe (uadd n a b) (fits n).
Proof. apply safe_checked. Qed.

Lemma safe_usub n a b : safe (usub n a b) (fits n).
Proof. apply safe_checked. Qed.

Lemma safe_umul n a b : safe (umul n a b) (fits n).
Proof. apply safe_checked. Qed.

Lemma fits_div n a b : fits n a -> 0 <= b -> fits n (a / b).
Proof.
  unfold fits. intros Ha Hb. destruct (Z.eq_dec b 0) as [-> |]; [rewrite Zdiv_0_r; lia |].
  split; [apply Z.div_pos; lia |]. eapply Z.le_lt_trans; [| apply Ha]. apply Z.div_le_upper_bound; [lia |]. nia.
Qed.

Lemma fits_shiftr n a b : fits n a -> 0 <= b -> fits n (Z.shiftr a b).
Proof. intros Ha Hb. rewrite Z.shiftr_div_pow2 by done. by apply fits_div; [| apply Z.pow_nonneg]. Qed.

Lemma fits_land_r n a b : 0 <= n -> fits n b -> fits n (Z.land a b).
Proof. intros Hn Hb. rewrite Z.land_comm. by apply fits_land. Qed.

Lemma safe_udiv n a b : fits n a -> 0 <= b -> safe (udiv a b) (fits n).
Proof.
  intros Ha Hb. unfold udiv. apply safe_if; [apply safe_panic |]. by apply safe_ret, fits_div.
Qed.

Lemma safe_ushl n a k : 0 <= n -> safe (ushl n a k) (fits n).
Proof.
  intros Hn. unfold ushl. apply safe_if; [by apply safe_ret, shl_fits | apply safe_panic].
Qed.

Lemma safe_ushr n a k : fits n a -> safe (ushr n a k) (fits n).
Proof.
  intros Ha. unfold ushr. destruct (_ && _)%bool eqn:E; [| apply safe_panic].
  bool_to_prop. by apply safe_ret, fits_shiftr.
Qed.

Lemma safe_arr_get {A} (l : list A) i (P : A -> Prop) : Forall P l -> safe (arr_get l i) P.
Proof.
  intros Hl. unfold arr_get. destruct (l !! i) eqn:E; [| apply safe_panic].
  apply safe_ret. by eapply Forall_lookup_1.
Qed.

(** Arrays keep their length. *)
Lemma safe_arr_set {A} (l : list A) i x (P : A -> Prop) :
  Forall P l -> P x -> safe (arr_set l i x) (fun l' => length l' = length l /\ Forall P l').
Proof.
  intros Hl Hx. unfold arr_set. destruct (l !! i) eqn:E; [| apply safe_panic].
  apply safe_ret. rewrite length_insert. split; [done | by apply Forall_insert].
Qed.

Lemma safe_ptr_add p n : safe (ptr_add p n) (fits USIZE).
Proof.
  unfold ptr_add. destruct (fitsb USIZE (p + n)) eqn:Hf; [| apply safe_fault].
  apply safe_ret. by apply fitsb_spec.
Qed.

Lemma safe_load_byte p : safe (load_byte p) (fun _ => True).
Proof.
  unfold load_byte. eapply safe_bind; [by apply (safe_gets _ (fun _ => True)) |]. intros ram _.
  apply safe_if; [apply safe_fault |]. destruct (ram !! p); [by apply safe_ret | apply safe_fault].
Qed.

Lemma safe_load_bytes p n : safe (load_bytes p n) (fun bs => length bs = n).
Proof.
  revert p. induction n as [| n IH]; intros p; [by apply safe_ret |]. simpl.
  eapply safe_bind; [apply safe_load_byte |]. intros b _.
  eapply safe_bind; [apply IH |]. intros bs Hbs. apply safe_ret. simpl. by rewrite Hbs.
Qed.

Lemma safe_load_le p n : safe (load_le p n) (fits (8 * Z.of_nat n)).
Proof.
  unfold load_le. eapply safe_bind; [apply safe_load_bytes |]. intros bs Hbs.
  apply safe_ret. rewrite <- Hbs. apply le_combine_bound.
Qed.

(** The registers that a pointer of [mmio_ptr] names. *)
Lemma reg_ok_fits a : reg_ok a -> fits USIZE a.
Proof. unfold reg_ok, fits. lia. Qed.

Lemma safe_emit e : safe_event e -> safe (emit e) (fun _ => True).
Proof.
  intros He. apply safe_modify. intros w [H1 H2 H3 H4 H5]. split; try done.
  simpl. apply Forall_app. by repeat constructor.
Qed.

Lemma safe_set_hw h : safe (modify (set_hw h)) (fun _ => True).
Proof. apply safe_modify. by intros w [H1 H2 H3 H4 H5]. Qed.

Lemma safe_bus_read32 a : reg_ok a -> safe (bus_read32 a) (fits U32).
Proof.
  intros Ha. unfold bus_read32. eapply safe_bind; [by apply (safe_gets _ (fun _ => True)) |]. intros h _.
  eapply safe_bind; [apply safe_set_hw |]. intros _ _.
  eapply safe_bind; [apply safe_emit; split; [done | by apply wrap_fits] |]. intros _ _.
  apply safe_ret. by apply wrap_fits.
Qed.

Lemma safe_bus_write32 a v : reg_ok a -> fits U32 v -> safe (bus_write32 a v) (fun _ => True).
Proof.
  intros Ha Hv. unfold bus_write32. eapply safe_bind; [| intros _ _; by apply safe_emit].
  apply safe_modify. by intros w [H1 H2 H3 H4 H5].
Qed.

Lemma safe_bus_write64 a v : 0 < a < 2 ^ USIZE /\ a mod 8 = 0 -> fits U64 v -> safe (bus_write64 a v) (fun _ => True).
Proof.
  intros Ha Hv. unfold bus_write64. eapply safe_bind; [| intros _ _; by apply safe_emit].
  apply safe_modify. by intros w [H1 H2 H3 H4 H5].
Qed.

Lemma safe_mrs r : safe (mrs r) (fits U64).
Proof.
  unfold mrs. eapply safe_bind; [by apply (safe_gets _ (fun _ => True)) |]. intros h _.
  eapply safe_bind; [apply safe_set_hw |]. intros _ _.
  eapply safe_bind; [apply safe_emit; by apply wrap_fits |]. intros _ _.
  apply safe_ret. by apply wrap_fits.
Qed.

Lemma safe_msr r v : allowed_msr r v -> safe (msr r v) (fun _ => True).
Proof.
  intros Hv. unfold msr. eapply safe_bind; [| intros _ _; by apply safe_emit].
  apply safe_modify. by intros w [H1 H2 H3 H4 H5].
Qed.

Lemma safe_msr_daifset : safe (msr_daifset 2) (fun _ => True).
Proof.
  unfold msr_daifset. eapply safe_bind; [| intros _ _; by apply safe_emit].
  apply safe_modify. by intros w [H1 H2 H3 H4 H5].
Qed.

Lemma safe_barrier b : safe (barrier_ins b) (fun _ => True).
Proof. by apply safe_emit. Qed.

(** Memory is outside the invariant: it holds bytes. *)
Lemma safe_store_le p n v : safe (store_le p n v) (fun _ => True).
Proof.
  unfold store_le. eapply safe_bind; [apply safe_load_bytes |]. intros _ _.
  apply safe_modify. by intros w [H1 H2 H3 H4 H5].
Qed.

Lemma safe_assign_u64 p v : safe (assign_u64 p v) (fun _ => True).
Proof. apply safe_if; [apply safe_store_le | apply safe_fault]. Qed.

Lemma safe_deref_u64 p : safe (deref_u64 p) (fits U64).
Proof. apply safe_if; [apply (safe_load_le p 8) | apply safe_fault]. Qed.

End judgement.

(** ** Automation *)

Create HintDb safe.

#[export] Hint Resolve safe_uadd safe_usub safe_umul safe_udiv safe_ushl safe_ushr
  safe_ptr_add safe_load_byte safe_load_bytes safe_load_le safe_bus_read32 safe_bus_write32
  safe_bus_write64 safe_mrs safe_msr safe_msr_daifset safe_barrier safe_store_le
  safe_assign_u64 safe_deref_u64 safe_panic safe_fault safe_spin : safe.

Lemma from_be_fits n v : fits (8 * Z.of_nat n) (from_be n v).
Proof.
  unfold from_be. pose proof (le_combine_bound (rev (le_split n v))) as H.
  by rewrite length_rev, length_le_split in H.
Qed.

(** Widths of expressions; constants by evaluation. *)
Ltac fit :=
  cbv beta zeta;
  lazymatch goal with
  | |- True => exact I
  | |- _ /\ _ => split; fit
  | |- 0 <= _ => first [lia | vm_compute; discriminate]
  | |- fits _ (wrap ?n _) => apply (fits_weaken n); [apply wrap_fits; fit | vm_compute; discriminate]
  | |- fits _ (shl _ _ _) => apply shl_fits; fit
  | |- fits _ (from_be ?n _) => exact (from_be_fits n _)
  | |- fits _ (unot _ _) => apply unot_fits; fit
  | |- fits _ (Z.lor _ _) => apply fits_lor; [fit | fit | fit]
  | |- fits _ (Z.land _ _) =>
      first [apply fits_land; [fit | fit] | apply fits_land_r; [fit | fit]]
  | |- fits _ (Z.shiftr _ _) => apply fits_shiftr; [fit | fit]
  | |- fits _ (_ / _) => apply fits_div; [fit | fit]
  | |- fits _ (if _ then _ else _) => case_match; fit
  | |- fits _ _ =>
      first [assumption | naive_solver
        | (split; [vm_compute; discriminate | vm_compute; reflexivity])
        | match goal with H : fits ?n ?z |- fits _ ?z => apply (fits_weaken n _ z H); vm_compute; discriminate end]
  | |- _ => first [assumption | done | naive_solver]
  end.

(** A value meant for the register: its width, and what the register asks. *)
Ltac allowed :=
  split; [fit | cbv beta iota;
    first [exact I | rewrite Z.lor_spec; apply orb_true_r | fit | reflexivity]].

#[export] Hint Extern 2 (allowed_msr _ _) => solve [allowed] : safe.
#[export] Hint Extern 2 (fits _ _) => solve [fit] : safe.
#[export] Hint Extern 2 (0 <= _) => solve [fit] : safe.

Lemma safe_bind_bind {HW : Hardware} {A B C} (c : M A) (k : A -> M B) (h : B -> M C) P :
  safe (bind c (fun a => bind (k a) h)) P -> safe (bind (bind c k) h) P.
Proof. intros H w Hw. rewrite bind_bind. by apply H. Qed.

Lemma safe_bind_ret {HW : Hardware} {A B} (a : A) (k : A -> M B) P : safe (k a) P -> safe (bind (ret a) k) P.
Proof. done. Qed.

(** One rule; branches that return nothing promise nothing. *)
Ltac safe_step :=
  cbv beta zeta;
  lazymatch goal with
  | |- safe (bind (bind _ _) _) _ => apply safe_bind_bind
  | |- safe (bind (ret _) _) _ => apply safe_bind_ret
  | |- safe (bind (if _ then _ else _) _) _ => apply (safe_bind _ _ (fun _ => True)); [| intros _ _]
  | |- safe (bind (match _ with _ => _ end) _) _ => apply (safe_bind _ _ (fun _ => True)); [| intros _ _]
  | |- safe (bind _ _) _ => eapply safe_bind; [solve [eauto 4 with safe] | let H := fresh "H" in intros ? H; cbv beta in H]
  | |- safe (if _ then _ else _) _ => apply safe_if
  | |- safe (ret _) _ => apply safe_ret; try solve [fit]
  | |- safe (match ?x with _ => _ end) _ => destruct x
  | |- safe _ _ => first [solve [eauto 4 with safe] | eapply safe_weaken; [solve [eauto 4 with safe] | intros; solve [fit]]]
  end.

Ltac safe_run := repeat safe_step.

(** ** Shared libraries *)

Section libraries.
Context {HW : Hardware}.

Lemma safe_read_be_u32 p o : safe (read_be_u32 p o) (fits U32).
Proof. unfold read_be_u32, read_unaligned. safe_run. Qed.

(** The guards of a volatile access let only register addresses through. *)
Lemma safe_mmio_ptr b o : safe (mmio_ptr b o) reg_ok.
Proof.
  unfold mmio_ptr. eapply safe_bind; [apply safe_ptr_add |]. intros p Hp. cbv beta.
  destruct (_ || _)%bool eqn:E; [apply safe_fault |]. apply safe_ret.
  apply orb_false_elim in E as [E1 E2]. apply negb_false_iff in E2. bool_to_prop.
  unfold reg_ok, fits in *. lia.
Qed.

Lemma safe_read_mmio32 b o : safe (read_mmio32 b o) (fits U32).
Proof. unfold read_mmio32. eapply safe_bind; [apply safe_mmio_ptr |]. intros p Hp. safe_run. Qed.

Lemma safe_write_mmio32 b o v : fits U32 v -> safe (write_mmio32 b o v) (fun _ => True).
Proof. intros Hv. unfold write_mmio32. eapply safe_bind; [apply safe_mmio_ptr |]. intros p Hp. safe_run. Qed.

Lemma safe_set_mmio_bits32 b o v : fits U32 v -> safe (set_mmio_bits32 b o v) (fun _ => True).
Proof. intros Hv. unfold set_mmio_bits32. eapply safe_bind; [apply safe_mmio_ptr |]. intros p Hp. safe_run. Qed.

Lemma safe_clear_mmio_bits32 b o v : safe (clear_mmio_bits32 b o v) (fun _ => True).
Proof. unfold clear_mmio_bits32. eapply safe_bind; [apply safe_mmio_ptr |]. intros p Hp. safe_run. Qed.

Lemma safe_poll_bit b o m : safe (poll_bit b o m) (fun _ => True).
Proof. unfold poll_bit. eapply safe_bind; [apply safe_read_mmio32 |]. intros v Hv. safe_run. Qed.
End libraries.

#[export] Hint Resolve safe_read_be_u32 safe_read_mmio32 safe_write_mmio32 safe_set_mmio_bits32
  safe_clear_mmio_bits32 safe_poll_bit safe_spin_while : safe.
