(* ===== verification/Session.v ===== *)
(** * The running kernel: interrupts and the main loop together

    After boot the kernel does two things: its main loop polls the receive
    buffer, and the interrupt vector reads an interrupt id from the controller,
    lets [do_irq] handle it and acknowledges it.  A session is any sequence of
    these two.  What it does to the outside world is read off the trace
    ([observe]) and compared with [session_spec], which knows nothing of
    locks, ring buffers and registers. *)

From S2P Require Export Kernel.

Local Open Scope Z_scope.
Local Open Scope kernel_scope.

Inductive act := Irq | Poll.

#[export] Instance act_eq_dec : EqDecision act.
Proof. solve_decision. Defined.

Section session.
Context {HW : Hardware} (fuel : nat).
Implicit Types (w : world) (acts : list act) (t : list event).

(** [irq_handler] of vectors.S with the handler it calls: the id is passed in
    w0, the result is written to the end-of-interrupt register. *)
Definition handle_irq : M unit :=
  id <- mrs ICC_IAR1_EL1 ;;
  r <- do_irq fuel (wrap U32 id) ;;
  msr ICC_EOIR1_EL1 r.

Definition run_act (a : act) : M unit := match a with Irq => handle_irq | Poll => poll fuel end.

Definition run_session acts : M unit := for_each acts tt (fun _ a => run_act a).

(** ** What can be seen from outside *)

Record observed := mkObserved {
  ids : list Z;          (* interrupt ids read *)
  eois : list Z;         (* interrupts acknowledged *)
  received : list Z;     (* bytes read from the UART *)
  freqs : list Z;        (* counter frequencies read *)
  rearmed : list Z;      (* timer values written *)
  sent : list Z;         (* bytes written to the UART *)
}.

Definition no_io : observed := mkObserved [] [] [] [] [] [].

Definition join (o1 o2 : observed) : observed :=
  mkObserved (ids o1 ++ ids o2) (eois o1 ++ eois o2) (received o1 ++ received o2)
    (freqs o1 ++ freqs o2) (rearmed o1 ++ rearmed o2) (sent o1 ++ sent o2).

Definition observe_event (base : Z) (e : event) : observed :=
  match e with
  | Mrs ICC_IAR1_EL1 v => mkObserved [wrap U32 v] [] [] [] [] []
  | Msr ICC_EOIR1_EL1 v => mkObserved [] [v] [] [] [] []
  | Mrs CNTFRQ_EL0 v => mkObserved [] [] [] [v] [] []
  | Msr CNTP_TVAL_EL0 v => mkObserved [] [] [] [] [v] []
  | Read32 a v => if a =? base + DR_OFF then mkObserved [] [] [wrap U8 v] [] [] [] else no_io
  | Write32 a v => if a =? base + DR_OFF then mkObserved [] [] [] [] [] [v] else no_io
  | _ => no_io
  end.

Definition observe (base : Z) t : observed := foldr (fun e o => join (observe_event base e) o) no_io t.

(** ** What should be seen *)

Definition typed_line (c : Z) : string := ("You typed: " +:+ fmt_char c) +:+ newline.

Definition irq_line (id : Z) : string :=
  (if id =? 30 then "Timer interrupt!" else "Unhandled IRQ: " +:+ fmt_dec id) +:+ newline.

(** The text a session prints and the bytes it leaves waiting, given the
    interrupts that occur in it and the bytes that arrive. *)
Fixpoint session_spec acts (irqs arriving queue : list Z) : string * list Z :=
  match acts, irqs with
  | [], _ => ("", queue)
  | Poll :: acts, _ =>
      match queue with
      | [] => session_spec acts irqs arriving []
      | c :: queue =>
          let '(text, rest) := session_spec acts irqs arriving queue in (typed_line c +:+ text, rest)
      end
  | Irq :: acts, [] => ("", queue)
  | Irq :: acts, id :: irqs =>
      if id =? 33 then
        match arriving with
        | [] => ("", queue)
        | b :: arriving => session_spec acts irqs arriving (snd (Fifo.push b queue))
        end
      else
        let '(text, rest) := session_spec acts irqs arriving queue in (irq_line id +:+ text, rest)
  end.

Definition occurrences {A} `{EqDecision A} (x : A) (l : list A) : nat := length (filter (x =.) l).

Lemma occurrences_app {A} `{EqDecision A} (x : A) l1 l2 :
  occurrences x (l1 ++ l2) = (occurrences x l1 + occurrences x l2)%nat.
Proof. unfold occurrences. by rewrite filter_app, length_app. Qed.

Lemma occurrences_one {A} `{EqDecision A} (x y : A) : occurrences x [y] = if decide (x = y) then 1%nat else 0%nat.
Proof. unfold occurrences. rewrite filter_cons, filter_nil. by destruct (decide (x = y)). Qed.

Lemma occurrences_cons {A} `{EqDecision A} (x y : A) l :
  occurrences x (y :: l) = (if decide (x = y) then S else id) (occurrences x l).
Proof. unfold occurrences. rewrite filter_cons. by destruct (decide (x = y)). Qed.

(** ** Observations of traces *)

Lemma join_no_io o : join no_io o = o.
Proof. by destruct o. Qed.

Lemma join_no_io_r o : join o no_io = o.
Proof. destruct o. unfold join. simpl. by rewrite !app_nil_r. Qed.

Lemma join_assoc o1 o2 o3 : join (join o1 o2) o3 = join o1 (join o2 o3).
Proof. unfold join. simpl. by rewrite <- !app_assoc. Qed.

Lemma observe_app base t1 t2 : observe base (t1 ++ t2) = join (observe base t1) (observe base t2).
Proof.
  induction t1 as [| e t1 IH]; [by rewrite join_no_io |]. simpl. by rewrite IH, join_assoc.
Qed.

(** The console's accesses are bytes sent and nothing else. *)
Lemma observe_console base t :
  Forall (console_event base) t -> observe base t = mkObserved [] [] [] [] [] (tx_of base t).
Proof.
  induction 1 as [| e t He _ IH]; [done |]. change (e :: t) with ([e] ++ t).
  rewrite observe_app, tx_of_app, IH. destruct e; simpl in He; try done; subst; unfold tx_of; simpl.
  - destruct (Z.eqb_spec (base + FR_OFF) (base + DR_OFF)); [unfold FR_OFF, DR_OFF in *; lia | done].
  - by rewrite Z.eqb_refl.
Qed.

(** The state between two actions: console and receive buffer are usable. *)
Definition session_ok w : Prop :=
  frame_ok (UartState.base_addr (w_uart w)) UART_SIZE /\
  tx_drains fuel (UartState.base_addr (w_uart w)) /\
  Mutex.lock (w_rx w) = false /\ wf (Mutex.data (w_rx w)).

Lemma session_console w : session_ok w -> console_base (w_uart w) = UartState.base_addr (w_uart w).
Proof.
  intros ((Hb & _) & _). unfold console_base. by rewrite (proj2 (Z.eqb_neq _ 0)) by lia.
Qed.

Lemma session_console_up w : session_ok w -> console_up fuel w.
Proof.
  intros Hok. pose proof Hok as (Hb & Hd & _). unfold console_up, console_ok.
  by rewrite (session_console w Hok).
Qed.

Lemma session_fuel w : session_ok w -> exists k, fuel = S k.
Proof. intros (_ & Hd & _). destruct (Hd w) as (n & Hn & _). exists (pred fuel). lia. Qed.

(** Everything but the receive buffer, the hardware and the trace is the same. *)
Definition same_but_rx w w' : Prop :=
  w_ram w' = w_ram w /\ w_dtb w' = w_dtb w /\ w_gic w' = w_gic w /\ w_uart w' = w_uart w.

Lemma same_but_rx_trans w1 w2 w3 : same_but_rx w1 w2 -> same_but_rx w2 w3 -> same_but_rx w1 w3.
Proof. unfold same_but_rx. intuition congruence. Qed.

Lemma same_kernel_but_rx w w' : same_kernel w w' -> same_but_rx w w'.
Proof. unfold same_kernel, same_but_rx. naive_solver. Qed.

(** What actions did: [t] was added to the trace and shows [o], [rx] is left in
    the receive buffer. *)
Definition did w w' (o : observed) (rx : list Z) : Prop :=
  exists t, w_trace w' = w_trace w ++ t /\ observe (UartState.base_addr (w_uart w)) t = o /\
    contents (Mutex.data (w_rx w')) = rx /\ same_but_rx w w' /\ session_ok w'.

Lemma did_trans w1 w2 w3 o1 o2 rx1 rx2 : did w1 w2 o1 rx1 -> did w2 w3 o2 rx2 -> did w1 w3 (join o1 o2) rx2.
Proof.
  intros (t1 & E1 & O1 & _ & S1 & _) (t2 & E2 & O2 & C2 & S2 & Ok2).
  pose proof S1 as (_ & _ & _ & Eu). rewrite Eu in O2.
  exists (t1 ++ t2). rewrite E2, E1, observe_app, O1, O2, app_assoc.
  split; [done |]. split; [done |]. split; [done |]. split; [by eapply same_but_rx_trans | done].
Qed.

(** One primitive access, as an action. *)
Lemma did_log w w' e rx :
  same_kernel w w' -> w_trace w' = w_trace w ++ [e] -> session_ok w ->
  contents (Mutex.data (w_rx w)) = rx ->
  did w w' (observe_event (UartState.base_addr (w_uart w)) e) rx.
Proof.
  intros Hs Ht Hok Hrx. pose proof Hs as (_ & _ & _ & Eu & Ex). exists [e].
  split; [done |]. split; [apply join_no_io_r |]. rewrite Ex. split; [done |].
  split; [by apply same_kernel_but_rx |]. unfold session_ok. by rewrite Eu, Ex.
Qed.

(** Printing, as an action. *)
Lemma did_print w w' s :
  session_ok w -> printed s w w' ->
  did w w' (mkObserved [] [] [] [] [] (bytes_of s)) (contents (Mutex.data (w_rx w))).
Proof.
  intros Hok (Hs & t & Ht & Hev & Htx). rewrite (session_console w Hok) in Hev, Htx.
  pose proof Hs as (_ & _ & _ & Eu & Ex). exists t.
  split; [done |]. split; [by rewrite (observe_console _ _ Hev), Htx |]. rewrite Ex. split; [done |].
  split; [by apply same_kernel_but_rx |]. unfold session_ok. by rewrite Eu, Ex.
Qed.

(** ** One interrupt *)

(** The interrupts other than the UART's. *)
Lemma exec_irq_prints id w :
  session_ok w -> id <> 33 ->
  exists w' fs, do_irq fuel id w = Done id w' /\ length fs = occurrences 30 [id] /\
    did w w' (mkObserved [] [] [] fs (wrap U32 <$> fs) (bytes_of (irq_line id)))
      (contents (Mutex.data (w_rx w))).
Proof.
  intros Hok Hid.
  destruct (exec_do_irq_prints fuel id w (session_console_up w Hok) Hid) as (w1 & w' & P & E & Hs & Htr).
  pose proof P as (Hs1 & _). pose proof (did_print w w1 _ Hok P) as (t & Ht & Ho & _ & _ & _).
  pose proof Hs as (_ & _ & _ & Eu & Ex).
  exists w', (if id =? 30 then [peek_reg CNTFRQ_EL0 w1] else []). split; [exact E |].
  split; [rewrite occurrences_one; by destruct (Z.eqb_spec id 30), (decide (30 = id)); try congruence |].
  eexists. split; [rewrite Htr, Ht, <- app_assoc; reflexivity |].
  rewrite observe_app, Ho, Ex. split.
  { unfold join, irq_line. destruct (id =? 30); cbn; rewrite app_nil_r; reflexivity. }
  split; [done |].
  split; [by apply same_kernel_but_rx |]. unfold session_ok. by rewrite Eu, Ex.
Qed.

(** The UART's interrupt. *)
Lemma exec_irq_receives w :
  session_ok w ->
  exists w' b, do_irq fuel 33 w = Done 33 w' /\
    did w w' (mkObserved [] [] [b] [] [] []) (snd (Fifo.push b (contents (Mutex.data (w_rx w))))).
Proof.
  intros Hok. pose proof Hok as (Hb & Hd & Hl & Hwf). destruct (session_fuel w Hok) as [k Hk].
  destruct (exec_do_irq_receives k w Hb) as [H _].
  destruct (H Hl Hwf) as (w' & E & Hl' & Hwf' & Hc & Htr & Hsame). rewrite <- Hk in E.
  eexists w', _. split; [exact E |]. eexists. split; [exact Htr |].
  split; [| split; [exact Hc |]; split; [exact Hsame |]].
  - unfold observe, DR_OFF. cbn [foldr observe_event]. unfold DR_OFF. rewrite Z.add_0_r, Z.eqb_refl.
    by rewrite (proj2 (Z.eqb_neq (UartState.base_addr (w_uart w) + 68) _)) by lia.
  - unfold session_ok. destruct Hsame as (_ & _ & _ & ->). done.
Qed.

(** What one interrupt [id] does: the new queue, and what is seen. *)
Definition irq_effect (id : Z) (o : observed) (q q' : list Z) : Prop :=
  ids o = [id] /\ eois o = [id] /\ rearmed o = wrap U32 <$> freqs o /\
  length (freqs o) = occurrences 30 [id] /\
  (if id =? 33 then exists b, received o = [b] /\ sent o = [] /\ q' = snd (Fifo.push b q)
   else received o = [] /\ sent o = bytes_of (irq_line id) /\ q' = q).

Lemma exec_handle_irq w :
  session_ok w ->
  exists w' id o q', handle_irq w = Done tt w' /\ did w w' o q' /\
    irq_effect id o (contents (Mutex.data (w_rx w))) q'.
Proof.
  intros Hok. set (id := wrap U32 (peek_reg ICC_IAR1_EL1 w)). set (w1 := after_mrs ICC_IAR1_EL1 w).
  assert (did w w1 (mkObserved [id] [] [] [] [] []) (contents (Mutex.data (w_rx w)))) as D1
    by (by apply (did_log w w1 (Mrs ICC_IAR1_EL1 (peek_reg ICC_IAR1_EL1 w)))).
  pose proof D1 as (_ & _ & _ & Ec & _ & Hok1).
  assert (exists w2 o q', do_irq fuel id w1 = Done id w2 /\ did w1 w2 o q' /\
    irq_effect id (join (mkObserved [id] [] [] [] [] []) (join o (mkObserved [] [id] [] [] [] [])))
      (contents (Mutex.data (w_rx w))) q') as (w2 & o & q' & E & D2 & He).
  { unfold irq_effect. destruct (Z.eqb_spec id 33) as [-> | Hne].
    - destruct (exec_irq_receives w1 Hok1) as (w2 & b & E & D). rewrite Ec in D.
      do 3 eexists. split; [exact E |]. split; [exact D |]. by repeat (split; [done |]); exists b.
    - destruct (exec_irq_prints id w1 Hok1 Hne) as (w2 & fs & E & Hl & D). rewrite Ec in D.
      do 3 eexists. split; [exact E |]. split; [exact D |]. simpl. by rewrite !app_nil_r. }
  pose proof D2 as (_ & _ & _ & Ec2 & _ & Hok2).
  exists (after_msr ICC_EOIR1_EL1 id w2), id. do 2 eexists. split; [| split; [| exact He]].
  - unfold handle_irq. rewrite (bind_done _ _ _ _ _ (exec_mrs _ _)). fold w1 id.
    by rewrite (bind_done _ _ _ _ _ E).
  - eapply did_trans; [exact D1 |]. eapply did_trans; [exact D2 |].
    by apply (did_log w2 (after_msr ICC_EOIR1_EL1 id w2) (Msr ICC_EOIR1_EL1 id)).
Qed.

(** ** One iteration of the main loop *)

Lemma exec_poll w :
  session_ok w ->
  let q := contents (Mutex.data (w_rx w)) in
  exists w', poll fuel w = Done tt w' /\
    did w w' (mkObserved [] [] [] [] []
      (match q with c :: _ => bytes_of (typed_line c) | [] => [] end)) (tail q).
Proof.
  intros Hok q. pose proof Hok as (Hb & Hd & Hl & Hwf). destruct (session_fuel w Hok) as [k Hk].
  destruct (exec_getchar k w Hl Hwf) as (w1 & E & Hl1 & Hwf1 & Hc1 & Htr1 & Hsame1).
  rewrite <- Hk in E. fold q in E, Hc1.
  assert (did w w1 no_io (snd (Fifo.pop q))) as D1.
  { eexists. split; [exact Htr1 |]. split; [done |]. split; [done |]. split; [exact Hsame1 |].
    unfold session_ok. destruct Hsame1 as (_ & _ & _ & ->). done. }
  pose proof D1 as (_ & _ & _ & _ & _ & Hok1). unfold poll. rewrite (bind_done _ _ _ _ _ E).
  destruct q as [| c q]; cbn [Fifo.pop fst snd tail] in *; [by exists w1 |].
  destruct (prints_println fuel ("You typed: " +:+ fmt_char c) w1 (session_console_up w1 Hok1))
    as (w2 & E2 & P).
  exists w2. split; [exact E2 |]. rewrite <- Hc1 in D1 |- *.
  exact (did_trans _ _ _ _ _ _ _ D1 (did_print w1 w2 _ Hok1 P)).
Qed.

(** ** Any session *)

(** What a session must show, and how it changes the queue from [q] to [q']. *)
Definition sees acts (o : observed) (q q' : list Z) : Prop :=
  (length (ids o) = occurrences Irq acts /\ eois o = ids o) /\
  length (received o) = occurrences 33 (ids o) /\
  (length (freqs o) = occurrences 30 (ids o) /\ rearmed o = wrap U32 <$> freqs o) /\
  (let '(text, rest) := session_spec acts (ids o) (received o) q in sent o = bytes_of text /\ q' = rest).

Lemma sees_irq acts id o1 o2 q q1 q2 :
  irq_effect id o1 q q1 -> sees acts o2 q1 q2 -> sees (Irq :: acts) (join o1 o2) q q2.
Proof.
  intros (Ei & Ee & Er & Ef & Hio) ((Li & E2) & Lr & (Lf & R2) & Hs).
  unfold sees, join. cbn [ids eois received freqs rearmed sent].
  rewrite Ei, Ee, Er, E2, R2. cbn [app]. split; [split; [by rewrite occurrences_cons; cbn; rewrite Li | done] |].
  change (id :: ids o2) with ([id] ++ ids o2). rewrite !occurrences_app, !length_app, fmap_app.
  cbn [app session_spec]. destruct (Z.eqb_spec id 33) as [-> | Hne].
  - destruct Hio as (b & -> & -> & ->). rewrite (occurrences_one 33), decide_True by done.
    split; [by rewrite Lr |]. split; [split; [lia | done] |]. exact Hs.
  - destruct Hio as (-> & -> & ->). rewrite (occurrences_one 33), decide_False by congruence.
    split; [by rewrite Lr |]. split; [split; [lia | done] |].
    cbn [app]. destruct (session_spec acts (ids o2) (received o2) q) as [text rest].
    destruct Hs as [-> ->]. by rewrite bytes_of_app.
Qed.

Lemma sees_poll acts o2 q q2 :
  sees acts o2 (tail q) q2 ->
  sees (Poll :: acts)
    (join (mkObserved [] [] [] [] [] (match q with c :: _ => bytes_of (typed_line c) | [] => [] end)) o2) q q2.
Proof.
  intros ((Li & E2) & Lr & Lf & Hs). unfold sees, join. cbn [ids eois received freqs rearmed sent app].
  split; [split; [by rewrite occurrences_cons; cbn; rewrite Li | done] |]. split; [done |]. split; [done |].
  destruct q as [| c q]; [exact Hs |]. cbn [tail session_spec] in *.
  destruct (session_spec acts (ids o2) (received o2) q) as [text rest].
  destruct Hs as [-> ->]. by rewrite bytes_of_app.
Qed.

Lemma exec_session acts : forall w, session_ok w ->
  exists w' o q', run_session acts w = Done tt w' /\ did w w' o q' /\
    sees acts o (contents (Mutex.data (w_rx w))) q'.
Proof.
  induction acts as [| a acts IH]; intros w Hok.
  { exists w, no_io. eexists. split; [reflexivity |]. split; [| by repeat split].
    exists []. by rewrite app_nil_r. }
  assert (exists w1 o1 q1, run_act a w = Done tt w1 /\ did w w1 o1 q1 /\
    forall o2 q2, sees acts o2 q1 q2 ->
      sees (a :: acts) (join o1 o2) (contents (Mutex.data (w_rx w))) q2) as (w1 & o1 & q1 & E1 & D1 & Hs).
  { destruct a.
    - destruct (exec_handle_irq w Hok) as (w1 & id & o & q' & E & D & He).
      exists w1, o, q'. split; [exact E |]. split; [exact D |]. intros o2 q2. by apply (sees_irq _ id).
    - destruct (exec_poll w Hok) as (w1 & E & D).
      do 3 eexists. split; [exact E |]. split; [exact D |]. intros o2 q2. apply sees_poll. }
  pose proof D1 as (_ & _ & _ & Ec & _ & Hok1).
  destruct (IH w1 Hok1) as (w2 & o2 & q2 & E2 & D2 & S2). rewrite Ec in S2.
  do 3 eexists. split; [| split; [exact (did_trans _ _ _ _ _ _ _ D1 D2) | exact (Hs _ _ S2)]].
  unfold run_session. cbn [for_each]. rewrite (bind_done _ _ _ _ _ E1). exact E2.
Qed.

(** C6: the running kernel: whatever the order of interrupts and main-loop
    iterations, and whatever interrupts and bytes the hardware presents, every
    action ends; each interrupt is read once and acknowledged once, in order,
    with its own id; each UART interrupt takes exactly one byte from the
    device; each timer interrupt reads the counter frequency and rearms with it
    (truncated to 32 bits); and what is sent is exactly the text of
    [session_spec]: a line per byte, in order of arrival, through the bounded
    queue, and a line per other interrupt.  The drivers' state, tables and
    memory are untouched, and the session can go on. *)
Theorem session_serves_interrupts acts w :
  session_ok w ->
  exists w' t, run_session acts w = Done tt w' /\ w_trace w' = w_trace w ++ t /\
    let o := observe (UartState.base_addr (w_uart w)) t in
    (length (ids o) = occurrences Irq acts /\ eois o = ids o) /\
    length (received o) = occurrences 33 (ids o) /\
    (length (freqs o) = occurrences 30 (ids o) /\ rearmed o = wrap U32 <$> freqs o) /\
    (let '(text, rest) := session_spec acts (ids o) (received o) (contents (Mutex.data (w_rx w))) in
     sent o = bytes_of text /\ contents (Mutex.data (w_rx w')) = rest) /\
    same_but_rx w w' /\ session_ok w'.
Proof.
  intros Hok. destruct (exec_session acts w Hok) as (w' & o & q' & E & (t & Ht & Ho & Hc & Hs & Hok') & S).
  exists w', t. cbv zeta. rewrite Ho, Hc. destruct S as (H1 & H2 & H3 & H4). auto 10.
Qed.
End session.
