(* ===== verification/Preempt.v ===== *)
(** * The main loop interrupted at any access

    [Session] lets interrupts arrive between iterations of the main loop.  Here
    an iteration is cut into its single actions (each poll of the flag register
    and each write of the data register is one; from the masking of interrupts
    to their restoration [lock_irqsafe] is one), and the handler runs any number
    of times before any of them. *)

From S2P Require Export Session.

Local Open Scope Z_scope.
Local Open Scope kernel_scope.

(** ** Tasks *)

(** Code as a sequence of actions that interrupts do not divide. *)
Inductive task {HW : Hardware} (A : Type) : Type :=
| Return (a : A)
| Act {B} (c : M B) (k : B -> task A).
Arguments Return {HW A} a.
Arguments Act {HW A B} c k.

Section task.
Context {HW : Hardware}.

Fixpoint flat {A} (t : task A) : M A :=
  match t with Return a => ret a | Act c k => b <- c ;; flat (k b) end.

Fixpoint tbind {A B} (t : task A) (k : A -> task B) : task B :=
  match t with Return a => k a | Act c k' => Act c (fun b => tbind (k' b) k) end.

Lemma bind_cong {A B} (c : M A) (k h : A -> M B) w : (forall a w, k a w = h a w) -> bind c k w = bind c h w.
Proof. intros H. unfold bind. by destruct (c w). Qed.

Lemma flat_tbind {A B} (t : task A) (k : A -> task B) w : flat (tbind t k) w = bind (flat t) (fun a => flat (k a)) w.
Proof.
  revert w. induction t as [a | B' c k' IH]; intros w; [done |]. cbn [tbind flat]. rewrite bind_bind.
  apply bind_cong. intros b w1. apply IH.
Qed.

(** [while cond {}], each evaluation of the condition an action. *)
Fixpoint wait (fuel : nat) (cond : M bool) : task unit :=
  match fuel with
  | O => Act spin Return
  | S fuel => Act cond (fun b => if b : bool then wait fuel cond else Return tt)
  end.

Lemma flat_wait fuel cond w : flat (wait fuel cond) w = spin_while fuel cond w.
Proof.
  revert w. induction fuel as [| fuel IH]; intros w; [done |]. cbn [wait flat spin_while].
  apply bind_cong. intros [] w1; [apply IH | done].
Qed.
End task.

Section kernel.
Context {HW : Hardware} (fuel : nat).
Implicit Types (w : world).

(** ** The main loop as a task *)

Definition putchar_task (c : Z) : task unit :=
  Act UART (fun u =>
  let base := console_base u in
  tbind (wait fuel (poll_bit base FR_OFF FR_TXFE)) (fun _ =>
  Act (write_mmio32 base DR_OFF c) Return)).

Fixpoint write_task (bs : list Z) : task unit :=
  match bs with [] => Return tt | c :: bs => tbind (putchar_task c) (fun _ => write_task bs) end.

Definition println_task (s : string) : task unit := write_task (bytes_of (s +:+ newline)).

(** The part of [getchar] in which interrupts are masked. *)
Definition masked_pop (daif_state : Z) : M (option Z) :=
  msr_daifset 2 ;;
  result <- lock fuel RX_BUFFER pop ;;
  restore_interrupts daif_state ;;
  ret result.

Definition getchar_task : task (option Z) := Act (mrs DAIF) (fun daif => Act (masked_pop daif) Return).

Definition poll_task : task unit :=
  tbind getchar_task (fun ch =>
  match ch with
  | Some ch => println_task ("You typed: " +:+ fmt_char ch)
  | None => Return tt
  end).

Fixpoint polls_task (n : nat) : task unit :=
  match n with O => Return tt | S n => tbind poll_task (fun _ => polls_task n) end.

(** Undivided, these are the functions of the code. *)
Lemma flat_putchar c w : flat (putchar_task c) w = putchar fuel c w.
Proof.
  unfold putchar_task, putchar, UartPl011_putchar. cbn [flat]. apply bind_cong. intros u w1. cbv zeta.
  rewrite flat_tbind.
  rewrite (bind_ext _ _ _ _ (flat_wait _ _ _)). apply bind_cong. intros _ w2. cbn [flat].
  apply bind_ret_r.
Qed.

Lemma flat_write bs w : flat (write_task bs) w = write_bytes fuel bs w.
Proof.
  revert w. induction bs as [| c bs IH]; intros w; [done |]. cbn [write_task write_bytes].
  rewrite flat_tbind, (bind_ext _ _ _ _ (flat_putchar _ _)). apply bind_cong. intros _. apply IH.
Qed.

Lemma flat_getchar w : flat getchar_task w = getchar fuel w.
Proof.
  unfold getchar, lock_irqsafe, disable_irq. cbn [getchar_task flat]. rewrite !bind_bind.
  apply bind_cong. intros d w1. rewrite !bind_bind. unfold masked_pop. rewrite !bind_bind.
  apply bind_cong. intros [] w2. rewrite bind_bind.
  change (bind (ret d) ?k w2) with (k d w2). cbv beta.
  apply bind_cong. intros r w3. rewrite bind_bind. by apply bind_cong.
Qed.

Lemma flat_poll w : flat poll_task w = poll fuel w.
Proof.
  unfold poll_task, poll. rewrite flat_tbind, (bind_ext _ _ _ _ (flat_getchar _)).
  apply bind_cong. intros [ch |] w1; [apply flat_write | done].
Qed.

Lemma flat_polls n w : flat (polls_task n) w = run_session fuel (replicate n Poll) w.
Proof.
  revert w. induction n as [| n IH]; intros w; [done |]. cbn [polls_task].
  rewrite flat_tbind, (bind_ext _ _ _ _ (flat_poll _)). unfold run_session. cbn [replicate for_each run_act].
  apply bind_cong. intros [] w1. apply IH.
Qed.

(** ** Preemption *)

Definition interrupts (n : nat) : M unit := for_each (seq 0 n) tt (fun _ _ => handle_irq fuel).

(** [sched] says how many interrupts are taken before each action; what is left
    of it is returned. *)
Fixpoint preempted {A} (t : task A) (sched : list nat) : M (A * list nat) :=
  match t with
  | Return a => ret (a, sched)
  | Act c k => interrupts (default 0%nat (head sched)) ;; b <- c ;; preempted (k b) (tail sched)
  end.

(** Without interrupts it is the code as it stands. *)
Lemma preempted_nil {A} (t : task A) w : preempted t [] w = (a <- flat t ;; ret (a, [])) w.
Proof.
  revert w. induction t as [a | B c k IH]; intros w; [done |]. cbn [preempted flat head tail default].
  rewrite bind_bind. rewrite (bind_done (interrupts 0) _ w tt w eq_refl).
  apply bind_cong. intros b w1. apply IH.
Qed.

(** ** What happened, as a history *)

(** An interrupt with its id (and the byte received, if it is the UART's), an
    attempt of the main loop to take a byte, a byte it sent. *)
Inductive beat := Interrupt (id byte : Z) | Take (r : option Z) | Send (c : Z).

Definition beat_ids (b : beat) : list Z := match b with Interrupt id _ => [id] | _ => [] end.
Definition beat_received (b : beat) : list Z :=
  match b with Interrupt id byte => if id =? 33 then [byte] else [] | _ => [] end.
Definition beat_text (b : beat) : list Z :=
  match b with
  | Interrupt id _ => if id =? 33 then [] else bytes_of (irq_line id)
  | Take _ => []
  | Send c => [c]
  end.
Definition beat_task (b : beat) : list beat := match b with Interrupt _ _ => [] | _ => [b] end.

(** The bounded queue that interrupts fill and the main loop empties; [None] if
    the history takes what is not there. *)
Fixpoint replay (h : list beat) (q : list Z) : option (list Z) :=
  match h with
  | [] => Some q
  | Interrupt id byte :: h => replay h (if id =? 33 then snd (Fifo.push byte q) else q)
  | Take r :: h => if decide (r = fst (Fifo.pop q)) then replay h (snd (Fifo.pop q)) else None
  | Send _ :: h => replay h q
  end.

(** The beats of an iteration of the main loop, by what it takes. *)
Definition round (r : option Z) : list beat :=
  Take r :: match r with Some c => Send <$> bytes_of (typed_line c) | None => [] end.

Definition shows (o : observed) (h : list beat) : Prop :=
  ids o = h ≫= beat_ids /\ eois o = h ≫= beat_ids /\ received o = h ≫= beat_received /\
  sent o = h ≫= beat_text /\
  length (freqs o) = occurrences 30 (h ≫= beat_ids) /\ rearmed o = wrap U32 <$> freqs o.

Definition queue w : list Z := contents (Mutex.data (w_rx w)).

Definition went w w' (h : list beat) : Prop :=
  exists o, did fuel w w' o (queue w') /\ shows o h /\ replay h (queue w) = Some (queue w').

Lemma shows_join o1 o2 h1 h2 : shows o1 h1 -> shows o2 h2 -> shows (join o1 o2) (h1 ++ h2).
Proof.
  intros (I1 & E1 & R1 & S1 & F1 & A1) (I2 & E2 & R2 & S2 & F2 & A2). unfold shows, join.
  cbn [ids eois received freqs rearmed sent]. rewrite !bind_app, occurrences_app, length_app, fmap_app.
  split; [congruence |]. split; [congruence |]. split; [congruence |]. split; [congruence |].
  split; [congruence | congruence].
Qed.

Lemma replay_app h1 h2 q : replay (h1 ++ h2) q = replay h1 q ≫= replay h2.
Proof.
  revert q. induction h1 as [| [id b | r | c] h1 IH]; intros q; cbn [replay app]; try apply IH; [done |].
  case_decide; [apply IH | done].
Qed.

Lemma went_trans w1 w2 w3 h1 h2 : went w1 w2 h1 -> went w2 w3 h2 -> went w1 w3 (h1 ++ h2).
Proof.
  intros (o1 & D1 & S1 & Q1) (o2 & D2 & S2 & Q2). exists (join o1 o2).
  split; [by eapply did_trans |]. split; [by apply shows_join |]. by rewrite replay_app, Q1.
Qed.

Lemma went_refl w : session_ok fuel w -> went w w [].
Proof.
  intros Hok. exists no_io. split; [| done]. exists []. by rewrite app_nil_r.
Qed.

Lemma went_base w w' h : went w w' h -> w_uart w' = w_uart w /\ session_ok fuel w'.
Proof. intros (o & (t & _ & _ & _ & (_ & _ & _ & Eu) & Hok) & _). done. Qed.

(** An access that shows nothing. *)
Lemma went_silent w w' e :
  same_kernel w w' -> w_trace w' = w_trace w ++ [e] -> session_ok fuel w ->
  observe_event (UartState.base_addr (w_uart w)) e = no_io -> went w w' [].
Proof.
  intros Hs Ht Hok He. pose proof (did_log fuel w w' e _ Hs Ht Hok eq_refl) as D. rewrite He in D.
  pose proof Hs as (_ & _ & _ & _ & Ex). exists no_io. unfold queue. rewrite Ex. by split.
Qed.

Lemma exec_interrupts n w :
  session_ok fuel w ->
  exists w' h, interrupts n w = Done tt w' /\ went w w' h /\ length (h ≫= beat_ids) = n /\ h ≫= beat_task = [].
Proof.
  unfold interrupts. generalize 0%nat as k. revert w. induction n as [| n IH]; intros w k Hok.
  { exists w, []. split; [done |]. split; [by apply went_refl | done]. }
  destruct (exec_handle_irq fuel w Hok) as (w1 & id & o & q' & E & D & (Hi & He & Hr & Hf & Hio)).
  pose proof D as (_ & _ & _ & Hq & _ & Hok1).
  assert (exists b, went w w1 [Interrupt id b]) as [b W].
  { destruct (Z.eqb_spec id 33) as [-> | Hne].
    - destruct Hio as (b & Hrec & Hs & Hq'). exists b, o. unfold queue. rewrite Hq.
      split; [done |]. split; [by repeat split | cbn; by rewrite Hq'].
    - destruct Hio as (Hrec & Hs & Hq'). exists 0, o. unfold queue. rewrite Hq.
      apply Z.eqb_neq in Hne. split; [done |]. unfold shows. cbn [mbind list_bind]. rewrite !app_nil_r.
      cbn [beat_ids beat_received beat_text replay]. rewrite Hne. split; [auto 10 | by rewrite Hq']. }
  destruct (IH w1 (S k) Hok1) as (w2 & h & E2 & W2 & Hn & Ht).
  exists w2, (Interrupt id b :: h). cbn [seq for_each]. rewrite (bind_done _ _ _ _ _ E).
  split; [done |]. split; [by apply (went_trans _ _ _ [Interrupt id b] h W W2) |]. cbn. by rewrite Hn, Ht.
Qed.

(** ** Tasks under preemption *)

Context (N : nat) (base : Z) (Hdrains : tx_drains N base).

Definition ready w : Prop := session_ok fuel w /\ UartState.base_addr (w_uart w) = base.

Lemma went_ready w w' h : ready w -> went w w' h -> ready w'.
Proof. intros [_ Hb] (Eu & Hok)%went_base. split; [done | by rewrite Eu]. Qed.

(** From a ready world, with fuel for [N] polls and [N] more after each
    interrupt still to come, the task returns and [R] holds of its result and
    its own beats. *)
Definition behaves {A} (t : task A) (R : A -> list beat -> Prop) : Prop :=
  forall sched w, ready w -> (N * S (sum_list sched) <= fuel)%nat ->
  exists a sched' w' h, preempted t sched w = Done (a, sched') w' /\ went w w' h /\
    (length (h ≫= beat_ids) + sum_list sched' = sum_list sched)%nat /\ R a (h ≫= beat_task).

(** An action on its own. *)
Definition acts_as {B} (c : M B) (R : B -> list beat -> Prop) : Prop :=
  forall w, ready w -> exists b w' h, c w = Done b w' /\ went w w' h /\ h ≫= beat_ids = [] /\ R b (h ≫= beat_task).

Lemma behaves_return {A} (a : A) (R : A -> list beat -> Prop) : R a [] -> behaves (Return a) R.
Proof.
  intros Ha sched w [Hok _] _. exists a, sched, w, []. split; [done |]. split; [by apply went_refl | done].
Qed.

Lemma sum_sched sched : sum_list sched = (default 0 (head sched) + sum_list (tail sched))%nat.
Proof. by destruct sched. Qed.

Lemma behaves_act {A B} (c : M B) (k : B -> task A) R Q :
  acts_as c R -> (forall b bs, R b bs -> behaves (k b) (fun a bs' => Q a (bs ++ bs'))) -> behaves (Act c k) Q.
Proof.
  intros Hc Hk sched w Hw Hf. pose proof (sum_sched sched) as Hsum. cbn [preempted].
  destruct (exec_interrupts (default 0%nat (head sched)) w (proj1 Hw)) as (w1 & h1 & E1 & W1 & Hn & Ht).
  destruct (Hc w1 (went_ready _ _ _ Hw W1)) as (b & w2 & h2 & E2 & W2 & Hi2 & HR).
  pose proof (went_trans _ _ _ _ _ W1 W2) as W12.
  destruct (Hk b _ HR (tail sched) w2 (went_ready _ _ _ Hw W12) ltac:(nia)) as (a & sched' & w3 & h3 & E3 & W3 & Hn3 & HQ).
  exists a, sched', w3, ((h1 ++ h2) ++ h3).
  rewrite (bind_done _ _ _ _ _ E1), (bind_done _ _ _ _ _ E2). split; [done |].
  split; [by eapply went_trans |]. rewrite !bind_app, Hi2, app_nil_r, length_app, Ht. split; [lia | exact HQ].
Qed.

Lemma preempted_tbind {A B} (t : task A) (k : A -> task B) sched w :
  preempted (tbind t k) sched w = (r <- preempted t sched ;; preempted (k (fst r)) (snd r)) w.
Proof.
  revert sched w. induction t as [a | B' c k' IH]; intros sched w; [done |]. cbn [preempted tbind].
  rewrite bind_bind. apply bind_cong. intros _ w1. rewrite bind_bind. apply bind_cong. intros b w2. apply IH.
Qed.

Lemma behaves_tbind {A B} (t : task A) (k : A -> task B) R Q :
  behaves t R -> (forall a bs, R a bs -> behaves (k a) (fun b bs' => Q b (bs ++ bs'))) -> behaves (tbind t k) Q.
Proof.
  intros Ht Hk sched w Hw Hf. rewrite preempted_tbind.
  destruct (Ht sched w Hw Hf) as (a & s1 & w1 & h1 & E1 & W1 & Hn1 & HR).
  destruct (Hk a _ HR s1 w1 (went_ready _ _ _ Hw W1) ltac:(nia)) as (b & s2 & w2 & h2 & E2 & W2 & Hn2 & HQ).
  exists b, s2, w2, (h1 ++ h2). rewrite (bind_done _ _ _ _ _ E1). split; [done |].
  split; [by eapply went_trans |]. rewrite !bind_app, length_app. split; [lia | exact HQ].
Qed.

Lemma behaves_weaken {A} (t : task A) (R Q : A -> list beat -> Prop) :
  behaves t R -> (forall a bs, R a bs -> Q a bs) -> behaves t Q.
Proof.
  intros Ht HQ sched w Hw Hf. destruct (Ht sched w Hw Hf) as (a & s & w' & h & E & W & Hn & HR). eauto 10.
Qed.

(** ** The actions of the main loop *)

Lemma acts_silently {B} (c : M B) (f : world -> B) (e : world -> event) (w' : world -> world) :
  (forall w, ready w -> c w = Done (f w) (w' w) /\ same_kernel w (w' w) /\
     w_trace (w' w) = w_trace w ++ [e w] /\ observe_event base (e w) = no_io) ->
  acts_as c (fun _ bs => bs = []).
Proof.
  intros H w Hw. destruct (H w Hw) as (E & Hs & Ht & He). pose proof Hw as [Hok Hb].
  exists (f w), (w' w), []. split; [done |]. split; [| done]. rewrite <- Hb in He. by eapply went_silent.
Qed.

Lemma ready_frame w : ready w -> frame_ok base UART_SIZE.
Proof. by intros [(Hf & _) <-]. Qed.

Lemma acts_UART : acts_as UART (fun u bs => console_base u = base /\ bs = []).
Proof.
  intros w Hw. pose proof Hw as [Hok Hb]. exists (w_uart w), w, [].
  split; [done |]. split; [by apply went_refl |]. split; [done |]. split; [| done].
  by rewrite (session_console fuel w Hok).
Qed.

Lemma acts_write c : acts_as (write_mmio32 base DR_OFF c) (fun _ bs => bs = [Send c]).
Proof.
  intros w Hw. pose proof Hw as [Hok Hb]. pose proof (ready_frame w Hw) as Hf.
  exists tt, (after_write (base + DR_OFF) c w), [Send c].
  split; [apply exec_write_mmio32; uart_side |]. split; [| done].
  exists (mkObserved [] [] [] [] [] [c]). split; [| done].
  pose proof (did_log fuel w (after_write (base + DR_OFF) c w) (Write32 (base + DR_OFF) c) _ ltac:(done) eq_refl Hok eq_refl) as D.
  rewrite Hb in D. cbn [observe_event] in D. by rewrite Z.eqb_refl in D.
Qed.

Lemma acts_mrs_daif : acts_as (mrs DAIF) (fun _ bs => bs = []).
Proof.
  apply (acts_silently _ (peek_reg DAIF) (fun w => Mrs DAIF (peek_reg DAIF w)) (after_mrs DAIF)).
  by intros w _.
Qed.

(** The world between masking and unmasking. *)
Definition masked w : world := log (DaifSet 2) (set_hw (hw_daifset 2 (w_hw w)) w).

Lemma acts_masked_pop daif : acts_as (masked_pop daif) (fun r bs => bs = [Take r]).
Proof.
  intros w Hw. pose proof Hw as [Hok Hb]. pose proof Hok as (Hf & Hd & Hl & Hwf).
  destruct (session_fuel fuel w Hok) as [k Hk].
  destruct (exec_pop_fifo (Mutex.data (w_rx w)) (acquired RX_BUFFER (masked w)) Hwf) as (rx' & E & Hc & Hwf').
  set (r := fst (Fifo.pop (queue w))). set (w1 := released RX_BUFFER rx' (acquired RX_BUFFER (masked w))).
  assert (lock fuel RX_BUFFER pop (masked w) = Done r w1) as El
    by (rewrite Hk; by apply (exec_lock k (m := RX_BUFFER) pop (masked w))).
  exists r, (after_msr DAIF daif w1), [Take r]. split; [| split; [| done]].
  { unfold masked_pop. rewrite (bind_done _ _ w tt (masked w) eq_refl), (bind_done _ _ _ _ _ El). done. }
  exists no_io. split; [| split; [done |]].
  - exists [DaifSet 2; Msr DAIF daif]. split; [cbn; by rewrite <- !app_assoc |].
    do 3 (split; [done |]). exact (conj Hf (conj Hd (conj eq_refl Hwf'))).
  - cbn [replay]. rewrite decide_True by done. f_equal. symmetry. exact Hc.
Qed.

(** *** Traces with handlers in between *)

(** A trace of the task's own events with whole runs of the handler in between;
    the history has the interrupts. *)
Inductive woven : list event -> list event -> list beat -> Prop :=
  | woven_nil : woven [] [] []
  | woven_own t own h e : woven t own h -> woven (t ++ [e]) (own ++ [e]) h
  | woven_handlers t own h t' h' :
      woven t own h -> shows (observe base t') h' -> h' ≫= beat_task = [] -> woven (t ++ t') own (h ++ h').

Lemma woven_app t1 o1 h1 t2 o2 h2 : woven t1 o1 h1 -> woven t2 o2 h2 -> woven (t1 ++ t2) (o1 ++ o2) (h1 ++ h2).
Proof.
  intros H1. induction 1 as [| t own h e _ IH | t own h t' h' _ IH Hs Ht]; rewrite ?app_nil_r, ?app_assoc;
    [done | by apply woven_own | by apply woven_handlers].
Qed.

Lemma woven_event e : woven [e] [e] [].
Proof. apply (woven_own [] [] [] e woven_nil). Qed.

Lemma woven_interrupts t own h : woven t own h -> h ≫= beat_task = [].
Proof. induction 1 as [| | t own h t' h' _ IH Hs Ht]; [done | done |]. by rewrite bind_app, IH, Ht. Qed.

(** If the own events show nothing, all there is to see are the interrupts. *)
Lemma woven_silent t own h :
  woven t own h -> Forall (fun e => observe_event base e = no_io) own -> shows (observe base t) h.
Proof.
  induction 1 as [| t own h e _ IH | t own h t' h' _ IH Hs Ht]; intros Ho; [done | |]; rewrite observe_app.
  - rewrite Forall_app, Forall_singleton in Ho. destruct Ho as [Ho He]. cbn [observe foldr].
    rewrite He, !join_no_io_r. by apply IH.
  - apply shows_join; [by apply IH | done].
Qed.

(** From [w] to [w'] the task made the accesses [own], interrupted by [h];
    memory is not spoken of. *)
Definition passes w w' (own : list event) (h : list beat) : Prop :=
  exists t, w_trace w' = w_trace w ++ t /\ woven t own h /\ replay h (queue w) = Some (queue w') /\
    (w_dtb w' = w_dtb w /\ w_gic w' = w_gic w /\ w_uart w' = w_uart w) /\ session_ok fuel w'.

Lemma passes_trans w1 w2 w3 o1 o2 h1 h2 : passes w1 w2 o1 h1 -> passes w2 w3 o2 h2 -> passes w1 w3 (o1 ++ o2) (h1 ++ h2).
Proof.
  intros (t1 & T1 & V1 & Q1 & (D1 & G1 & U1) & _) (t2 & T2 & V2 & Q2 & (D2 & G2 & U2) & Hok). exists (t1 ++ t2).
  split; [by rewrite T2, T1, app_assoc |]. split; [by apply woven_app |].
  split; [by rewrite replay_app, Q1 |]. split; [| done]. by rewrite D2, D1, G2, G1, U2, U1.
Qed.

Lemma passes_refl w : session_ok fuel w -> passes w w [] [].
Proof. intros Hok. exists []. rewrite app_nil_r. split; [done |]. split; [constructor | done]. Qed.

Lemma passes_ready w w' own h : ready w -> passes w w' own h -> ready w'.
Proof. intros [_ Hb] (t & _ & _ & _ & (_ & _ & Eu) & Hok). split; [done | by rewrite Eu]. Qed.

(** Interrupts pass. *)
Lemma went_passes w w' h : ready w -> went w w' h -> h ≫= beat_task = [] -> passes w w' [] h /\ w_ram w' = w_ram w.
Proof.
  intros [_ Hb] (o & (t & Ht & Ho & _ & (Er & Ed & Eg & Eu) & Hok) & Hs & Hq) Hh. split; [| done]. exists t.
  split; [done |]. split; [| done]. rewrite Hb in Ho. apply (woven_handlers [] [] [] t h woven_nil); [by rewrite Ho | done].
Qed.

Lemma passes_went w w' own h :
  ready w -> passes w w' own h -> w_ram w' = w_ram w -> Forall (fun e => observe_event base e = no_io) own -> went w w' h.
Proof.
  intros [_ Hb] (t & Ht & Hv & Hq & (Ed & Eg & Eu) & Hok) Er Ho. exists (observe base t).
  split; [| split; [by eapply woven_silent | done]]. exists t. rewrite Hb. split; [done |]. split; [done |].
  split; [done |]. split; [| done]. done.
Qed.

(** One access of the task. *)
Lemma passes_event w w' e :
  w_dtb w' = w_dtb w /\ w_gic w' = w_gic w /\ w_uart w' = w_uart w /\ w_rx w' = w_rx w ->
  w_trace w' = w_trace w ++ [e] -> session_ok fuel w -> passes w w' [e] [].
Proof.
  intros (Ed & Eg & Eu & Ex) Ht Hok. exists [e]. split; [done |]. split; [apply woven_event |].
  unfold queue, session_ok in *. rewrite Ex, Eu. done.
Qed.

(** Interrupts before an action. *)
Lemma exec_interrupts_pass n w :
  ready w ->
  exists w' h, interrupts n w = Done tt w' /\ passes w w' [] h /\ w_ram w' = w_ram w /\
    length (h ≫= beat_ids) = n /\ ready w'.
Proof.
  intros Hw. destruct (exec_interrupts n w (proj1 Hw)) as (w' & h & E & W & Hn & Ht).
  destruct (went_passes w w' h Hw W Ht) as [Hp Hr]. exists w', h. split; [done |].
  split; [done |]. split; [done |]. split; [done | by eapply passes_ready].
Qed.

(** A wait is delayed by what interrupts send, not for ever; it only reads. *)
Lemma exec_wait k : forall sched w n,
  ready w -> busy_for (base + FR_OFF) FR_TXFE n w -> (n < N)%nat -> (n + N * sum_list sched < k)%nat ->
  exists sched' w' own h, preempted (wait k (poll_bit base FR_OFF FR_TXFE)) sched w = Done (tt, sched') w' /\
    passes w w' own h /\ w_ram w' = w_ram w /\ (length (h ≫= beat_ids) + sum_list sched' = sum_list sched)%nat /\
    Forall (fun e => exists v, e = Read32 (base + FR_OFF) v) own.
Proof.
  induction k as [| k IH]; intros sched w n Hw Hbusy Hn Hk; [lia |]. cbn [wait preempted].
  pose proof (sum_sched sched) as Hsum. set (m := default 0%nat (head sched)) in *.
  destruct (exec_interrupts_pass m w Hw) as (w1 & h1 & E1 & W1 & Er1 & Hn1 & Hw1).
  pose proof (ready_frame w1 Hw1) as Hf.
  assert (exists n1, busy_for (base + FR_OFF) FR_TXFE n1 w1 /\ n1 < N /\ n1 + N * sum_list (tail sched) < S k)%nat
    as (n1 & Hbusy1 & Hn1' & Hk1).
  { clearbody m. destruct m as [| m'].
    - injection E1 as <-. exists n. split; [done |]. split; [done | lia].
    - destruct (Hdrains w1) as (n1 & Hlt & Hb1). exists n1. split; [done |]. split; [done | nia]. }
  rewrite (bind_done _ _ _ _ _ E1), (bind_done _ _ _ _ _ (exec_poll_bit base FR_OFF FR_TXFE w1 ltac:(uart_side))).
  set (w2 := after_read (base + FR_OFF) w1). set (e := Read32 (base + FR_OFF) (peek32 (base + FR_OFF) w1)).
  assert (passes w1 w2 [e] []) as W2 by (by apply passes_event; [| | apply Hw1]).
  pose proof (passes_trans _ _ _ _ _ _ _ W1 W2) as W12. rewrite app_nil_r in W12. cbn [app] in W12.
  destruct n1 as [| n1]; destruct Hbusy1 as [Hbusy1 Hready1].
  - cbn in Hready1. rewrite Hready1. cbn [Z.eqb negb preempted]. exists (tail sched), w2, [e], h1.
    split; [done |]. split; [done |]. split; [exact Er1 |]. split; [lia |]. apply Forall_singleton. by eexists.
  - pose proof (Hbusy1 0%nat ltac:(lia)) as H0. cbn in H0. rewrite (proj2 (Z.eqb_neq _ 0) H0). cbn [negb].
    destruct (IH (tail sched) w2 n1) as (sched' & w3 & own & h3 & E3 & W3 & Er3 & Hn3 & Ho3).
    + by eapply passes_ready.
    + split; [| by unfold w2; rewrite <- after_reads_S].
      intros j Hj. unfold w2. rewrite <- after_reads_S. apply Hbusy1. lia.
    + lia.
    + lia.
    + exists sched', w3, (e :: own), (h1 ++ h3). split; [exact E3 |].
      split; [exact (passes_trans _ _ _ _ _ _ _ W12 W3) |]. split; [rewrite Er3; exact Er1 |].
      rewrite bind_app, length_app. split; [lia |]. apply Forall_cons. split; [by eexists | done].
Qed.

(** With the fuel of the kernel. *)
Lemma exec_wait_ready sched w :
  ready w -> (N * S (sum_list sched) <= fuel)%nat ->
  exists sched' w' own h, preempted (wait fuel (poll_bit base FR_OFF FR_TXFE)) sched w = Done (tt, sched') w' /\
    passes w w' own h /\ w_ram w' = w_ram w /\ (length (h ≫= beat_ids) + sum_list sched' = sum_list sched)%nat /\
    Forall (fun e => exists v, e = Read32 (base + FR_OFF) v) own.
Proof.
  intros Hw Hf. destruct (Hdrains w) as (n & Hn & Hb). apply (exec_wait fuel sched w n Hw Hb Hn). nia.
Qed.

Lemma behaves_wait : behaves (wait fuel (poll_bit base FR_OFF FR_TXFE)) (fun _ bs => bs = []).
Proof.
  intros sched w Hw Hf. destruct (exec_wait_ready sched w Hw Hf) as (s' & w' & own & h & E & W & Er & Hl & Ho).
  pose proof W as (t & _ & Hv & _). exists tt, s', w', h. split; [done |].
  split; [| split; [done | by eapply woven_interrupts]]. eapply passes_went; [done | exact W | done |].
  eapply Forall_impl; [exact Ho |]. intros e [v ->]. cbn [observe_event]. unfold FR_OFF, DR_OFF.
  by rewrite (proj2 (Z.eqb_neq (base + 24) (base + 0))) by lia.
Qed.

Lemma behaves_putchar c : behaves (putchar_task c) (fun _ bs => bs = [Send c]).
Proof.
  apply (behaves_act _ _ _ _ acts_UART). intros u bs [Hu ->]. cbv zeta. rewrite Hu.
  apply (behaves_tbind _ _ _ _ behaves_wait). intros [] bs ->.
  apply (behaves_act _ _ _ _ (acts_write c)). intros [] bs ->. by apply behaves_return.
Qed.

Lemma behaves_write cs : behaves (write_task cs) (fun _ bs => bs = Send <$> cs).
Proof.
  induction cs as [| c cs IH]; [by apply behaves_return |].
  apply (behaves_tbind _ _ _ _ (behaves_putchar c)). intros [] bs ->.
  eapply behaves_weaken; [exact IH |]. by intros [] bs ->.
Qed.

Lemma behaves_poll : behaves poll_task (fun _ bs => exists r, bs = round r).
Proof.
  apply (behaves_tbind _ _ (fun r bs => bs = [Take r])).
  - apply (behaves_act _ _ _ _ acts_mrs_daif). intros daif bs ->.
    apply (behaves_act _ _ _ _ (acts_masked_pop daif)). intros r bs ->. by apply behaves_return.
  - intros [c |] bs ->.
    + eapply behaves_weaken; [apply behaves_write |]. intros [] bs ->. by exists (Some c).
    + apply behaves_return. by exists None.
Qed.

Lemma behaves_polls n : behaves (polls_task n) (fun _ bs => exists rs, length rs = n /\ bs = rs ≫= round).
Proof.
  induction n as [| n IH]; [apply behaves_return; by exists [] |].
  apply (behaves_tbind _ _ _ _ behaves_poll). intros [] bs [r ->].
  eapply behaves_weaken; [exact IH |]. intros [] bs (rs & Hl & ->). exists (r :: rs). cbn. by rewrite Hl.
Qed.
End kernel.

(** C7: the main loop interrupted anywhere.  For every schedule of interrupts,
    between any two polls, accesses or calls of [n] iterations, with fuel for [N]
    polls and [N] more per interrupt, on a transmitter that always drains within
    [N] polls: the iterations end, and what can be seen is a history in which
    each interrupt of the schedule is read and acknowledged once; UART
    interrupts push their byte into the bounded queue and the iterations take
    from its front; each byte taken is echoed in full, in order, as one line
    into which interrupts may put their own, always whole, lines; and each timer
    interrupt rearms.  Driver state, tables and memory are untouched.  With no
    interrupts the task is the code's loop. *)
Theorem preempted_loop_serves {HW : Hardware} fuel N n sched (w : world) :
  session_ok fuel w -> tx_drains N (UartState.base_addr (w_uart w)) ->
  (N * S (sum_list sched) <= fuel)%nat ->
  (exists sched' w' t h rs,
    preempted fuel (polls_task fuel n) sched w = Done (tt, sched') w' /\ w_trace w' = w_trace w ++ t /\
    shows (observe (UartState.base_addr (w_uart w)) t) h /\
    (length (h ≫= beat_ids) + sum_list sched' = sum_list sched)%nat /\
    replay h (queue w) = Some (queue w') /\
    length rs = n /\ h ≫= beat_task = rs ≫= round /\
    same_but_rx w w' /\ session_ok fuel w') /\
  (forall w, preempted fuel (polls_task fuel n) [] w =
     (_ <- run_session fuel (replicate n Poll) ;; ret (tt, [])) w).
Proof.
  intros Hok Hd Hf. split.
  - destruct (behaves_polls fuel N _ Hd n sched w (conj Hok eq_refl) Hf)
      as ([] & sched' & w' & h & E & (o & (t & Ht & Ho & _ & Hs & Hok') & Hsh & Hq) & Hn & rs & Hl & Hb).
    exists sched', w', t, h, rs. rewrite Ho. auto 10.
  - intros w1. rewrite preempted_nil, (bind_ext _ _ _ _ (flat_polls fuel n w1)).
    apply bind_cong. by intros [] w2.
Qed.

(** ** A byte lost between the poll and the write *)

(** The PL011's transmit FIFO: 16 bytes; a full one drains by a byte whenever
    it is found full; what is written into a full one is lost.  The interrupt
    presented is always the timer's. *)
Record tx_fifo := mkTxFifo { fill : nat; lost : list Z }.

Definition TX_DEPTH : nat := 16.

Definition tx_read (a : Z) (h : tx_fifo) : Z * tx_fifo :=
  if (a =? EARLY_BASE + FR_OFF) && (TX_DEPTH <=? fill h)%nat
  then (FR_TXFE, mkTxFifo (TX_DEPTH - 1) (lost h)) else (0, h).

Definition tx_write (a v : Z) (h : tx_fifo) : tx_fifo :=
  if a =? EARLY_BASE + DR_OFF
  then if (fill h <? TX_DEPTH)%nat then mkTxFifo (S (fill h)) (lost h) else mkTxFifo (fill h) (lost h ++ [v])
  else h.

Definition slow_uart : Hardware := {|
  hw_state := tx_fifo;
  hw_read32 := tx_read;
  hw_write32 := tx_write;
  hw_write64 _ _ h := h;
  hw_mrs r h := (match r with ICC_IAR1_EL1 => 30 | _ => 0 end, h);
  hw_msr _ _ h := h;
  hw_daifset _ h := h;
|}.

Definition slow_world : @world slow_uart := @boot_world slow_uart (mkTxFifo 0 []) ∅.

Section slow.
#[local] Existing Instance slow_uart.

Lemma slow_flag f l : tx_read (EARLY_BASE + FR_OFF) (mkTxFifo f l) =
  if (TX_DEPTH <=? f)%nat then (FR_TXFE, mkTxFifo (TX_DEPTH - 1) l) else (0, mkTxFifo f l).
Proof. reflexivity. Qed.

Lemma slow_data c f l : tx_write (EARLY_BASE + DR_OFF) c (mkTxFifo f l) =
  if (f <? TX_DEPTH)%nat then mkTxFifo (S f) l else mkTxFifo f (l ++ [c]).
Proof. reflexivity. Qed.

(** At most two polls find room, and the byte goes into it. *)
Lemma slow_putchar c (w : world) :
  w_uart w = UartState.new ->
  exists w', putchar 2 c w = Done tt w' /\ w_uart w' = UartState.new /\ lost (w_hw w') = lost (w_hw w).
Proof.
  intros Hu. assert (console_base (w_uart w) = EARLY_BASE) as Hb by (by rewrite Hu).
  assert (exists n, (n < 2)%nat /\ busy_for (EARLY_BASE + FR_OFF) FR_TXFE n w /\
    lost (w_hw (Pl011.sent n EARLY_BASE c w)) = lost (w_hw w)) as (n & Hn & Hbusy & Hlost).
  { destruct w as [[f l] ram tr dtb gic u rx]. unfold busy_for, Pl011.sent, after_reads, peek32.
    destruct (TX_DEPTH <=? f)%nat eqn:Hf.
    - exists 1%nat. cbn -[tx_read tx_write Z.add TX_DEPTH]. rewrite !slow_flag, Hf.
      cbn -[tx_read tx_write Z.add]. split; [lia |]. split; [| done].
      split; [| done]. intros [| k] Hk; [| lia]. cbn -[tx_read Z.add]. rewrite slow_flag, Hf. discriminate.
    - exists 0%nat. cbn -[tx_read tx_write Z.add TX_DEPTH]. rewrite !slow_flag, Hf.
      cbn -[tx_read tx_write Z.add TX_DEPTH]. rewrite slow_data, Nat.ltb_antisym, Hf.
      split; [lia |]. split; [split; [lia | done] | done]. }
  pose proof (sent_same n EARLY_BASE c w) as (_ & _ & _ & Eu & _).
  exists (Pl011.sent n EARLY_BASE c w). rewrite Eu. split; [| done].
  rewrite <- Hb in *. apply exec_putchar; [by rewrite Hu; apply console_ok_early | done | done].
Qed.

Lemma slow_write bs : forall w : world,
  w_uart w = UartState.new ->
  exists w', write_bytes 2 bs w = Done tt w' /\ lost (w_hw w') = lost (w_hw w).
Proof.
  induction bs as [| c bs IH]; intros w Hu; [by exists w |]. cbn [write_bytes].
  destruct (slow_putchar c w Hu) as (w1 & E1 & Hu1 & Hl1). destruct (IH w1 Hu1) as (w2 & E2 & Hl2).
  exists w2. rewrite (bind_done _ _ _ _ _ E1). split; [exact E2 | congruence].
Qed.
End slow.

(** C37: [putchar] polls for room and then writes, with interrupts enabled in
    between.  On a UART with a FIFO of 16 bytes a text of any length printed on
    its own arrives complete, but when the timer interrupt comes between the
    poll and the write, the line it prints fills the FIFO, and the byte is
    written although there is no room, and lost. *)
Theorem putchar_race :
  (forall s, exists w', @print slow_uart 2 s slow_world = Done tt w' /\ lost (@w_hw slow_uart w') = []) /\
  (exists w', @preempted slow_uart 2 unit (@putchar_task slow_uart 2 65) [0; 0; 1]%nat slow_world = Done (tt, []) w' /\
     lost (@w_hw slow_uart w') = [65]).
Proof.
  split.
  - intros s. destruct (slow_write (bytes_of s) slow_world eq_refl) as (w' & E & Hl). by exists w'.
  - eexists. split; [vm_compute; reflexivity | reflexivity].
Qed.
