(* ===== verification/Terminates.v ===== *)
(** * What can hang the kernel

    The drivers, the page tables and the running kernel under [Ends]: whatever
    the blob contains, the only endless loops are the main loop itself and the
    waits for a device that keeps answering "busy". *)

From S2P Require Export Demo Ends Session.

Local Open Scope Z_scope.
Local Open Scope kernel_scope.

(** The status bits that the code waits for: ChildrenAsleep of the redistributor,
    BUSY of the UART while it is configured, its "transmit FIFO full" when a
    character is printed (on the early console until the UART is set up). *)
Inductive status_bit {HW : Hardware} (w : world) : Z -> Z -> Prop :=
  | redistributor_asleep :
      status_bit w (GicState.redist_addr (w_gic w) + GICR_WAKER) GICR_WAKER_CASLEEP
  | uart_busy : status_bit w (UartState.base_addr (w_uart w) + FR_OFF) FR_BUSY
  | uart_full : status_bit w (console_base (w_uart w) + FR_OFF) FR_TXFE.

(** The last [n] accesses are polls of one of them, all answered "busy". *)
Definition busy_waiting {HW : Hardware} (n : nat) (w : world) : Prop :=
  exists a mask vs before, status_bit w a mask /\
    w_trace w = before ++ (Read32 a <$> vs) /\ length vs = n /\
    Forall (fun v => Z.land v mask <> 0) vs.

Section drivers.
Context {HW : Hardware} (fuel : nat).
Context (Hfuel : (DtbTables.MAX_DEVICES <= fuel)%nat).
Let W := busy_waiting fuel.

Lemma fuel_positive : (0 < fuel)%nat.
Proof. unfold DtbTables.MAX_DEVICES in Hfuel. lia. Qed.

Lemma status_bit_kernel w w' a mask : same_kernel w w' -> status_bit w a mask -> status_bit w' a mask.
Proof. intros (_ & _ & Eg & Eu & _) H. destruct H; rewrite <- ?Eg, <- ?Eu; constructor. Qed.

(** A wait for a status bit of the device that the statics name. *)
Lemma ends_status I `{!Kept I} base off mask :
  (forall w, I w -> status_bit w (base + off) mask) ->
  Ends W I (spin_while fuel (poll_bit base off mask)).
Proof.
  intros Hst. apply ends_poll; [done | apply fuel_positive |].
  intros w vs w' Hw _ Hs Hl Hb Htr. exists (base + off), mask, vs, (w_trace w).
  split; [| done]. eapply status_bit_kernel; [exact Hs | by apply Hst].
Qed.

Section waits.
Context (I : world -> Prop) `{!Kept I}.

#[local] Instance ends_asleep g :
  Ends W (pinned I w_gic g)
    (spin_while fuel (poll_bit (GicState.redist_addr g) GICR_WAKER GICR_WAKER_CASLEEP)).
Proof. apply ends_status; [apply _ |]. intros w [_ <-]. constructor. Qed.

#[local] Instance ends_busy u :
  Ends W (pinned I w_uart u) (spin_while fuel (poll_bit (UartState.base_addr u) FR_OFF FR_BUSY)).
Proof. apply ends_status; [apply _ |]. intros w [_ <-]. constructor. Qed.

#[local] Instance ends_full u :
  Ends W (pinned I w_uart u) (spin_while fuel (poll_bit (console_base u) FR_OFF FR_TXFE)).
Proof. apply ends_status; [apply _ |]. intros w [_ <-]. constructor. Qed.

Lemma ends_redistributor g : Ends W (pinned I w_gic g) (init_gic_redistributor fuel g).
Proof. unfold init_gic_redistributor. ends_unfold children_asleep. Qed.

Lemma ends_configure u : Ends W (pinned I w_uart u) (configure fuel u).
Proof. unfold configure, set_speed. ends_unfold lcr_value. Qed.

Lemma ends_uart_putchar u c : Ends W (pinned I w_uart u) (UartPl011_putchar fuel u c).
Proof. ends_unfold UartPl011_putchar. Qed.
End waits.

Section any.
Context (I : world -> Prop) `{!Stable I}.

(** ** The interrupt controller *)

Lemma ends_GIC : Ends W I GIC.
Proof. ends_unfold GIC. Qed.
#[local] Existing Instance ends_GIC.

#[export] Instance ends_set_spi_priority id prio : Ends W I (set_spi_priority id prio).
Proof. unfold set_spi_priority. ends_unfold Gicv3_set_spi_priority. Qed.

#[export] Instance ends_set_spi_trigger_edge id : Ends W I (set_spi_trigger_edge id).
Proof. unfold set_spi_trigger_edge. ends_unfold Gicv3_set_spi_trigger_edge. Qed.

#[export] Instance ends_set_spi_trigger_level id : Ends W I (set_spi_trigger_level id).
Proof. unfold set_spi_trigger_level. ends_unfold Gicv3_set_spi_trigger_level. Qed.

#[export] Instance ends_set_spi_group id : Ends W I (set_spi_group id).
Proof. unfold set_spi_group. ends_unfold Gicv3_set_spi_group. Qed.

#[export] Instance ends_set_spi_routing id core : Ends W I (set_spi_routing id core).
Proof. unfold set_spi_routing, Gicv3_set_spi_routing. ends_unfold write_volatile64. Qed.

#[export] Instance ends_enable_spi id : Ends W I (enable_spi id).
Proof. unfold enable_spi. ends_unfold Gicv3_enable_spi. Qed.

#[export] Instance ends_set_ppi_priority id prio : Ends W I (set_ppi_priority id prio).
Proof. unfold set_ppi_priority. ends_unfold Gicv3_set_ppi_priority. Qed.

#[export] Instance ends_set_ppi_trigger_edge id : Ends W I (set_ppi_trigger_edge id).
Proof. unfold set_ppi_trigger_edge. ends_unfold Gicv3_set_ppi_trigger_edge. Qed.

#[export] Instance ends_set_ppi_trigger_level id : Ends W I (set_ppi_trigger_level id).
Proof. unfold set_ppi_trigger_level. ends_unfold Gicv3_set_ppi_trigger_level. Qed.

#[export] Instance ends_set_ppi_group id : Ends W I (set_ppi_group id).
Proof. unfold set_ppi_group. ends_unfold Gicv3_set_ppi_group. Qed.

#[export] Instance ends_enable_ppi id : Ends W I (enable_ppi id).
Proof. unfold enable_ppi. ends_unfold Gicv3_enable_ppi. Qed.

#[local] Instance ends_wake : Ends W I (g <- GIC ;; init_gic_redistributor fuel g).
Proof. apply ends_pinned. intros g. apply ends_redistributor. apply _. Qed.

#[local] Instance ends_init_gic dist redist : Ends W I (init_gic fuel dist redist).
Proof. unfold init_gic. ends_unfold init_gic_distributor. Qed.

#[export] Instance ends_read_address value cells : Ends W I (read_address value cells).
Proof. ends_unfold read_address. Qed.

Lemma ends_gic_setup dev : Ends W I (Gicv3.setup fuel dev).
Proof. unfold Gicv3.setup, set_priority_mask. ends_unfold enable_grp1_ints. Qed.

(** ** The console *)

#[local] Instance ends_putchar c : Ends W I (putchar fuel c).
Proof. apply ends_pinned. intros u. apply ends_uart_putchar. apply _. Qed.

#[local] Instance ends_print s : Ends W I (print fuel s).
Proof. unfold print, write_str. induction (bytes_of s); simpl; apply _. Qed.

#[local] Instance ends_println s : Ends W I (println fuel s).
Proof. ends_unfold println. Qed.

Lemma ends_configure_uart : Ends W I (configure_uart fuel).
Proof. apply ends_pinned. intros u. apply ends_configure. apply _. Qed.
End any.
#[local] Existing Instances ends_println ends_print ends_configure_uart ends_gic_setup.

(** ** Setups that look for the interrupt parent *)

#[local] Instance ends_interrupt_parent held d : Ends W (sound held) (find_interrupt_parent fuel d).
Proof. by apply ends_find_interrupt_parent. Qed.

#[local] Instance ends_get_interrupt_cells I intc : Ends W I (get_interrupt_cells intc).
Proof. ends_unfold get_interrupt_cells. Qed.

#[local] Instance ends_timer_setup held dev : Ends W (sound held) (ArchTimer.setup fuel dev).
Proof. unfold ArchTimer.setup, read_specifier. ends_unfold configure_ppi. Qed.

#[local] Instance ends_setup_interrupt held dev : Ends W (sound held) (setup_interrupt fuel dev).
Proof. unfold setup_interrupt, read_first_specifier. ends_unfold configure_spi. Qed.

#[local] Instance ends_uart_setup held dev : Ends W (sound held) (Pl011.setup fuel dev).
Proof. unfold Pl011.setup, clock_frequency. ends_unfold init_uart. Qed.

Lemma ends_init_devices held : Ends W (sound held) (init_devices (CONFIGURED_DEVICES fuel)).
Proof.
  assert (forall p dev, Ends W (sound held) (match_drivers (CONFIGURED_DEVICES fuel) p dev)) as Hm.
  { intros p dev. unfold match_drivers, CONFIGURED_DEVICES. cbn [for_find DeviceMatch.compatible DeviceMatch.setup_fn].
    apply _. }
  unfold init_devices. ends_unfold init_device.
Qed.

(** ** Memory *)

#[local] Instance ends_store_le held p n v : Ends W (sound held) (store_le p n v).
Proof. unfold store_le. apply ends_bind; [apply _ |]. by intros _ w Hw. Qed.

#[local] Instance ends_desc_or held p bits : Ends W (sound held) (desc_or p bits).
Proof. unfold desc_or. ends_unfold assign_u64. Qed.

#[local] Instance ends_map_block held s j i : Ends W (sound held) (map_block s j i).
Proof.
  unfold map_block, assign_u64, mark_block_desc, set_mair_range, set_block_attrs, set_table_attrs.
  ends_unfold set_next_lvl_table_addr.
Qed.

#[local] Instance ends_setup_identity_mapping held s : Ends W (sound held) (setup_identity_mapping fuel s).
Proof.
  unfold setup_identity_mapping, identity_pages, mark_table_desc, mark_page_desc, set_table_attrs,
    set_next_lvl_table_addr, load_ttbr0, enable_mmu. ends_unfold configure_tcr.
Qed.

#[local] Instance ends_setup_mair_ranges held : Ends W (sound held) setup_mair_ranges.
Proof. unfold setup_mair_ranges. ends_unfold configure_mair_range. Qed.

#[local] Instance ends_arm_ms held ms : Ends W (sound held) (arm_ms ms).
Proof. unfold arm_ms, get_frequency, arm, set_timer_value. ends_unfold set_ctl. Qed.

(** ** The running kernel *)

(** A free lock is taken at once and free again afterwards. *)
Lemma ends_lock_irqsafe {R} (f : UartBuffer.t -> M (R * UartBuffer.t)) :
  (forall rx, Ends W (sound true) (f rx)) -> Ends W (sound false) (lock_irqsafe fuel RX_BUFFER f).
Proof.
  intros Hf. unfold lock_irqsafe, disable_irq, restore_interrupts.
  apply ends_bind; [unfold msr_daifset; apply _ |]. intros daif. apply ends_bind; [| intros; apply _].
  intros w [Ht Hl]. unfold lock. pose proof fuel_positive as Hp. destruct fuel as [| k]; [lia |].
  rewrite (bind_done _ _ _ _ _ (spin_lock_free k RX_BUFFER w Hl)).
  assert (sound true (acquired RX_BUFFER w)) as Hw1 by done. revert Hw1. generalize (acquired RX_BUFFER w).
  intros w1 Hw1. specialize (Hf (Mutex.data (w_rx w1)) w1 Hw1).
  unfold with_data, store_unlocked, bind, gets, modify, ret. cbn [pl_get RX_BUFFER].
  destruct (f _ w1) as [[r d] w2 | | |]; try done. by destruct Hf.
Qed.

#[local] Instance ends_getchar : Ends W (sound false) (getchar fuel).
Proof. apply ends_lock_irqsafe. intros rx. ends_unfold pop. Qed.

#[local] Instance ends_poll_round : Ends W (sound false) (poll fuel).
Proof. ends_unfold poll. Qed.

#[local] Instance ends_receive base : Ends W (sound false) (lock_irqsafe fuel RX_BUFFER (receive base)).
Proof. apply ends_lock_irqsafe. intros rx. unfold receive. ends_unfold push. Qed.

#[local] Instance ends_handle_irq : Ends W (sound false) (handle_irq fuel).
Proof.
  unfold handle_irq, do_irq, get_frequency, rearm, set_timer_value, get_base_addr. ends_unfold UART.
Qed.

Lemma ends_session acts : Ends W (sound false) (run_session fuel acts).
Proof. unfold run_session. apply ends_for_each. intros _ []; apply _. Qed.

(** ** From the blob to the main loop *)

Lemma ends_boot_sequence s dtb n w :
  (n < fuel)%nat -> small_ram n w -> sound false w ->
  match boot_sequence fuel s dtb w with Done _ w' => sound false w' | Spinning w' => W w' | _ => True end.
Proof.
  intros Hn Hr [Ht Hl]. unfold boot_sequence, parse_dtb. rewrite bind_bind.
  pose proof (ends_parse_tables n fuel dtb Hn w Hr) as He. unfold bind at 1.
  destruct (parse_tables fuel dtb w) as [[] w1 | | |] eqn:E; try done.
  apply parse_tables_inv in E as [Ht1 E]; [| done]. red in E.
  assert (sound false w1) as Hs by (split; [exact Ht1 | rewrite E; exact Hl]).
  pose proof (ends_init_devices false). clear He E Ht1. revert w1 Hs.
  match goal with |- forall w1, _ -> match ?c w1 with _ => _ end => change (Ends W (sound false) c) end.
  apply _.
Qed.
End drivers.

(** C9: nothing but a device can hang the kernel.  Whatever bytes the device tree
    blob and the rest of memory consist of, whatever the hardware answers, whatever
    symbols, bytes received and interrupts there are: with fuel for one token and
    one character per mapped byte, and for the depth of the device table, if
    starting up and the interrupts and iterations of the main loop after it, in any
    order, do not end, then because all of the last [fuel] accesses were polls of one
    status register of the interrupt controller or the UART, each answered "busy".
    No loop over the blob, the tables or a string and no wait for the lock
    contributes.  Starting up is all of [kmain] before its main loop. *)
Theorem kernel_cannot_hang {HW : Hardware} fuel hw ram s dtb acts :
  (size ram < fuel)%nat -> (DtbTables.MAX_DEVICES <= fuel)%nat ->
  (forall w', (boot_sequence fuel s dtb ;; run_session fuel acts) (boot_world hw ram) = Spinning w' ->
     busy_waiting fuel w') /\
  (forall rounds w, kmain fuel rounds s dtb w = (boot_sequence fuel s dtb ;; main_loop fuel rounds) w).
Proof.
  intros Hr Hd. split; [| intros; apply kmain_boot]. intros w'.
  assert (sound false (boot_world hw ram)) as Hs by (split; [apply wf_tables_init | done]).
  pose proof (ends_boot_sequence fuel Hd s dtb (size ram) (boot_world hw ram) Hr (le_n _) Hs) as H. unfold bind.
  destruct (boot_sequence fuel s dtb (boot_world hw ram)) as [[] w1 | | | w1]; try done.
  - pose proof (ends_session fuel Hd acts w1 H) as H1.
    destruct (run_session fuel acts w1); try done. by intros [= <-].
  - by intros [= <-].
Qed.

(** A blob that never ends: the header, then nothing but NOP tokens. *)
Definition nops_ram : gmap Z byte :=
  ram_of 0x40000000 (concat (be_split 4 <$> header_words virt_header) ++ concat (replicate 60 (be_split 4 FDT_NOP))).

(** Hardware whose registers all read as ones: the redistributor never wakes up. *)
Definition stuck : Hardware := {|
  hw_state := unit;
  hw_read32 _ h := (0xFFFFFFFF, h);
  hw_write32 _ _ h := h;
  hw_write64 _ _ h := h;
  hw_mrs _ h := (0, h);
  hw_msr _ _ h := h;
  hw_daifset _ h := h;
|}.

(** The accesses made before spinning. *)
Definition spun_after (r : @outcome stuck unit) : option nat :=
  match r with Spinning w => Some (length (w_trace w)) | _ => None end.

Definition stuck_boot : @outcome stuck unit :=
  (@boot_sequence stuck 900 virt_symbols virt_dtb ;; run_session 900 [Irq; Poll])
    (@boot_world stuck tt virt_ram).

Lemma stuck_boot_spins : spun_after stuck_boot = Some 906%nat.
Proof. vm_compute. reflexivity. Qed.

Lemma virt_ram_size : size virt_ram = 728%nat.
Proof. vm_compute. reflexivity. Qed.

(** The blob that never ends is refused by a fault; on the virt board's own tree
    and stuck hardware the kernel waits for the redistributor: six accesses, then 900
    polls. *)
Lemma kernel_cannot_hang_witness :
  @boot_sequence stuck 300 virt_symbols 0x40000000 (@boot_world stuck tt nops_ram) =
    Faulted (@boot_world stuck tt nops_ram) /\
  exists w', stuck_boot = Spinning w' /\ length (w_trace w') = 906%nat /\ @busy_waiting stuck 900 w'.
Proof.
  split; [vm_compute; reflexivity |].
  pose proof stuck_boot_spins as H. destruct stuck_boot as [| | | w'] eqn:E; try discriminate H.
  exists w'. split; [reflexivity |]. split; [by injection H |].
  apply (proj1 (@kernel_cannot_hang stuck 900 tt virt_ram virt_symbols virt_dtb [Irq; Poll]
    ltac:(rewrite virt_ram_size; lia) ltac:(unfold DtbTables.MAX_DEVICES; lia))).
  exact E.
Defined.
