(* ===== verification/Reached.v ===== *)
(** * The kernel keeps its invariant

    [Invariant]'s judgement for every operation the kernel runs, component by
    component, up to [kmain] and the handlers: whatever the memory holds and
    whatever the hardware answers, and however an entry into the kernel ends. *)

From S2P Require Export Invariant Session.

Local Open Scope Z_scope.
Local Open Scope kernel_scope.

(** ** Device tree *)

Section dtb.
Context {HW : Hardware}.
Import DtbTables.
Implicit Types (d : PlatformDevice.t) (p : Property.t).

Definition safe_opt {A} (P : A -> Prop) (o : option A) : Prop := from_option P True o.

Lemma safe_get_dtb : safe (gets w_dtb) safe_tables.
Proof. apply safe_gets. by intros w []. Qed.
#[local] Hint Resolve safe_get_dtb : safe.

Lemma safe_property_get d i : safe_device d -> safe (arr_get (PlatformDevice.properties d) i) safe_property.
Proof. intros [_ Hp]. by apply safe_arr_get. Qed.

Lemma safe_device_get t i : safe_tables t -> safe (arr_get (DEVICE_TABLE t) i) safe_device.
Proof. intros (_ & Hd & _). by apply safe_arr_get. Qed.

Lemma safe_phandle_get t i : safe_tables t -> safe (arr_get (PHANDLE_TABLE t) i) (fun e => fits U32 (fst e)).
Proof.
  intros (_ & _ & Hp). eapply safe_weaken; [by apply safe_arr_get |]. by intros ? [].
Qed.
#[local] Hint Resolve safe_property_get safe_device_get safe_phandle_get : safe.

Lemma safe_deref_device i : safe (deref_device i) safe_device.
Proof.
  unfold deref_device. safe_step. destruct (_ !! _) eqn:E; [| apply safe_fault].
  apply safe_ret. destruct H as (_ & Hd & _). by eapply Forall_lookup_1.
Qed.

Lemma safe_find_property d name : safe_device d -> safe (find_property d name) (safe_opt safe_property).
Proof. intros Hd. apply safe_for_find. intros i _. safe_run. Qed.

Lemma safe_parent_cells_step d cells i :
  fits U32 (fst cells) /\ fits U32 (snd cells) -> safe_device d ->
  safe (parent_cells_step d cells i) (fun c => fits U32 (fst c) /\ fits U32 (snd c)).
Proof. destruct cells as [a s]. intros [Ha Hs] Hd. unfold parent_cells_step. safe_run. Qed.

Lemma safe_get_parent_cells d :
  safe (get_parent_cells d) (fun c => fits U32 (fst c) /\ fits U32 (snd c)).
Proof.
  unfold get_parent_cells. destruct (PlatformDevice.parent d); [| apply safe_ret; split; cbn; solve_fits].
  eapply safe_bind; [apply safe_deref_device |]. intros q Hq. apply safe_for_each; [split; cbn; solve_fits |].
  intros c i _ Hc. by apply safe_parent_cells_step.
Qed.

Lemma safe_find_device_by_phandle ph : safe (find_device_by_phandle ph) (safe_opt safe_device).
Proof.
  unfold find_device_by_phandle. safe_step. apply safe_for_find. intros i _.
  safe_step. destruct a0 as [v k]. safe_run.
Qed.
#[local] Hint Resolve safe_deref_device safe_find_device_by_phandle : safe.

Lemma safe_walk_up fuel c : safe (walk_up fuel c) (safe_opt safe_device).
Proof.
  revert c. induction fuel as [| fuel IH]; intros [c |]; simpl; [apply safe_spin | by apply safe_ret | | by apply safe_ret].
  safe_step. apply (safe_bind _ _ (safe_opt (safe_opt safe_device))).
  - apply safe_for_find. intros i _. safe_run.
  - intros [r |] Hr; [by apply safe_ret | apply IH].
Qed.

Lemma safe_compat_len fuel s o l n : safe (compat_len fuel s o l n) (fun _ => True).
Proof. revert n. induction fuel as [| fuel IH]; intros n; simpl; safe_run; try apply IH. Qed.
#[local] Hint Resolve safe_compat_len : safe.

Lemma safe_compatible_matches p target : safe (compatible_matches p target) (fun _ => True).
Proof.
  unfold compatible_matches. generalize (Z.to_nat (Property.len p)) as n. intros n. generalize 0 as o. intros o.
  revert o. induction n as [| n IH]; intros o; simpl; safe_run.
Qed.
End dtb.

#[export] Hint Resolve safe_get_dtb safe_property_get safe_device_get safe_deref_device
  safe_find_property safe_get_parent_cells safe_find_device_by_phandle safe_walk_up
  safe_compatible_matches : safe.

(** ** The parser *)

Section parser.
Context {HW : Hardware} (fuel : nat).
Import DtbTables.

Lemma safe_strlen n s len : fits USIZE len -> safe (strlen n s len) (fits USIZE).
Proof. revert len. induction n as [| n IH]; intros len Hl; simpl; safe_run; try by apply IH. Qed.
#[local] Hint Resolve safe_strlen : safe.

Lemma safe_str_at s n : safe (str_at s n) (fun _ => True).
Proof. unfold str_at. safe_run. Qed.
#[local] Hint Resolve safe_str_at : safe.

Lemma safe_align4 off : safe (align4 off) (fits USIZE).
Proof. unfold align4. safe_run. Qed.
#[local] Hint Resolve safe_align4 : safe.

(** *** The tables change

    What the steps of the parser know of the tables is relative to the state: the
    stack holds indices of existing nodes. *)

Definition parses {A} (P : world -> Prop) (c : M A) (Q : A -> world -> Prop) : Prop :=
  forall w, kernel_inv w -> P w ->
    match c w with
    | Done a w' => kernel_inv w' /\ Q a w'
    | Panicked w' | Faulted w' | Spinning w' => kernel_inv w'
    end.

Lemma parses_bind {A B} P (c : M A) (k : A -> M B) Q R :
  parses P c Q -> (forall a, parses (Q a) (k a) R) -> parses P (bind c k) R.
Proof.
  intros Hc Hk w Hw HP. specialize (Hc w Hw HP). unfold bind. destruct (c w); try done.
  destruct Hc as [Hw' Ha]. by apply Hk.
Qed.

Lemma parses_ret {A} (P : world -> Prop) (a : A) (Q : A -> world -> Prop) :
  (forall w, P w -> Q a w) -> parses P (ret a) Q.
Proof. intros HQ w Hw HP. split; [done | by apply HQ]. Qed.

(** What only reads keeps what is known, and adds what its result tells. *)
Lemma parses_read {A} P (c : M A) (T T' : A -> Prop) :
  safe c T -> (forall w a w', c w = Done a w' -> w' = w /\ T' a) ->
  parses P c (fun a w => (T a /\ T' a) /\ P w).
Proof.
  intros Hc Hr w Hw HP. specialize (Hc w Hw). specialize (Hr w). destruct (c w); try done.
  specialize (Hr _ _ eq_refl) as [-> ?]. by destruct Hc.
Qed.

Lemma parses_get_dtb P :
  parses P (gets w_dtb)
    (fun t w => safe_tables t /\ (DEVICE_COUNT (w_dtb w) = DEVICE_COUNT t /\ P w)).
Proof. intros w Hw HP. split; [done |]. split; [by destruct Hw | done]. Qed.

Lemma parses_weaken {A} (P P' : world -> Prop) (c : M A) (Q : A -> world -> Prop) :
  (forall w, kernel_inv w -> P w -> P' w) -> parses P' c Q -> parses P c Q.
Proof. intros HP Hc w Hw H. by apply Hc, HP. Qed.

(** A fact of pure values can be taken out of the state. *)
Lemma parses_pure {A} (T : Prop) P (c : M A) Q : (T -> parses P c Q) -> parses (fun w => T /\ P w) c Q.
Proof. intros Hc w Hw [HT HP]. by apply Hc. Qed.

Lemma parses_modify_dtb (P : world -> Prop) f (Q : unit -> world -> Prop) :
  (forall w, safe_tables (w_dtb w) -> P w -> safe_tables (f (w_dtb w)) /\ Q tt (set_dtb (f (w_dtb w)) w)) ->
  parses P (modify_dtb f) Q.
Proof.
  intros Hf w [H1 H2 H3 H4 H5] HP. destruct (Hf w H2 HP) as [H2' HQ]. split; [by split | exact HQ].
Qed.

Lemma safe_tables_set t i d :
  safe_tables t -> safe_device d -> wf_device d ->
  (forall p, PlatformDevice.parent d = Some p -> (p < i)%nat) ->
  safe_tables (set_DEVICE_TABLE (<[i := d]> (DEVICE_TABLE t)) t).
Proof.
  intros (Hwf & Hd & Hp) Hs Hw Hpar. split; [by apply wf_tables_set |].
  split; [by apply Forall_insert | done].
Qed.

(** Storing an entry whose parent is admissible; the counts stay. *)
Lemma parses_set_device (P : world -> Prop) i d :
  (forall t w, P w -> P (set_dtb (set_DEVICE_TABLE t (w_dtb w)) w)) ->
  safe_device d -> wf_device d ->
  (forall p, PlatformDevice.parent d = Some p -> (p < i)%nat) ->
  parses P (set_device i d) (fun _ w => P w /\ (i < MAX_DEVICES)%nat /\ DEVICE_TABLE (w_dtb w) !! i = Some d).
Proof.
  intros HP Hs Hw Hpar w [H1 H2 H3 H4 H5] HPw. unfold set_device, bind, gets, arr_set.
  pose proof (proj1 (proj1 H2)) as Hlen.
  destruct (DEVICE_TABLE (w_dtb w) !! i) as [d0 |] eqn:Hi; [| by split].
  pose proof (lookup_lt_Some _ _ _ Hi) as Hlt.
  cbn [ret modify_dtb modify]. unfold ret, modify_dtb, modify. cbn. split.
  - split; try done. by apply safe_tables_set.
  - split; [by apply HP |]. split; [by rewrite <- Hlen |]. by rewrite list_lookup_insert_eq.
Qed.

Lemma safe_modify_dtb f : (forall t, safe_tables t -> safe_tables (f t)) -> safe (modify_dtb f) (fun _ => True).
Proof. intros Hf. apply safe_modify. intros w [H1 H2 H3 H4 H5]. split; try done. by apply Hf. Qed.

Lemma safe_tables_count t n :
  safe_tables t -> (DEVICE_COUNT t <= n <= MAX_DEVICES)%nat -> safe_tables (set_DEVICE_COUNT n t).
Proof.
  intros ((H1 & H2 & H3 & H4 & H5 & H6) & Hd & Hp) Hn. split; [| done].
  do 2 (split; [done |]). split; [cbn; lia |]. do 2 (split; [done |]).
  intros i e Hi He. specialize (H6 i e Hi He). cbn. lia.
Qed.

Lemma safe_nat_set (l : list nat) i x : safe (arr_set l i x) (fun _ => True).
Proof.
  eapply safe_weaken; [apply (safe_arr_set _ _ _ (fun _ => True)) | done]; [by apply Forall_true | done].
Qed.

Definition parsing (l : locals) (w : world) : Prop := fits USIZE (off l) /\ wf_locals l (w_dtb w).

(** An index on the stack names an existing node. *)
Lemma parses_stack_get l d :
  (d < stack_depth l)%nat ->
  parses (parsing l) (arr_get (stack l) d)
    (fun i w => (i < DEVICE_COUNT (w_dtb w))%nat /\ parsing l w).
Proof.
  intros Hd w Hw Hl. unfold arr_get. destruct (stack l !! d) as [i |] eqn:Hi; [| done].
  split; [done |]. split; [| done]. apply Hl. apply list_elem_of_lookup. exists d.
  by rewrite lookup_take_lt.
Qed.

Lemma parses_stack_top l :
  parses (parsing l) (stack_top l) (fun i w => (i < DEVICE_COUNT (w_dtb w))%nat /\ parsing l w).
Proof.
  unfold stack_top. destruct (stack_depth l) as [| d] eqn:E; [by intros w Hw _ |].
  apply parses_stack_get. lia.
Qed.

(** An entry of well-formed tables. *)
Definition entry_at (i : nat) (d : PlatformDevice.t) : Prop :=
  safe_device d /\ wf_device d /\ forall p, PlatformDevice.parent d = Some p -> (p < i)%nat.

Lemma parses_device_get P t i :
  safe_tables t -> parses P (arr_get (DEVICE_TABLE t) i) (fun d w => entry_at i d /\ P w).
Proof.
  intros (Hwf & Hd & _) w Hw HP. unfold arr_get.
  destruct (DEVICE_TABLE t !! i) as [d |] eqn:Hi; [| done]. split; [done |]. split; [| done].
  split; [by eapply Forall_lookup_1 |]. by apply Hwf.
Qed.

(** A reading operation whose result [x] satisfies [T]. *)
Ltac only_reads :=
  let w := fresh in let a := fresh in let w' := fresh in let H := fresh in
  intros w a w' H; split; [| exact I];
  first [by apply uadd_inv in H as [-> _] | by apply strlen_inv in H
    | by apply str_at_inv in H | by apply align4_inv in H | by apply read_be_u32_inv in H as [-> _]
    | by apply FdtPropHeader_inv in H | by apply get_property_name_inv in H].

Tactic Notation "reads" uconstr(T) "as" ident(x) ident(H) :=
  eapply parses_bind; [eapply (parses_read _ _ T (fun _ => True)); [solve [eauto 4 with safe] | only_reads] |];
  intros x; apply parses_pure; intros [H _]; cbv beta in H.

Lemma device_new_entry parent name n :
  (forall p, parent = Some p -> (p < n)%nat) ->
  entry_at n (PlatformDevice.mk parent name (PlatformDevice.properties PlatformDevice.new)
    (PlatformDevice.prop_count PlatformDevice.new)).
Proof.
  intros Hp. split; [| split; [| exact Hp]].
  - split; [done |]. apply Forall_replicate. split; cbn; solve_fits.
  - split; cbn; unfold PlatformDevice.MAX_PROPS; lia.
Qed.

Lemma wf_locals_pushed l off n t :
  wf_locals l t -> DEVICE_COUNT t = n -> 
  wf_locals (mkLocals off 0 (<[stack_depth l := n]> (stack l)) (S (stack_depth l)))
    (set_DEVICE_COUNT (S n) t).
Proof.
  intros [_ Hs] <-. split; [cbn; lia |]. cbn. intros i Hi.
  apply list_elem_of_lookup in Hi as [k Hk]. apply lookup_take_Some in Hk as [Hk Hks].
  apply list_lookup_insert_Some in Hk as [(_ & <- & _) | [Hne Hk]]; [lia |].
  assert (i < DEVICE_COUNT t)%nat; [| lia].
  apply Hs. apply list_elem_of_lookup. exists k. by rewrite lookup_take_lt by lia.
Qed.

Lemma parses_begin_parent l :
  parses (parsing l)
    (match stack_depth l with
     | O => ret None
     | S d =>
         idx <- arr_get (stack l) d ;;
         dtb <- gets w_dtb ;;
         _ <- arr_get (DEVICE_TABLE dtb) idx ;;
         ret (Some idx)
     end)
    (fun par w => (forall p, par = Some p -> (p < DEVICE_COUNT (w_dtb w))%nat) /\ parsing l w).
Proof.
  destruct (stack_depth l) as [| d] eqn:E; [by apply parses_ret |].
  eapply parses_bind; [apply parses_stack_get; lia |]. intros idx.
  eapply parses_bind; [apply parses_get_dtb |]. intros t. apply parses_pure. intros Ht.
  eapply parses_bind; [by apply parses_device_get |]. intros dev. apply parses_pure. intros _.
  apply parses_ret. intros w (_ & Hi & Hl). split; [by intros ? [= <-] | done].
Qed.

Lemma parses_begin_node sb l :
  parses (parsing l) (begin_node fuel sb l) parsing.
Proof.
  unfold begin_node. eapply parses_bind; [apply parses_begin_parent |]. intros par.
  set (P := fun w => (forall p, par = Some p -> (p < DEVICE_COUNT (w_dtb w))%nat) /\ parsing l w).
  cbv beta. fold P.
  reads (fits USIZE) as start Hstart. reads (fits USIZE) as len Hlen.
  reads (fun _ => True) as name Hname. cbv zeta.
  reads (fits USIZE) as size Hsize. reads (fits USIZE) as off1 Hoff1. reads (fits USIZE) as off2 Hoff2.
  eapply parses_bind; [apply parses_get_dtb |]. intros t. apply parses_pure. intros Ht.
  intros w Hw [Hn [Hpar Hl]]. revert w Hw Hn Hpar Hl.
  set (n := DEVICE_COUNT t).
  enough (forall (Hpar : forall p, par = Some p -> (p < n)%nat),
    parses (fun w => DEVICE_COUNT (w_dtb w) = n /\ parsing l w)
      (set_device n (PlatformDevice.mk par name (PlatformDevice.properties PlatformDevice.new)
         (PlatformDevice.prop_count PlatformDevice.new)) ;;
       stack <- arr_set (stack l) (stack_depth l) n ;;
       modify_dtb (set_DEVICE_COUNT (S n)) ;; ret (mkLocals off2 0 stack (S (stack_depth l)))) parsing) as H.
  { intros w Hw Hn Hpar Hl. apply H; [| done | done]. intros p Hp. rewrite <- Hn. by apply Hpar. }
  intros Hpar. destruct (device_new_entry par name n Hpar) as (E1 & E2 & E3).
  eapply parses_bind; [apply parses_set_device; [by intros t' w [Hn [Ho Hl]] | done..] |]. intros ?.
  eapply parses_bind.
  { apply (parses_read _ _ (fun _ => True) (fun st => st = <[stack_depth l := n]> (stack l)));
      [apply safe_nat_set |]. by intros w st w' (-> & -> & _)%arr_set_inv. }
  intros st. apply parses_pure. intros [_ ->].
  set (l' := mkLocals off2 0 _ _).
  apply (parses_bind _ _ _ (fun _ => parsing l')); [| intros _; by apply parses_ret].
  apply parses_modify_dtb. intros w Hs ((Hn & _ & Hl) & Hlt & _). split.
  - apply safe_tables_count; [done | lia].
  - split; [done |]. by apply wf_locals_pushed.
Qed.

Lemma parses_end_node l : parses (parsing l) (end_node l) parsing.
Proof.
  unfold end_node. eapply parses_bind; [apply parses_stack_top |]. intros idx.
  eapply parses_bind; [apply parses_get_dtb |]. intros t. apply parses_pure. intros Ht.
  eapply parses_bind; [by apply parses_device_get |]. intros d. apply parses_pure.
  intros (Hd & [Hw1 Hw2] & Hpar).
  intros w Hw (Hn & Hi & Hl). revert w Hw Hn Hi Hl.
  enough (forall (Hp : (prop_id l <= PlatformDevice.MAX_PROPS)%nat),
    parses (parsing l)
      (set_device idx (PlatformDevice.mk (PlatformDevice.parent d) (PlatformDevice.name d)
         (PlatformDevice.properties d) (prop_id l)) ;;
       ret (mkLocals (off l) (prop_id l) (stack l) (stack_depth l - 1))) parsing) as H.
  { intros w Hw _ _ Hl. apply H; [apply Hl | done | done]. }
  intros Hp. eapply parses_bind; [apply parses_set_device; [by intros t' w [Ho Hl] | done | done | done] |].
  intros ?. apply parses_ret. intros w ((Ho & Hpid & Hs) & _). split; [done |]. split; [done |].
  cbn. intros i [k Hk]%list_elem_of_lookup. apply lookup_take_Some in Hk as [Hk Hkd].
  apply Hs, list_elem_of_lookup. exists k. by rewrite lookup_take_lt by lia.
Qed.

(** A phandle is registered for an existing node. *)
Lemma parses_register_phandle P v i :
  (forall t n w, P w -> P (set_dtb (set_PHANDLE_COUNT n (set_PHANDLE_TABLE t (w_dtb w))) w)) ->
  fits U32 v ->
  parses (fun w => (i < DEVICE_COUNT (w_dtb w))%nat /\ P w) (register_phandle v i)
    (fun _ w => (i < DEVICE_COUNT (w_dtb w))%nat /\ P w).
Proof.
  intros HP Hv w [H1 H2 H3 H4 H5] [Hi Hw]. unfold register_phandle, bind, gets, arr_set.
  destruct H2 as (Hwf & Hd & Hp). pose proof Hwf as (_ & Hlen & Hdc & _ & _ & _).
  destruct (PHANDLE_TABLE (w_dtb w) !! _) as [e |] eqn:He; [| by split].
  apply lookup_lt_Some in He. rewrite Hlen in He.
  unfold ret, modify_dtb, modify. split; [split; try done |].
  - split; [by apply (wf_tables_register (w_dtb w)) |]. split; [exact Hd |].
    apply Forall_insert; [exact Hp |]. split; [done |]. cbn. lia.
  - split; [exact Hi | by apply (HP _ _ w)].
Qed.

Lemma safe_get_property_name a o n : safe (get_property_name fuel a o n) (fun _ => True).
Proof. unfold get_property_name. safe_run. Qed.
#[local] Hint Resolve safe_get_property_name : safe.

Lemma safe_prop_header a : safe (FdtPropHeader_from_be_bytes a) (fun h => fits U32 (FdtPropHeader.len h)).
Proof. unfold FdtPropHeader_from_be_bytes. safe_run. Qed.
#[local] Hint Resolve safe_prop_header : safe.

Lemma entry_set_property i d k p ps :
  entry_at i d -> safe_property p -> ps = <[k := p]> (PlatformDevice.properties d) ->
  entry_at i (PlatformDevice.mk (PlatformDevice.parent d) (PlatformDevice.name d) ps
    (PlatformDevice.prop_count d)).
Proof.
  intros ([Hl Hd] & [Hw1 Hw2] & Hpar) Hp ->. split; [| split; [| exact Hpar]].
  - split; [cbn; by rewrite length_insert | by apply Forall_insert].
  - split; [cbn; by rewrite length_insert | done].
Qed.

Lemma parses_property a o sb l : parses (parsing l) (property fuel a o sb l) parsing.
Proof.
  unfold property. reads (fits USIZE) as addr Haddr.
  reads (fun h => fits U32 (FdtPropHeader.len h)) as hd Hhd. reads (fits USIZE) as off1 Hoff1.
  reads (fun _ => True) as name Hname. reads (fits USIZE) as value Hvalue. cbv zeta.
  set (p := Property.mk _ _ _).
  assert (safe_property p) as Hp.
  { split; [done |]. cbn. apply (fits_weaken U32); [done | vm_compute; discriminate]. }
  eapply parses_bind; [apply parses_stack_top |]. intros i.
  eapply (parses_bind _ _ _ (fun _ w => (i < DEVICE_COUNT (w_dtb w))%nat /\ parsing l w)).
  { destruct (String.eqb _ _); [| by apply parses_ret].
    reads (fits U32) as ph Hph. by apply parses_register_phandle. }
  intros []. eapply parses_bind; [apply parses_get_dtb |]. intros t. apply parses_pure. intros Ht.
  eapply parses_bind; [by apply parses_device_get |]. intros d. apply parses_pure. intros Hd.
  eapply parses_bind.
  { apply (parses_read _ _ (fun _ => True)
      (fun ps => ps = <[prop_id l := p]> (PlatformDevice.properties d) /\
        (prop_id l < PlatformDevice.MAX_PROPS)%nat)).
    - eapply safe_weaken; [apply (safe_arr_set _ _ _ (fun _ => True)) | done]; [by apply Forall_true | done].
    - intros w ps w' (-> & -> & Hlt)%arr_set_inv. split; [done |]. split; [done |].
      by rewrite <- (proj1 (proj1 Hd)). }
  intros ps. apply parses_pure. intros [_ [Hps Hlt]].
  destruct (entry_set_property i d _ p ps Hd Hp Hps) as (E1 & E2 & E3).
  eapply (parses_weaken _ (parsing l)); [by intros w _ (_ & _ & Hl) |].
  eapply parses_bind; [apply parses_set_device; [by intros t' w [Ho Hl] | done | done | done] |].
  intros ?. cbv beta. reads (fits USIZE) as off2 Hoff2. reads (fits USIZE) as off3 Hoff3.
  apply parses_ret. intros w ((Ho & Hpid & Hs) & _). split; [done |]. split; [cbn; lia | done].
Qed.

Definition parsed (o : option locals) (w : world) : Prop :=
  match o with Some l => parsing l w | None => True end.

Lemma parses_parse_step a o sb l : parses (parsing l) (parse_step fuel a o sb l) parsed.
Proof.
  unfold parse_step. reads (fits U32) as token Htoken. reads (fits USIZE) as off1 Hoff1. cbv zeta.
  set (l1 := mkLocals off1 _ _ _).
  apply (parses_weaken _ (parsing l1)); [by intros w _ (_ & Hp & Hs) |].
  assert (forall c, parses (parsing l1) c parsing ->
    parses (parsing l1) (l2 <- c ;; ret (Some l2)) parsed) as Hstep.
  { intros c Hc. eapply parses_bind; [exact Hc |]. intros l2. by apply parses_ret. }
  repeat case_match; [apply Hstep, parses_begin_node | apply Hstep, parses_end_node
    | apply Hstep, parses_property | by apply parses_ret | by apply parses_ret | by intros w Hw _].
Qed.

Lemma parses_parse_loop n a o sb l :
  parses (parsing l) (parse_loop n fuel a o sb l) (fun _ _ => True).
Proof.
  revert l. induction n as [| n IH]; intros l; cbn [parse_loop]; [by intros w Hw _ |].
  eapply parses_bind; [apply parses_parse_step |]. intros [l' |]; [apply IH | by apply parses_ret].
Qed.

(** The parser keeps the invariant whatever the blob is and wherever it stops. *)
Lemma safe_parse_tables dtb : safe (parse_tables fuel dtb) (fun _ => True).
Proof.
  unfold parse_tables, FdtHeader_from_be_bytes. safe_run.
  intros w Hw. apply (parses_parse_loop fuel _ _ _ locals_init w Hw).
  split; [cbn; solve_fits | apply wf_locals_init].
Qed.
End parser.

(** ** Device initialisation *)

Section init.
Context {HW : Hardware} (drivers : list DeviceMatch.t).
Context (Hdrivers : forall e dev, e ∈ drivers -> safe_device dev ->
  safe (DeviceMatch.setup_fn e dev) (fun _ => True)).

Lemma safe_match_drivers p dev :
  safe_device dev -> safe (match_drivers drivers p dev) (fun _ => True).
Proof.
  intros Hd. eapply safe_weaken; [apply (safe_for_find _ _ (fun _ => True)) | done].
  intros e He. safe_step. apply safe_if; [| by apply safe_ret].
  eapply safe_bind; [by apply Hdrivers | intros; by apply safe_ret].
Qed.

Lemma safe_init_device gic i : safe (init_device drivers gic i) (fun _ => True).
Proof.
  unfold init_device. safe_run.
  eapply safe_bind; [by apply safe_match_drivers | intros; by apply safe_ret].
Qed.

Lemma safe_init_devices : safe (init_devices drivers) (fun _ => True).
Proof.
  unfold init_devices. safe_step.
  eapply safe_bind; [by apply (safe_for_each _ _ _ (fun _ => True)); [| intros; apply safe_init_device] |].
  intros _ _. safe_step. by apply (safe_for_each _ _ _ (fun _ => True)); [| intros; apply safe_init_device].
Qed.
End init.

(** ** The interrupt controller *)

Section gic.
Context {HW : Hardware}.

Lemma safe_GIC : safe GIC safe_gic.
Proof. apply safe_gets. by intros w []. Qed.
#[local] Hint Resolve safe_GIC : safe.

Lemma safe_set_spi_priority id prio : safe (set_spi_priority id prio) (fun _ => True).
Proof. unfold set_spi_priority, Gicv3_set_spi_priority. safe_run. Qed.

Lemma safe_set_spi_trigger_edge id : safe (set_spi_trigger_edge id) (fun _ => True).
Proof. unfold set_spi_trigger_edge, Gicv3_set_spi_trigger_edge. safe_run. Qed.

Lemma safe_set_spi_trigger_level id : safe (set_spi_trigger_level id) (fun _ => True).
Proof. unfold set_spi_trigger_level, Gicv3_set_spi_trigger_level. safe_run. Qed.

Lemma safe_set_spi_group id : safe (set_spi_group id) (fun _ => True).
Proof. unfold set_spi_group, Gicv3_set_spi_group. safe_run. Qed.

(** The guards of [write_volatile]. *)
Lemma safe_write_volatile64 p v : fits USIZE p -> fits U64 v -> safe (write_volatile64 p v) (fun _ => True).
Proof.
  intros Hp Hv. unfold write_volatile64. destruct (_ || _)%bool eqn:E; [apply safe_fault |].
  apply orb_false_elim in E as [E1 E2]. apply negb_false_iff in E2. bool_to_prop.
  apply safe_bus_write64; [unfold fits in Hp; lia | done].
Qed.
#[local] Hint Resolve safe_write_volatile64 : safe.

Lemma safe_set_spi_routing id core : fits U64 core -> safe (set_spi_routing id core) (fun _ => True).
Proof. intros Hc. unfold set_spi_routing, Gicv3_set_spi_routing. safe_run. Qed.

Lemma safe_enable_spi id : safe (enable_spi id) (fun _ => True).
Proof. unfold enable_spi, Gicv3_enable_spi. safe_run. Qed.

Lemma safe_set_ppi_priority id prio : safe (set_ppi_priority id prio) (fun _ => True).
Proof. unfold set_ppi_priority, Gicv3_set_ppi_priority. safe_run. Qed.

Lemma safe_set_ppi_trigger_edge id : safe (set_ppi_trigger_edge id) (fun _ => True).
Proof. unfold set_ppi_trigger_edge, Gicv3_set_ppi_trigger_edge. safe_run. Qed.

Lemma safe_set_ppi_trigger_level id : safe (set_ppi_trigger_level id) (fun _ => True).
Proof. unfold set_ppi_trigger_level, Gicv3_set_ppi_trigger_level. safe_run. Qed.

Lemma safe_set_ppi_group id : safe (set_ppi_group id) (fun _ => True).
Proof. unfold set_ppi_group, Gicv3_set_ppi_group. safe_run. Qed.

Lemma safe_enable_ppi id : safe (enable_ppi id) (fun _ => True).
Proof. unfold enable_ppi, Gicv3_enable_ppi. safe_run. Qed.

Lemma safe_init_gic fuel dist redist :
  fits USIZE dist -> fits USIZE redist -> safe (init_gic fuel dist redist) (fun _ => True).
Proof.
  intros Hd Hr. unfold init_gic, init_gic_distributor, init_gic_redistributor, children_asleep.
  do 2 (eapply safe_bind;
    [apply safe_modify; intros w [H1 H2 [H3 H3'] H4 H5]; split; try done; by split | intros _ _]).
  safe_run.
Qed.

(** The value of big-endian cells, whatever their number. *)
Lemma safe_read_address v n : safe (read_address v n) (fits USIZE).
Proof. apply safe_for_each; [solve_fits |]. intros a i _ Ha. safe_run. Qed.
#[local] Hint Resolve safe_read_address safe_init_gic : safe.

Lemma safe_gic_setup fuel dev : safe_device dev -> safe (Gicv3.setup fuel dev) (fun _ => True).
Proof.
  intros Hd. unfold Gicv3.setup, set_priority_mask, enable_grp1_ints. safe_step.
  destruct a as [ac sc]. safe_run.
  eapply safe_bind; [apply safe_for_each; [instantiate (1 := fits USIZE); solve_fits |] |].
  - intros a' i _ Ha. safe_run.
  - intros g Hg. by apply safe_init_gic.
Qed.
End gic.

#[export] Hint Resolve safe_set_spi_priority safe_set_spi_trigger_edge safe_set_spi_trigger_level
  safe_set_spi_group safe_set_spi_routing safe_enable_spi safe_set_ppi_priority
  safe_set_ppi_trigger_edge safe_set_ppi_trigger_level safe_set_ppi_group safe_enable_ppi
  safe_read_address : safe.

(** ** Interrupt specifiers, the timer *)

Section timer.
Context {HW : Hardware}.

(** [\[u32; 4\]] *)
Definition safe_specifier (l : list Z) : Prop := Forall (fits U32) l.

Lemma safe_specifier_get l i : safe_specifier l -> safe (arr_get l i) (fits U32).
Proof. apply safe_arr_get. Qed.
#[local] Hint Resolve safe_specifier_get : safe.

Lemma safe_specifier_set l i x :
  safe_specifier l -> fits U32 x -> safe (arr_set l i x) safe_specifier.
Proof. intros Hl Hx. eapply safe_weaken; [by apply (safe_arr_set _ _ _ (fits U32)) | by intros ? []]. Qed.
#[local] Hint Resolve safe_specifier_set : safe.

Lemma safe_specifier_init n : safe_specifier (replicate n 0).
Proof. apply Forall_replicate. solve_fits. Qed.

Lemma safe_read_specifier v o n : safe (read_specifier v o n) safe_specifier.
Proof. apply safe_for_each; [apply safe_specifier_init |]. intros l i _ Hl. safe_run. Qed.

Lemma safe_read_first_specifier v n : safe (read_first_specifier v n) safe_specifier.
Proof. apply safe_for_each; [apply safe_specifier_init |]. intros l i _ Hl. safe_run. Qed.

Lemma safe_get_interrupt_cells d : safe_device d -> safe (get_interrupt_cells d) (fits U32).
Proof. intros Hd. unfold get_interrupt_cells. safe_run. Qed.

Lemma safe_configure_ppi l : safe_specifier l -> safe (configure_ppi l) (fun _ => True).
Proof. intros Hl. unfold configure_ppi. safe_run. Qed.

Lemma safe_configure_spi l : safe_specifier l -> safe (configure_spi l) (fun _ => True).
Proof. intros Hl. unfold configure_spi. safe_run. Qed.
#[local] Hint Resolve safe_read_specifier safe_read_first_specifier safe_get_interrupt_cells
  safe_configure_ppi safe_configure_spi : safe.

Lemma safe_timer_setup fuel dev : safe_device dev -> safe (ArchTimer.setup fuel dev) (fun _ => True).
Proof. intros Hd. unfold ArchTimer.setup, find_interrupt_parent. safe_run. Qed.

Lemma safe_setup_interrupt fuel dev : safe_device dev -> safe (setup_interrupt fuel dev) (fun _ => True).
Proof. intros Hd. unfold setup_interrupt, find_interrupt_parent. safe_run. Qed.

Lemma safe_arm_ms ms : safe (arm_ms ms) (fun _ => True).
Proof.
  unfold arm_ms, get_frequency, arm, set_timer_value, set_ctl, CTL_ENABLE. safe_step.
  eapply safe_bind; [by apply (safe_udiv U64) |]. intros q _. safe_run.
Qed.
End timer.

(** ** The receive buffer and its lock *)

Section receiving.
Context {HW : Hardware} (fuel : nat).


Lemma safe_pop rx : safe_rx rx -> safe (pop rx) (fun r => safe_opt (fits U8) (fst r) /\ safe_rx (snd r)).
Proof.
  intros Hrx w Hw. rewrite exec_pop by done. case_match; split; try done.
  split; [| by apply wf_popped]. destruct Hrx as (Hl & Hh & Ht & Hf). cbn.
  destruct (nth_lookup_or_length (UartBuffer.buffer rx) (UartBuffer.tail rx) 0) as [E | E]; [| lia].
  by eapply Forall_lookup_1 in E.
Qed.

(** The lock hands over safe data and gets safe data back. *)
Lemma safe_lock {R} (f : UartBuffer.t -> M (R * UartBuffer.t)) (P : R -> Prop) :
  (forall rx, safe_rx rx -> safe (f rx) (fun r => P (fst r) /\ safe_rx (snd r))) ->
  safe (lock fuel RX_BUFFER f) P.
Proof.
  intros Hf. unfold lock. eapply safe_bind.
  { apply (safe_spin_while _ _ (fun _ => True)). unfold compare_exchange_is_err.
    eapply safe_bind; [apply (safe_gets _ (fun m => safe_rx (Mutex.data m))); by intros w [] |].
    intros m Hm. apply safe_if; [by apply safe_ret |].
    eapply safe_bind; [| intros; by apply safe_ret]. apply safe_modify. by intros w [H1 H2 H3 H4 H5]. }
  intros _ _. eapply safe_bind.
  { unfold with_data. eapply safe_bind; [apply (safe_gets _ (fun m => safe_rx (Mutex.data m))); by intros w [] |].
    intros m Hm. eapply safe_bind; [by apply Hf |]. intros r [Hr Hrx].
    eapply safe_bind; [| intros; by apply safe_ret]. apply safe_modify. by intros w [H1 H2 H3 H4 H5]. }
  intros r Hr. eapply safe_bind; [| intros; by apply safe_ret]. apply safe_modify. by intros w [H1 H2 H3 H4 H5].
Qed.

Lemma safe_lock_irqsafe {R} (f : UartBuffer.t -> M (R * UartBuffer.t)) (P : R -> Prop) :
  (forall rx, safe_rx rx -> safe (f rx) (fun r => P (fst r) /\ safe_rx (snd r))) ->
  safe (lock_irqsafe fuel RX_BUFFER f) P.
Proof.
  intros Hf. unfold lock_irqsafe, disable_irq, restore_interrupts. safe_run.
  eapply safe_bind; [by apply safe_lock |]. intros r Hr. safe_run.
Qed.

Lemma safe_getchar : safe (getchar fuel) (safe_opt (fits U8)).
Proof. apply safe_lock_irqsafe, safe_pop. Qed.

End receiving.

(** ** The UART *)

Section uart.
Context {HW : Hardware} (fuel : nat).

Lemma safe_UART : safe UART safe_uart.
Proof. apply safe_gets. by intros w []. Qed.
#[local] Hint Resolve safe_UART : safe.

Lemma safe_putchar c : fits U8 c -> safe (putchar fuel c) (fun _ => True).
Proof. intros Hc. unfold putchar, UartPl011_putchar. safe_run. Qed.

(** Characters are bytes. *)
Lemma bytes_of_fits s : Forall (fits U8) (bytes_of s).
Proof.
  unfold bytes_of. apply Forall_fmap, Forall_true. intros c. cbn.
  pose proof (Ascii.N_ascii_bounded c). unfold fits, U8. lia.
Qed.

Lemma safe_print s : safe (print fuel s) (fun _ => True).
Proof.
  unfold print, write_str. pose proof (bytes_of_fits s) as H. induction H as [| c bs Hc _ IH]; [by apply safe_ret |].
  simpl. eapply safe_bind; [by apply safe_putchar | by intros _ _].
Qed.

Lemma safe_println s : safe (println fuel s) (fun _ => True).
Proof. apply safe_print. Qed.

Lemma safe_lcr_value u : safe_uart u -> safe (lcr_value u) (fits U32).
Proof.
  intros Hu. unfold lcr_value, LCR_STP2, LCR_FEN. safe_run.
Qed.

Lemma safe_set_speed u : safe_uart u -> safe (set_speed u) (fun _ => True).
Proof.
  intros (_ & Hc & Hb & _). unfold set_speed. safe_step.
  eapply safe_bind; [apply (safe_udiv U32); [done | lia] |]. intros d Hd. safe_run.
Qed.
#[local] Hint Resolve safe_lcr_value safe_set_speed : safe.

Lemma safe_configure u : safe_uart u -> safe (configure fuel u) (fun _ => True).
Proof. intros Hu. unfold configure, IMSC_RXIM, CR_UARTEN, CR_RXEN. safe_run. Qed.
#[local] Hint Resolve safe_configure : safe.

Lemma safe_clock_frequency dev : safe_device dev -> safe (clock_frequency dev) (fits U32).
Proof. intros Hd. unfold clock_frequency. safe_run. Qed.

#[local] Hint Resolve safe_clock_frequency : safe.

Lemma safe_init_uart base clock :
  fits USIZE base -> fits U32 clock -> safe (init_uart base clock) (fun _ => True).
Proof.
  intros Hb Hc. apply safe_modify. intros w [H1 H2 H3 H4 H5]. split; try done.
  destruct H4 as (_ & _ & H4). exact (conj Hb (conj Hc H4)).
Qed.
#[local] Hint Resolve safe_init_uart safe_setup_interrupt : safe.

Lemma safe_uart_setup dev : safe_device dev -> safe (Pl011.setup fuel dev) (fun _ => True).
Proof.
  intros Hd. unfold Pl011.setup, configure_uart. safe_step. destruct a as [ac sc]. safe_step.
  apply (safe_bind _ _ (fits USIZE)).
  { destruct a; safe_run. }
  intros addr Ha. safe_run.
Qed.
End uart.

(** ** Page tables *)

Section mm.
Context {HW : Hardware} (fuel : nat).

Lemma safe_configure_mair_range conf range : safe (configure_mair_range conf range) (fun _ => True).
Proof. unfold configure_mair_range. safe_run. Qed.

Lemma safe_setup_mair_ranges : safe setup_mair_ranges (fun _ => True).
Proof. unfold setup_mair_ranges. pose proof safe_configure_mair_range. safe_run. Qed.

Lemma safe_enable_mmu : safe enable_mmu (fun _ => True).
Proof. unfold enable_mmu, configure_tcr, SCTLR_ELX_MMU. safe_run. Qed.

Lemma safe_load_ttbr0 base : fits U64 base -> safe (load_ttbr0 base) (fun _ => True).
Proof. intros Hb. unfold load_ttbr0. safe_run. Qed.

Lemma safe_desc_or p bits : safe (desc_or p bits) (fun _ => True).
Proof. unfold desc_or. safe_run. Qed.
#[local] Hint Resolve safe_desc_or safe_enable_mmu safe_load_ttbr0 : safe.

Lemma safe_map_block s j i : safe (map_block s j i) (fun _ => True).
Proof.
  unfold map_block, mark_block_desc, set_mair_range, set_block_attrs, set_table_attrs,
    set_next_lvl_table_addr, ranges.
  pose proof (safe_arr_get [MAIR_IDX_DEVICE; MAIR_IDX_NORMAL_WB] j (fun _ => True) ltac:(by repeat constructor)).
  safe_run.
Qed.

Lemma safe_identity_pages s : safe (identity_pages s) (fun _ => True).
Proof. unfold identity_pages. safe_run. Qed.
#[local] Hint Resolve safe_identity_pages safe_println : safe.

(** The linker's symbols are addresses. *)
Definition safe_symbols (s : symbols) : Prop :=
  fits USIZE (kernel_start s) /\ fits USIZE (sym_stack_top s) /\ fits USIZE (idmap_l0 s) /\
  fits USIZE (idmap_l1 s).

Lemma safe_setup_identity_mapping s :
  safe_symbols s -> safe (setup_identity_mapping fuel s) (fun _ => True).
Proof.
  intros (_ & _ & Hl0 & _).
  unfold setup_identity_mapping, mark_table_desc, mark_page_desc, set_table_attrs, set_next_lvl_table_addr.
  safe_run.
  eapply safe_bind; [by apply (safe_for_each _ _ _ (fun _ => True)); [| intros; apply safe_map_block] |].
  intros _ _. safe_run.
Qed.
End mm.

(** ** Entry points *)

Section entry_points.
Context {HW : Hardware} (fuel : nat).
#[local] Hint Resolve safe_print safe_println safe_arm_ms safe_setup_mair_ranges
  safe_setup_identity_mapping safe_parse_tables safe_init_devices safe_getchar safe_UART : safe.

Lemma safe_drivers e dev :
  e ∈ CONFIGURED_DEVICES fuel -> safe_device dev -> safe (DeviceMatch.setup_fn e dev) (fun _ => True).
Proof.
  unfold CONFIGURED_DEVICES. rewrite !elem_of_cons, elem_of_nil.
  intros [-> | [-> | [-> | []]]] Hd; cbn;
    by first [apply safe_gic_setup | apply safe_uart_setup | apply safe_timer_setup].
Qed.

Lemma safe_parse_dtb dtb : safe (parse_dtb (CONFIGURED_DEVICES fuel) fuel dtb) (fun _ => True).
Proof. unfold parse_dtb. safe_step. apply safe_init_devices, safe_drivers. Qed.

Lemma safe_poll : safe (poll fuel) (fun _ => True).
Proof. unfold poll. safe_run. Qed.

Lemma safe_main_loop rounds : safe (main_loop fuel rounds) (fun _ => True).
Proof.
  induction rounds as [| rounds IH]; [apply safe_spin |]. simpl.
  by apply (safe_bind _ _ _ _ safe_poll).
Qed.
#[local] Hint Resolve safe_parse_dtb safe_main_loop : safe.




(** The other handlers end in a panic or only print. *)
Lemma safe_print_faulting_instr elr : safe (print_faulting_instr fuel elr) (fun _ => True).
Proof.
  unfold print_faulting_instr. safe_run. eapply safe_bind; [| intros _ _; safe_run].
  apply (safe_for_each _ _ _ (fun _ => True)); [done |]. intros _ i _ _.
  unfold print_opcode_byte. safe_run.
Qed.
#[local] Hint Resolve safe_print_faulting_instr : safe.







End entry_points.

(** ** The invariant in every reached state *)







