(* ===== verification/Startup.v ===== *)
(** * Starting up on any board of the kind the kernel is written for

    What the device tree has to say and what the hardware has to do for [kmain]
    to reach its main loop, and the accesses it makes on the way: the
    composition of the theorems about the parser, device initialisation, the
    three drivers, the page tables and the timer. *)

From S2P Require Export Head Session.

Local Open Scope Z_scope.
Local Open Scope kernel_scope.

(** What the tree says of the three devices that the kernel drives. *)
Record board := mkBoard {
  b_gic : GicState.t;      (* the frames of the interrupt controller *)
  b_uart : Z;              (* the UART's base address *)
  b_spi : Z;               (* its interrupt, as an SPI number, with flags *)
  b_spi_flags : Z;
  b_clock : Z;             (* the frequency of its clock *)
  b_ppi : Z;               (* the timer's interrupt, as a PPI number, with flags *)
  b_ppi_flags : Z;
}.

Section startup.
Context {HW : Hardware} (fuel : nat).
Implicit Types (w : world) (b : board) (s : symbols).

(** The flags ask for an edge trigger. *)
Definition edge (flags : Z) : bool := negb (Z.land flags 3 =? 0).

(** ** The board as the tree describes it *)

(** In memory [ram] and tables [t]: the setup calls to be made are those of an
    interrupt controller, a UART and a timer, in this order, on nodes with the
    data of [b]. *)
Record describes (ram : gmap Z byte) (t : DtbTables.t) b : Prop := {
  ds_plan : exists val dg du dt,
    (forall w, w_ram w = ram -> w_dtb w = t -> compatibles_at val w /\
       gic_node w dg (b_gic b) /\
       uart_node w du (b_uart b) (b_spi b) (b_spi_flags b) (b_clock b) /\
       timer_node w dt 1 (b_ppi b) (b_ppi_flags b)) /\
    plan (CONFIGURED_DEVICES fuel) val t =
      [(DeviceMatch.mk _ "arm,gic-v3" (Gicv3.setup fuel), dg);
       (DeviceMatch.mk _ "arm,pl011" (Pl011.setup fuel), du);
       (DeviceMatch.mk _ "arm,armv7-timer" (ArchTimer.setup fuel), dt)];
  ds_gic : wf_gic (b_gic b);
  ds_uart : uart_config_ok (Pl011.init (b_uart b) (b_clock b) UartState.new);
  ds_spi : b_spi b < 992;
  ds_ppi : b_ppi b < 16;
}.

(** The devices are ready within the polls allowed. *)
Record board_settles b : Prop := {
  bs_wakes : settles fuel (GicState.redist_addr (b_gic b) + GICR_WAKER) GICR_WAKER_CASLEEP;
  bs_idle : settles fuel (b_uart b + FR_OFF) FR_BUSY;
  bs_drains : tx_drains fuel (b_uart b);
}.

(** ** The accesses of a boot *)

Definition setup_events b (t : list event) : Prop :=
  exists ctlr wk wakes grpen c p gr polls lcr imsc cr c' p' gr' e',
    t = gic_events (b_gic b) ctlr wk wakes grpen ++
      spi_events (b_gic b) (32 + b_spi b) (edge (b_spi_flags b)) c p gr ++
      configure_events (Pl011.init (b_uart b) (b_clock b) UartState.new) polls lcr imsc cr ++
      ppi_events (b_gic b) (16 + b_ppi b) (edge (b_ppi_flags b)) c' p' gr' e'.

(** Arming the timer for a second of a counter of [freq] Hz. *)
Definition arm_events (freq : Z) : list event :=
  [Mrs CNTFRQ_EL0 freq; Msr CNTP_TVAL_EL0 (wrap U32 (freq / 1000 * 1000));
   Msr CNTP_CTL_EL0 1; Barrier Isb].

Definition greeting : string :=
  ("Hello, from Rust" +:+ newline) +:+ ("Arming the timer (1000ms)" +:+ newline).

(** Text transmitted by the UART, and nothing else. *)
Definition says (base : Z) (text : string) (t : list event) : Prop :=
  Forall (console_event base) t /\ tx_of base t = bytes_of text.

Definition boot_events b s (t : list event) : Prop :=
  exists setups m0 m1 m2 t1 sctlr t2 freq,
    setup_events b setups /\ says (b_uart b) (idmap_text s) t1 /\ says (b_uart b) greeting t2 /\
    t = setups ++ mair_events m0 m1 m2 ++ t1 ++ mmu_events (idmap_l0 s) sctlr ++ t2 ++ arm_events freq.

(** ** The stages *)

Definition booted_uart b : UartState.t := Pl011.init (b_uart b) (b_clock b) UartState.new.

Lemma booted_console b w :
  frame_ok (b_uart b) UART_SIZE -> w_uart w = booted_uart b -> console_base (w_uart w) = b_uart b.
Proof.
  intros (Hb & _) ->. unfold console_base. cbn [UartState.base_addr booted_uart Pl011.init].
  by rewrite (proj2 (Z.eqb_neq _ 0)) by lia.
Qed.

(** Device initialisation. *)
Lemma exec_board_setups b w :
  (DtbTables.MAX_DEVICES <= fuel)%nat -> wf_tables (w_dtb w) ->
  describes (w_ram w) (w_dtb w) b -> board_settles b -> w_uart w = UartState.new ->
  exists w' t,
    init_devices (CONFIGURED_DEVICES fuel) w = Done tt w' /\ w_trace w' = w_trace w ++ t /\
    setup_events b t /\ w_ram w' = w_ram w /\ w_dtb w' = w_dtb w /\ w_gic w' = b_gic b /\
    w_uart w' = booted_uart b /\ w_rx w' = w_rx w.
Proof.
  intros Hfuel Hwf [(val & dg & du & dt & Hnodes & Hplan) Hg Hu Hspi Hppi] [Hwakes Hidle _] Huart.
  destruct (Hnodes w eq_refl eq_refl) as (Hval & Hgn & _).
  destruct (Hwakes (woken (b_gic b) w)) as (n & Hn & Hb).
  destruct (exec_gic_setup fuel dg (b_gic b) n w Hgn Hg Hb Hn)
    as (w1 & ctlr & wk & wakes & grpen & E1 & G1 & R1 & D1 & U1 & X1 & _ & T1).
  destruct (Hnodes w1 R1 D1) as (_ & _ & Hun & _).
  destruct (Hidle (uart_found w1 (b_uart b) (b_spi b) (b_spi_flags b) (b_clock b))) as (k & Hk & Hb2).
  rewrite <- G1 in Hg. rewrite <- Huart, <- U1 in Hu.
  destruct (exec_uart_setup fuel k w1 du _ _ _ _ Hun Hfuel Hg Hspi Hu Hb2 Hk)
    as (w2 & c & p & gr & polls & lcr & imsc & cr & E2 & U2 & R2 & D2 & G2 & X2 & _ & T2).
  destruct (Hnodes w2 (eq_trans R2 R1) (eq_trans D2 D1)) as (_ & _ & _ & Htn). rewrite <- G2 in Hg.
  destruct (exec_timer_setup_ppi fuel w2 dt _ _ Hg Htn Hfuel Hppi)
    as (w3 & c' & p' & gr' & e' & E3 & (R3 & D3 & G3 & U3 & X3) & T3).
  exists w3. eexists. split; [| split; [| split]].
  - rewrite (init_devices_runs_setups (CONFIGURED_DEVICES fuel) val w Hwf Hval), Hplan.
    unfold run_setups. cbn [for_each fst snd DeviceMatch.setup_fn].
    rewrite (bind_done _ _ _ _ _ E1), (bind_done _ _ _ _ _ E2), (bind_done _ _ _ _ _ E3). done.
  - rewrite T3, T2, T1, <- !app_assoc. reflexivity.
  - rewrite G2, G1, U1, Huart. do 15 eexists. reflexivity.
  - rewrite R3, R2, R1, D3, D2, D1, G3, G2, G1, U3, U2, U1, X3, X2, X1, Huart. done.
Qed.

(** Everything after device initialisation, up to the loop. *)
Lemma exec_bring_up b s w :
  image_ok (w_ram w) s -> w_uart w = booted_uart b -> frame_ok (b_uart b) UART_SIZE ->
  tx_drains fuel (b_uart b) ->
  exists w' m0 m1 m2 t1 sctlr t2 freq,
    (setup_mair_ranges ;; setup_identity_mapping fuel s ;; println fuel "Hello, from Rust" ;;
     println fuel "Arming the timer (1000ms)" ;; arm_ms 1000) w = Done tt w' /\
    says (b_uart b) (idmap_text s) t1 /\ says (b_uart b) greeting t2 /\
    w_trace w' = w_trace w ++ mair_events m0 m1 m2 ++ t1 ++ mmu_events (idmap_l0 s) sctlr ++ t2 ++
      arm_events freq /\
    identity_mapped (w_ram w') (idmap_l0 s) (page_count s) /\
    w_dtb w' = w_dtb w /\ w_gic w' = w_gic w /\ w_uart w' = w_uart w /\ w_rx w' = w_rx w.
Proof.
  intros (Hs & Hf & Hok) Hu Hfr Hd. pose proof (booted_console b w Hfr Hu) as Hbase.
  assert (console_up fuel w) as Hup.
  { split; [rewrite Hu; by unfold console_ok; rewrite <- Hu, Hbase | by rewrite Hbase]. }
  destruct (exec_setup_mair w) as (w1 & m0 & m1 & m2 & E1 & S1 & T1).
  pose proof S1 as (R1 & D1 & G1 & U1 & X1). rewrite <- R1 in Hok.
  destruct (exec_identity_map fuel s w1 Hs Hf Hok (console_up_same fuel _ _ S1 Hup))
    as (w2 & t1 & sctlr & E2 & Hmap & _ & T2 & F1 & B1 & _ & D2 & G2 & U2 & X2).
  assert (console_up fuel w2) as Hup2 by (unfold console_up; by rewrite U2, U1).
  destruct (prints_seq fuel _ _ _ _ (prints_println fuel "Hello, from Rust")
    (prints_println fuel "Arming the timer (1000ms)") w2 Hup2)
    as (w3 & E3 & (R3 & D3 & G3 & U3 & X3) & t2 & T3 & F2 & B2).
  rewrite U1, Hbase in F1, B1. rewrite U2, U1, Hbase in F2, B2.
  set (freq := peek_reg CNTFRQ_EL0 w3).
  assert (arm_ms 1000 w3 = Done tt (armed (wrap U32 (freq / 1000 * 1000)) (after_mrs CNTFRQ_EL0 w3))) as E4.
  { rewrite exec_arm_ms. fold freq. rewrite fitsb_true; [done |].
    pose proof (peek_reg_fits CNTFRQ_EL0 w3) as Hfq. fold freq in Hfq. unfold fits in *.
    pose proof (Z.div_pos freq 1000 ltac:(lia) ltac:(lia)).
    pose proof (Z.mul_div_le freq 1000 ltac:(lia)). lia. }
  exists (armed (wrap U32 (freq / 1000 * 1000)) (after_mrs CNTFRQ_EL0 w3)), m0, m1, m2, t1, sctlr, t2, freq.
  split; [| split; [done | split; [done | split; [| split]]]].
  - rewrite (bind_done _ _ _ _ _ E1), (bind_done _ _ _ _ _ E2), <- bind_bind.
    by rewrite (bind_done _ _ _ _ _ E3).
  - unfold armed, after_msr, after_mrs. cbn [w_trace log set_trace set_hw].
    rewrite T3, T2, T1, <- !app_assoc. reflexivity.
  - cbn [w_ram armed after_msr after_mrs log set_trace set_hw]. by rewrite R3.
  - cbn [w_dtb w_gic w_uart w_rx armed after_msr after_mrs log set_trace set_hw].
    by rewrite D3, D2, D1, G3, G2, G1, U3, U2, U1, X3, X2, X1.
Qed.

Lemma kmain_stages rounds s dtb_addr w w1 w2 w3 :
  parse_tables fuel dtb_addr w = Done tt w1 ->
  init_devices (CONFIGURED_DEVICES fuel) w1 = Done tt w2 ->
  (setup_mair_ranges ;; setup_identity_mapping fuel s ;; println fuel "Hello, from Rust" ;;
   println fuel "Arming the timer (1000ms)" ;; arm_ms 1000) w2 = Done tt w3 ->
  kmain fuel rounds s dtb_addr w = main_loop fuel rounds w3.
Proof.
  intros E1 E2 E3. rewrite kmain_boot.
  assert (boot_sequence fuel s dtb_addr w = Done tt w3) as E.
  { unfold boot_sequence, parse_dtb.
    by rewrite bind_bind, (bind_done _ _ _ _ _ E1), (bind_done _ _ _ _ _ E2). }
  by rewrite (bind_done _ _ _ _ _ E).
Qed.

(** C5: starting up: from the first instruction, given the blob of any tree that
    describes a GIC, a UART and a timer, any linked image, and devices that
    become ready within the polls allowed, the kernel reaches its main loop,
    with the tables of the tree, the addresses and the clock of the tree in the
    drivers' state, and page tables that map the identity.  On the way it makes
    exactly these accesses: controller, UART interrupt, UART, timer interrupt,
    memory attributes, the tables' messages, MMU, greeting, timer.  Console and
    receive buffer are then ready for a session. *)
Theorem start_reaches_main_loop rounds z evt c h tree b w :
  let dtb_addr := Head.x c 0%nat in
  let t := tree_tables (dtb_addr + FdtHeader.off_dt_struct h) tree in
  let s := symbols_of (link z) in
  FdtHeader.magic h = MAGIC -> blob_at (w_ram w) fuel dtb_addr h (tokens_of tree) -> tree_fits tree ->
  (DtbTables.MAX_DEVICES <= fuel)%nat ->
  describes (w_ram w) t b -> board_settles b -> links z -> loaded (w_ram w) (link z) ->
  w_dtb w = DtbTables.init -> w_uart w = UartState.new -> w_rx w = Mutex.new UartBuffer.init ->
  exists w' ev,
    Head.start fuel rounds (link z) evt c w = main_loop fuel rounds w' /\
    w_trace w' = w_trace w ++ ev /\ boot_events b s ev /\
    w_dtb w' = t /\ w_gic w' = b_gic b /\ w_uart w' = booted_uart b /\
    w_rx w' = Mutex.new UartBuffer.init /\
    identity_mapped (w_ram w') (idmap_l0 s) 2 /\ session_ok fuel w'.
Proof.
  intros dtb_addr t s Hm Hb Hfit Hfuel Hds Hst Hz Hld Hinit Hu Hx.
  pose proof (link_image_ok z (w_ram w) Hz Hld) as Him. fold s in Him.
  pose proof (exec_parse_tree fuel dtb_addr h tree w Hm Hb Hfit Hinit) as E1. fold t in E1.
  pose proof (wf_tree_tables fuel dtb_addr h tree w Hm Hb Hfit Hinit) as Hwf. fold t in Hwf.
  destruct (exec_board_setups b (set_dtb t w) Hfuel Hwf Hds Hst Hu)
    as (w2 & ev1 & E2 & T2 & Hev1 & R2 & D2 & G2 & U2 & X2).
  assert (frame_ok (b_uart b) UART_SIZE) as Hfr by (by destruct Hds as [_ _ [? _] _ _]).
  cbn [w_ram w_dtb w_rx w_trace set_dtb] in *. rewrite <- R2 in Him.
  destruct (exec_bring_up b s w2 Him U2 Hfr (bs_drains _ Hst))
    as (w3 & m0 & m1 & m2 & t1 & sctlr & t2 & freq & E3 & Ht1 & Ht2 & T3 & Hmap & D3 & G3 & U3 & X3).
  unfold s in Hmap. rewrite (link_page_count z Hz) in Hmap. fold s in Hmap.
  exists w3. eexists. split; [exact (kmain_stages rounds s _ _ _ _ _ E1 E2 E3) |].
  split; [by rewrite T3, T2, <- app_assoc |].
  split; [exists ev1, m0, m1, m2, t1, sctlr, t2, freq; done |].
  assert (w_uart w3 = booted_uart b) as U3' by by rewrite U3, U2.
  assert (w_rx w3 = Mutex.new UartBuffer.init) as X3' by by rewrite X3, X2, Hx.
  split; [by rewrite D3, D2 |]. split; [by rewrite G3, G2 |]. split; [done |]. split; [done |].
  split; [done |]. unfold session_ok. rewrite U3', X3'. split; [done |].
  split; [exact (bs_drains _ Hst) |]. split; [done | apply wf_init].
Qed.
End startup.
