(* ===== verification/BringUp.v ===== *)
(** * The end of start-up, interrupted at any access

    When the drivers are set up interrupts arrive, while [kmain] still has to
    set the memory attributes, build the page tables, turn the MMU on, greet and
    arm the timer.  This part is cut into its single accesses, those to the
    tables in memory included, as [Preempt] cuts the main loop. *)

From S2P Require Export Preempt Startup.

Local Open Scope Z_scope.
Local Open Scope kernel_scope.

Notation "x <~ t ;; k" := (tbind t (fun x => k))
  (at level 100, t at next level, right associativity, only parsing) : kernel_scope.
Notation "t ;~ k" := (tbind t (fun _ => k))
  (at level 100, right associativity, only parsing) : kernel_scope.

(** ** The code as tasks *)

Section tasks.
Context {HW : Hardware} (fuel : nat).

(** One action. *)
Definition lift {B} (c : M B) : task B := Act c Return.

Fixpoint for_each_task {A B} (l : list A) (acc : B) (body : B -> A -> task B) : task B :=
  match l with
  | [] => Return acc
  | x :: l => acc <~ body acc x ;; for_each_task l acc body
  end.

Definition configure_mair_range_task (conf range : Z) : task unit :=
  bits <~ lift (umul USIZE range 8) ;;
  conf_shifted <~ lift (ushl U64 conf bits) ;;
  tmp <~ lift (mrs MAIR_EL1) ;;
  lift (msr MAIR_EL1 (Z.lor tmp conf_shifted)) ;~
  lift (barrier_ins Isb).

Definition setup_mair_task : task unit :=
  configure_mair_range_task MAIR_DEVICE_NGNRNE MAIR_IDX_DEVICE ;~
  configure_mair_range_task MAIR_NORMAL_WB MAIR_IDX_NORMAL_WB ;~
  configure_mair_range_task MAIR_NORMAL_NC MAIR_IDX_NORMAL_NC.

Definition desc_or_task (desc bits : Z) : task unit :=
  v <~ lift (deref_u64 desc) ;;
  lift (assign_u64 desc (Z.lor v bits)).

Definition set_mair_range_task (desc idx : Z) : task unit :=
  bits <~ lift (ushl U64 (Z.land idx 7) ATTR_IDX_SHIFT) ;;
  desc_or_task desc bits.

Definition map_block_task (s : symbols) (j : nat) (i : Z) : task nat :=
  off <~ lift (ptr_add (idmap_l1 s) (i * 8)) ;;
  lift (assign_u64 off 0) ;~
  desc_or_task off 0x01 ;~
  idx <~ lift (arr_get ranges j) ;;
  set_mair_range_task off idx ;~
  (if (j =? 0)%nat then
     desc_or_task off
       (Z.lor (Z.lor (Z.lor (Z.lor DESC_UXN DESC_PXN) DESC_AF) DESC_SH_NONE) DESC_AP_RW_EL1)
   else desc_or_task off (Z.lor (Z.lor (Z.lor DESC_UXN DESC_AF) DESC_SH_INNER) DESC_AP_RW_EL1)) ;~
  addr <~ lift (umul USIZE i SZ_1G) ;;
  desc_or_task off (Z.land addr PAGE_MASK) ;~
  Return (if (j <? 1)%nat then S j else j).

(** [setup_identity_mapping] up to [load_ttbr0]: the tables in memory. *)
Definition tables_task (s : symbols) : task nat :=
  pages <~ lift (identity_pages s) ;;
  println_task fuel ("idmap_l0 addr " +:+ fmt_pointer (idmap_l0 s)) ;~
  desc_or_task (idmap_l0 s) 0x03 ;~
  desc_or_task (idmap_l0 s) (Z.lor TABLE_UXNTABLE TABLE_APTABLE0) ;~
  println_task fuel ("idmap_l1 addr " +:+ fmt_pointer (idmap_l1 s)) ;~
  desc_or_task (idmap_l0 s) (Z.land (idmap_l1 s) PAGE_MASK) ;~
  for_each_task (range pages) 0%nat (map_block_task s).

(** From there on: [load_ttbr0] and [enable_mmu]. *)
Definition mmu_task (s : symbols) : task unit :=
  lift (msr TTBR0_EL1 (idmap_l0 s)) ;~
  lift (barrier_ins Isb) ;~
  lift (barrier_ins TlbiVmalle1) ;~
  lift (barrier_ins DsbNsh) ;~
  lift (barrier_ins Isb) ;~
  lift (msr TCR_EL1 tcr_value) ;~
  lift (barrier_ins Isb) ;~
  tmp <~ lift (mrs SCTLR_EL1) ;;
  lift (msr SCTLR_EL1 (Z.lor tmp SCTLR_ELX_MMU)) ;~
  lift (barrier_ins Isb).

Definition arm_ms_task (ms : Z) : task unit :=
  freq <~ lift (mrs CNTFRQ_EL0) ;;
  q <~ lift (udiv freq 1000) ;;
  ticks <~ lift (umul U64 q ms) ;;
  lift (msr CNTP_TVAL_EL0 (wrap U32 ticks)) ;~
  lift (msr CNTP_CTL_EL0 CTL_ENABLE) ;~
  lift (barrier_ins Isb).

Definition greet_task : task unit :=
  println_task fuel "Hello, from Rust" ;~
  println_task fuel "Arming the timer (1000ms)" ;~
  arm_ms_task 1000.

(** ** Undivided, these are the functions of the code *)

Definition runs_as {A} (t : task A) (c : M A) : Prop := forall w, flat t w = c w.

Lemma runs_lift {B} (c : M B) : runs_as (lift c) c.
Proof. intros w. apply bind_ret_r. Qed.

Lemma runs_return {A} (a : A) : runs_as (Return a) (ret a).
Proof. done. Qed.

Lemma runs_bind {A B} (t : task A) (k : A -> task B) c h :
  runs_as t c -> (forall a, runs_as (k a) (h a)) -> runs_as (tbind t k) (bind c h).
Proof.
  intros Ht Hk w. rewrite flat_tbind, (bind_ext _ _ _ _ (Ht w)). apply bind_cong. intros a w1. apply Hk.
Qed.

Lemma runs_for_each {A B} (l : list A) (body : B -> A -> task B) (c : B -> A -> M B) :
  (forall acc x, runs_as (body acc x) (c acc x)) -> forall acc, runs_as (for_each_task l acc body) (for_each l acc c).
Proof.
  intros Hb. induction l as [| x l IH]; intros acc; [done |]. by apply runs_bind.
Qed.

Lemma runs_println s : runs_as (println_task fuel s) (println fuel s).
Proof. intros w. apply flat_write. Qed.
End tasks.

Create HintDb runs.
#[export] Hint Resolve runs_lift runs_return runs_println runs_for_each : runs.

(** Follows the structure of the code. *)
Ltac runs := repeat (apply runs_bind; [| intros ?]); eauto with runs.

Section flat.
Context {HW : Hardware} (fuel : nat).

Lemma runs_setup_mair : runs_as setup_mair_task setup_mair_ranges.
Proof.
  assert (forall conf r, runs_as (configure_mair_range_task conf r) (configure_mair_range conf r)) by (intros; runs).
  runs.
Qed.

Lemma runs_desc_or p bits : runs_as (desc_or_task p bits) (desc_or p bits).
Proof. runs. Qed.

#[local] Hint Resolve runs_desc_or : runs.

Lemma runs_map_block s j i : runs_as (map_block_task s j i) (map_block s j i).
Proof.
  assert (forall p r, runs_as (set_mair_range_task p r) (set_mair_range p r)) by (intros; runs).
  unfold map_block_task, map_block. runs; try apply runs_desc_or. destruct (j =? 0)%nat; apply runs_desc_or.
Qed.

Lemma runs_assoc {A B C} (t : task A) (k : A -> task B) (h : B -> task C) (c : M C) :
  runs_as (tbind t (fun a => tbind (k a) h)) c -> runs_as (tbind (tbind t k) h) c.
Proof.
  intros H w. rewrite <- H, !flat_tbind, (bind_ext _ _ _ _ (flat_tbind _ _ _)), bind_bind.
  apply bind_cong. intros a w1. by rewrite flat_tbind.
Qed.

Lemma runs_assoc_code {A B C} (t : task C) (c : M A) (k : A -> M B) (h : B -> M C) :
  runs_as t (bind c (fun a => bind (k a) h)) -> runs_as t (bind (bind c k) h).
Proof. intros H w. by rewrite H, bind_bind. Qed.

(** Follows the structure of task and code, both reassociated. *)
#[local] Ltac runs_flat :=
  repeat match goal with
  | |- runs_as (tbind (tbind _ _) _) _ => apply runs_assoc
  | |- runs_as _ (bind (bind _ _) _) => apply runs_assoc_code
  | |- runs_as (tbind _ _) (bind _ _) => apply runs_bind; [| intros ?]
  | |- runs_as (lift _) _ => apply runs_lift
  | |- runs_as (println_task _ _) _ => apply runs_println
  | |- runs_as (desc_or_task _ _) _ => apply runs_desc_or
  end.

Lemma runs_identity s : runs_as (tables_task fuel s ;~ mmu_task s) (setup_identity_mapping fuel s).
Proof.
  unfold tables_task, mmu_task, setup_identity_mapping, load_ttbr0, enable_mmu, configure_tcr.
  runs_flat.
  apply runs_for_each. intros. apply runs_map_block.
Qed.

(** All of it, from the end of the setups to the main loop, the part before
    the MMU is touched apart. *)
Definition before_mmu (s : symbols) : task nat := setup_mair_task ;~ tables_task fuel s.

Definition bring_up_task (s : symbols) : task unit := before_mmu s ;~ mmu_task s ;~ greet_task fuel.

Lemma runs_bring_up s :
  runs_as (bring_up_task s)
    (setup_mair_ranges ;; setup_identity_mapping fuel s ;; println fuel "Hello, from Rust" ;;
     println fuel "Arming the timer (1000ms)" ;; arm_ms 1000).
Proof.
  apply runs_assoc, runs_bind; [apply runs_setup_mair | intros _]. intros w.
  rewrite (flat_tbind (tables_task fuel s)).
  assert (runs_as (greet_task fuel) (println fuel "Hello, from Rust" ;;
    println fuel "Arming the timer (1000ms)" ;; arm_ms 1000)) as Hg
    by (unfold greet_task, arm_ms_task, arm_ms, get_frequency, arm, set_timer_value, set_ctl; runs_flat).
  rewrite <- (bind_ext _ _ _ _ (runs_identity s w)), (bind_ext _ _ _ _ (flat_tbind _ _ _)), bind_bind.
  apply bind_cong. intros _ w1. rewrite flat_tbind. apply bind_cong. intros _ w2. apply Hg.
Qed.
End flat.

(** ** Actions on memory only *)

(** A computation that reads and writes nothing but RAM: where it returns, it
    does the same in any world with that RAM. *)
Class RamOnly {HW : Hardware} {A} (c : M A) : Prop :=
  ram_only : forall w0 a w0', c w0 = Done a w0' ->
    w0' = set_ram (w_ram w0') w0 /\
    forall w, w_ram w = w_ram w0 -> c w = Done a (set_ram (w_ram w0') w).

Section ram_only.
Context {HW : Hardware}.

Lemma set_ram_same (w : world) : set_ram (w_ram w) w = w.
Proof. by destruct w. Qed.

#[export] Instance ram_ret {A} (a : A) : RamOnly (ret a).
Proof.
  intros w0 b w0' [= <- <-]. split; [by rewrite set_ram_same |]. intros w <-. by rewrite set_ram_same.
Qed.

#[export] Instance ram_panic {A} : RamOnly (@panic HW A).
Proof. by intros w0 a w0' E. Qed.

#[export] Instance ram_fault {A} : RamOnly (@fault HW A).
Proof. by intros w0 a w0' E. Qed.

#[export] Instance ram_gets : RamOnly (gets w_ram).
Proof.
  intros w0 b w0' [= <- <-]. split; [by rewrite set_ram_same |]. intros w E. unfold gets.
  by rewrite <- E, set_ram_same.
Qed.

#[export] Instance ram_modify f : RamOnly (modify (fun w => set_ram (f (w_ram w)) w)).
Proof. intros w0 b w0' [= <- <-]. split; [done |]. intros w E. unfold modify. by rewrite E. Qed.

#[export] Instance ram_bind {A B} (c : M A) (k : A -> M B) :
  RamOnly c -> (forall a, RamOnly (k a)) -> RamOnly (bind c k).
Proof.
  intros Hc Hk w0 b w2 E. unfold bind in E. destruct (c w0) as [a w1 | | |] eqn:E1; try done.
  destruct (Hc w0 a w1 E1) as [H1 H1']. destruct (Hk a w1 b w2 E) as [H2 H2']. split.
  - rewrite H2, H1. done.
  - intros w Hw. rewrite (bind_done _ _ _ _ _ (H1' w Hw)), H2'; [done | reflexivity].
Qed.

#[export] Instance ram_if {A} (b : bool) (c1 c2 : M A) :
  RamOnly c1 -> RamOnly c2 -> RamOnly (if b then c1 else c2).
Proof. by destruct b. Qed.

#[export] Instance ram_option {A B} (o : option A) (c1 : A -> M B) (c2 : M B) :
  (forall a, RamOnly (c1 a)) -> RamOnly c2 ->
  RamOnly (match o with Some a => c1 a | None => c2 end).
Proof. by destruct o. Qed.

#[export] Instance ram_load_bytes p n : RamOnly (load_bytes p n).
Proof. revert p. induction n as [| n IH]; intros p; cbn [load_bytes]; unfold load_byte; apply _. Qed.

#[export] Instance ram_deref p : RamOnly (deref_u64 p).
Proof. unfold deref_u64, load_le. apply _. Qed.

#[export] Instance ram_assign p v : RamOnly (assign_u64 p v).
Proof. unfold assign_u64, store_le. apply _. Qed.

#[export] Instance ram_ptr_add p n : RamOnly (ptr_add p n).
Proof. unfold ptr_add. apply _. Qed.

#[export] Instance ram_umul w a b : RamOnly (umul w a b).
Proof. unfold umul, checked. apply _. Qed.

#[export] Instance ram_udiv a b : RamOnly (udiv a b).
Proof. unfold udiv. apply _. Qed.

#[export] Instance ram_ushl w a n : RamOnly (ushl w a n).
Proof. unfold ushl. apply _. Qed.

#[export] Instance ram_arr_get {A} (l : list A) i : RamOnly (arr_get l i).
Proof. unfold arr_get. apply _. Qed.

#[export] Instance ram_identity_pages s : RamOnly (identity_pages s).
Proof. unfold identity_pages, usub, uadd, checked. apply _. Qed.

(** A task all of whose actions are. *)
Fixpoint ram_task {A} (t : task A) : Prop :=
  match t with Return _ => True | Act c k => RamOnly c /\ forall b, ram_task (k b) end.

Lemma ram_task_lift {B} (c : M B) : RamOnly c -> ram_task (lift c).
Proof. by split. Qed.

Lemma ram_task_bind {A B} (t : task A) (k : A -> task B) :
  ram_task t -> (forall a, ram_task (k a)) -> ram_task (tbind t k).
Proof.
  intros Ht Hk. induction t as [a | B' c k' IH]; [apply Hk |]. destruct Ht as [Hc Ht].
  split; [done |]. intros b. by apply IH.
Qed.

Lemma ram_task_for_each {A B} (l : list A) (body : B -> A -> task B) :
  (forall acc x, ram_task (body acc x)) -> forall acc, ram_task (for_each_task l acc body).
Proof. intros Hb. induction l as [| x l IH]; intros acc; [done |]. by apply ram_task_bind. Qed.

Lemma ram_task_desc_or p bits : ram_task (desc_or_task p bits).
Proof. apply ram_task_bind; [| intros v]; apply ram_task_lift; apply _. Qed.

Lemma ram_task_map_block s j i : ram_task (map_block_task s j i).
Proof.
  unfold map_block_task, set_mair_range_task.
  repeat match goal with
  | |- ram_task (tbind _ _) => apply ram_task_bind; [| intros ?]
  | |- ram_task (lift _) => apply ram_task_lift; apply _
  | |- ram_task (desc_or_task _ _) => apply ram_task_desc_or
  | |- ram_task (if ?b then _ else _) => destruct b
  end. done.
Qed.
End ram_only.

(** ** Tasks under preemption, access by access *)

Section goes.
Context {HW : Hardware} (fuel N : nat) (base : Z) (Hdrains : tx_drains N base).
Implicit Types (w : world) (ram : gmap Z byte).

#[local] Notation ready := (ready fuel base).
#[local] Notation passes := (passes fuel base).

(** From a ready world with memory [ram], with fuel as for [behaves], the task
    returns, and [R] holds of its result, its own accesses and the memory. *)
Definition goes {A} (t : task A) ram (R : A -> list event -> gmap Z byte -> Prop) : Prop :=
  forall sched w, ready w -> w_ram w = ram -> (N * S (sum_list sched) <= fuel)%nat ->
  exists a sched' w' own h, preempted fuel t sched w = Done (a, sched') w' /\ passes w w' own h /\
    (length (h ≫= beat_ids) + sum_list sched' = sum_list sched)%nat /\ R a own (w_ram w').

(** An action on its own. *)
Definition does {B} (c : M B) ram (R : B -> list event -> gmap Z byte -> Prop) : Prop :=
  forall w, ready w -> w_ram w = ram -> exists b w' own, c w = Done b w' /\ passes w w' own [] /\ R b own (w_ram w').

Lemma goes_return {A} (a : A) ram (R : A -> list event -> gmap Z byte -> Prop) :
  R a [] ram -> goes (Return a) ram R.
Proof.
  intros Ha sched w [Hok _] <- _. exists a, sched, w, [], []. split; [done |]. split; [by apply passes_refl | done].
Qed.

Lemma goes_weaken {A} (t : task A) ram (R Q : A -> list event -> gmap Z byte -> Prop) :
  goes t ram R -> (forall a o r, R a o r -> Q a o r) -> goes t ram Q.
Proof.
  intros Ht HQ sched w Hw Hr Hf. destruct (Ht sched w Hw Hr Hf) as (a & s' & w' & o & h & E & W & Hn & HR).
  exists a, s', w', o, h. auto.
Qed.

Lemma goes_act {A B} (c : M B) (k : B -> task A) ram R Q :
  does c ram R -> (forall b o r, R b o r -> goes (k b) r (fun a o' r' => Q a (o ++ o') r')) ->
  goes (Act c k) ram Q.
Proof.
  intros Hc Hk sched w Hw Hr Hf. pose proof (sum_sched sched) as Hsum. cbn [preempted].
  destruct (exec_interrupts_pass fuel base (default 0%nat (head sched)) w Hw) as (w1 & h1 & E1 & W1 & Er1 & Hn & Hw1).
  destruct (Hc w1 Hw1 (eq_trans Er1 Hr)) as (b & w2 & o2 & E2 & W2 & HR).
  pose proof (passes_trans _ _ _ _ _ _ _ _ _ W1 W2) as W12. rewrite app_nil_r in W12. cbn [app] in W12.
  destruct (Hk b o2 _ HR (tail sched) w2 (passes_ready _ _ _ _ _ _ Hw W12) eq_refl ltac:(nia))
    as (a & sched' & w3 & o3 & h3 & E3 & W3 & Hn3 & HQ).
  exists a, sched', w3, (o2 ++ o3), (h1 ++ h3).
  rewrite (bind_done _ _ _ _ _ E1), (bind_done _ _ _ _ _ E2). split; [done |].
  split; [by eapply passes_trans |]. rewrite bind_app, length_app. split; [lia | exact HQ].
Qed.

Lemma goes_bind {A B} (t : task A) (k : A -> task B) ram R Q :
  goes t ram R -> (forall a o r, R a o r -> goes (k a) r (fun b o' r' => Q b (o ++ o') r')) ->
  goes (tbind t k) ram Q.
Proof.
  intros Ht Hk sched w Hw Hr Hf. rewrite preempted_tbind.
  destruct (Ht sched w Hw Hr Hf) as (a & s1 & w1 & o1 & h1 & E1 & W1 & Hn1 & HR).
  destruct (Hk a o1 _ HR s1 w1 (passes_ready _ _ _ _ _ _ Hw W1) eq_refl ltac:(nia))
    as (b & s2 & w2 & o2 & h2 & E2 & W2 & Hn2 & HQ).
  exists b, s2, w2, (o1 ++ o2), (h1 ++ h2). rewrite (bind_done _ _ _ _ _ E1). split; [done |].
  split; [by eapply passes_trans |]. rewrite bind_app, length_app. split; [lia | exact HQ].
Qed.

Lemma goes_lift {B} (c : M B) ram R : does c ram R -> goes (lift c) ram R.
Proof. intros Hc. apply (goes_act _ _ _ _ _ Hc). intros b o r HR. apply goes_return. by rewrite app_nil_r. Qed.

(** *** Memory *)

(** What the task does undivided to a memory, it does to it interrupted. *)
Lemma goes_ram {A} (t : task A) w0 a w1 :
  ram_task t -> flat t w0 = Done a w1 ->
  goes t (w_ram w0) (fun b o r => b = a /\ o = [] /\ r = w_ram w1).
Proof.
  revert w0. induction t as [a' | B c k IH]; intros w0.
  - intros _ [= <- <-]. by apply goes_return.
  - intros [Hc Hk] E. cbn [flat] in E. unfold bind in E. destruct (c w0) as [b w2 | | |] eqn:E2; try done.
    destruct (ram_only w0 b w2 E2) as [_ H2].
    apply (goes_act c k _ (fun b' o r => b' = b /\ o = [] /\ r = w_ram w2)).
    + intros w Hw Hr. exists b, (set_ram (w_ram w2) w), []. split; [by apply H2 |]. split; [| done].
      exists []. rewrite app_nil_r. split; [done |]. split; [constructor |]. split; [done |].
      split; [done | apply Hw].
    + intros b' o r (-> & -> & ->). apply (IH b w2 (Hk b) E).
Qed.

Lemma goes_pure {B} (c : M B) b ram :
  (forall w, c w = Done b w) -> goes (lift c) ram (fun x o r => x = b /\ o = [] /\ r = ram).
Proof.
  intros E. apply goes_lift. intros w Hw Hr. exists b, w, []. split; [apply E |].
  split; [by apply passes_refl, Hw | done].
Qed.

(** *** Registers *)

Lemma goes_mrs r ram : goes (lift (mrs r)) ram (fun v o ram' => fits U64 v /\ o = [Mrs r v] /\ ram' = ram).
Proof.
  apply goes_lift. intros w [Hok _] Hr. exists (peek_reg r w), (after_mrs r w), [Mrs r (peek_reg r w)].
  split; [done |]. split; [by apply passes_event |]. split; [apply peek_reg_fits | done].
Qed.

Lemma goes_msr r v ram : goes (lift (msr r v)) ram (fun _ o ram' => o = [Msr r v] /\ ram' = ram).
Proof.
  apply goes_lift. intros w [Hok _] Hr. exists tt, (after_msr r v w), [Msr r v].
  split; [done |]. split; [by apply passes_event | done].
Qed.

Lemma goes_barrier b ram : goes (lift (barrier_ins b)) ram (fun _ o ram' => o = [Barrier b] /\ ram' = ram).
Proof.
  apply goes_lift. intros w [Hok _] Hr. exists tt, (log (Barrier b) w), [Barrier b].
  split; [done |]. split; [by apply passes_event | done].
Qed.

(** *** The console *)

Lemma goes_putchar c ram :
  goes (putchar_task fuel c) ram (fun _ o r => Forall (console_event base) o /\ tx_of base o = [c] /\ r = ram).
Proof.
  apply (goes_act _ _ _ (fun u o r => console_base u = base /\ o = [] /\ r = ram)).
  { intros w Hw Hr. exists (w_uart w), w, []. split; [done |]. split; [by apply passes_refl, Hw |].
    split; [| done]. destruct Hw as [Hok Hb]. by rewrite (session_console fuel w Hok). }
  intros u o r (Hu & -> & ->). cbv zeta. rewrite Hu. cbn [app].
  apply (goes_bind _ _ _ (fun _ o r => Forall (fun e => exists v, e = Read32 (base + FR_OFF) v) o /\ r = ram)).
  { intros sched w Hw Hr Hf.
    destruct (exec_wait_ready fuel N base Hdrains sched w Hw Hf) as (s' & w' & own & h & E & W & Er & Hl & Ho).
    exists tt, s', w', own, h. split; [done |]. split; [done |]. split; [done |]. split; [done | by rewrite Er]. }
  intros [] o r [Ho ->]. apply (goes_act _ _ _ (fun _ o r => o = [Write32 (base + DR_OFF) c] /\ r = ram)).
  { intros w Hw Hr. pose proof (ready_frame _ _ _ Hdrains w Hw) as Hfr.
    exists tt, (after_write (base + DR_OFF) c w), [Write32 (base + DR_OFF) c].
    split; [apply exec_write_mmio32; uart_side |]. split; [by apply passes_event; [| | apply Hw] | done]. }
  intros [] o' r [-> ->]. apply goes_return. rewrite app_nil_r. split; [| split; [| done]].
  - apply Forall_app. split; [| by apply Forall_singleton].
    eapply Forall_impl; [exact Ho |]. by intros e [v ->].
  - rewrite tx_of_app. assert (tx_of base o = []) as ->.
    { clear -Ho. induction Ho as [| e o [v ->] _ IH]; [done |]. exact IH. }
    unfold tx_of. cbn. by rewrite Z.eqb_refl.
Qed.

Lemma goes_write cs ram :
  goes (write_task fuel cs) ram (fun _ o r => Forall (console_event base) o /\ tx_of base o = cs /\ r = ram).
Proof.
  induction cs as [| c cs IH]; [by apply goes_return |].
  apply (goes_bind _ _ _ _ _ (goes_putchar c ram)). intros [] o r (Ho & Ht & ->).
  eapply goes_weaken; [exact IH |]. intros [] o' r (Ho' & Ht' & ->).
  rewrite Forall_app, tx_of_app, Ht, Ht'. done.
Qed.

Lemma goes_println s ram : goes (println_task fuel s) ram (fun _ o r => says base (s +:+ newline) o /\ r = ram).
Proof. eapply goes_weaken; [apply goes_write |]. intros [] o r (Ho & Ht & ->). by split. Qed.

Lemma says_app s1 s2 t1 t2 : says base s1 t1 -> says base s2 t2 -> says base (s1 +:+ s2) (t1 ++ t2).
Proof. intros [F1 B1] [F2 B2]. split; [by apply Forall_app | by rewrite tx_of_app, bytes_of_app, B1, B2]. Qed.

(** ** The stages *)

Lemma goes_configure_mair conf range ram :
  0 <= range < 8 ->
  goes (configure_mair_range_task conf range) ram (fun _ o r =>
    exists m, o = [Mrs MAIR_EL1 m; Msr MAIR_EL1 (Z.lor m (shl U64 conf (range * 8))); Barrier Isb] /\ r = ram).
Proof.
  intros Hr.
  apply (goes_bind _ _ _ _ _ (goes_pure (umul USIZE range 8) (range * 8) _ ltac:(intros w; apply exec_umul; solve_fits))).
  intros _ _ _ (-> & -> & ->).
  apply (goes_bind _ _ _ _ _ (goes_pure (ushl U64 conf (range * 8)) (shl U64 conf (range * 8)) _
    ltac:(intros w; apply exec_ushl; unfold U64; lia))). intros _ _ _ (-> & -> & ->).
  apply (goes_bind _ _ _ _ _ (goes_mrs _ _)). intros m _ _ (_ & -> & ->).
  apply (goes_bind _ _ _ _ _ (goes_msr _ _ _)). intros _ _ _ (-> & ->).
  eapply goes_weaken; [apply goes_barrier |]. intros _ _ _ (-> & ->). by exists m.
Qed.

Lemma goes_setup_mair ram :
  goes setup_mair_task ram (fun _ o r => exists m0 m1 m2, o = mair_events m0 m1 m2 /\ r = ram).
Proof.
  apply (goes_bind _ _ _ _ _ (goes_configure_mair _ MAIR_IDX_DEVICE _ ltac:(done))). intros _ _ _ (m0 & -> & ->).
  apply (goes_bind _ _ _ _ _ (goes_configure_mair _ MAIR_IDX_NORMAL_WB _ ltac:(done))). intros _ _ _ (m1 & -> & ->).
  eapply goes_weaken; [by apply goes_configure_mair |]. intros _ _ _ (m2 & -> & ->). by exists m0, m1, m2.
Qed.

(** The tables, from any memory in which their words are as the linker leaves
    them. *)
Lemma goes_tables s w0 :
  let n := page_count s in
  0 <= kernel_start s <= sym_stack_top s -> sym_stack_top s - kernel_start s + 0x1000000 < 2 ^ 64 ->
  tables_ok (w_ram w0) s n ->
  goes (tables_task fuel s) (w_ram w0) (fun _ o r => says base (idmap_text s) o /\ identity_mapped r (idmap_l0 s) n).
Proof.
  intros n Hs Hf [H0 Hl1]. pose proof (ok_count _ _ _ Hl1) as Hn.
  destruct (table_desc_output _ (ok_page _ _ _ Hl1) (ok_pa _ _ _ Hl1)) as (_ & _ & Hfits).
  assert (fits USIZE (idmap_l1 s)) as Hfit
    by (pose proof (ok_pa _ _ _ Hl1); unfold fits, USIZE; change (2 ^ 64) with (2 ^ 16 * 2 ^ 48); lia).
  set (u := Z.lor 3 (Z.lor TABLE_UXNTABLE TABLE_APTABLE0)).
  set (w1 := set_word (idmap_l0 s) u w0). set (w2 := set_word (idmap_l0 s) (table_desc (idmap_l1 s)) w1).
  assert (word_at (w_ram w1) (idmap_l0 s) u) as Hw1 by by apply (word_at_set _ 0).
  assert (word_at (w_ram w2) (idmap_l0 s) (table_desc (idmap_l1 s))) as Hw2 by by apply (word_at_set _ u).
  assert (l1_ok (w_ram w2) s n) as Hl2 by (apply (l1_ok_set_l0 s n u); [done |]; by apply (l1_ok_set_l0 s n 0)).
  apply (goes_bind _ _ _ _ _ (goes_pure (identity_pages s) n _ ltac:(intros w; by apply exec_identity_pages))).
  intros _ _ _ (-> & -> & ->).
  apply (goes_bind _ _ _ _ _ (goes_println _ _)). intros _ t1 _ [Ht1 ->].
  assert (flat (desc_or_task (idmap_l0 s) 3) w0 = Done tt (set_word (idmap_l0 s) 3 w0)) as E1
    by (rewrite runs_desc_or; by apply (exec_desc_or _ 0)).
  apply (goes_bind _ _ _ _ _ (goes_ram _ _ _ _ (ram_task_desc_or _ _) E1)). intros _ _ _ (_ & -> & ->).
  assert (flat (desc_or_task (idmap_l0 s) (Z.lor TABLE_UXNTABLE TABLE_APTABLE0)) (set_word (idmap_l0 s) 3 w0) =
    Done tt w1) as E2 by (rewrite runs_desc_or; by eapply exec_desc_or_set).
  apply (goes_bind _ _ _ _ _ (goes_ram _ _ _ _ (ram_task_desc_or _ _) E2)). intros _ _ _ (_ & -> & ->).
  apply (goes_bind _ _ _ _ _ (goes_println _ _)). intros _ t2 _ [Ht2 ->].
  assert (flat (desc_or_task (idmap_l0 s) (Z.land (idmap_l1 s) PAGE_MASK)) w1 = Done tt w2) as E3
    by (rewrite runs_desc_or, page_mask_aligned by (apply Hl1 || done); by apply (exec_desc_or _ u)).
  apply (goes_bind _ _ _ _ _ (goes_ram _ _ _ _ (ram_task_desc_or _ _) E3)). intros _ _ _ (_ & -> & ->).
  pose proof (exec_blocks s n 0 (Z.to_nat n) w2 Hl2 ltac:(lia)) as E4.
  rewrite <- (runs_for_each _ (map_block_task s) (map_block s) (runs_map_block s)) in E4.
  eapply goes_weaken; [apply (goes_ram _ _ _ _ (ram_task_for_each _ _ (ram_task_map_block s) _) E4) |].
  intros _ _ _ (_ & -> & ->). split; [| exact (blocks_identity s n w2 Hl2 Hw2)].
  rewrite app_nil_r. exact (says_app _ _ _ _ Ht1 Ht2).
Qed.

Lemma goes_mmu s ram :
  goes (mmu_task s) ram (fun _ o r => exists sctlr, o = mmu_events (idmap_l0 s) sctlr /\ r = ram).
Proof.
  unfold mmu_task.
  repeat match goal with
  | |- goes (tbind (lift (msr _ _)) _) _ _ =>
      apply (goes_bind _ _ _ _ _ (goes_msr _ _ _)); intros _ _ _ (-> & ->)
  | |- goes (tbind (lift (barrier_ins _)) _) _ _ =>
      apply (goes_bind _ _ _ _ _ (goes_barrier _ _)); intros _ _ _ (-> & ->)
  end.
  apply (goes_bind _ _ _ _ _ (goes_mrs _ _)). intros v _ _ (_ & -> & ->).
  apply (goes_bind _ _ _ _ _ (goes_msr _ _ _)). intros _ _ _ (-> & ->).
  eapply goes_weaken; [apply goes_barrier |]. intros _ _ _ (-> & ->). by exists v.
Qed.

Lemma goes_greet ram :
  goes (greet_task fuel) ram (fun _ o r => exists t freq, o = t ++ arm_events freq /\ says base greeting t /\ r = ram).
Proof.
  apply (goes_bind _ _ _ _ _ (goes_println _ _)). intros _ t1 _ [Ht1 ->].
  apply (goes_bind _ _ _ _ _ (goes_println _ _)). intros _ t2 _ [Ht2 ->].
  apply (goes_bind _ _ _ _ _ (goes_mrs _ _)). intros f _ _ (Hfq & -> & ->).
  apply (goes_bind _ _ _ _ _ (goes_pure (udiv f 1000) (f / 1000) _ ltac:(intros w; by apply exec_udiv))).
  intros _ _ _ (-> & -> & ->).
  assert (0 <= f / 1000 * 1000 < 2 ^ 64) as Hq.
  { unfold fits, U64 in Hfq. pose proof (Z.div_pos f 1000 ltac:(lia) ltac:(lia)).
    pose proof (Z.mul_div_le f 1000 ltac:(lia)). lia. }
  apply (goes_bind _ _ _ _ _ (goes_pure (umul U64 (f / 1000) 1000) (f / 1000 * 1000) _ ltac:(intros w; by apply exec_umul))).
  intros _ _ _ (-> & -> & ->).
  do 2 (apply (goes_bind _ _ _ _ _ (goes_msr _ _ _)); intros _ _ _ (-> & ->)).
  eapply goes_weaken; [apply goes_barrier |]. intros _ _ _ (-> & ->).
  exists (t1 ++ t2), f. split; [by rewrite <- app_assoc |]. split; [| done]. by apply says_app.
Qed.

Lemma goes_before_mmu s w0 :
  image_ok (w_ram w0) s ->
  goes (before_mmu fuel s) (w_ram w0) (fun _ o r =>
    (exists m0 m1 m2 c, o = mair_events m0 m1 m2 ++ c /\ says base (idmap_text s) c) /\
    identity_mapped r (idmap_l0 s) (page_count s)).
Proof.
  intros (Hs & Hf & Hok). apply (goes_bind _ _ _ _ _ (goes_setup_mair _)). intros _ _ _ (m0 & m1 & m2 & -> & ->).
  eapply goes_weaken; [by apply goes_tables |]. intros _ c r [Hc Hr]. split; [| exact Hr]. by exists m0, m1, m2, c.
Qed.

Lemma goes_after_mmu s ram :
  goes (mmu_task s ;~ greet_task fuel) ram (fun _ o r =>
    (exists sctlr c freq, o = mmu_events (idmap_l0 s) sctlr ++ c ++ arm_events freq /\ says base greeting c) /\ r = ram).
Proof.
  apply (goes_bind _ _ _ _ _ (goes_mmu s _)). intros _ _ _ (sctlr & -> & ->).
  eapply goes_weaken; [apply goes_greet |]. intros _ o r (c & freq & -> & Hc & ->). split; [| done].
  by exists sctlr, c, freq.
Qed.
End goes.

(** ** Theorem *)

(** C8: from the end of the setups to the main loop, with interrupts between any
    two accesses, those to the page tables included: for every schedule, with
    fuel for [N] polls and [N] more per interrupt, [kmain] reaches its loop.
    Before it touches the MMU it has made its own accesses to the memory
    attributes and the console, in order, and the tables in memory map the
    identity; then TTBR0, TCR and SCTLR are written with their barriers, the
    greeting is sent and the timer armed, and the tables stay as they are.
    Between these accesses lie only whole runs of the handler, each of which
    acknowledges its interrupt and queues its byte or prints its line; what they
    queued is there when the main loop begins.  Without interrupts this is the
    code. *)
Theorem preempted_bring_up {HW : Hardware} fuel N s sched (w : world) :
  let base := UartState.base_addr (w_uart w) in
  session_ok fuel w -> image_ok (w_ram w) s -> tx_drains N base -> (N * S (sum_list sched) <= fuel)%nat ->
  (exists j sched1 w1 h1 m0 m1 m2 c1 sched2 w2 h2 sctlr c2 freq,
    preempted fuel (before_mmu fuel s) sched w = Done (j, sched1) w1 /\
    passes fuel base w w1 (mair_events m0 m1 m2 ++ c1) h1 /\ says base (idmap_text s) c1 /\
    identity_mapped (w_ram w1) (idmap_l0 s) (page_count s) /\
    preempted fuel (bring_up_task fuel s) sched w = Done (tt, sched2) w2 /\
    passes fuel base w1 w2 (mmu_events (idmap_l0 s) sctlr ++ c2 ++ arm_events freq) h2 /\ says base greeting c2 /\
    w_ram w2 = w_ram w1 /\
    (length ((h1 ++ h2) ≫= beat_ids) + sum_list sched2 = sum_list sched)%nat /\
    replay (h1 ++ h2) (queue w) = Some (queue w2) /\ session_ok fuel w2) /\
  (forall w, preempted fuel (bring_up_task fuel s) [] w =
     (_ <- (setup_mair_ranges ;; setup_identity_mapping fuel s ;; println fuel "Hello, from Rust" ;;
            println fuel "Arming the timer (1000ms)" ;; arm_ms 1000) ;; ret (tt, [])) w).
Proof.
  intros base Hok Him Hd Hf. split.
  - destruct (goes_before_mmu fuel N base Hd s w Him sched w (conj Hok eq_refl) eq_refl Hf)
      as (j & s1 & w1 & o1 & h1 & E1 & W1 & Hn1 & (m0 & m1 & m2 & c1 & -> & Hc1) & Hmap).
    pose proof (passes_ready _ _ _ _ _ _ (conj Hok eq_refl) W1) as Hw1.
    destruct (goes_after_mmu fuel N base Hd s (w_ram w1) s1 w1 Hw1 eq_refl ltac:(nia))
      as ([] & s2 & w2 & o2 & h2 & E2 & W2 & Hn2 & (sctlr & c2 & freq & -> & Hc2) & Er).
    pose proof (passes_trans _ _ _ _ _ _ _ _ _ W1 W2) as (t & _ & _ & Hq & _ & Hok2).
    exists j, s1, w1, h1, m0, m1, m2, c1, s2, w2, h2, sctlr, c2, freq.
    do 4 (split; [done |]). split.
    { unfold bring_up_task. rewrite preempted_tbind, (bind_done _ _ _ _ _ E1). exact E2. }
    do 3 (split; [done |]). rewrite bind_app, length_app. split; [lia |]. by split.
  - intros w1. rewrite preempted_nil, (bind_ext _ _ _ _ (runs_bring_up fuel s w1)).
    apply bind_cong. by intros [] w2.
Qed.
