(* ===== verification/Boot.v ===== *)
(** * The kernel on the virt board

    [kmain] run on the blob of [Demo], on a machine with a counter frequency,
    interrupts, a keyboard and devices that are never busy; and the theorems of
    [Session], [DtbInit] and [LockRefine] applied there. *)

From S2P Require Export Demo LockRefine Startup Preempt BringUp.

Local Open Scope Z_scope.
Local Open Scope kernel_scope.

(** The state is a script: the interrupt ids the controller presents and the
    bytes that are typed, in the order in which they are read.  Every other
    register reads 0, except the counter frequency. *)
Definition typing : Hardware := {|
  hw_state := list Z;
  hw_read32 a h := if a =? 0x09000000 then (default 0 (head h), tail h) else (0, h);
  hw_write32 _ _ h := h;
  hw_write64 _ _ h := h;
  hw_mrs r h :=
    match r with
    | CNTFRQ_EL0 => (62500000, h)
    | ICC_IAR1_EL1 => (default 1023 (head h), tail h)
    | _ => (0, h)
    end;
  hw_msr _ _ h := h;
  hw_daifset _ h := h;
|}.

(** The blob, and the zeroed page tables. *)
Definition boot_ram : gmap Z byte := virt_ram ∪ virt_table_ram.

Definition reset_world (input : list Z) : @world typing := @boot_world typing input boot_ram.

(** The world in which the main loop starts. *)
Definition booted (input : list Z) : @world typing :=
  match @boot_sequence typing virt_fuel virt_symbols virt_dtb (reset_world input) with
  | Done _ w => w
  | _ => reset_world input
  end.

Lemma boot_reaches_loop input :
  @boot_sequence typing virt_fuel virt_symbols virt_dtb (reset_world input) = Done tt (booted input).
Proof.
  unfold booted.
  assert (match @boot_sequence typing virt_fuel virt_symbols virt_dtb (reset_world input) with
          | Done _ _ => true | _ => false end = true) as H by (vm_compute; reflexivity).
  by destruct (boot_sequence _ _ _ _) as [[] w | | |].
Qed.

(** The accesses that are not the console's. *)
Definition device_events (base : Z) (t : list event) : list event :=
  filter (fun e => negb (match e with
                         | Read32 a _ => a =? base + FR_OFF
                         | Write32 a _ => a =? base + DR_OFF
                         | _ => false end) = true) t.

Lemma typing_drains fuel (w : @world typing) :
  w_uart w = virt_uart_state -> (0 < fuel)%nat -> @tx_drains typing fuel (UartState.base_addr (w_uart w)).
Proof.
  intros Hu Hf. rewrite Hu. intros w1. exists 0%nat. split; [lia |].
  split; [| reflexivity]. intros k Hk. lia.
Qed.

Lemma typing_session_ok fuel (w : @world typing) :
  w_uart w = virt_uart_state -> Mutex.lock (w_rx w) = false ->
  wf (Mutex.data (w_rx w)) -> (0 < fuel)%nat -> @session_ok typing fuel w.
Proof.
  intros Hu Hl Hwf Hf. split; [rewrite Hu; by_decision |]. split; [by apply typing_drains | by split].
Qed.

Lemma booted_session_ok fuel input : (0 < fuel)%nat -> @session_ok typing fuel (booted input).
Proof.
  intros Hf. apply typing_session_ok; [vm_compute; reflexivity.. | | exact Hf].
  replace (Mutex.data (w_rx (booted input))) with UartBuffer.init by (vm_compute; reflexivity).
  apply wf_init.
Qed.

(** The device accesses of a boot on the board: the interrupt controller, the
    UART's interrupt (33) and the UART, the timer's interrupt (30), memory
    attributes, page tables and MMU, the timer. *)
Definition virt_boot_events : list event :=
  [Read32 0x08000000 0; Write32 0x08000000 6; Barrier DsbSy;
   Read32 0x080A0014 0; Write32 0x080A0014 0; Barrier DsbSy; Read32 0x080A0014 0;
   Msr ICC_PMR_EL1 255; Mrs ICC_IGRPEN1_EL1 0; Msr ICC_IGRPEN1_EL1 1; Barrier Isb] ++
  [Read32 0x08000C08 0; Write32 0x08000C08 0; Barrier DsbSy;
   Read32 0x08000420 0; Write32 0x08000420 0; Barrier DsbSy;
   Read32 0x08000084 0; Write32 0x08000084 2; Barrier DsbSy;
   Write64 0x08006208 0; Barrier DsbSy; Write32 0x08000104 2; Barrier DsbSy] ++
  [Write32 0x09000030 0; Read32 0x0900002C 0; Write32 0x0900002C 0;
   Write32 0x09000024 13; Write32 0x09000028 1; Write32 0x0900002C 0x70;
   Read32 0x09000038 0; Write32 0x09000038 0x10; Write32 0x09000048 1;
   Read32 0x09000030 0; Write32 0x09000030 0x201] ++
  [Read32 0x080B0C04 0; Write32 0x080B0C04 0; Barrier DsbSy;
   Read32 0x080B041C 0; Write32 0x080B041C 0; Barrier DsbSy;
   Read32 0x080B0080 0; Write32 0x080B0080 (2 ^ 30); Barrier DsbSy;
   Read32 0x080B0100 0; Write32 0x080B0100 (2 ^ 30); Barrier DsbSy] ++
  [Mrs MAIR_EL1 0; Msr MAIR_EL1 0; Barrier Isb; Mrs MAIR_EL1 0; Msr MAIR_EL1 0xFF0000; Barrier Isb;
   Mrs MAIR_EL1 0; Msr MAIR_EL1 0x4400; Barrier Isb] ++
  mmu_events 0x50020000 0 ++
  [Mrs CNTFRQ_EL0 62500000; Msr CNTP_TVAL_EL0 62500000; Msr CNTP_CTL_EL0 1; Barrier Isb].

Definition virt_boot_text : string :=
  "idmap_l0 addr 0x50020000" +:+ newline +:+ "idmap_l1 addr 0x50021000" +:+ newline +:+
  "Hello, from Rust" +:+ newline +:+ "Arming the timer (1000ms)" +:+ newline.

(** Booting on the virt board: [kmain] reaches its main loop with the
    tables of the tree, the addresses and the clock of the tree in the
    drivers' state, after exactly these device accesses in this order, having
    printed these four lines; nothing typed in the meantime is lost, and
    console and receive buffer are ready. *)
Theorem kmain_boots_on_virt input rounds :
  @kmain typing virt_fuel rounds virt_symbols virt_dtb (reset_world input) =
    @main_loop typing virt_fuel rounds (booted input) /\
  w_dtb (booted input) = virt_tables /\ w_gic (booted input) = virt_gic /\
  w_uart (booted input) = virt_uart_state /\ w_hw (booted input) = input /\
  device_events 0x09000000 (w_trace (booted input)) = virt_boot_events /\
  tx_of 0x09000000 (w_trace (booted input)) = bytes_of virt_boot_text /\
  @session_ok typing 1 (booted input).
Proof.
  split. { by rewrite kmain_boot, (bind_done _ _ _ _ _ (boot_reaches_loop input)). }
  do 6 (split; [vm_compute; reflexivity |]).
  apply booted_session_ok. lia.
Qed.

(** ** Witnesses *)

(** The calls that the tree of the board determines. *)
Definition virt_bytes (p : Property.t) : list byte :=
  (fun i => default Byte.x00 (virt_ram !! (Property.value p + Z.of_nat i))) <$>
    seq 0 (Z.to_nat (Property.len p)).

Lemma virt_compatibles : compatibles_at virt_bytes virt_ready.
Proof.
  assert (Forall (fun d => Forall (fun p => Property.name p = "compatible"%string ->
    value_at virt_ram p (virt_bytes p)) (valid_props d)) (DtbTables.DEVICE_TABLE virt_tables)) as H
    by by_decision.
  intros d p Hd Hp. rewrite Forall_forall in H. specialize (H d Hd).
  rewrite Forall_forall in H. by apply H.
Qed.

Lemma virt_plan {HW : Hardware} (f g h : PlatformDevice.t -> M unit) :
  plan [DeviceMatch.mk _ "arm,gic-v3" f; DeviceMatch.mk _ "arm,pl011" g;
        DeviceMatch.mk _ "arm,armv7-timer" h] virt_bytes virt_tables =
  [(DeviceMatch.mk _ "arm,gic-v3" f, virt_device 3); (DeviceMatch.mk _ "arm,pl011" g, virt_device 2);
   (DeviceMatch.mk _ "arm,armv7-timer" h, virt_device 4)].
Proof. vm_compute. reflexivity. Qed.

(** First the interrupt controller, then UART and timer in table order. *)
Lemma init_devices_runs_plan_witness :
  init_devices (@CONFIGURED_DEVICES quiet virt_fuel) virt_ready =
    run_setups
      [(DeviceMatch.mk _ "arm,gic-v3" (Gicv3.setup virt_fuel), virt_device 3);
       (DeviceMatch.mk _ "arm,pl011" (Pl011.setup virt_fuel), virt_device 2);
       (DeviceMatch.mk _ "arm,armv7-timer" (ArchTimer.setup virt_fuel), virt_device 4)] virt_ready.
Proof.
  rewrite <- virt_plan.
  exact (init_devices_runs_plan (@CONFIGURED_DEVICES quiet virt_fuel) virt_bytes virt_ready
    virt_tables_wf virt_compatibles).
Defined.

(** The board, as its tree describes it, and as the machine behaves. *)
Definition virt_board : board := mkBoard virt_gic 0x09000000 1 4 24000000 14 0x104.

Lemma virt_ram_boot : virt_ram ⊆ boot_ram.
Proof. apply map_union_subseteq_l. Qed.

Lemma virt_gic_described {HW : Hardware} (w : world) :
  virt_ram ⊆ w_ram w -> w_dtb w = virt_tables -> gic_node w (virt_device 3) virt_gic.
Proof.
  intros Er Ed. split; [apply virt_device_wf |].
  exists 2, 2, (virt_property 3 "reg"), (be_split 4 <$> [0; 0x08000000]), (be_split 4 <$> [0; 0x10000]),
    (be_split 4 <$> [0; 0x080A0000]), (be_split 4 <$> [0; 0xF60000]).
  split; [by apply virt_get_parent_cells; [.. | lia] |]. split; [vm_compute; reflexivity |].
  split; [eapply cells_at_mono; [exact Er | unfold cells_at; by_decision] |].
  do 3 (split; [reflexivity |]). split; [unfold U32; lia | vm_compute; reflexivity].
Qed.

Lemma virt_described : @describes typing virt_fuel boot_ram virt_tables virt_board.
Proof.
  split.
  - exists virt_bytes, (virt_device 3), (virt_device 2), (virt_device 4). split; [| apply virt_plan].
    intros w Er Ed. assert (virt_ram ⊆ w_ram w) as Hr by (rewrite Er; exact virt_ram_boot).
    split; [| split; [by apply virt_gic_described | split; [by apply virt_uart_node | by apply virt_timer_node]]].
    intros d p Hd Hp Hn. rewrite Ed in Hd. eapply value_at_mono; [exact Hr |].
    exact (virt_compatibles d p Hd Hp Hn).
  - exact virt_gic_wf.
  - exact virt_uart_config_ok.
  - cbn. lia.
  - cbn. lia.
Qed.

(** A register that always reads 0 has its waits end at once. *)
Lemma typing_settles a mask : a <> 0x09000000 -> @settles typing virt_fuel a mask.
Proof.
  intros Ha w. exists 0%nat. split; [unfold virt_fuel; lia |]. split; [lia |].
  unfold peek32. cbn [hw_read32 typing after_reads Nat.iter nat_rect].
  by rewrite (proj2 (Z.eqb_neq _ _) Ha).
Qed.

Lemma boot_loaded : loaded boot_ram (link virt_sections).
Proof.
  split; [| exists 0, 0; split];
    (split; [done |]; split; [done |]; split; [solve_fits |]; by_decision).
Qed.

Lemma virt_boot_blob : blob_at boot_ram virt_fuel virt_dtb virt_header (tokens_of virt_tree).
Proof. split; by_decision. Qed.

(** The loader passes the address of the blob in x0. *)
Definition reset_core : Head.core :=
  Head.mkCore (fun n => if (n =? 0)%nat then virt_dtb else 0) 0 15 (fun _ => 0) (fun _ => 0).

Lemma start_reaches_main_loop_witness :
  exists w' ev,
    @Head.start typing virt_fuel 0 (link virt_sections) 0x50000800 reset_core (reset_world []) = Spinning w' /\
    w_trace w' = ev /\ boot_events virt_board virt_symbols ev /\
    w_gic w' = virt_gic /\ w_uart w' = virt_uart_state /\ @session_ok typing virt_fuel w'.
Proof.
  destruct (start_reaches_main_loop (HW := typing) virt_fuel 0 virt_sections 0x50000800 reset_core
    virt_header virt_tree virt_board (reset_world []))
    as (w' & ev & E & Htr & Hev & _ & Hg & Hu & _ & _ & Hok).
  - reflexivity.
  - exact virt_boot_blob.
  - exact virt_tree_fits.
  - unfold virt_fuel, DtbTables.MAX_DEVICES. lia.
  - exact virt_described.
  - split; apply typing_settles; cbn; unfold GICR_WAKER, FR_OFF; lia.
  - exact virt_links.
  - exact boot_loaded.
  - reflexivity.
  - reflexivity.
  - reflexivity.
  - exists w', ev. split; [exact E |]. split; [exact Htr |]. split; [exact Hev |].
    split; [exact Hg |]. split; [exact Hu | exact Hok].
Defined.

(** "Hi" typed on the booted machine, with a timer interrupt in between, an
    interrupt nothing handles, and a spurious one (1023) at the end. *)
Definition hi_script : list Z := [33; 72; 30; 33; 105; 27].
Definition hi_session : list act := [Irq; Poll; Irq; Irq; Poll; Irq; Poll; Irq].

Definition inputs (t : list event) : list Z * list Z * list Z :=
  let o := observe 0x09000000 t in (ids o, received o, freqs o).

(** What is read in this session, by running it. *)
Lemma hi_session_inputs w' t :
  @run_session typing 1 hi_session (booted hi_script) = Done tt w' ->
  w_trace w' = w_trace (booted hi_script) ++ t ->
  inputs t = ([33; 30; 33; 27; 1023], [72; 105], [62500000]).
Proof.
  intros E Htr. assert (t = drop (length (w_trace (booted hi_script))) (w_trace w')) as ->
    by (by rewrite Htr, drop_app_length).
  assert (match @run_session typing 1 hi_session (booted hi_script) with
          | Done _ w1 => inputs (drop (length (w_trace (booted hi_script))) (w_trace w1))
          | _ => ([], [], []) end = ([33; 30; 33; 27; 1023], [72; 105], [62500000])) as H
    by (vm_compute; reflexivity).
  rewrite E in H. exact H.
Qed.

Lemma session_serves_interrupts_witness :
  exists w' t, @run_session typing 1 hi_session (booted hi_script) = Done tt w' /\
    w_trace w' = w_trace (booted hi_script) ++ t /\
    eois (observe 0x09000000 t) = [33; 30; 33; 27; 1023] /\ rearmed (observe 0x09000000 t) = [62500000] /\
    sent (observe 0x09000000 t) = bytes_of
      ("You typed: H" +:+ newline +:+ "Timer interrupt!" +:+ newline +:+ "You typed: i" +:+ newline +:+
       "Unhandled IRQ: 27" +:+ newline +:+ "Unhandled IRQ: 1023" +:+ newline).
Proof.
  destruct (session_serves_interrupts 1 hi_session (booted hi_script)) as (w' & t & E & Htr & H).
  - apply booted_session_ok. lia.
  - exists w', t. split; [exact E |]. split; [exact Htr |].
    replace (UartState.base_addr (w_uart (booted hi_script))) with 0x09000000 in H
      by (vm_compute; reflexivity).
    replace (contents (Mutex.data (w_rx (booted hi_script)))) with (@nil Z) in H
      by (vm_compute; reflexivity).
    pose proof (hi_session_inputs w' t E Htr) as Hin. unfold inputs in Hin. cbv zeta in H, Hin.
    injection Hin as Hi Hr Hf.
    rewrite Hi, Hr, Hf in H. destruct H as ((_ & He) & _ & (_ & Ha) & (Hs & _) & _).
    split; [exact He |]. split; [exact Ha |]. etransitivity; [exact Hs | vm_compute; reflexivity].
Defined.

(** The first byte arrives before an iteration of the main loop, a timer
    interrupt while "You " has been printed. *)
Definition torn_schedule : list nat := [1%nat] ++ replicate 13 0%nat ++ [1%nat].

Definition torn_text : string := "You Timer interrupt!" +:+ newline +:+ "typed: H" +:+ newline.

Lemma torn_trace sched' w' t :
  @preempted typing 3 unit (polls_task 3 1) torn_schedule (booted hi_script) = Done (tt, sched') w' ->
  w_trace w' = w_trace (booted hi_script) ++ t -> sent (observe 0x09000000 t) = bytes_of torn_text.
Proof.
  intros E Htr. assert (t = drop (length (w_trace (booted hi_script))) (w_trace w')) as ->
    by (by rewrite Htr, drop_app_length).
  assert (match @preempted typing 3 unit (polls_task 3 1) torn_schedule (booted hi_script) with
          | Done _ w1 => sent (observe 0x09000000 (drop (length (w_trace (booted hi_script))) (w_trace w1)))
          | _ => [] end = bytes_of torn_text) as H by (vm_compute; reflexivity).
  rewrite E in H. exact H.
Qed.

Lemma preempted_loop_serves_witness :
  exists sched' w' t h r,
    @preempted typing 3 unit (polls_task 3 1) torn_schedule (booted hi_script) = Done (tt, sched') w' /\
    w_trace w' = w_trace (booted hi_script) ++ t /\
    sent (observe 0x09000000 t) = bytes_of torn_text /\ h ≫= beat_text = bytes_of torn_text /\
    h ≫= beat_task = round r.
Proof.
  destruct (preempted_loop_serves 3 1 1 torn_schedule (booted hi_script)) as [H _].
  - apply booted_session_ok. lia.
  - apply typing_drains; [vm_compute; reflexivity | lia].
  - vm_compute. lia.
  - destruct H as (sched' & w' & t & h & rs & E & Htr & Hsh & _ & _ & Hl & Hb & _).
    replace (UartState.base_addr (w_uart (booted hi_script))) with 0x09000000 in Hsh by (vm_compute; reflexivity).
    pose proof (torn_trace sched' w' t E Htr) as Hs. destruct Hsh as (_ & _ & _ & Hsent & _).
    destruct rs as [| r [| ? ?]]; [discriminate Hl | | discriminate Hl].
    exists sched', w', t, h, r. split; [exact E |]. split; [exact Htr |]. split; [exact Hs |].
    split; [rewrite <- Hsent; exact Hs |]. rewrite Hb. cbn [mbind list_bind]. apply app_nil_r.
Defined.

(** The machine with the drivers set up, as [kmain_boots_on_virt] has it. *)
Definition set_up (input : list Z) : @world typing :=
  set_uart virt_uart_state (set_gic virt_gic (set_dtb virt_tables (reset_world input))).

(** A key is pressed while the first block descriptor is being put together. *)
Definition early_schedule : list nat := replicate 176 0%nat ++ [1%nat].

Lemma early_queue a sched w' :
  @preempted typing 3 unit (bring_up_task 3 virt_symbols) early_schedule (set_up [33; 65]) = Done (a, sched) w' ->
  queue w' = [65] /\ sched = [].
Proof.
  intros E.
  assert (match @preempted typing 3 unit (bring_up_task 3 virt_symbols) early_schedule (set_up [33; 65]) with
          | Done (_, s) w1 => (queue w1, s) | _ => ([], [1%nat]) end = ([65], [])) as H
    by (vm_compute; reflexivity).
  rewrite E in H. injection H as Hq Hs. exact (conj Hq Hs).
Qed.

Lemma preempted_bring_up_witness :
  exists w' h,
    @preempted typing 3 unit (bring_up_task 3 virt_symbols) early_schedule (set_up [33; 65]) = Done (tt, []) w' /\
    length (h ≫= beat_ids) = 1%nat /\ replay h [] = Some [65] /\
    identity_mapped (w_ram w') 0x50020000 2 /\ session_ok 3 w'.
Proof.
  destruct (preempted_bring_up 3 1 virt_symbols early_schedule (set_up [33; 65])) as [H _].
  - apply typing_session_ok; [reflexivity | reflexivity | exact wf_init | lia].
  - rewrite <- virt_layout. exact (link_image_ok _ _ virt_links boot_loaded).
  - apply typing_drains; [reflexivity | lia].
  - vm_compute. lia.
  - destruct H as (j & s1 & w1 & h1 & m0 & m1 & m2 & c1 & s2 & w2 & h2 & sctlr & c2 & freq &
      _ & _ & _ & Hmap & E & _ & _ & Er & Hn & Hq & Hok).
    destruct (early_queue tt s2 w2 E) as [Hq2 ->]. rewrite <- Er in Hmap.
    change (queue (set_up [33; 65])) with (contents UartBuffer.init) in Hq. rewrite contents_init, Hq2 in Hq.
    exists w2, (h1 ++ h2). split; [exact E |]. split; [rewrite Nat.add_0_r in Hn; exact Hn |].
    split; [exact Hq |]. split; [exact Hmap | exact Hok].
Defined.

(** [pop] reads and changes the buffer only. *)
Lemma pop_closure_ok :
  @closure_ok (regfile []) (regfile_mask []) _ _ (@RX_BUFFER (regfile [])) (@pop (regfile [])).
Proof.
  intros d w r w' E. enough (w' = w) as -> by done. unfold pop in E.
  destruct (_ =? _)%nat; [by injection E as _ <- |]. unfold arr_get in E.
  destruct (_ !! _); [by injection E as _ <- | done].
Qed.

(** [getchar] on an empty buffer, with interrupts enabled. *)
Lemma lock_irqsafe_refines_steps_witness :
  let w := @boot_world (regfile []) (regfile_init []) ∅ in
  exists w' n daif, @getchar (regfile []) 1 w = Done None w' /\
    run_code RX_BUFFER pop n Outside 0 w = Done (Outside, daif) w'.
Proof.
  intros w.
  destruct (lock_irqsafe_refines_steps (MR := regfile_mask []) (@RX_BUFFER (regfile [])) pop pop_closure_ok)
    as [_ H].
  eassert (@getchar (regfile []) 1 w = Done None _) as E by reflexivity.
  destruct (H 1%nat w None _ E) as (n & daif & Hn & _).
  eexists _, n, daif. split; [exact E | exact Hn].
Defined.
